(* ===== verification/_CoqProject ===== *)
-Q . S2P
Prelude.v
Hoare.v
Model.v
Store.v
Ledger.v
Deposits.v
UsageTables.v
Counters.v
Flush.v
GoStrings.v
Utf8.v
Netip.v
Digests.v
Codes.v
Keys.v
Service.v
Totp.v
Accounts.v
Money.v
Sync.v
Patch.v
Criteria.v
Access.v
Auth.v
Limiter.v
Calendar.v
Period.v
Plans.v
Tenants.v
Invites.v
Billing.v
SyncPlans.v
SyncAccounts.v
SyncBilling.v
ControlPlane.v
Effects.v
Refinement.v
Renewals.v
Float64.v
Duration.v
Latency.v
RoutableView.v
Leases.v
Router.v
Routing.v
Cache.v
LeaseStore.v
Fold.v
Intel.v
Nodes.v
Quality.v
Selection.v
Platforms.v
Subs.v
Pool.v
Scheduler.v
PoolViews.v
SchedulerViews.v
