(* ===== verification/Prelude.v ===== *)
(** * Prism: a verification library

    Prism sells and routes proxy access.  A control plane keeps accounts, plans,
    subscriptions, access keys, balances and deposits in SQLite; a data plane
    admits a request by its access key, picks an exit node for it and counts its
    traffic; workers flush counters, roll periods over, renew and sweep.  This
    library translates those parts of the Go sources under [src/] into Rocq and
    proves what they promise.

    ** How the code is modelled

    A method that holds a lock for its whole run, or that is one SQL transaction,
    is one function on a state record.  A repository method has type
    [StateDB -> res StateErr A * StateDB] and is built in the transaction monad
    [Tx]: an error rolls back.  A service handler is a procedure [Proc], which
    keeps what it wrote before it failed.  Integers of the machine are [Z] with
    their wrap-around written out ([add64], [wrap64]); doubles are the
    specification floats of the Standard Library.  Clocks, random draws and
    generated ids are arguments; so is code outside the repository: password
    hashing, sealing of secrets, key derivation, Unicode tables above Latin-1.
    Loops over data are structural, so nothing needs fuel except the windows of
    the retention pass and the digests, where the fuel is the length of the
    input; each such function is shown total on its inputs.

    ** The files

    - Shared: [Prelude] (integers, monads, tactics, hint database), [Hoare] (a
      program logic for procedures), [GoStrings], [Utf8], [Netip], [Digests],
      [Calendar], [Float64] (what the sources use of Go's library).
    - The store: [Model] (the rows), [Store] (tables, users, plans,
      subscriptions), [Ledger] (balances, codes, purchases, renewals, invites),
      [Deposits], [UsageTables], [Keys] (access keys and the live key store),
      [Money] (all of it as one transition system with its invariant).
    - Usage: [Counters], [Flush], [Limiter], [Period].
    - The control plane: [Service] (state and errors), [Accounts], [Auth],
      [Totp], [Codes], [Patch], [Criteria], [Access], [Plans], [Tenants],
      [Invites], [Billing] (the handlers).
    - Theorems on the control plane: [Sync] (the invariant between the live key
      store and the tables), [SyncPlans], [SyncAccounts], [SyncBilling] (each
      handler keeps it), [ControlPlane] (any history keeps it), [Effects] (what
      a handler achieves), [Refinement] (handlers only move the store along its
      transactions), [Renewals] (when a renewal is due).
    - Routing: [Latency] (latency tables), [RoutableView], [Leases], [Router],
      [Routing] (what a route promises), [Cache] (weak persistence),
      [LeaseStore] (leases across a restart).

    ** What the theorems show

    Money: every reachable balance is the sum of its ledger and is not negative,
    transactions happen once and wholly or not at all, a deposit reaches the one
    account that holds its amount.  Access: whatever the console and the workers
    do, the data plane decides as it would after a restart; disabling cuts off,
    buying takes effect, an administrator remains.  Usage: bytes are counted
    once, survive a failed flush and a restart, and the quota binds.  Time:
    periods and calendar windows, renewals.  Secrets: logins, second factors and
    lockout, credential and code formats.  Routing: stickiness, rotation, load
    accounting, views as sets, leases across restarts.  Several theorems record
    where the code does not do what a comment says; the manifest lists them.

    ** Not modelled

    Sockets, tickers, goroutines as such, HTTP encoding and the start-up code;
    the parsers of subscription formats; node intelligence, probing and metrics;
    SQLite itself beyond its constraints, and I/O errors. *)

From Stdlib Require Import ZArith Lia.
From stdpp Require Import base gmap strings list sets numbers.

#[global] Open Scope Z_scope.

(** ** Notations of the development *)

Declare Scope prism_scope.
Delimit Scope prism_scope with prism.

Notation "a ==s b" := (String.eqb a b) (at level 70, no associativity) : prism_scope.
Notation "a <>s b" := (negb (String.eqb a b)) (at level 70, no associativity) : prism_scope.
#[global] Open Scope prism_scope.

#[global] Arguments Nat.eqb : simpl never.
#[global] Arguments Nat.ltb : simpl never.
#[global] Arguments String.eqb : simpl never.

(** The hint database the components extend with their own facts. *)
Create HintDb prism.

(** ** Machine integers: Go's int64 (and int on a 64-bit target) *)

Definition int64_min : Z := - 2 ^ 63.
Definition int64_max : Z := 2 ^ 63 - 1.

(** Two's complement wrap-around of a mathematical integer. *)
Definition wrap64 (z : Z) : Z := (z + 2 ^ 63) mod 2 ^ 64 - 2 ^ 63.

Definition add64 (a b : Z) : Z := wrap64 (a + b).
Definition sub64 (a b : Z) : Z := wrap64 (a - b).
Definition mul64 (a b : Z) : Z := wrap64 (a * b).
Definition neg64 (a : Z) : Z := wrap64 (- a).

Definition in_int64 (z : Z) : Prop := int64_min <= z <= int64_max.

(** Unfold the machine-integer constants, so that [lia] sees numerals. *)
Ltac int64_unfold :=
  unfold in_int64, int64_min, int64_max in *;
  change (2 ^ 63) with 9223372036854775808 in *;
  change (2 ^ 64) with 18446744073709551616 in *.

Lemma wrap64_in (z : Z) : in_int64 (wrap64 z).
Proof.
  unfold wrap64. int64_unfold.
  pose proof (Z.mod_pos_bound (z + 9223372036854775808) 18446744073709551616 ltac:(lia)). lia.
Qed.

Lemma wrap64_id (z : Z) : in_int64 z -> wrap64 z = z.
Proof. unfold wrap64. int64_unfold. intros. rewrite Z.mod_small; lia. Qed.

Lemma wrap64_mod (z : Z) : wrap64 z mod 2 ^ 64 = z mod 2 ^ 64.
Proof.
  unfold wrap64. rewrite Zminus_mod_idemp_l. f_equal. lia.
Qed.

(** Wrapping is determined by the residue: the algebra of counters that only
    ever add. *)
Lemma wrap64_eq (a b : Z) : a mod 2 ^ 64 = b mod 2 ^ 64 -> wrap64 a = wrap64 b.
Proof.
  unfold wrap64. intros H. f_equal.
  rewrite (Zplus_mod a), (Zplus_mod b), H. reflexivity.
Qed.

Lemma wrap64_add_l (a b : Z) : wrap64 (wrap64 a + b) = wrap64 (a + b).
Proof. apply wrap64_eq. rewrite Zplus_mod, wrap64_mod, <- Zplus_mod. reflexivity. Qed.

Lemma wrap64_add_r (a b : Z) : wrap64 (a + wrap64 b) = wrap64 (a + b).
Proof. rewrite Z.add_comm, wrap64_add_l. f_equal. lia. Qed.

Lemma wrap64_sub_l (a b : Z) : wrap64 (wrap64 a - b) = wrap64 (a - b).
Proof. apply (wrap64_add_l a (- b)). Qed.

Lemma wrap64_sub_r (a b : Z) : wrap64 (a - wrap64 b) = wrap64 (a - b).
Proof.
  apply wrap64_eq. rewrite Zminus_mod, wrap64_mod, <- Zminus_mod. reflexivity.
Qed.

(** A sum of two int64 values one of which is non-negative never wraps to a
    smaller non-negative value: if the wrapped sum is not negative, nothing
    wrapped. *)
Lemma add64_nonneg_exact (a b : Z) :
  0 <= a <= int64_max -> in_int64 b -> 0 <= add64 a b -> add64 a b = a + b.
Proof.
  unfold add64. intros Ha Hb H.
  destruct (decide (a + b <= int64_max)) as [Hle|Hgt].
  - apply wrap64_id. int64_unfold. lia.
  - exfalso. revert H. unfold wrap64.
    rewrite <- (Z_mod_plus_full _ (-1)), Z.mod_small; int64_unfold; lia.
Qed.

#[export] Hint Resolve wrap64_in : prism.

(** ** Results and transactions

    A fallible Go function returns its value and an error; only the error
    matters when it is not nil, so the pair is a sum. *)

Inductive res (E A : Type) : Type :=
| Ok (a : A)
| Err (e : E).
Arguments Ok {E A} a.
Arguments Err {E A} e.

Definition is_ok {E A} (r : res E A) : bool := match r with Ok _ => true | Err _ => false end.

(** A database transaction over a store [D]: statements run in order, the
    first error ends it. *)
Definition Tx (D E A : Type) : Type := D -> res E (A * D).

#[global] Instance tx_ret {D E} : MRet (Tx D E) := fun A a db => Ok (a, db).

#[global] Instance tx_bind {D E} : MBind (Tx D E) := fun A B f m db =>
  match m db with
  | Ok (a, db') => f a db'
  | Err e => Err e
  end.

Definition tx_fail {D E A} (e : E) : Tx D E A := fun _ => Err e.

Definition tx_get {D E} : Tx D E D := fun db => Ok (db, db).

Definition tx_modify {D E} (f : D -> D) : Tx D E unit := fun db => Ok (tt, f db).

(** [transact] is the deferred [tx.Rollback()] every repository method
    installs: an error returns the store as it was at [Begin]. *)
Definition transact {D E A} (m : Tx D E A) (db : D) : res E A * D :=
  match m db with
  | Ok (a, db') => (Ok a, db')
  | Err e => (Err e, db)
  end.

Section Transactions.
Context {D E A B : Type}.

Lemma tx_bind_ok (f : A -> Tx D E B) (m : Tx D E A) (db db'' : D) (b : B) :
  mbind f m db = Ok (b, db'') <->
  exists a db', m db = Ok (a, db') /\ f a db' = Ok (b, db'').
Proof.
  unfold mbind, tx_bind. destruct (m db) as [[a db']|e]; split.
  - eauto.
  - intros (a' & d' & [= <- <-] & H). exact H.
  - discriminate.
  - intros (a' & d' & H & _). discriminate.
Qed.

Lemma transact_ok (m : Tx D E A) (db db' : D) (a : A) :
  transact m db = (Ok a, db') <-> m db = Ok (a, db').
Proof. unfold transact. destruct (m db) as [[? ?]|?]; split; intros [= <- <-]; reflexivity. Qed.

Lemma transact_err (m : Tx D E A) (db db' : D) (e : E) :
  transact m db = (Err e, db') -> db' = db /\ m db = Err e.
Proof. unfold transact. destruct (m db) as [[? ?]|?]; intros [= <- <-]. split; reflexivity. Qed.

(** An invariant of the committed case is an invariant of the method. *)
Lemma transact_preserves (P : D -> Prop) (m : Tx D E A) (db : D) (r : res E A * D) :
  r = transact m db -> P db -> (forall a db', m db = Ok (a, db') -> P db') -> P (snd r).
Proof.
  intros -> H0 H. unfold transact. destruct (m db) as [[a db']|e] eqn:Em; simpl; eauto.
Qed.
End Transactions.

(** Decompose a successful transaction into its statements. *)
Ltac tx_step :=
  match goal with
  | H : mbind _ _ _ = Ok _ |- _ =>
      apply tx_bind_ok in H as (? & ? & ? & ?)
  | H : mret _ _ = Ok _ |- _ => injection H as <- <-
  | H : tx_get _ = Ok _ |- _ => injection H as <- <-
  | H : tx_modify _ _ = Ok _ |- _ => injection H as <- <-
  | H : tx_fail _ _ = Ok _ |- _ => discriminate H
  | H : Err _ = Ok _ |- _ => discriminate H
  | H : Ok (_, _) = Ok (?a, ?d) |- _ => is_var a; is_var d; injection H as <- <-
  | H : Ok _ = Ok _ |- _ => injection H; clear H; intros; subst
  | H : (if ?b then _ else _) = Ok _ |- _ => destruct b eqn:?
  | H : (if ?b then _ else _) _ = Ok _ |- _ => destruct b eqn:?
  | H : match ?o with Some _ => _ | None => _ end _ = Ok _ |- _ => destruct o eqn:?
  end.
Ltac tx_invert := repeat (tx_step; simpl in *).

(** Reduce a goal on the store a method leaves to its committed case. *)
Ltac by_commit :=
  eapply transact_preserves; [reflexivity|done|]; intros ? ? ?; cbv beta zeta in *; tx_invert.

(** ** Procedures

    Code that is not one transaction: an error keeps the state reached when it
    was raised. *)

Definition Proc (S E A : Type) : Type := S -> res E A * S.

#[global] Instance proc_ret {S E} : MRet (Proc S E) := fun A a s => (Ok a, s).

#[global] Instance proc_bind {S E} : MBind (Proc S E) := fun A B f m s =>
  match m s with
  | (Ok a, s') => f a s'
  | (Err e, s') => (Err e, s')
  end.

Definition proc_fail {S E A} (e : E) : Proc S E A := fun s => (Err e, s).
Definition proc_get {S E} : Proc S E S := fun s => (Ok s, s).
Definition proc_modify {S E} (f : S -> S) : Proc S E unit := fun s => (Ok tt, f s).

Definition lift_res {S E A} (r : res E A) : Proc S E A := fun s => (r, s).

Definition or_fail {S E A} (o : option A) (e : E) : Proc S E A := fun s =>
  match o with Some a => (Ok a, s) | None => (Err e, s) end.

Definition check {S E} (b : bool) (e : E) : Proc S E unit := if b then mret tt else proc_fail e.

(** [for _, x := range l { if err := f(x); err != nil { return err } }] *)
Fixpoint proc_for {S E A} (f : A -> Proc S E unit) (l : list A) : Proc S E unit :=
  match l with
  | [] => mret tt
  | x :: rest => _ ← f x; proc_for f rest
  end.

Section Procedures.
Context {S E A B : Type}.

Lemma proc_bind_ok (f : A -> Proc S E B) (m : Proc S E A) (s s'' : S) (b : B) :
  mbind f m s = (Ok b, s'') <-> exists a s', m s = (Ok a, s') /\ f a s' = (Ok b, s'').
Proof.
  unfold mbind, proc_bind. destruct (m s) as [[a|e] s']; split.
  - eauto.
  - intros (a' & t & [= <- <-] & H). exact H.
  - discriminate.
  - intros (a' & t & H & _). discriminate.
Qed.

Lemma lift_res_ok (r : res E A) (s s' : S) (a : A) : lift_res r s = (Ok a, s') <-> r = Ok a /\ s' = s.
Proof. unfold lift_res. split; [intros [= -> <-]; done|intros [-> ->]; done]. Qed.

Lemma or_fail_ok (o : option A) (e : E) (s s' : S) (a : A) :
  or_fail o e s = (Ok a, s') <-> o = Some a /\ s' = s.
Proof. unfold or_fail. destruct o; split; [intros [= <- <-]; done|intros [[= ->] ->]; done|done|intros [? _]; done]. Qed.

Lemma check_ok (b : bool) (e : E) (s s' : S) (x : unit) :
  check b e s = (Ok x, s') <-> b = true /\ s' = s.
Proof. unfold check. destruct x, b; split; [intros [= <-]; done|intros [_ ->]; done|done|intros [? _]; done]. Qed.
End Procedures.

(** Take a successful run apart. *)
Ltac proc_step :=
  match goal with
  | H : mbind _ _ _ = (Ok _, _) |- _ => apply proc_bind_ok in H as (? & ? & ? & ?)
  | H : lift_res _ _ = (Ok _, _) |- _ => apply lift_res_ok in H as [? ->]
  | H : or_fail _ _ _ = (Ok _, _) |- _ => apply or_fail_ok in H as [? ->]
  | H : check _ _ _ = (Ok _, _) |- _ => apply check_ok in H as [? ->]
  | H : proc_get _ = (Ok _, _) |- _ => injection H as <- <-
  | H : proc_modify _ _ = (Ok _, _) |- _ => injection H as ? <-
  | H : mret _ _ = (Ok _, _) |- _ => injection H as <- <-
  | H : proc_fail _ _ = (Ok _, _) |- _ => discriminate H
  | H : (if ?b then _ else _) _ = (Ok _, _) |- _ => destruct b eqn:?
  | H : (let _ := _ in _) _ = (Ok _, _) |- _ => cbv zeta in H
  end.
Ltac proc_invert := repeat (proc_step; cbv beta in *).

(** Procedures that never change the state. *)
Class Pure {S E A} (m : Proc S E A) : Prop := pure_run : forall s, snd (m s) = s.

(** Procedures whose failure leaves the state as it was. *)
Class Atomic {S E} (P : S -> Prop) {A} (m : Proc S E A) : Prop :=
  atomic_run : forall s e s', P s -> m s = (Err e, s') -> s' = s.

Section PureAtomic.
Context {S E : Type}.

#[global] Instance pure_ret {A} (a : A) : Pure (mret a : Proc S E A).
Proof. done. Qed.
#[global] Instance pure_fail {A} (e : E) : Pure (proc_fail e : Proc S E A).
Proof. done. Qed.
#[global] Instance pure_get : Pure (proc_get : Proc S E S).
Proof. done. Qed.
#[global] Instance pure_lift {A} (r : res E A) : Pure (lift_res r : Proc S E A).
Proof. done. Qed.
#[global] Instance pure_or_fail {A} (o : option A) (e : E) : Pure (or_fail o e : Proc S E A).
Proof. intros s. destruct o; done. Qed.
#[global] Instance pure_check b (e : E) : Pure (check b e : Proc S E unit).
Proof. intros s. destruct b; done. Qed.
#[global] Instance pure_bind {A B} (m : Proc S E A) (f : A -> Proc S E B) :
  Pure m -> (forall a, Pure (f a)) -> Pure (m ≫= f).
Proof.
  intros Hm Hf s. specialize (Hm s). unfold mbind, proc_bind.
  destruct (m s) as [[a|e] s']; simpl in *; subst s'; [apply Hf|done].
Qed.
#[global] Instance pure_if {A} (b : bool) (m n : Proc S E A) : Pure m -> Pure n -> Pure (if b then m else n).
Proof. destruct b; done. Qed.

Lemma atomic_pure (P : S -> Prop) {A} (m : Proc S E A) : Pure m -> Atomic P m.
Proof. intros Hm s e s' _ H. specialize (Hm s). rewrite H in Hm. exact Hm. Qed.

Lemma atomic_bind (P : S -> Prop) {A B} (m : Proc S E A) (f : A -> Proc S E B) :
  Pure m -> (forall a, Atomic P (f a)) -> Atomic P (m ≫= f).
Proof.
  intros Hm Hf s e s' HP H. specialize (Hm s). unfold mbind, proc_bind in H.
  destruct (m s) as [[a|e0] s1]; simpl in Hm; subst s1; [eapply Hf; eauto|congruence].
Qed.

(** After an atomic step, the rest must succeed. *)
Lemma atomic_last (P : S -> Prop) {A B} (m : Proc S E A) (f : A -> Proc S E B) :
  Atomic P m -> (forall a s s1, P s -> m s = (Ok a, s1) -> is_ok (fst (f a s1)) = true) -> Atomic P (m ≫= f).
Proof.
  intros Hm Hf s e s' HP H. unfold mbind, proc_bind in H.
  destruct (m s) as [[a|e0] s1] eqn:E0.
  - specialize (Hf a s s1 HP E0). rewrite H in Hf. done.
  - injection H as -> <-. eapply Hm; eauto.
Qed.
End PureAtomic.

(** Procedures that only move along a preorder, whatever they answer. *)
Class Moves {S E A} (R : S -> S -> Prop) (m : Proc S E A) : Prop := moves_run : forall s, R s (snd (m s)).

Section Moves.
Context {S E : Type} (R : S -> S -> Prop) `{!PreOrder R}.

#[global] Instance moves_pure {A} (m : Proc S E A) : Pure m -> Moves R m | 10.
Proof. intros H s. rewrite (H s). reflexivity. Qed.
#[global] Instance moves_bind {A B} (m : Proc S E A) (f : A -> Proc S E B) :
  Moves R m -> (forall a, Moves R (f a)) -> Moves R (m ≫= f).
Proof.
  intros Hm Hf s. specialize (Hm s). unfold mbind, proc_bind.
  destruct (m s) as [[a|e] s']; simpl in *; [|done]. etransitivity; [exact Hm|apply Hf].
Qed.
#[global] Instance moves_if {A} (b : bool) (m n : Proc S E A) : Moves R m -> Moves R n -> Moves R (if b then m else n).
Proof. destruct b; done. Qed.
End Moves.

(** ** Tables

    A table is the list of its rows in insertion order.  The three statement
    shapes the repositories use, over a row predicate: [SELECT ... WHERE],
    [UPDATE ... SET ... WHERE] and [RowsAffected]. *)

Section Tables.
Context {R : Type}.

Definition sql_where (p : R -> bool) (t : list R) : list R := List.filter p t.

Definition sql_update (p : R -> bool) (f : R -> R) (t : list R) : list R :=
  map (fun r => if p r then f r else r) t.

Definition sql_affected (p : R -> bool) (t : list R) : nat := length (List.filter p t).

Definition sql_first (p : R -> bool) (t : list R) : option R := List.find p t.

(** [ORDER BY]: a stable insertion sort on a boolean order. *)
Fixpoint insert_by (le : R -> R -> bool) (x : R) (t : list R) : list R :=
  match t with
  | [] => [x]
  | y :: t' => if le x y then x :: y :: t' else y :: insert_by le x t'
  end.

Fixpoint sort_by (le : R -> R -> bool) (t : list R) : list R :=
  match t with
  | [] => []
  | x :: t' => insert_by le x (sort_by le t')
  end.

(** [LIMIT n], where the code only adds the clause for a positive limit. *)
Definition sql_limit (n : Z) (t : list R) : list R :=
  if 0 <? n then firstn (Z.to_nat n) t else t.

Lemma sql_where_In (p : R -> bool) (t : list R) (r : R) :
  In r (sql_where p t) <-> In r t /\ p r = true.
Proof. apply List.filter_In. Qed.

Lemma sql_update_In (p : R -> bool) (f : R -> R) (t : list R) (r' : R) :
  In r' (sql_update p f t) <->
  exists r, In r t /\ r' = if p r then f r else r.
Proof. unfold sql_update. rewrite in_map_iff. firstorder. Qed.

Lemma sql_affected_pos (p : R -> bool) (t : list R) :
  sql_affected p t <> O <-> exists r, In r t /\ p r = true.
Proof.
  unfold sql_affected. split.
  - destruct (List.filter p t) as [|r l] eqn:E; [done|]. intros _. exists r.
    apply List.filter_In. rewrite E. left. reflexivity.
  - intros (r & H). apply List.filter_In in H. destruct (List.filter p t); [destruct H|done].
Qed.

Lemma sql_affected_zero (p : R -> bool) (t : list R) :
  sql_affected p t = O <-> forall r, In r t -> p r = false.
Proof.
  split.
  - intros H r Hr. destruct (p r) eqn:E; [|done].
    exfalso. eapply (proj2 (sql_affected_pos p t)); eauto.
  - intros H. destruct (sql_affected p t) eqn:E; [done|].
    assert (exists r, In r t /\ p r = true) as (r & Hr & Hp) by (apply sql_affected_pos; lia).
    rewrite H in Hp; done.
Qed.

(** An update that keeps a column keeps the list of its values. *)
Lemma sql_update_map {K} (col : R -> K) (p : R -> bool) (f : R -> R) (t : list R) :
  (forall r, col (f r) = col r) -> map col (sql_update p f t) = map col t.
Proof.
  intros H. unfold sql_update. rewrite map_map. apply map_ext. intros r.
  destruct (p r); auto.
Qed.

Lemma sql_update_none (p : R -> bool) (f : R -> R) (t : list R) :
  (forall r, In r t -> p r = false) -> sql_update p f t = t.
Proof.
  intros H. unfold sql_update. rewrite <- (map_id t) at 2. apply map_ext_in.
  intros r Hr. rewrite H; auto.
Qed.

Lemma insert_by_perm (le : R -> R -> bool) (x : R) (t : list R) :
  insert_by le x t ≡ₚ x :: t.
Proof.
  induction t as [|y t IH]; simpl; [done|].
  destruct (le x y); [done|]. rewrite IH. apply Permutation_swap.
Qed.

Lemma sort_by_perm (le : R -> R -> bool) (t : list R) : sort_by le t ≡ₚ t.
Proof. induction t as [|x t IH]; simpl; [done|]. rewrite insert_by_perm, IH. done. Qed.

Lemma filter_perm (p : R -> bool) (l k : list R) : l ≡ₚ k -> sql_where p l ≡ₚ sql_where p k.
Proof.
  unfold sql_where. intros H. induction H as [|x l k H IH|x y l|l k m H1 IH1 H2 IH2]; simpl.
  - done.
  - destruct (p x); [constructor|]; done.
  - destruct (p x), (p y); try done. constructor.
  - etrans; eauto.
Qed.

Lemma sort_by_In (le : R -> R -> bool) (t : list R) (r : R) : In r (sort_by le t) <-> In r t.
Proof. rewrite <- !list_elem_of_In. rewrite (sort_by_perm le t). done. Qed.
End Tables.

(** ** Sums *)

Definition sum_by {R} (f : R -> Z) (l : list R) : Z := foldr (fun r acc => f r + acc) 0 l.

Section Sums.
Context {R : Type}.

Lemma sum_by_app (f : R -> Z) (l k : list R) : sum_by f (l ++ k) = sum_by f l + sum_by f k.
Proof. unfold sum_by. induction l as [|x l IH]; simpl; lia. Qed.

#[global] Instance sum_by_perm (f : R -> Z) : Proper ((≡ₚ) ==> (=)) (sum_by f).
Proof. intros l k H. unfold sum_by. induction H; simpl; lia. Qed.

Lemma sum_by_ext (f g : R -> Z) (l : list R) :
  (forall r, In r l -> f r = g r) -> sum_by f l = sum_by g l.
Proof.
  unfold sum_by. induction l as [|x l IH]; intros H; simpl in *; [done|].
  rewrite (H x), IH; auto.
Qed.

Lemma sum_by_zero (f : R -> Z) (l : list R) : (forall r, In r l -> f r = 0) -> sum_by f l = 0.
Proof.
  unfold sum_by. induction l as [|x l IH]; intros H; simpl in *; [done|].
  rewrite (H x), IH; auto.
Qed.

Lemma sum_by_nonneg (f : R -> Z) (l : list R) : (forall r, In r l -> 0 <= f r) -> 0 <= sum_by f l.
Proof.
  unfold sum_by. induction l as [|x l IH]; intros H; simpl in *; [lia|].
  specialize (IH (fun r Hr => H r (or_intror Hr))). specialize (H x (or_introl eq_refl)). lia.
Qed.
End Sums.

(** ** Boolean tests to propositions *)

Lemma eqb_s_true (a b : string) : (a ==s b) = true <-> a = b.
Proof. apply String.eqb_eq. Qed.

Lemma eqb_s_false (a b : string) : (a ==s b) = false <-> a <> b.
Proof. apply String.eqb_neq. Qed.

Lemma eqb_s_refl (a : string) : (a ==s a) = true.
Proof. apply String.eqb_refl. Qed.

Lemma existsb_false {R} (p : R -> bool) (l : list R) :
  existsb p l = false <-> forall r, In r l -> p r = false.
Proof.
  rewrite <- not_true_iff_false, List.existsb_exists. split.
  - intros H r Hr. destruct (p r) eqn:E; [|done]. exfalso. eauto.
  - intros H (r & Hr & Hp). rewrite H in Hp; done.
Qed.

(** Turn the boolean tests of the code into propositions, everywhere. *)
Ltac bool_prop :=
  repeat match goal with
  | H : _ && _ = true |- _ => apply andb_true_iff in H as [? ?]
  | H : _ || _ = false |- _ => apply orb_false_iff in H as [? ?]
  | H : negb _ = true |- _ => apply negb_true_iff in H
  | H : negb _ = false |- _ => apply negb_false_iff in H
  | H : (_ ==s _) = true |- _ => apply eqb_s_true in H
  | H : (_ ==s _) = false |- _ => apply eqb_s_false in H
  | H : existsb _ _ = false |- _ => rewrite existsb_false in H
  | H : (_ <? _)%Z = true |- _ => apply Z.ltb_lt in H
  | H : (_ <? _)%Z = false |- _ => apply Z.ltb_ge in H
  | H : (_ <=? _)%Z = true |- _ => apply Z.leb_le in H
  | H : (_ <=? _)%Z = false |- _ => apply Z.leb_gt in H
  | H : (_ =? _)%Z = true |- _ => apply Z.eqb_eq in H
  | H : (_ =? _)%Z = false |- _ => apply Z.eqb_neq in H
  | H : (_ =? _)%nat = true |- _ => apply Nat.eqb_eq in H
  | H : (_ =? _)%nat = false |- _ => apply Nat.eqb_neq in H
  | H : (_ <? _)%nat = true |- _ => apply Nat.ltb_lt in H
  | H : (_ <? _)%nat = false |- _ => apply Nat.ltb_ge in H
  end.

(** ** Keys of a table *)

Lemma NoDup_map_inj {R K} (f : R -> K) (l : list R) (a b : R) :
  NoDup (map f l) -> In a l -> In b l -> f a = f b -> a = b.
Proof.
  induction l as [|x l IH]; simpl; [done|].
  intros Hnd Ha Hb Hf. apply list.NoDup_cons in Hnd as [Hx Hnd].
  assert (forall c, In c l -> f c <> f x) as Hne.
  { intros c Hc E. apply Hx. rewrite <- E. apply list_elem_of_In, in_map. exact Hc. }
  destruct Ha as [->|Ha], Hb as [->|Hb]; auto.
  - exfalso. eapply Hne; eauto.
  - exfalso. eapply Hne; eauto.
Qed.

Lemma NoDup_map_snoc {R K} (f : R -> K) (l : list R) (x : R) :
  NoDup (map f l) -> (forall r, In r l -> f r <> f x) -> NoDup (map f (l ++ [x])).
Proof.
  intros Hnd Hx. rewrite map_app. apply list.NoDup_app. split; [done|]. split.
  - intros k Hk Hin. apply list_elem_of_In in Hk, Hin. simpl in Hin.
    destruct Hin as [<-|[]]. apply in_map_iff in Hk as (r & E & Hr). eapply Hx; eauto.
  - simpl. apply list.NoDup_singleton.
Qed.

Lemma filter_keep {A} (p : A -> bool) (l : list A) : (forall x, In x l -> p x = true) -> List.filter p l = l.
Proof.
  induction l as [|x l IH]; intros H; simpl; [done|]. rewrite (H x) by (left; done).
  f_equal. apply IH. intros y Hy. apply H. right. done.
Qed.

Lemma filter_drop {A} (p : A -> bool) (l : list A) : (forall x, In x l -> p x = false) -> List.filter p l = [].
Proof.
  induction l as [|x l IH]; intros H; simpl; [done|]. rewrite (H x) by (left; done).
  apply IH. intros y Hy. apply H. right. done.
Qed.

Lemma NoDup_map_filter {R K} (f : R -> K) (p : R -> bool) (l : list R) :
  NoDup (map f l) -> NoDup (map f (List.filter p l)).
Proof.
  induction l as [|x l IH]; simpl; [done|].
  intros Hnd. apply list.NoDup_cons in Hnd as [Hx Hnd].
  destruct (p x); simpl; [|auto]. apply list.NoDup_cons. split; [|auto].
  rewrite list_elem_of_In in Hx |- *. intros H. apply Hx.
  apply in_map_iff in H as (r & E & Hr). apply List.filter_In in Hr as [Hr _].
  apply in_map_iff. eauto.
Qed.

(** Splitting a list that was extended at its end. *)
Lemma snoc_split {R} (l pre post : list R) (x e : R) :
  l ++ [x] = pre ++ e :: post ->
  (exists post', l = pre ++ e :: post' /\ post = post' ++ [x]) \/ (pre = l /\ e = x /\ post = []).
Proof.
  intros H. destruct post as [|y post] using rev_ind.
  - right. apply app_inj_tail in H as [-> ->]. auto.
  - left. clear IHpost. rewrite app_comm_cons, app_assoc in H.
    apply app_inj_tail in H as [-> ->]. eauto.
Qed.

Lemma find_some_In {R} (p : R -> bool) (l : list R) (r : R) :
  sql_first p l = Some r -> In r l /\ p r = true.
Proof. apply List.find_some. Qed.

Lemma find_none_all {R} (p : R -> bool) (l : list R) :
  sql_first p l = None <-> forall r, In r l -> p r = false.
Proof.
  split; [apply List.find_none|].
  unfold sql_first. induction l as [|x l IH]; simpl; [done|].
  intros H. rewrite (H x); auto.
Qed.

Lemma find_app {R} (p : R -> bool) (l k : list R) :
  sql_first p (l ++ k) = match sql_first p l with Some r => Some r | None => sql_first p k end.
Proof. unfold sql_first. induction l as [|x l IH]; simpl; [done|]. destruct (p x); done. Qed.

(** An update whose predicate selects one key value rewrites that row in
    place and nothing else. *)
Lemma sql_update_one {R K} (key : R -> K) (p : R -> bool) (f : R -> R) (t : list R) (c : R) :
  NoDup (map key t) -> In c t -> p c = true -> (forall r, p r = true -> key r = key c) ->
  exists pre post, t = pre ++ c :: post /\ sql_update p f t = pre ++ f c :: post.
Proof.
  intros Hnd Hc Hp Hkey. apply in_split in Hc as (pre & post & ->).
  exists pre, post. split; [done|]. unfold sql_update. rewrite map_app. simpl. rewrite Hp.
  assert (forall r, In r pre \/ In r post -> p r = false) as Hno.
  { intros r Hr. destruct (p r) eqn:E; [|done]. exfalso. apply Hkey in E.
    rewrite map_app in Hnd. simpl in Hnd.
    apply list.NoDup_app in Hnd as (_ & Hd & Hnd). apply list.NoDup_cons in Hnd as [Hnp _].
    destruct Hr as [Hr|Hr]; apply (in_map key), list_elem_of_In in Hr; rewrite E in Hr.
    - apply (Hd _ Hr). left.
    - done. }
  f_equal; [|f_equal]; [apply (sql_update_none p f)|apply (sql_update_none p f)]; auto.
Qed.

(** ** Sums over finite maps *)

Definition msum {K V} `{Countable K} (f : K -> V -> Z) (m : gmap K V) : Z :=
  sum_by (fun kv => f (fst kv) (snd kv)) (map_to_list m).

Section MapSums.
Context {K V : Type} `{Countable K}.

Lemma msum_empty (f : K -> V -> Z) : msum f ∅ = 0.
Proof. unfold msum. rewrite map_to_list_empty. reflexivity. Qed.

Lemma msum_insert_new (f : K -> V -> Z) (m : gmap K V) (k : K) (v : V) :
  m !! k = None -> msum f (<[k := v]> m) = f k v + msum f m.
Proof. intros Hk. unfold msum. rewrite map_to_list_insert by done. reflexivity. Qed.

Lemma msum_delete (f : K -> V -> Z) (m : gmap K V) (k : K) :
  msum f (base.delete k m) = msum f m - from_option (f k) 0 (m !! k).
Proof.
  destruct (m !! k) as [v|] eqn:E; simpl.
  - rewrite <- (insert_delete_id m k v E) at 2.
    rewrite msum_insert_new by apply lookup_delete_eq. lia.
  - rewrite delete_id by done. lia.
Qed.

Lemma msum_insert (f : K -> V -> Z) (m : gmap K V) (k : K) (v : V) :
  msum f (<[k := v]> m) = msum f m - from_option (f k) 0 (m !! k) + f k v.
Proof.
  rewrite <- insert_delete_eq, msum_insert_new by apply lookup_delete_eq.
  rewrite msum_delete. lia.
Qed.

Lemma msum_ext (f g : K -> V -> Z) (m : gmap K V) :
  (forall k v, m !! k = Some v -> f k v = g k v) -> msum f m = msum g m.
Proof.
  intros Hfg. apply sum_by_ext. intros [k v] Hin. simpl. apply Hfg.
  apply elem_of_map_to_list, list_elem_of_In. done.
Qed.
End MapSums.

(** ** Congruence modulo 2^64

    Wrapped sums are rewritten modulo this equivalence, so that a counter's
    value is compared with the exact sum it stands for. *)

Definition eqm64 (a b : Z) : Prop := a mod 2 ^ 64 = b mod 2 ^ 64.

Notation "a ≡₆₄ b" := (eqm64 a b) (at level 70, no associativity) : prism_scope.

#[global] Instance eqm64_equivalence : Equivalence eqm64.
Proof. split; unfold eqm64; congruence. Qed.

#[global] Instance eqm64_add : Proper (eqm64 ==> eqm64 ==> eqm64) Z.add.
Proof.
  intros a a' Ha b b' Hb. unfold eqm64 in *.
  rewrite (Zplus_mod a), (Zplus_mod a'), Ha, Hb. reflexivity.
Qed.

#[global] Instance eqm64_sub : Proper (eqm64 ==> eqm64 ==> eqm64) Z.sub.
Proof.
  intros a a' Ha b b' Hb. unfold eqm64 in *.
  rewrite (Zminus_mod a), (Zminus_mod a'), Ha, Hb. reflexivity.
Qed.

#[global] Instance eqm64_opp : Proper (eqm64 ==> eqm64) Z.opp.
Proof. intros a a' Ha. rewrite <- !Z.sub_0_l, Ha. reflexivity. Qed.

Lemma wrap64_eqm (z : Z) : wrap64 z ≡₆₄ z.
Proof. apply wrap64_mod. Qed.

Lemma eqm_wrap64 (a b : Z) : a ≡₆₄ b -> wrap64 a = wrap64 b.
Proof. apply wrap64_eq. Qed.

Lemma eq_eqm64 (a b : Z) : a = b -> a ≡₆₄ b.
Proof. intros ->. reflexivity. Qed.

Lemma eqm64_exact (a b : Z) : a ≡₆₄ b -> in_int64 a -> in_int64 b -> a = b.
Proof. intros H Ha Hb. rewrite <- (wrap64_id a), <- (wrap64_id b) by done. apply wrap64_eq, H. Qed.

(** Strip the wraps of a congruence and leave the rest to [lia]. *)
Ltac solve_eqm64 :=
  unfold add64, sub64 in *; repeat setoid_rewrite wrap64_eqm; apply eq_eqm64; lia.
