(* ===== verification/Hoare.v ===== *)
(** * A program logic for procedures

    Weakest preconditions over [Proc]: a procedure leaves one of two states, the
    one it returned in or the one it failed in, and a specification speaks of
    both. *)

From stdpp Require Import base list.
From S2P Require Import Prelude.

Definition wp {S E A} (m : Proc S E A) (Q : A -> S -> Prop) (X : S -> Prop) (s : S) : Prop :=
  match m s with
  | (Ok a, s') => Q a s'
  | (Err _, s') => X s'
  end.

Section Rules.
Context {S E : Type}.
Implicit Types (X : S -> Prop) (s : S).

Lemma wp_ret {A} (a : A) (Q : A -> S -> Prop) X s : Q a s -> wp (mret a : Proc S E A) Q X s.
Proof. done. Qed.

Lemma wp_bind {A B} (m : Proc S E A) (f : A -> Proc S E B) (Q : B -> S -> Prop) X s :
  wp m (fun a => wp (f a) Q X) X s -> wp (m ≫= f) Q X s.
Proof. unfold wp, mbind, proc_bind. destruct (m s) as [[a|e] s']; done. Qed.

Lemma wp_mono {A} (m : Proc S E A) (Q Q' : A -> S -> Prop) X X' s :
  wp m Q X s -> (forall a s', Q a s' -> Q' a s') -> (forall s', X s' -> X' s') -> wp m Q' X' s.
Proof. unfold wp. destruct (m s) as [[a|e] s']; auto. Qed.

Lemma wp_pure {A} (m : Proc S E A) `{!Pure m} (Q : A -> S -> Prop) X s :
  (forall a, m s = (Ok a, s) -> Q a s) -> X s -> wp m Q X s.
Proof.
  intros HQ HX. pose proof (pure_run s) as P. unfold wp. destruct (m s) as [[a|e] s']; simpl in P; subst s'; auto.
Qed.

Lemma wp_check b (e : E) (Q : unit -> S -> Prop) X s :
  (b = true -> Q tt s) -> X s -> wp (check b e) Q X s.
Proof. unfold wp. destruct b; simpl; auto. Qed.

Lemma wp_or_fail {A} (o : option A) (e : E) (Q : A -> S -> Prop) X s :
  (forall a, o = Some a -> Q a s) -> X s -> wp (or_fail o e) Q X s.
Proof. unfold wp. destruct o; simpl; auto. Qed.

Lemma wp_lift {A} (r : res E A) (Q : A -> S -> Prop) X s :
  (forall a, r = Ok a -> Q a s) -> X s -> wp (lift_res r) Q X s.
Proof. unfold wp. destruct r; simpl; auto. Qed.

Lemma wp_if {A} (b : bool) (m n : Proc S E A) (Q : A -> S -> Prop) X s :
  (b = true -> wp m Q X s) -> (b = false -> wp n Q X s) -> wp (if b then m else n) Q X s.
Proof. destruct b; auto. Qed.

(** A loop, with an invariant over what is left to do. *)
Lemma wp_for {A} (J : list A -> S -> Prop) (f : A -> Proc S E unit) (l : list A) (Q : unit -> S -> Prop) X s :
  (forall x rest s, J (x :: rest) s -> wp (f x) (fun _ => J rest) X s) ->
  J l s -> (forall s, J [] s -> Q tt s) -> wp (proc_for f l) Q X s.
Proof.
  intros Hf HJ HQ. revert s HJ. induction l as [|x l IH]; intros s HJ; simpl; [apply wp_ret; auto|].
  apply wp_bind. eapply wp_mono; [by apply Hf| |done]. intros [] s' H. by apply IH.
Qed.

(** The state a procedure leaves, whatever it answers. *)
Lemma wp_snd {A} (m : Proc S E A) (X : S -> Prop) s : wp m (fun _ => X) X s -> X (snd (m s)).
Proof. unfold wp. destruct (m s) as [[a|e] s']; done. Qed.
End Rules.

(** ** Running a procedure forwards *)

Lemma proc_bind_run {S E A B} (f : A -> Proc S E B) (m : Proc S E A) (s s' : S) (a : A) :
  m s = (Ok a, s') -> (m ≫= f) s = f a s'.
Proof. intros H. unfold mbind, proc_bind. by rewrite H. Qed.

Lemma proc_bind_stop {S E A B} (f : A -> Proc S E B) (m : Proc S E A) (s s' : S) (e : E) :
  m s = (Err e, s') -> (m ≫= f) s = (Err e, s').
Proof. intros H. unfold mbind, proc_bind. by rewrite H. Qed.

Lemma check_run {S E} (b : bool) (e : E) (s : S) : b = true -> check b e s = (Ok tt, s).
Proof. by intros ->. Qed.

(** Walk through the steps that only read; the goals left are the writes. *)
Ltac wp_step :=
  lazymatch goal with
  | |- wp (mbind _ _) _ _ _ => apply wp_bind
  | |- wp (mret _) _ _ _ => apply wp_ret
  | |- wp (check _ _) _ _ _ => apply wp_check; [intros ?|try done]
  | |- wp (or_fail _ _) _ _ _ => apply wp_or_fail; [intros ? ?|try done]
  | |- wp (lift_res _) _ _ _ => apply wp_lift; [intros ? ?|try done]
  | |- wp (if _ then _ else _) _ _ _ => apply wp_if; intros ?
  | |- wp (let _ := _ in _) _ _ _ => cbv zeta
  | |- wp _ _ _ _ => apply wp_pure; [apply _|intros ? ?|try done]
  end; cbv beta.
