(* ===== verification/Model.v ===== *)
(** * The data model shared by the store and the services

    The structs of [src/internal/model/user.go], one [Module] per struct so
    that the fields keep the names of the source ([User.ID],
    [BalanceEntry.UserID], ...), with the status and reason strings as
    constants.  int64 and int fields are [Z], []byte fields are byte strings.

    [PlanSnapshotJSON] is text in the source and is read back with
    encoding/json.  The model keeps what the readers can tell apart: the empty
    string, the literal [{}], the encoding of a plan, and text that does not
    decode. *)

From stdpp Require Import base strings list.
From S2P Require Import Prelude.

Definition UserRoleAdmin : string := "admin".
Definition UserRoleUser : string := "user".
Definition UserStatusActive : string := "active".
Definition UserStatusDisabled : string := "disabled".
Definition KeyScopeProxy : string := "proxy".
Definition KeyScopeAdmin : string := "admin".
Definition KeyStatusActive : string := "active".
Definition KeyStatusDisabled : string := "disabled".
Definition SubscriptionStatusActive : string := "active".
Definition SubscriptionStatusExpired : string := "expired".
Definition SubscriptionStatusSuspended : string := "suspended".
Definition InviteStatusActive : string := "active".
Definition InviteStatusDisabled : string := "disabled".
Definition BalanceReasonRedeem : string := "redeem".
Definition BalanceReasonPurchase : string := "purchase".
Definition BalanceReasonRenew : string := "renew".
Definition BalanceReasonAdminAdjust : string := "admin_adjust".
Definition BalanceReasonRefund : string := "refund".
Definition BalanceReasonDeposit : string := "deposit".
Definition RedeemCodeStatusActive : string := "active".
Definition RedeemCodeStatusDisabled : string := "disabled".
Definition DepositStatusPending : string := "pending".
Definition DepositStatusUnpaid : string := "unpaid".
Definition DepositStatusPaid : string := "paid".
Definition DepositStatusReleased : string := "released".

Module User.
Record User := mkUser {
  ID : string;
  Username : string;
  PasswordHash : string;
  Role : string;
  Status : string;
  TOTPSecretEnc : option string;
  CreatedAtNs : Z;
  UpdatedAtNs : Z;
  LastLoginNs : Z;
  TOTPLastUsedNs : Z
}.
End User.

Module Plan.
Record Plan := mkPlan {
  ID : string;
  Name : string;
  Platforms : list string;
  IPTiers : list string;
  TrafficBytes : Z;
  Period : string;
  MaxConcurrent : Z;
  MaxRPS : Z;
  MaxBandwidthBps : Z;
  MaxKeys : Z;
  DurationDays : Z;
  PriceMicro : Z;
  Status : string;
  CreatedAtNs : Z;
  UpdatedAtNs : Z
}.

(** The zero value of the struct. *)
Definition zero : Plan := mkPlan "" "" [] [] 0 "" 0 0 0 0 0 0 "" 0 0.
End Plan.

(** The content of a plan_snapshot_json column. *)
Inductive Snapshot :=
| SnapEmpty
| SnapBraces
| SnapPlan (p : Plan.Plan)
| SnapInvalid (raw : string).

Definition snapshot_is_empty (s : Snapshot) : bool :=
  match s with SnapEmpty => true | _ => false end.

Module UserSubscription.
Record UserSubscription := mkUserSubscription {
  ID : string;
  UserID : string;
  PlanID : string;
  PlanSnapshotJSON : Snapshot;
  StartsAtNs : Z;
  ExpiresAtNs : Z;
  PeriodStartNs : Z;
  PeriodUsedBytes : Z;
  AutoRenew : bool;
  PeriodIndex : Z;
  Status : string
}.

Definition zero : UserSubscription :=
  mkUserSubscription "" "" "" SnapEmpty 0 0 0 0 false 0 "".

Definition with_Status (st : string) (s : UserSubscription) : UserSubscription :=
  mkUserSubscription (ID s) (UserID s) (PlanID s) (PlanSnapshotJSON s) (StartsAtNs s)
    (ExpiresAtNs s) (PeriodStartNs s) (PeriodUsedBytes s) (AutoRenew s) (PeriodIndex s) st.

Definition with_AutoRenew (b : bool) (s : UserSubscription) : UserSubscription :=
  mkUserSubscription (ID s) (UserID s) (PlanID s) (PlanSnapshotJSON s) (StartsAtNs s)
    (ExpiresAtNs s) (PeriodStartNs s) (PeriodUsedBytes s) b (PeriodIndex s) (Status s).

Definition with_Snapshot (sn : Snapshot) (s : UserSubscription) : UserSubscription :=
  mkUserSubscription (ID s) (UserID s) (PlanID s) sn (StartsAtNs s)
    (ExpiresAtNs s) (PeriodStartNs s) (PeriodUsedBytes s) (AutoRenew s) (PeriodIndex s) (Status s).

Definition with_PlanID (pid : string) (s : UserSubscription) : UserSubscription :=
  mkUserSubscription (ID s) (UserID s) pid (PlanSnapshotJSON s) (StartsAtNs s)
    (ExpiresAtNs s) (PeriodStartNs s) (PeriodUsedBytes s) (AutoRenew s) (PeriodIndex s) (Status s).

Definition with_Period (start used : Z) (s : UserSubscription) : UserSubscription :=
  mkUserSubscription (ID s) (UserID s) (PlanID s) (PlanSnapshotJSON s) (StartsAtNs s)
    (ExpiresAtNs s) start used (AutoRenew s) (PeriodIndex s) (Status s).
End UserSubscription.

Module AccessKey.
Record AccessKey := mkAccessKey {
  ID : string;
  UserID : string;
  Name : string;
  SecretHash : string;
  Platforms : list string;
  IPAllowlist : list string;
  Scope : string;
  Status : string;
  ExpiresAtNs : Z;
  LastUsedNs : Z;
  CreatedAtNs : Z
}.
End AccessKey.

Module UsageRow.
Record UsageRow := mkUsageRow {
  KeyID : string;
  UserID : string;
  PlatformID : string;
  TSNs : Z;
  IngressBytes : Z;
  EgressBytes : Z;
  Requests : Z;
  Errors : Z
}.
End UsageRow.

Module Session.
Record Session := mkSession {
  IDHash : string;
  UserID : string;
  CreatedAtNs : Z;
  ExpiresAtNs : Z;
  IP : string;
  UA : string
}.

(** [SET expires_at_ns = ?] *)
Definition with_Expiry (at_ns : Z) (s : Session) : Session :=
  mkSession (IDHash s) (UserID s) (CreatedAtNs s) at_ns (IP s) (UA s).
End Session.

Module Invite.
Record Invite := mkInvite {
  ID : string;
  Code : string;
  PlanID : string;
  MaxUses : Z;
  UsedCount : Z;
  ExpiresAtNs : Z;
  Note : string;
  Status : string;
  CreatedBy : string;
  CreatedAtNs : Z;
  UpdatedAtNs : Z
}.

(** [SET used_count = used_count + 1, updated_at_ns = ?] *)
Definition claim (nowNs : Z) (i : Invite) : Invite :=
  mkInvite (ID i) (Code i) (PlanID i) (MaxUses i) (UsedCount i + 1) (ExpiresAtNs i) (Note i)
    (Status i) (CreatedBy i) (CreatedAtNs i) nowNs.

Definition with_PlanID (pid : string) (i : Invite) : Invite :=
  mkInvite (ID i) (Code i) pid (MaxUses i) (UsedCount i) (ExpiresAtNs i) (Note i)
    (Status i) (CreatedBy i) (CreatedAtNs i) (UpdatedAtNs i).
End Invite.

Module BalanceEntry.
Record BalanceEntry := mkBalanceEntry {
  ID : string;
  UserID : string;
  DeltaMicro : Z;
  BalanceAfterMicro : Z;
  Reason : string;
  RefID : string;
  RequestID : string;
  Note : string;
  Actor : string;
  CreatedAtNs : Z
}.

Definition with_BalanceAfter (b : Z) (e : BalanceEntry) : BalanceEntry :=
  mkBalanceEntry (ID e) (UserID e) (DeltaMicro e) b (Reason e) (RefID e) (RequestID e)
    (Note e) (Actor e) (CreatedAtNs e).
End BalanceEntry.

Module RedeemCode.
Record RedeemCode := mkRedeemCode {
  ID : string;
  CodeHash : string;
  CodeHint : string;
  AmountMicro : Z;
  MaxUses : Z;
  UsedCount : Z;
  ExpiresAtNs : Z;
  Note : string;
  Status : string;
  CreatedBy : string;
  CreatedAtNs : Z;
  UpdatedAtNs : Z
}.

(** [SET used_count = used_count + 1, updated_at_ns = ?] *)
Definition claim (nowNs : Z) (c : RedeemCode) : RedeemCode :=
  mkRedeemCode (ID c) (CodeHash c) (CodeHint c) (AmountMicro c) (MaxUses c) (UsedCount c + 1)
    (ExpiresAtNs c) (Note c) (Status c) (CreatedBy c) (CreatedAtNs c) nowNs.
End RedeemCode.

Module DepositIntent.
Record DepositIntent := mkDepositIntent {
  ID : string;
  UserID : string;
  AmountMicro : Z;
  Status : string;
  TxID : string;
  CreatedAtNs : Z;
  ExpiresAtNs : Z;
  HoldUntilNs : Z;
  PaidAtNs : Z
}.

Definition with_Status (st : string) (i : DepositIntent) : DepositIntent :=
  mkDepositIntent (ID i) (UserID i) (AmountMicro i) st (TxID i) (CreatedAtNs i) (ExpiresAtNs i)
    (HoldUntilNs i) (PaidAtNs i).

(** [SET status = 'paid', tx_id = ?, paid_at_ns = ?] *)
Definition settle (txID : string) (nowNs : Z) (i : DepositIntent) : DepositIntent :=
  mkDepositIntent (ID i) (UserID i) (AmountMicro i) DepositStatusPaid txID (CreatedAtNs i)
    (ExpiresAtNs i) (HoldUntilNs i) nowNs.
End DepositIntent.

(** Types by their short names; the fields stay qualified. *)
Abbreviation User := User.User.
Abbreviation Plan := Plan.Plan.
Abbreviation UserSubscription := UserSubscription.UserSubscription.
Abbreviation AccessKey := AccessKey.AccessKey.
Abbreviation UsageRow := UsageRow.UsageRow.
Abbreviation Session := Session.Session.
Abbreviation Invite := Invite.Invite.
Abbreviation BalanceEntry := BalanceEntry.BalanceEntry.
Abbreviation RedeemCode := RedeemCode.RedeemCode.
Abbreviation DepositIntent := DepositIntent.DepositIntent.

(** ** Decidable equality of the rows *)

#[global] Instance User_eq_dec : EqDecision User.
Proof. solve_decision. Defined.

#[global] Instance Plan_eq_dec : EqDecision Plan.
Proof. solve_decision. Defined.

#[global] Instance Snapshot_eq_dec : EqDecision Snapshot.
Proof. solve_decision. Defined.

#[global] Instance UserSubscription_eq_dec : EqDecision UserSubscription.
Proof. solve_decision. Defined.

#[global] Instance BalanceEntry_eq_dec : EqDecision BalanceEntry.
Proof. solve_decision. Defined.

#[global] Instance DepositIntent_eq_dec : EqDecision DepositIntent.
Proof. solve_decision. Defined.
