(* ===== verification/Store.v ===== *)
(** * The state database and its account tables

    The SQLite schema behind [src/internal/state] (after the last migration)
    as a record of tables, the statements with their constraints, and the
    account half of [repo_user.go]: users, plans and user subscriptions.

    Every repository method holds the repository's mutex, so it is one atomic
    step [StateDB -> res StateErr A * StateDB].  Errors the code does not tell
    apart (a foreign key, a CHECK, a primary key, which
    [isSQLiteUniqueConstraint] does not match) are [ErrSQL]; I/O failures of
    the database are outside the model.  Within one statement SQLite tests
    CHECK, the primary key, the unique indexes and then the foreign keys; the
    definitions test them in that order. *)

From stdpp Require Import base gmap strings list.
From S2P Require Import Prelude Model.

Inductive StateErr :=
| ErrNotFound
| ErrConflict
| ErrInsufficientBalance
| ErrSQL.

#[global] Instance StateErr_eq_dec : EqDecision StateErr.
Proof. solve_decision. Defined.

(** A row of user_balance; the user id is the key. *)
Record BalanceRow := mkBalanceRow { balance_micro : Z; balance_updated_at_ns : Z }.

(** A row of chain_cursor; the cursor name is the key. *)
Record CursorRow := mkCursorRow { watermark_ms : Z; cursor_updated_at_ns : Z }.

Record StateDB := mkStateDB {
  users : list User;
  plans : list Plan;
  user_subscriptions : list UserSubscription;
  access_keys : list AccessKey;
  sessions : list Session;
  invites : list Invite;
  user_balance : gmap string BalanceRow;
  balance_ledger : list BalanceEntry;
  redeem_codes : list RedeemCode;
  deposit_intents : list DepositIntent;
  chain_cursor : gmap string CursorRow
}.

Definition emptyDB : StateDB := mkStateDB [] [] [] [] [] [] ∅ [] [] [] ∅.

Definition set_users x db := mkStateDB x (plans db) (user_subscriptions db) (access_keys db)
  (sessions db) (invites db) (user_balance db) (balance_ledger db) (redeem_codes db)
  (deposit_intents db) (chain_cursor db).
Definition set_plans x db := mkStateDB (users db) x (user_subscriptions db) (access_keys db)
  (sessions db) (invites db) (user_balance db) (balance_ledger db) (redeem_codes db)
  (deposit_intents db) (chain_cursor db).
Definition set_user_subscriptions x db := mkStateDB (users db) (plans db) x (access_keys db)
  (sessions db) (invites db) (user_balance db) (balance_ledger db) (redeem_codes db)
  (deposit_intents db) (chain_cursor db).
Definition set_access_keys x db := mkStateDB (users db) (plans db) (user_subscriptions db) x
  (sessions db) (invites db) (user_balance db) (balance_ledger db) (redeem_codes db)
  (deposit_intents db) (chain_cursor db).
Definition set_sessions x db := mkStateDB (users db) (plans db) (user_subscriptions db)
  (access_keys db) x (invites db) (user_balance db) (balance_ledger db) (redeem_codes db)
  (deposit_intents db) (chain_cursor db).
Definition set_invites x db := mkStateDB (users db) (plans db) (user_subscriptions db)
  (access_keys db) (sessions db) x (user_balance db) (balance_ledger db) (redeem_codes db)
  (deposit_intents db) (chain_cursor db).
Definition set_user_balance x db := mkStateDB (users db) (plans db) (user_subscriptions db)
  (access_keys db) (sessions db) (invites db) x (balance_ledger db) (redeem_codes db)
  (deposit_intents db) (chain_cursor db).
Definition set_balance_ledger x db := mkStateDB (users db) (plans db) (user_subscriptions db)
  (access_keys db) (sessions db) (invites db) (user_balance db) x (redeem_codes db)
  (deposit_intents db) (chain_cursor db).
Definition set_redeem_codes x db := mkStateDB (users db) (plans db) (user_subscriptions db)
  (access_keys db) (sessions db) (invites db) (user_balance db) (balance_ledger db) x
  (deposit_intents db) (chain_cursor db).
Definition set_deposit_intents x db := mkStateDB (users db) (plans db) (user_subscriptions db)
  (access_keys db) (sessions db) (invites db) (user_balance db) (balance_ledger db)
  (redeem_codes db) x (chain_cursor db).
Definition set_chain_cursor x db := mkStateDB (users db) (plans db) (user_subscriptions db)
  (access_keys db) (sessions db) (invites db) (user_balance db) (balance_ledger db)
  (redeem_codes db) (deposit_intents db) x.

Abbreviation DbTx := (Tx StateDB StateErr).

(** A repository method: one transaction. *)
Abbreviation Method A := (StateDB -> res StateErr A * StateDB).

(** ** Constraints *)

Definition user_exists (id : string) (db : StateDB) : bool :=
  existsb (fun u => User.ID u ==s id) (users db).

Definition plan_exists (id : string) (db : StateDB) : bool :=
  existsb (fun p => Plan.ID p ==s id) (plans db).

Definition subscription_exists (id : string) (t : list UserSubscription) : bool :=
  existsb (fun s => UserSubscription.ID s ==s id) t.

(** CHECK (status IN ('active', 'expired', 'suspended')) *)
Definition subscription_status_valid (st : string) : bool :=
  (st ==s SubscriptionStatusActive) || (st ==s SubscriptionStatusExpired) ||
  (st ==s SubscriptionStatusSuspended).

Definition is_active (s : UserSubscription) : bool :=
  UserSubscription.Status s ==s SubscriptionStatusActive.

(** The rows another row of the table collides with under the partial unique
    index ux_user_subscriptions_active (user_id) WHERE status = 'active'. *)
Definition active_slot_taken (s : UserSubscription) (t : list UserSubscription) : bool :=
  is_active s &&
  existsb (fun r => is_active r && (UserSubscription.UserID r ==s UserSubscription.UserID s)
                    && (UserSubscription.ID r <>s UserSubscription.ID s)) t.

(** user_id REFERENCES users(id), plan_id REFERENCES plans(id); an empty plan
    id is stored as NULL ([nullableString]), which references nothing. *)
Definition subscription_fk_ok (s : UserSubscription) (db : StateDB) : bool :=
  user_exists (UserSubscription.UserID s) db &&
  ((UserSubscription.PlanID s ==s "") || plan_exists (UserSubscription.PlanID s) db).

(** INSERT INTO user_subscriptions, which fails on an id already present. *)
Definition insert_subscription (s : UserSubscription) : DbTx unit := fun db =>
  if negb (subscription_status_valid (UserSubscription.Status s)) then Err ErrSQL
  else if subscription_exists (UserSubscription.ID s) (user_subscriptions db) then Err ErrSQL
  else if active_slot_taken s (user_subscriptions db) then Err ErrConflict
  else if negb (subscription_fk_ok s db) then Err ErrSQL
  else Ok (tt, set_user_subscriptions (user_subscriptions db ++ [s]) db).

(** UPDATE user_subscriptions SET ... WHERE id = ?, [f] being the SET list;
    the constraints are tested on the row it writes.  Returns the number of
    rows affected. *)
Definition update_subscription (id : string) (p : UserSubscription -> bool)
    (f : UserSubscription -> UserSubscription) : DbTx nat := fun db =>
  let t := user_subscriptions db in
  let hit r := (UserSubscription.ID r ==s id) && p r in
  let bad r := hit r && negb (subscription_status_valid (UserSubscription.Status (f r))) in
  let dup r := hit r && active_slot_taken (f r) t in
  let fk r := hit r && negb (subscription_fk_ok (f r) db) in
  if existsb bad t then Err ErrSQL
  else if existsb dup t then Err ErrConflict
  else if existsb fk t then Err ErrSQL
  else Ok (sql_affected hit t, set_user_subscriptions (sql_update hit f t) db).

(** [if snapshot == "" { snapshot = "{}" }] *)
Definition snapshot_or_braces (s : Snapshot) : Snapshot :=
  if snapshot_is_empty s then SnapBraces else s.

Definition status_or_active (st : string) : string :=
  if st ==s "" then SubscriptionStatusActive else st.

(** ** Users *)

(** The row InsertUser writes: totp_last_used_ns is not among the columns, so
    it takes its default, and an empty secret reads back as none. *)
Definition user_row (u : User) : User :=
  User.mkUser (User.ID u) (User.Username u) (User.PasswordHash u) (User.Role u) (User.Status u)
    match User.TOTPSecretEnc u with
    | Some secret => if secret ==s "" then None else Some secret
    | None => None
    end
    (User.CreatedAtNs u) (User.UpdatedAtNs u) (User.LastLoginNs u) 0.

Definition user_check_ok (u : User) : bool :=
  ((User.Role u ==s UserRoleAdmin) || (User.Role u ==s UserRoleUser)) &&
  ((User.Status u ==s UserStatusActive) || (User.Status u ==s UserStatusDisabled)).

Definition insert_user_tx (u : User) : DbTx unit := fun db =>
  if negb (user_check_ok u) then Err ErrSQL
  else if user_exists (User.ID u) db then Err ErrSQL
  else if existsb (fun r => User.Username r ==s User.Username u) (users db) then Err ErrConflict
  else Ok (tt, set_users (users db ++ [user_row u]) db).

Definition InsertUser (u : User) : Method unit := transact (insert_user_tx u).

Definition GetUser (id : string) (db : StateDB) : res StateErr User :=
  match sql_first (fun u => User.ID u ==s id) (users db) with
  | Some u => Ok u
  | None => Err ErrNotFound
  end.

(** ORDER BY username *)
Definition ListUsers (db : StateDB) : list User :=
  sort_by (fun a b => String.leb (User.Username a) (User.Username b)) (users db).

Definition GetUserByName (username : string) (db : StateDB) : res StateErr User :=
  match sql_first (fun u => User.Username u ==s username) (users db) with
  | Some u => Ok u
  | None => Err ErrNotFound
  end.

(** DELETE FROM users, with the ON DELETE CASCADE of user_subscriptions,
    access_keys, sessions and user_balance.  balance_ledger and deposit_intents declare
    no foreign key, so their rows stay. *)
Definition DeleteUser (id : string) : Method unit := transact (fun db =>
  if user_exists id db then
    Ok (tt,
      set_users (sql_where (fun u => User.ID u <>s id) (users db))
        (set_user_subscriptions
          (sql_where (fun s => UserSubscription.UserID s <>s id) (user_subscriptions db))
          (set_access_keys (sql_where (fun k => AccessKey.UserID k <>s id) (access_keys db))
            (set_sessions (sql_where (fun s => Session.UserID s <>s id) (sessions db))
              (set_user_balance (base.delete id (user_balance db)) db)))))
  else Err ErrNotFound).

Definition with_TOTPLastUsed (v : Z) (u : User) : User :=
  User.mkUser (User.ID u) (User.Username u) (User.PasswordHash u) (User.Role u) (User.Status u)
    (User.TOTPSecretEnc u) (User.CreatedAtNs u) (User.UpdatedAtNs u) (User.LastLoginNs u) v.

Definition AdvanceTOTPLastUsed (userID : string) (stepNs : Z) : Method bool := transact (fun db =>
  if userID ==s "" then Err ErrNotFound
  else
    let hit u := (User.ID u ==s userID) && (User.TOTPLastUsedNs u <? stepNs) in
    if (0 <? sql_affected hit (users db))%nat
    then Ok (true, set_users (sql_update hit (with_TOTPLastUsed stepNs) (users db)) db)
    else if user_exists userID db then Ok (false, db) else Err ErrNotFound).

Definition ResetTOTPLastUsed (id : string) : Method unit := transact (fun db =>
  let hit u := User.ID u ==s id in
  if (0 <? sql_affected hit (users db))%nat
  then Ok (tt, set_users (sql_update hit (with_TOTPLastUsed 0) (users db)) db)
  else if user_exists id db then Ok (tt, db) else Err ErrNotFound).

(** ** Plans *)

Definition plan_row (p : Plan) : Plan :=
  Plan.mkPlan (Plan.ID p) (Plan.Name p) (Plan.Platforms p) (Plan.IPTiers p) (Plan.TrafficBytes p)
    (if Plan.Period p ==s "" then "30d" else Plan.Period p) (Plan.MaxConcurrent p) (Plan.MaxRPS p)
    (Plan.MaxBandwidthBps p) (Plan.MaxKeys p) (Plan.DurationDays p) (Plan.PriceMicro p)
    (if Plan.Status p ==s "" then "active" else Plan.Status p)
    (Plan.CreatedAtNs p) (Plan.UpdatedAtNs p).

Definition with_CreatedAt (ns : Z) (p : Plan) : Plan :=
  Plan.mkPlan (Plan.ID p) (Plan.Name p) (Plan.Platforms p) (Plan.IPTiers p) (Plan.TrafficBytes p)
    (Plan.Period p) (Plan.MaxConcurrent p) (Plan.MaxRPS p) (Plan.MaxBandwidthBps p)
    (Plan.MaxKeys p) (Plan.DurationDays p) (Plan.PriceMicro p) (Plan.Status p) ns
    (Plan.UpdatedAtNs p).

(** ON CONFLICT(id) DO UPDATE keeps created_at_ns of the stored row; the name
    is UNIQUE. *)
Definition UpsertPlan (plan : Plan) : Method unit := transact (fun db =>
  let p := plan_row plan in
  let same r := Plan.ID r ==s Plan.ID p in
  if existsb (fun r => (Plan.Name r ==s Plan.Name p) && negb (same r)) (plans db)
  then Err ErrConflict
  else if plan_exists (Plan.ID p) db
  then Ok (tt, set_plans (sql_update same (fun r => with_CreatedAt (Plan.CreatedAtNs r) p) (plans db)) db)
  else Ok (tt, set_plans (plans db ++ [p]) db)).

Definition GetPlan (id : string) (db : StateDB) : res StateErr Plan :=
  match sql_first (fun p => Plan.ID p ==s id) (plans db) with
  | Some p => Ok p
  | None => Err ErrNotFound
  end.

(** ORDER BY name *)
Definition ListPlans (db : StateDB) : list Plan :=
  sort_by (fun a b => String.leb (Plan.Name a) (Plan.Name b)) (plans db).

(** DELETE FROM plans: plan_id of the subscriptions is ON DELETE SET NULL, and
    the trigger trg_invites_clear_plan clears plan_id of the invites. *)
Definition DeletePlan (id : string) : Method unit := transact (fun db =>
  if plan_exists id db then
    Ok (tt,
      set_plans (sql_where (fun p => Plan.ID p <>s id) (plans db))
        (set_user_subscriptions
          (sql_update (fun s => UserSubscription.PlanID s ==s id) (UserSubscription.with_PlanID "")
             (user_subscriptions db))
          (set_invites (sql_update (fun i => Invite.PlanID i ==s id) (Invite.with_PlanID "") (invites db))
             db)))
  else Err ErrNotFound).

(** ** Subscriptions *)

Definition subscription_row (s : UserSubscription) : UserSubscription :=
  UserSubscription.with_Snapshot (snapshot_or_braces (UserSubscription.PlanSnapshotJSON s))
    (UserSubscription.with_Status (status_or_active (UserSubscription.Status s)) s).

(** Every column of the row is in the DO UPDATE list. *)
Definition UpsertUserSubscription (sub : UserSubscription) : Method unit := transact (
  let s := subscription_row sub in
  db ← tx_get;
  if subscription_exists (UserSubscription.ID s) (user_subscriptions db)
  then _ ← update_subscription (UserSubscription.ID s) (fun _ => true) (fun _ => s); mret tt
  else insert_subscription s).

(** The terms of a subscription: everything but the usage of the period. *)
Definition terms_of (s : UserSubscription) (r : UserSubscription) : UserSubscription :=
  UserSubscription.mkUserSubscription (UserSubscription.ID r) (UserSubscription.UserID s)
    (UserSubscription.PlanID s) (UserSubscription.PlanSnapshotJSON s)
    (UserSubscription.StartsAtNs s) (UserSubscription.ExpiresAtNs s)
    (UserSubscription.PeriodStartNs r) (UserSubscription.PeriodUsedBytes r)
    (UserSubscription.AutoRenew s) (UserSubscription.PeriodIndex s) (UserSubscription.Status s).

Definition subscriptionRowExists (id : string) (db : StateDB) : bool :=
  (0 <? sql_affected (fun s => UserSubscription.ID s ==s id) (user_subscriptions db))%nat.

(** [if n == 0 { if !exists { return ErrNotFound } }] after an UPDATE. *)
Definition not_found_if_absent (id : string) (n : nat) : DbTx unit := fun db =>
  if (n =? 0)%nat && negb (subscriptionRowExists id db) then Err ErrNotFound else Ok (tt, db).

Definition UpdateUserSubscriptionTerms (sub : UserSubscription) : Method unit := transact (
  let s := subscription_row sub in
  n ← update_subscription (UserSubscription.ID s) (fun _ => true) (terms_of s);
  not_found_if_absent (UserSubscription.ID s) n).

Definition GetUserSubscription (id : string) (db : StateDB) : res StateErr UserSubscription :=
  match sql_first (fun s => UserSubscription.ID s ==s id) (user_subscriptions db) with
  | Some s => Ok s
  | None => Err ErrNotFound
  end.

Definition active_of (userID : string) (s : UserSubscription) : bool :=
  (UserSubscription.UserID s ==s userID) && is_active s.

Definition GetActiveUserSubscription (userID : string) (db : StateDB) : res StateErr UserSubscription :=
  match sql_first (active_of userID) (user_subscriptions db) with
  | Some s => Ok s
  | None => Err ErrNotFound
  end.

(** ORDER BY user_id, byte-wise. *)
Definition ListUserSubscriptions (db : StateDB) : list UserSubscription :=
  sort_by (fun a b => String.leb (UserSubscription.UserID a) (UserSubscription.UserID b))
    (user_subscriptions db).

(** ORDER BY starts_at_ns DESC, id *)
Definition ListActiveUserSubscriptions (db : StateDB) : list UserSubscription :=
  sort_by (fun a b =>
      (UserSubscription.StartsAtNs b <? UserSubscription.StartsAtNs a) ||
      ((UserSubscription.StartsAtNs b =? UserSubscription.StartsAtNs a) &&
       String.leb (UserSubscription.ID a) (UserSubscription.ID b)))
    (sql_where is_active (user_subscriptions db)).

(** SET period_used_bytes = MAX(0, period_used_bytes + ?).  SQLite adds exactly
    within the 64-bit range. *)
Definition AddSubscriptionUsedBytes (id : string) (delta : Z) : Method unit := transact (
  n ← update_subscription id (fun _ => true) (fun r =>
        UserSubscription.with_Period (UserSubscription.PeriodStartNs r)
          (Z.max 0 (UserSubscription.PeriodUsedBytes r + delta)) r);
  if (n =? 0)%nat then tx_fail ErrNotFound else mret tt).

Definition ResetSubscriptionPeriod (id : string) (fromPeriodStartNs toPeriodStartNs : Z)
    : Method unit := transact (
  n ← update_subscription id (fun r => UserSubscription.PeriodStartNs r =? fromPeriodStartNs)
        (UserSubscription.with_Period toPeriodStartNs 0);
  if (0 <? n)%nat then mret tt else not_found_if_absent id n).

Definition RevokeUserSubscription (id : string) : Method unit := transact (
  n ← update_subscription id (fun _ => true)
        (UserSubscription.with_Status SubscriptionStatusSuspended);
  not_found_if_absent id n).

(** UPDATE ... SET status = 'expired' over every row whose window has closed.
    It takes rows out of the partial index and puts none in, and 'expired'
    passes the CHECK, so the statement cannot fail. *)
Definition window_closed (nowNs : Z) (s : UserSubscription) : bool :=
  is_active s && (0 <? UserSubscription.ExpiresAtNs s) && (UserSubscription.ExpiresAtNs s <=? nowNs).

Definition ExpireStaleSubscriptions (nowNs : Z) : Method Z := transact (fun db =>
  let t := user_subscriptions db in
  Ok (Z.of_nat (sql_affected (window_closed nowNs) t),
      set_user_subscriptions
        (sql_update (window_closed nowNs) (UserSubscription.with_Status SubscriptionStatusExpired) t)
        db)).

(** ** The subscription invariant

    Ids are unique (the primary key), a user has at most one active row (the
    partial unique index), and every row has a valid status, an existing user
    and an existing plan or none (the CHECK and the foreign keys). *)
Definition row_ok (s : UserSubscription) (db : StateDB) : Prop :=
  subscription_status_valid (UserSubscription.Status s) = true /\ subscription_fk_ok s db = true.

Record subs_wf (db : StateDB) : Prop := {
  sw_ids : NoDup (map UserSubscription.ID (user_subscriptions db));
  sw_active : forall a b, In a (user_subscriptions db) -> In b (user_subscriptions db) ->
    is_active a = true -> is_active b = true ->
    UserSubscription.UserID a = UserSubscription.UserID b -> a = b;
  sw_row : forall s, In s (user_subscriptions db) -> row_ok s db
}.

Lemma sw_user (db : StateDB) (s : UserSubscription) :
  subs_wf db -> In s (user_subscriptions db) -> user_exists (UserSubscription.UserID s) db = true.
Proof.
  intros W Hs. destruct (sw_row db W s Hs) as [_ H]. unfold subscription_fk_ok in H. bool_prop. done.
Qed.

(** A row stays valid when users and plans only grow. *)
Lemma row_ok_mono (s : UserSubscription) (db db' : StateDB) :
  (forall u, user_exists u db = true -> user_exists u db' = true) ->
  (forall p, plan_exists p db = true -> plan_exists p db' = true) ->
  row_ok s db -> row_ok s db'.
Proof.
  intros Hu Hp [H1 H2]. split; [done|]. unfold subscription_fk_ok in *. bool_prop.
  rewrite Hu by done. destruct (_ ==s ""); [done|]. simpl in *. auto.
Qed.

Lemma user_exists_spec (id : string) (db : StateDB) :
  user_exists id db = true <-> exists u, In u (users db) /\ User.ID u = id.
Proof.
  unfold user_exists. rewrite List.existsb_exists. split; intros (u & Hu & E); exists u; split; auto;
  apply eqb_s_true; auto.
Qed.

Lemma GetUser_Some (id : string) (db : StateDB) (u : User) :
  GetUser id db = Ok u -> In u (users db) /\ User.ID u = id.
Proof.
  unfold GetUser, sql_first. intros H. destruct (List.find _ (users db)) as [x|] eqn:E; [|done].
  injection H as ->. apply find_some in E as [Hin E]. apply eqb_s_true in E. auto.
Qed.

Lemma GetUser_In (db : StateDB) (u : User) :
  NoDup (map User.ID (users db)) -> In u (users db) -> GetUser (User.ID u) db = Ok u.
Proof.
  intros Hn Hu. unfold GetUser, sql_first. destruct (List.find _ (users db)) as [x|] eqn:E.
  - apply find_some in E as [Hx E]. apply eqb_s_true in E. f_equal. eapply NoDup_map_inj; eauto.
  - eapply find_none in E; [|exact Hu]. rewrite eqb_s_refl in E. done.
Qed.

Lemma GetUserByName_Some (name : string) (db : StateDB) (u : User) :
  GetUserByName name db = Ok u -> In u (users db) /\ User.Username u = name.
Proof.
  unfold GetUserByName, sql_first. intros H. destruct (List.find _ (users db)) as [x|] eqn:E; [|done].
  injection H as ->. apply find_some in E as [Hin E]. apply eqb_s_true in E. auto.
Qed.

Lemma subscription_exists_false (id : string) (t : list UserSubscription) :
  subscription_exists id t = false <-> forall s, In s t -> UserSubscription.ID s <> id.
Proof.
  unfold subscription_exists. rewrite existsb_false. split; intros H s Hs; apply H in Hs;
  apply eqb_s_false; auto. 
Qed.

Lemma active_slot_free (s r : UserSubscription) (t : list UserSubscription) :
  active_slot_taken s t = false -> is_active s = true -> In r t -> is_active r = true ->
  UserSubscription.UserID r = UserSubscription.UserID s ->
  UserSubscription.ID r = UserSubscription.ID s.
Proof.
  unfold active_slot_taken. intros H Hs Hr Har Hu. rewrite Hs in H. simpl in H.
  rewrite existsb_false in H. specialize (H r Hr). rewrite Har in H.
  rewrite (proj2 (eqb_s_true _ _) Hu) in H. simpl in H. bool_prop. done.
Qed.

Lemma insert_subscription_ok (s : UserSubscription) (x : unit) (db db' : StateDB) :
  insert_subscription s db = Ok (x, db') ->
  db' = set_user_subscriptions (user_subscriptions db ++ [s]) db /\
  subscription_status_valid (UserSubscription.Status s) = true /\
  (forall r, In r (user_subscriptions db) -> UserSubscription.ID r <> UserSubscription.ID s) /\
  active_slot_taken s (user_subscriptions db) = false /\
  subscription_fk_ok s db = true.
Proof.
  unfold insert_subscription. intros H. tx_invert. 
  repeat match goal with H : negb _ = false |- _ => apply negb_false_iff in H end.
  split_and!; auto. apply subscription_exists_false. done.
Qed.

Lemma insert_subscription_wf (s : UserSubscription) (x : unit) (db db' : StateDB) :
  subs_wf db -> insert_subscription s db = Ok (x, db') -> subs_wf db'.
Proof.
  intros [Hids Hact Husr] H.
  apply insert_subscription_ok in H as (-> & Hst & Hnew & Hslot & Hfk). split; simpl.
  - apply NoDup_map_snoc; auto.
  - intros a b Ha Hb Haa Hab Hu.
    apply in_app_iff in Ha as [Ha|[<-|[]]], Hb as [Hb|[<-|[]]]; auto.
    + exfalso. eapply Hnew; [exact Ha|]. eapply active_slot_free; eauto.
    + exfalso. eapply Hnew; [exact Hb|]. eapply active_slot_free; eauto.
  - intros r Hr. apply in_app_iff in Hr as [Hr|[<-|[]]]; [exact (Husr r Hr)|]. split; done.
Qed.

Lemma update_subscription_ok (id : string) (p : UserSubscription -> bool)
    (f : UserSubscription -> UserSubscription) (n : nat) (db db' : StateDB) :
  update_subscription id p f db = Ok (n, db') ->
  let hit r := (UserSubscription.ID r ==s id) && p r in
  n = sql_affected hit (user_subscriptions db) /\
  db' = set_user_subscriptions (sql_update hit f (user_subscriptions db)) db /\
  forall r, In r (user_subscriptions db) -> hit r = true ->
    subscription_status_valid (UserSubscription.Status (f r)) = true /\
    active_slot_taken (f r) (user_subscriptions db) = false /\
    subscription_fk_ok (f r) db = true.
Proof.
  unfold update_subscription. intros H. tx_invert. split_and!; auto.
  intros r Hr Hhit. rewrite !existsb_false in *.
  repeat match goal with H : forall r, In r _ -> _ && _ = false |- _ => specialize (H r Hr) end.
  rewrite Hhit in *. simpl in *. bool_prop. auto.
Qed.

(** An update by id that keeps the id keeps the invariant: the row written was
    tested against every other row. *)
Lemma update_subscription_wf (id : string) (p : UserSubscription -> bool)
    (f : UserSubscription -> UserSubscription) (n : nat) (db db' : StateDB) :
  (forall r, UserSubscription.ID r = id -> UserSubscription.ID (f r) = id) ->
  subs_wf db -> update_subscription id p f db = Ok (n, db') -> subs_wf db'.
Proof.
  intros Hkeep [Hids Hact Husr] H. apply update_subscription_ok in H as (_ & -> & Hrow).
  set (hit := fun r => (UserSubscription.ID r ==s id) && p r) in *.
  assert (Hid : forall r, hit r = true -> UserSubscription.ID r = id).
  { intros r Hr. unfold hit in Hr. bool_prop. done. }
  assert (Hmap : map UserSubscription.ID (sql_update hit f (user_subscriptions db)) =
                 map UserSubscription.ID (user_subscriptions db)).
  { unfold sql_update. rewrite map_map. apply map_ext. intros r. destruct (hit r) eqn:E; [|done].
    rewrite Hkeep, (Hid r E) by auto. done. }
  assert (Hone : forall a b, In a (user_subscriptions db) -> In b (user_subscriptions db) ->
            hit a = true -> is_active (f a) = true -> is_active b = true ->
            UserSubscription.UserID (f a) = UserSubscription.UserID b -> a = b).
  { intros a b Ha Hb Hh Haa Hab Hu. destruct (Hrow a Ha Hh) as (_ & Hslot & _).
    eapply NoDup_map_inj; [exact Hids|done|done|].
    rewrite (Hid a Hh), <- (Hkeep a (Hid a Hh)). symmetry. eapply active_slot_free; eauto. }
  split; simpl.
  - rewrite Hmap. exact Hids.
  - intros a' b' Ha' Hb' Haa Hab Hu.
    apply sql_update_In in Ha' as (a & Ha & ->), Hb' as (b & Hb & ->).
    destruct (hit a) eqn:Ea, (hit b) eqn:Eb; auto.
    + f_equal. eapply NoDup_map_inj; eauto. rewrite (Hid a Ea), (Hid b Eb). done.
    + exfalso. assert (a = b) by (eapply Hone; eauto). congruence.
    + exfalso. assert (b = a) by (eapply Hone; eauto). congruence.
  - intros r' Hr'. apply sql_update_In in Hr' as (r & Hr & ->).
    destruct (hit r) eqn:E; [|exact (Husr r Hr)].
    destruct (Hrow r Hr E) as (Hst & _ & Hfk). split; done.
Qed.

(** A bulk update that only takes rows out of force keeps the invariant. *)
Lemma deactivate_wf (db : StateDB) (p : UserSubscription -> bool) (st : string) :
  (st ==s SubscriptionStatusActive) = false -> subscription_status_valid st = true -> subs_wf db ->
  subs_wf (set_user_subscriptions
             (sql_update p (UserSubscription.with_Status st) (user_subscriptions db)) db).
Proof.
  intros Hst Hval [Hids Hact Husr]. split; simpl.
  - rewrite sql_update_map by done. exact Hids.
  - intros a' b' Ha' Hb' Haa Hab Hu.
    apply sql_update_In in Ha' as (a & Ha & ->), Hb' as (b & Hb & ->).
    destruct (p a); [unfold is_active in Haa; simpl in Haa; congruence|].
    destruct (p b); [unfold is_active in Hab; simpl in Hab; congruence|]. auto.
  - intros r' Hr'. apply sql_update_In in Hr' as (r & Hr & ->).
    destruct (p r); [split; [done|apply (Husr r Hr)]|apply (Husr r Hr)].
Qed.

Lemma subs_wf_mono (db db' : StateDB) :
  subs_wf db -> user_subscriptions db' = user_subscriptions db ->
  (forall u, user_exists u db = true -> user_exists u db' = true) ->
  (forall p, plan_exists p db = true -> plan_exists p db' = true) -> subs_wf db'.
Proof.
  intros [Hids Hact Hrow] Hs Hu Hp. split; rewrite ?Hs; auto.
  intros s Hin. eapply row_ok_mono; eauto.
Qed.

Lemma subs_wf_frame (db db' : StateDB) :
  subs_wf db -> users db' = users db -> plans db' = plans db ->
  user_subscriptions db' = user_subscriptions db -> subs_wf db'.
Proof.
  intros W Hu Hp Hs. apply (subs_wf_mono db); [done|done|..]; intros x;
  unfold user_exists, plan_exists; rewrite ?Hu, ?Hp; done.
Qed.

Lemma not_found_if_absent_ok (id : string) (n : nat) (x : unit) (db db' : StateDB) :
  not_found_if_absent id n db = Ok (x, db') -> db' = db.
Proof. unfold not_found_if_absent. intros H. tx_invert. done. Qed.

Lemma insert_user_wf (u : User) (x : unit) (db db' : StateDB) :
  subs_wf db -> insert_user_tx u db = Ok (x, db') -> subs_wf db'.
Proof.
  intros W H. unfold insert_user_tx in H. tx_invert.
  apply (subs_wf_mono db); [done|done| |done]. intros v Hv.
  unfold user_exists in *. simpl. rewrite existsb_app, Hv. done.
Qed.

Lemma DeleteUser_subs_wf (id : string) (db : StateDB) :
  subs_wf db -> subs_wf (snd (DeleteUser id db)).
Proof.
  intros W. by_commit.
  destruct W as [Hids Hact Husr]. split; simpl.
  - apply NoDup_map_filter. done.
  - intros a b Ha Hb. apply sql_where_In in Ha as [Ha _], Hb as [Hb _]. auto.
  - intros s Hs. apply sql_where_In in Hs as [Hs Hne]. destruct (Husr s Hs) as [H1 H2].
    split; [done|]. unfold subscription_fk_ok in *. apply andb_true_iff in H2 as [Hu Hp].
    apply andb_true_iff. split; [|exact Hp].
    apply user_exists_spec in Hu as (u & Hu & E). apply user_exists_spec. simpl.
    exists u. split; [|done]. apply sql_where_In. rewrite E. auto.
Qed.

Lemma DeletePlan_subs_wf (id : string) (db : StateDB) :
  subs_wf db -> subs_wf (snd (DeletePlan id db)).
Proof.
  intros W. by_commit.
  destruct W as [Hids Hact Husr]. split; simpl.
  - rewrite sql_update_map by done. exact Hids.
  - intros a' b' Ha' Hb' Haa Hab Hu.
    apply sql_update_In in Ha' as (a & Ha & ->), Hb' as (b & Hb & ->).
    assert (a = b) as ->; [|done]. 
    revert Haa Hab Hu. repeat destruct (_ ==s id); exact (Hact a b Ha Hb).
  - intros r' Hr'. apply sql_update_In in Hr' as (r & Hr & ->). destruct (Husr r Hr) as [H1 H2].
    destruct (UserSubscription.PlanID r ==s id) eqn:E; split; try done;
      unfold subscription_fk_ok in *; apply andb_true_iff in H2 as [Hu Hp]; apply andb_true_iff;
      (split; [exact Hu|]); [done|].
    apply orb_true_iff in Hp as [Hp|Hp]; [rewrite Hp; done|].
    apply orb_true_iff. right. unfold plan_exists in *. apply List.existsb_exists in Hp as (p & Hp & Ei).
    apply List.existsb_exists. exists p. split; [|done]. apply sql_where_In. split; [done|].
    apply eqb_s_true in Ei. rewrite Ei, E. done.
Qed.

Lemma UpsertPlan_subs_wf (p : Plan) (db : StateDB) :
  subs_wf db -> subs_wf (snd (UpsertPlan p db)).
Proof.
  intros W. by_commit; (apply (subs_wf_mono db); [done|done|done|]); intros x Hx; unfold plan_exists in *;
    simpl; [|rewrite existsb_app, Hx; done].
  apply List.existsb_exists in Hx as (r & Hr & E). apply List.existsb_exists.
  exists (if Plan.ID r ==s Plan.ID p then with_CreatedAt (Plan.CreatedAtNs r) (plan_row p) else r).
  split; [apply sql_update_In; eauto|].
  destruct (Plan.ID r ==s Plan.ID p) eqn:Ei; [|done]. bool_prop. simpl. rewrite <- Ei. apply eqb_s_true. done.
Qed.

Lemma UpsertUserSubscription_subs_wf (s : UserSubscription) (db : StateDB) :
  subs_wf db -> subs_wf (snd (UpsertUserSubscription s db)).
Proof.
  intros W. by_commit.
  - eapply update_subscription_wf; [|exact W|eassumption]. done.
  - eapply insert_subscription_wf; eauto.
Qed.

Lemma UpdateUserSubscriptionTerms_subs_wf (s : UserSubscription) (db : StateDB) :
  subs_wf db -> subs_wf (snd (UpdateUserSubscriptionTerms s db)).
Proof.
  intros W. by_commit.
  match goal with H : not_found_if_absent _ _ _ = _ |- _ =>
    apply not_found_if_absent_ok in H as -> end.
  eapply update_subscription_wf; [|exact W|eassumption]. done.
Qed.

Lemma AddSubscriptionUsedBytes_subs_wf (id : string) (delta : Z) (db : StateDB) :
  subs_wf db -> subs_wf (snd (AddSubscriptionUsedBytes id delta db)).
Proof.
  intros W. by_commit.
  eapply update_subscription_wf; [|exact W|eassumption]. done.
Qed.

Lemma ResetSubscriptionPeriod_subs_wf (id : string) (from to : Z) (db : StateDB) :
  subs_wf db -> subs_wf (snd (ResetSubscriptionPeriod id from to db)).
Proof.
  intros W. by_commit.
  - eapply update_subscription_wf; [|exact W|eassumption]. done.
  - match goal with H : not_found_if_absent _ _ _ = _ |- _ =>
      apply not_found_if_absent_ok in H as -> end.
    eapply update_subscription_wf; [|exact W|eassumption]. done.
Qed.

Lemma RevokeUserSubscription_subs_wf (id : string) (db : StateDB) :
  subs_wf db -> subs_wf (snd (RevokeUserSubscription id db)).
Proof.
  intros W. by_commit.
  match goal with H : not_found_if_absent _ _ _ = _ |- _ =>
    apply not_found_if_absent_ok in H as -> end.
  eapply update_subscription_wf; [|exact W|eassumption]. done.
Qed.

Lemma ExpireStaleSubscriptions_subs_wf (nowNs : Z) (db : StateDB) :
  subs_wf db -> subs_wf (snd (ExpireStaleSubscriptions nowNs db)).
Proof.
  intros W. by_commit.
  apply deactivate_wf; done.
Qed.

#[export] Hint Resolve DeleteUser_subs_wf DeletePlan_subs_wf UpsertUserSubscription_subs_wf
  UpdateUserSubscriptionTerms_subs_wf AddSubscriptionUsedBytes_subs_wf
  ResetSubscriptionPeriod_subs_wf RevokeUserSubscription_subs_wf
  ExpireStaleSubscriptions_subs_wf : prism.

Lemma emptyDB_subs_wf : subs_wf emptyDB.
Proof. split; simpl; [apply NoDup_nil_2|done|done]. Qed.
