(* ===== verification/Ledger.v ===== *)
(** * Money: balances, redeem codes, purchases, renewals and invites

    The statements and methods of [repo_balance.go], [repo_redeem_code.go],
    [repo_purchase.go] and [repo_invite.go].  Amounts are int64 micro-units and
    their sums wrap as Go's do; used_count columns are added by SQLite, exactly
    within the 64-bit range. *)

From stdpp Require Import base gmap strings list.
From S2P Require Import Prelude Model Store.

(** ** Statements *)

(** SELECT balance_micro FROM user_balance WHERE user_id = ?; no row is 0. *)
Definition balance_of (userID : string) (db : StateDB) : Z :=
  match user_balance db !! userID with
  | Some row => balance_micro row
  | None => 0
  end.

Definition balanceForUpdate (userID : string) : DbTx Z := fun db => Ok (balance_of userID db, db).

(** INSERT INTO user_balance ... ON CONFLICT(user_id) DO UPDATE; user_id
    REFERENCES users(id). *)
Definition upsert_user_balance (userID : string) (after atNs : Z) : DbTx unit := fun db =>
  if user_exists userID db
  then Ok (tt, set_user_balance (<[userID := mkBalanceRow after atNs]> (user_balance db)) db)
  else Err ErrSQL.

(** The unique indexes of balance_ledger: (user_id, request_id) where the
    request id is set, and (reason, ref_id) for deposits. *)
Definition same_request (e r : BalanceEntry) : bool :=
  (BalanceEntry.RequestID e <>s "") && (BalanceEntry.RequestID r ==s BalanceEntry.RequestID e)
  && (BalanceEntry.UserID r ==s BalanceEntry.UserID e).

Definition same_deposit (e r : BalanceEntry) : bool :=
  (BalanceEntry.Reason e ==s BalanceReasonDeposit) && (BalanceEntry.RefID e <>s "")
  && (BalanceEntry.Reason r ==s BalanceEntry.Reason e)
  && (BalanceEntry.RefID r ==s BalanceEntry.RefID e).

(** INSERT INTO balance_ledger; a unique index is ErrConflict, the primary key
    is not. *)
Definition insert_balance_ledger (e : BalanceEntry) : DbTx unit := fun db =>
  let t := balance_ledger db in
  if existsb (fun r => BalanceEntry.ID r ==s BalanceEntry.ID e) t then Err ErrSQL
  else if existsb (fun r => same_request e r || same_deposit e r) t then Err ErrConflict
  else Ok (tt, set_balance_ledger (t ++ [e]) db).

(** ** repo_balance.go *)

Definition ApplyBalanceDelta (entry : BalanceEntry) : Method BalanceEntry := transact (
  current ← balanceForUpdate (BalanceEntry.UserID entry);
  let after := add64 current (BalanceEntry.DeltaMicro entry) in
  if after <? 0 then tx_fail ErrInsufficientBalance else
  _ ← upsert_user_balance (BalanceEntry.UserID entry) after (BalanceEntry.CreatedAtNs entry);
  let entry := BalanceEntry.with_BalanceAfter after entry in
  _ ← insert_balance_ledger entry;
  mret entry).

Definition GetBalance (userID : string) (db : StateDB) : Z := balance_of userID db.

(** ORDER BY created_at_ns DESC, id DESC, with LIMIT for a positive limit. *)
Definition newer_entry (a b : BalanceEntry) : bool :=
  (BalanceEntry.CreatedAtNs b <? BalanceEntry.CreatedAtNs a) ||
  ((BalanceEntry.CreatedAtNs b =? BalanceEntry.CreatedAtNs a) &&
   String.leb (BalanceEntry.ID b) (BalanceEntry.ID a)).

Definition ListBalanceLedger (userID : string) (limit : Z) (db : StateDB) : list BalanceEntry :=
  sql_limit limit
    (sort_by newer_entry (sql_where (fun e => BalanceEntry.UserID e ==s userID) (balance_ledger db))).

Definition request_row (userID requestID : string) (e : BalanceEntry) : bool :=
  (BalanceEntry.UserID e ==s userID) && (BalanceEntry.RequestID e ==s requestID).

Definition GetBalanceEntryByRequest (userID requestID : string) (db : StateDB)
    : res StateErr BalanceEntry :=
  if requestID ==s "" then Err ErrNotFound
  else match sql_first (request_row userID requestID) (balance_ledger db) with
       | Some e => Ok e
       | None => Err ErrNotFound
       end.

(** ** repo_redeem_code.go *)

Definition InsertRedeemCode (code : RedeemCode) : Method unit := transact (fun db =>
  let t := redeem_codes db in
  if existsb (fun r => RedeemCode.ID r ==s RedeemCode.ID code) t then Err ErrSQL
  else if existsb (fun r => RedeemCode.CodeHash r ==s RedeemCode.CodeHash code) t then Err ErrConflict
  else Ok (tt, set_redeem_codes (t ++ [code]) db)).

(** ORDER BY created_at_ns DESC, id *)
Definition ListRedeemCodes (db : StateDB) : list RedeemCode :=
  sort_by (fun a b =>
      (RedeemCode.CreatedAtNs b <? RedeemCode.CreatedAtNs a) ||
      ((RedeemCode.CreatedAtNs b =? RedeemCode.CreatedAtNs a) &&
       String.leb (RedeemCode.ID a) (RedeemCode.ID b)))
    (redeem_codes db).

Definition GetRedeemCodeByHash (codeHash : string) (db : StateDB) : res StateErr RedeemCode :=
  match sql_first (fun c => RedeemCode.CodeHash c ==s codeHash) (redeem_codes db) with
  | Some c => Ok c
  | None => Err ErrNotFound
  end.

Definition DeleteRedeemCode (id : string) : Method unit := transact (fun db =>
  let hit c := RedeemCode.ID c ==s id in
  if (sql_affected hit (redeem_codes db) =? 0)%nat then Err ErrNotFound
  else Ok (tt, set_redeem_codes (sql_where (fun c => negb (hit c)) (redeem_codes db)) db)).

(** The WHERE clause of the claim. *)
Definition code_claimable (codeHash : string) (nowNs : Z) (c : RedeemCode) : bool :=
  (RedeemCode.CodeHash c ==s codeHash)
  && (RedeemCode.Status c ==s RedeemCodeStatusActive)
  && ((RedeemCode.ExpiresAtNs c =? 0) || (nowNs <? RedeemCode.ExpiresAtNs c))
  && ((RedeemCode.MaxUses c =? 0) || (RedeemCode.UsedCount c <? RedeemCode.MaxUses c)).

(** UPDATE redeem_codes SET used_count = used_count + 1 ...; the number of rows
    affected. *)
Definition claim_redeem_code (codeHash : string) (nowNs : Z) : DbTx nat := fun db =>
  let hit := code_claimable codeHash nowNs in
  Ok (sql_affected hit (redeem_codes db),
      set_redeem_codes (sql_update hit (RedeemCode.claim nowNs) (redeem_codes db)) db).

Definition RedeemCodeAndCredit (codeHash : string) (entry : BalanceEntry) (nowNs : Z)
    : Method BalanceEntry := transact (
  n ← claim_redeem_code codeHash nowNs;
  if (n =? 0)%nat then tx_fail ErrNotFound else
  current ← balanceForUpdate (BalanceEntry.UserID entry);
  let after := add64 current (BalanceEntry.DeltaMicro entry) in
  if after <? 0 then tx_fail ErrInsufficientBalance else
  _ ← upsert_user_balance (BalanceEntry.UserID entry) after (BalanceEntry.CreatedAtNs entry);
  let entry := BalanceEntry.with_BalanceAfter after entry in
  _ ← insert_balance_ledger entry;
  mret entry).

Definition CountRedeemCodeUses (codeHash : string) (db : StateDB) : res StateErr Z :=
  match sql_first (fun c => RedeemCode.CodeHash c ==s codeHash) (redeem_codes db) with
  | Some c => Ok (RedeemCode.UsedCount c)
  | None => Err ErrNotFound
  end.

(** ** repo_purchase.go *)

Record PurchaseResult := mkPurchaseResult {
  Entry : BalanceEntry;
  Subscription : UserSubscription;
  Replayed : bool
}.

Definition chargeInTx (entry : BalanceEntry) : DbTx BalanceEntry :=
  current ← balanceForUpdate (BalanceEntry.UserID entry);
  let after := add64 current (BalanceEntry.DeltaMicro entry) in
  if after <? 0 then tx_fail ErrInsufficientBalance else
  _ ← upsert_user_balance (BalanceEntry.UserID entry) after (BalanceEntry.CreatedAtNs entry);
  let entry := BalanceEntry.with_BalanceAfter after entry in
  _ ← insert_balance_ledger entry;
  mret entry.

Definition ledgerEntryByRequest (userID requestID : string) : DbTx (option BalanceEntry) := fun db =>
  Ok (sql_first (request_row userID requestID) (balance_ledger db), db).

(** No active subscription reads as the zero row. *)
Definition activeSubscriptionTx (userID : string) : DbTx UserSubscription := fun db =>
  Ok (default UserSubscription.zero (sql_first (active_of userID) (user_subscriptions db)), db).

(** The settled row a request id already has; an empty id has none. *)
Definition settledRequest (entry : BalanceEntry) : DbTx (option BalanceEntry) :=
  if BalanceEntry.RequestID entry <>s "" then
    ledgerEntryByRequest (BalanceEntry.UserID entry) (BalanceEntry.RequestID entry)
  else mret None.

(** UPDATE user_subscriptions SET status = 'expired' WHERE user_id = ? AND
    status = 'active'; it only releases slots of the active index. *)
Definition expire_active (userID : string) : DbTx unit := tx_modify (fun db =>
  set_user_subscriptions
    (sql_update (active_of userID) (UserSubscription.with_Status SubscriptionStatusExpired)
       (user_subscriptions db)) db).

Definition PurchasePlanWithBalance (sub : UserSubscription) (entry : BalanceEntry) (nowNs : Z)
    : Method PurchaseResult := transact (
  settled ← settledRequest entry;
  match settled with
  | Some prior =>
      current ← activeSubscriptionTx (BalanceEntry.UserID entry);
      mret (mkPurchaseResult prior current true)
  | None =>
      entry ← chargeInTx entry;
      _ ← expire_active (BalanceEntry.UserID entry);
      let snapshot := snapshot_or_braces (UserSubscription.PlanSnapshotJSON sub) in
      let sub := UserSubscription.with_Status (status_or_active (UserSubscription.Status sub)) sub in
      _ ← insert_subscription (UserSubscription.with_Snapshot snapshot sub);
      mret (mkPurchaseResult entry sub false)
  end).

(** A constraint failure the caller does not look into. *)
Definition as_sql_error {A} (m : DbTx A) : DbTx A := fun db =>
  match m db with
  | Ok r => Ok r
  | Err _ => Err ErrSQL
  end.

(** The SET list of a renewal. *)
Definition renewed_row (sub r : UserSubscription) : UserSubscription :=
  UserSubscription.mkUserSubscription (UserSubscription.ID r) (UserSubscription.UserID r)
    (UserSubscription.PlanID r) (snapshot_or_braces (UserSubscription.PlanSnapshotJSON sub))
    (UserSubscription.StartsAtNs r) (UserSubscription.ExpiresAtNs sub)
    (UserSubscription.PeriodStartNs sub) 0 (UserSubscription.AutoRenew r)
    (UserSubscription.PeriodIndex sub) SubscriptionStatusActive.

Definition RenewSubscriptionWithBalance (sub : UserSubscription) (expectedPeriodIndex : Z)
    (entry : BalanceEntry) : Method PurchaseResult := transact (
  settled ← settledRequest entry;
  match settled with
  | Some prior =>
      current ← activeSubscriptionTx (BalanceEntry.UserID entry);
      mret (mkPurchaseResult prior current true)
  | None =>
      entry ← chargeInTx entry;
      n ← as_sql_error (update_subscription (UserSubscription.ID sub)
            (fun r => UserSubscription.PeriodIndex r =? expectedPeriodIndex) (renewed_row sub));
      if (n =? 0)%nat then tx_fail ErrConflict else
      mret (mkPurchaseResult entry sub false)
  end).

Definition SetSubscriptionAutoRenew (id : string) (autoRenew : bool) : Method unit := transact (
  n ← update_subscription id (fun _ => true) (UserSubscription.with_AutoRenew autoRenew);
  not_found_if_absent id n).

Definition renewable (nowNs withinNs : Z) (s : UserSubscription) : bool :=
  is_active s && UserSubscription.AutoRenew s && (0 <? UserSubscription.ExpiresAtNs s)
  && (UserSubscription.ExpiresAtNs s <=? add64 nowNs withinNs).

Definition ListRenewableSubscriptions (nowNs withinNs : Z) (db : StateDB) : list UserSubscription :=
  sort_by (fun a b => UserSubscription.ExpiresAtNs a <=? UserSubscription.ExpiresAtNs b)
    (sql_where (renewable nowNs withinNs) (user_subscriptions db)).

(** ** repo_invite.go *)

Definition InsertInvite (inv : Invite) : Method unit := transact (fun db =>
  let t := invites db in
  if existsb (fun r => Invite.ID r ==s Invite.ID inv) t then Err ErrSQL
  else if existsb (fun r => Invite.Code r ==s Invite.Code inv) t then Err ErrConflict
  else Ok (tt, set_invites (t ++ [inv]) db)).

Definition GetInviteByCode (code : string) (db : StateDB) : res StateErr Invite :=
  match sql_first (fun i => Invite.Code i ==s code) (invites db) with
  | Some i => Ok i
  | None => Err ErrNotFound
  end.

Definition GetInvite (id : string) (db : StateDB) : res StateErr Invite :=
  match sql_first (fun i => Invite.ID i ==s id) (invites db) with
  | Some i => Ok i
  | None => Err ErrNotFound
  end.

(** ORDER BY created_at_ns DESC, id *)
Definition ListInvites (db : StateDB) : list Invite :=
  sort_by (fun a b => (Invite.CreatedAtNs b <? Invite.CreatedAtNs a)
      || ((Invite.CreatedAtNs b =? Invite.CreatedAtNs a) && String.leb (Invite.ID a) (Invite.ID b))) (invites db).

Definition DeleteInvite (id : string) : Method unit := transact (fun db =>
  let hit i := Invite.ID i ==s id in
  if (sql_affected hit (invites db) =? 0)%nat then Err ErrNotFound
  else Ok (tt, set_invites (sql_where (fun i => negb (hit i)) (invites db)) db)).

Definition invite_claimable (code : string) (nowNs : Z) (i : Invite) : bool :=
  (Invite.Code i ==s code)
  && (Invite.Status i ==s InviteStatusActive)
  && ((Invite.ExpiresAtNs i =? 0) || (nowNs <? Invite.ExpiresAtNs i))
  && ((Invite.MaxUses i =? 0) || (Invite.UsedCount i <? Invite.MaxUses i)).

Definition claim_invite (code : string) (nowNs : Z) : DbTx nat := fun db =>
  let hit := invite_claimable code nowNs in
  Ok (sql_affected hit (invites db),
      set_invites (sql_update hit (Invite.claim nowNs) (invites db)) db).

Definition getInviteByCodeLocked (code : string) : DbTx Invite := fun db =>
  match GetInviteByCode code db with
  | Ok i => Ok (i, db)
  | Err e => Err e
  end.

Definition RedeemInviteByCode (code : string) (nowNs : Z) : Method Invite := transact (
  n ← claim_invite code nowNs;
  if (n =? 0)%nat then tx_fail ErrNotFound else getInviteByCodeLocked code).

Definition RedeemInviteAndInsertUser (code : string) (nowNs : Z) (u : User) : Method Invite := transact (
  n ← claim_invite code nowNs;
  if (n =? 0)%nat then tx_fail ErrNotFound else
  _ ← insert_user_tx u;
  as_sql_error (getInviteByCodeLocked code)).

(** ** The ledger invariant

    The sum of a user's movements in a prefix of the ledger. *)
Definition movements (userID : string) (l : list BalanceEntry) : Z :=
  sum_by (fun e => if BalanceEntry.UserID e ==s userID then BalanceEntry.DeltaMicro e else 0) l.

(** Money is well formed when the stored balance of every account is the sum
    of its movements and never negative, every ledger row records the running
    sum at its position, an account without a balance row has no movements,
    and no movement was recorded twice. *)
Record money_wf (db : StateDB) : Prop := {
  mw_balance : forall u row, user_balance db !! u = Some row ->
    balance_micro row = movements u (balance_ledger db) /\
    0 <= balance_micro row <= int64_max /\ user_exists u db = true;
  mw_fresh : forall u, user_exists u db = true -> user_balance db !! u = None ->
    forall e, In e (balance_ledger db) -> BalanceEntry.UserID e <> u;
  mw_after : forall pre e post, balance_ledger db = pre ++ e :: post ->
    BalanceEntry.BalanceAfterMicro e = movements (BalanceEntry.UserID e) (pre ++ [e]) /\
    0 <= BalanceEntry.BalanceAfterMicro e <= int64_max;
  mw_once : forall pre e post, balance_ledger db = pre ++ e :: post ->
    forall r, In r pre -> BalanceEntry.ID r <> BalanceEntry.ID e /\
      same_request e r = false /\ same_deposit e r = false
}.

(** The store after a movement [e] that leaves the account at [after]. *)
Definition posted (e : BalanceEntry) (atNs : Z) (db : StateDB) : StateDB :=
  set_balance_ledger (balance_ledger db ++ [e])
    (set_user_balance
       (<[BalanceEntry.UserID e := mkBalanceRow (BalanceEntry.BalanceAfterMicro e) atNs]>
          (user_balance db)) db).

(** No row of the ledger collides with [e] under its primary key or its unique
    indexes. *)
Definition unclaimed (e : BalanceEntry) (l : list BalanceEntry) : Prop :=
  forall r, In r l -> BalanceEntry.ID r <> BalanceEntry.ID e /\
    same_request e r = false /\ same_deposit e r = false.

Lemma movements_snoc (u : string) (l : list BalanceEntry) (e : BalanceEntry) :
  movements u (l ++ [e]) =
  movements u l + (if BalanceEntry.UserID e ==s u then BalanceEntry.DeltaMicro e else 0).
Proof. unfold movements. rewrite sum_by_app. simpl. lia. Qed.

Lemma movements_none (u : string) (l : list BalanceEntry) :
  (forall e, In e l -> BalanceEntry.UserID e <> u) -> movements u l = 0.
Proof.
  intros H. apply sum_by_zero. intros e He. apply H, eqb_s_false in He. rewrite He. done.
Qed.

(** A balance is what the account's movements add up to, with or without a
    balance row. *)
Lemma balance_of_movements (db : StateDB) (u : string) :
  money_wf db -> user_exists u db = true ->
  balance_of u db = movements u (balance_ledger db) /\ 0 <= balance_of u db <= int64_max.
Proof.
  intros W Hu. unfold balance_of. destruct (user_balance db !! u) as [row|] eqn:E.
  - destruct (mw_balance db W u row E) as (-> & ? & _).
    destruct (mw_balance db W u row E) as (Hb & ? & _). rewrite <- Hb. auto.
  - rewrite movements_none; [int64_unfold; lia|]. intros e. apply (mw_fresh db W u Hu E).
Qed.

(** Recording one movement: the step every credit and charge shares. *)
Lemma posted_wf (db : StateDB) (e : BalanceEntry) (atNs : Z) :
  money_wf db -> user_exists (BalanceEntry.UserID e) db = true ->
  unclaimed e (balance_ledger db) ->
  BalanceEntry.BalanceAfterMicro e =
    balance_of (BalanceEntry.UserID e) db + BalanceEntry.DeltaMicro e ->
  0 <= BalanceEntry.BalanceAfterMicro e <= int64_max ->
  money_wf (posted e atNs db).
Proof.
  intros W Hu Hun Hafter Hrange.
  destruct (balance_of_movements db _ W Hu) as [Hb _].
  assert (Hsum : BalanceEntry.BalanceAfterMicro e =
                 movements (BalanceEntry.UserID e) (balance_ledger db ++ [e])).
  { rewrite movements_snoc, eqb_s_refl. lia. }
  split; simpl.
  - intros u row Hrow. destruct (decide (u = BalanceEntry.UserID e)) as [->|Hne].
    + rewrite lookup_insert_eq in Hrow. injection Hrow as <-. simpl. auto.
    + rewrite lookup_insert_ne in Hrow by done.
      destruct (mw_balance db W u row Hrow) as (E & ? & ?).
      rewrite movements_snoc, (proj2 (eqb_s_false (BalanceEntry.UserID e) u)) by congruence. rewrite Z.add_0_r. auto.
  - intros u Hex Hnone e' He'. destruct (decide (u = BalanceEntry.UserID e)) as [->|Hne].
    + rewrite lookup_insert_eq in Hnone. done.
    + rewrite lookup_insert_ne in Hnone by done.
      apply in_app_iff in He' as [He'|[<-|[]]]; [|auto]. eapply (mw_fresh db W); eauto.
  - intros pre e' post Hsplit.
    apply snoc_split in Hsplit as [(post' & Hl & ->)|(-> & -> & ->)]; [|auto].
    eapply (mw_after db W); eauto.
  - intros pre e' post Hsplit r Hr.
    apply snoc_split in Hsplit as [(post' & Hl & ->)|(-> & -> & ->)]; [|auto].
    eapply (mw_once db W); eauto.
Qed.

(** The invariant reads three tables only. *)
Lemma money_wf_frame (db db' : StateDB) :
  money_wf db -> users db' = users db -> user_balance db' = user_balance db ->
  balance_ledger db' = balance_ledger db -> money_wf db'.
Proof.
  intros W Hu Hb Hl.
  assert (forall u, user_exists u db' = user_exists u db) as Hx
    by (intros u; unfold user_exists; rewrite Hu; done).
  split.
  - intros u row. rewrite Hb, Hl, Hx. apply (mw_balance db W).
  - intros u. rewrite Hb, Hl, Hx. apply (mw_fresh db W).
  - intros pre e post. rewrite Hl. apply (mw_after db W).
  - intros pre e post. rewrite Hl. apply (mw_once db W).
Qed.

Lemma upsert_user_balance_ok (u : string) (after atNs : Z) (x : unit) (db db' : StateDB) :
  upsert_user_balance u after atNs db = Ok (x, db') ->
  user_exists u db = true /\
  db' = set_user_balance (<[u := mkBalanceRow after atNs]> (user_balance db)) db.
Proof. unfold upsert_user_balance. intros H. tx_invert. auto. Qed.

Lemma insert_balance_ledger_ok (e : BalanceEntry) (x : unit) (db db' : StateDB) :
  insert_balance_ledger e db = Ok (x, db') ->
  unclaimed e (balance_ledger db) /\
  db' = set_balance_ledger (balance_ledger db ++ [e]) db.
Proof.
  unfold insert_balance_ledger. intros H. tx_invert. split; [|done].
  bool_prop. intros r Hr.
  repeat match goal with H : forall r, In r _ -> _ |- _ => specialize (H r Hr) end.
  bool_prop. auto.
Qed.

(** The shape of a successful charge. *)
Lemma chargeInTx_ok (entry e : BalanceEntry) (db db' : StateDB) :
  chargeInTx entry db = Ok (e, db') ->
  let u := BalanceEntry.UserID entry in
  let after := add64 (balance_of u db) (BalanceEntry.DeltaMicro entry) in
  0 <= after /\ user_exists u db = true /\
  e = BalanceEntry.with_BalanceAfter after entry /\
  unclaimed e (balance_ledger db) /\
  db' = posted e (BalanceEntry.CreatedAtNs entry) db.
Proof.
  unfold chargeInTx, balanceForUpdate. intros H. tx_invert.
  match goal with H : upsert_user_balance _ _ _ _ = _ |- _ =>
    apply upsert_user_balance_ok in H as [? ->] end.
  match goal with H : insert_balance_ledger _ _ = _ |- _ =>
    apply insert_balance_ledger_ok in H as [? ->] end.
  bool_prop. auto.
Qed.

Lemma chargeInTx_wf (entry e : BalanceEntry) (db db' : StateDB) :
  money_wf db -> in_int64 (BalanceEntry.DeltaMicro entry) ->
  chargeInTx entry db = Ok (e, db') -> money_wf db'.
Proof.
  intros W Hd H. apply chargeInTx_ok in H as (Ha & Hu & -> & Hun & ->).
  destruct (balance_of_movements db _ W Hu) as [_ Hb].
  apply posted_wf; simpl; auto.
  - apply add64_nonneg_exact; auto.
  - split; [done|]. apply wrap64_in.
Qed.

(** The three copies of the charge sequence in the code are one transaction. *)
Lemma ApplyBalanceDelta_charge (entry : BalanceEntry) (db : StateDB) :
  ApplyBalanceDelta entry db = transact (chargeInTx entry) db.
Proof. reflexivity. Qed.

(** A movement that is written reaches only its own account. *)
Lemma posted_other (e : BalanceEntry) (atNs : Z) (db : StateDB) (u : string) :
  u <> BalanceEntry.UserID e -> balance_of u (posted e atNs db) = balance_of u db.
Proof. intros H. unfold balance_of. simpl. rewrite lookup_insert_ne by congruence. done. Qed.

Lemma posted_own (e : BalanceEntry) (atNs : Z) (db : StateDB) :
  balance_of (BalanceEntry.UserID e) (posted e atNs db) = BalanceEntry.BalanceAfterMicro e.
Proof. unfold balance_of. simpl. rewrite lookup_insert_eq. done. Qed.

Lemma RedeemCodeAndCredit_ok (codeHash : string) (entry e : BalanceEntry) (nowNs : Z)
    (db db' : StateDB) :
  RedeemCodeAndCredit codeHash entry nowNs db = (Ok e, db') ->
  (exists c, In c (redeem_codes db) /\ code_claimable codeHash nowNs c = true) /\
  exists db1,
    db1 = set_redeem_codes (sql_update (code_claimable codeHash nowNs) (RedeemCode.claim nowNs)
                              (redeem_codes db)) db /\
    chargeInTx entry db1 = Ok (e, db').
Proof.
  intros H. apply transact_ok in H. unfold claim_redeem_code in H.
  apply tx_bind_ok in H as (n & db1 & [= <- <-] & H).
  destruct (_ =? 0)%nat eqn:E; [done|]. bool_prop. apply sql_affected_pos in E.
  split; [done|]. eauto.
Qed.

Lemma RedeemCodeAndCredit_money_wf (codeHash : string) (entry : BalanceEntry) (nowNs : Z)
    (db : StateDB) :
  in_int64 (BalanceEntry.DeltaMicro entry) ->
  money_wf db -> money_wf (snd (RedeemCodeAndCredit codeHash entry nowNs db)).
Proof.
  intros Hd W. destruct (RedeemCodeAndCredit _ _ _ db) as [[e|err] db'] eqn:E; simpl.
  - apply RedeemCodeAndCredit_ok in E as (_ & db1 & -> & H).
    eapply chargeInTx_wf; [|exact Hd|exact H]. eapply money_wf_frame; eauto.
  - apply transact_err in E as [-> _]. done.
Qed.

(** The charge of a purchase or a renewal, and what follows it. *)
Lemma PurchasePlanWithBalance_ok (sub : UserSubscription) (entry : BalanceEntry) (nowNs : Z)
    (r : PurchaseResult) (db db' : StateDB) :
  PurchasePlanWithBalance sub entry nowNs db = (Ok r, db') ->
  (Replayed r = true /\ db' = db /\ BalanceEntry.RequestID entry <> "" /\
   sql_first (request_row (BalanceEntry.UserID entry) (BalanceEntry.RequestID entry))
     (balance_ledger db) = Some (Entry r)) \/
  (Replayed r = false /\
   (BalanceEntry.RequestID entry <> "" ->
    sql_first (request_row (BalanceEntry.UserID entry) (BalanceEntry.RequestID entry))
      (balance_ledger db) = None) /\
   exists db1 x row,
     row = UserSubscription.with_Snapshot
             (snapshot_or_braces (UserSubscription.PlanSnapshotJSON sub))
             (UserSubscription.with_Status (status_or_active (UserSubscription.Status sub)) sub) /\
     chargeInTx entry db = Ok (Entry r, db1) /\
     insert_subscription row
       (set_user_subscriptions
          (sql_update (active_of (BalanceEntry.UserID (Entry r)))
             (UserSubscription.with_Status SubscriptionStatusExpired) (user_subscriptions db1)) db1)
     = Ok (x, db')).
Proof.
  intros H. apply transact_ok in H. unfold settledRequest in H.
  apply tx_bind_ok in H as (settled & db0 & Hs & H).
  assert (db0 = db) as -> by (destruct (_ <>s _); injection Hs as <- <-; done).
  destruct settled as [prior|].
  - left. destruct (_ <>s _) eqn:Er; [|done]. bool_prop. injection Hs as Hs.
    unfold activeSubscriptionTx in H. tx_invert. auto.
  - right. split; [tx_invert; done|]. split.
    + intros Hr. apply eqb_s_false in Hr. rewrite Hr in Hs. simpl in Hs.
      injection Hs as Hs. done.
    + clear Hs. unfold expire_active in H. tx_invert.
      do 3 eexists. split_and!; [reflexivity|eassumption|eassumption].
Qed.

Lemma PurchasePlanWithBalance_wf (sub : UserSubscription) (entry : BalanceEntry) (nowNs : Z)
    (db : StateDB) :
  in_int64 (BalanceEntry.DeltaMicro entry) -> money_wf db -> subs_wf db ->
  money_wf (snd (PurchasePlanWithBalance sub entry nowNs db)) /\
  subs_wf (snd (PurchasePlanWithBalance sub entry nowNs db)).
Proof.
  intros Hd W S. destruct (PurchasePlanWithBalance _ _ _ db) as [[r|err] db'] eqn:E; simpl.
  2: { apply transact_err in E as [-> _]. done. }
  apply PurchasePlanWithBalance_ok in E
    as [(_ & -> & _)|(_ & _ & db1 & x & row & _ & Hc & Hi)]; [done|].
  assert (money_wf db1) as W1 by (eapply chargeInTx_wf; eauto).
  assert (subs_wf db1) as S1.
  { apply chargeInTx_ok in Hc as (_ & _ & _ & _ & ->). eapply subs_wf_frame; eauto. }
  pose proof Hi as Hi'. apply insert_subscription_ok in Hi' as (-> & _). split.
  - eapply money_wf_frame; eauto.
  - eapply insert_subscription_wf; [|exact Hi]. apply deactivate_wf; done.
Qed.

Lemma as_sql_error_ok {A} (m : DbTx A) (a : A) (db db' : StateDB) :
  as_sql_error m db = Ok (a, db') -> m db = Ok (a, db').
Proof. unfold as_sql_error. destruct (m db); done. Qed.

Lemma RenewSubscriptionWithBalance_ok (sub : UserSubscription) (idx : Z) (entry : BalanceEntry)
    (r : PurchaseResult) (db db' : StateDB) :
  RenewSubscriptionWithBalance sub idx entry db = (Ok r, db') ->
  (Replayed r = true /\ db' = db /\ BalanceEntry.RequestID entry <> "" /\
   sql_first (request_row (BalanceEntry.UserID entry) (BalanceEntry.RequestID entry))
     (balance_ledger db) = Some (Entry r)) \/
  (Replayed r = false /\ Subscription r = sub /\
   exists db1 n,
     chargeInTx entry db = Ok (Entry r, db1) /\ n <> O /\
     update_subscription (UserSubscription.ID sub)
       (fun s => UserSubscription.PeriodIndex s =? idx) (renewed_row sub) db1 = Ok (n, db')).
Proof.
  intros H. apply transact_ok in H. unfold settledRequest in H.
  apply tx_bind_ok in H as (settled & db0 & Hs & H).
  assert (db0 = db) as -> by (destruct (_ <>s _); injection Hs as <- <-; done).
  destruct settled as [prior|].
  - left. destruct (_ <>s _) eqn:Er; [|done]. bool_prop. injection Hs as Hs.
    unfold activeSubscriptionTx in H. tx_invert. auto.
  - right. clear Hs. tx_invert. bool_prop.
    match goal with H : as_sql_error _ _ = _ |- _ => apply as_sql_error_ok in H end.
    split_and!; [done|done|]. do 2 eexists. split_and!; eassumption.
Qed.

Lemma RenewSubscriptionWithBalance_wf (sub : UserSubscription) (idx : Z) (entry : BalanceEntry)
    (db : StateDB) :
  in_int64 (BalanceEntry.DeltaMicro entry) -> money_wf db -> subs_wf db ->
  money_wf (snd (RenewSubscriptionWithBalance sub idx entry db)) /\
  subs_wf (snd (RenewSubscriptionWithBalance sub idx entry db)).
Proof.
  intros Hd W S. destruct (RenewSubscriptionWithBalance _ _ _ db) as [[r|err] db'] eqn:E; simpl.
  2: { apply transact_err in E as [-> _]. done. }
  apply RenewSubscriptionWithBalance_ok in E as [(_ & -> & _)|(_ & _ & db1 & n & Hc & _ & Hu)];
    [done|].
  assert (money_wf db1) as W1 by (eapply chargeInTx_wf; eauto).
  assert (subs_wf db1) as S1.
  { apply chargeInTx_ok in Hc as (_ & _ & _ & _ & ->). eapply subs_wf_frame; eauto. }
  pose proof Hu as Hu'. apply update_subscription_ok in Hu' as (_ & -> & _). split.
  - eapply money_wf_frame; eauto.
  - eapply update_subscription_wf; [|exact S1|exact Hu]. done.
Qed.

(** ** Idempotent requests *)

(** A request that is settled finds its own row first, whatever was appended
    to the ledger since. *)
Lemma settled_first (entry e : BalanceEntry) (l k : list BalanceEntry) :
  sql_first (request_row (BalanceEntry.UserID entry) (BalanceEntry.RequestID entry)) l = Some e ->
  sql_first (request_row (BalanceEntry.UserID entry) (BalanceEntry.RequestID entry)) (l ++ k) = Some e.
Proof. intros H. rewrite find_app, H. done. Qed.

Lemma charge_settles (entry e : BalanceEntry) (db db' : StateDB) :
  chargeInTx entry db = Ok (e, db') ->
  sql_first (request_row (BalanceEntry.UserID entry) (BalanceEntry.RequestID entry))
    (balance_ledger db) = None ->
  sql_first (request_row (BalanceEntry.UserID entry) (BalanceEntry.RequestID entry))
    (balance_ledger db') = Some e.
Proof.
  intros H Hn. apply chargeInTx_ok in H as (_ & _ & -> & _ & ->). simpl.
  rewrite find_app, Hn. unfold sql_first, request_row. simpl. rewrite !eqb_s_refl. done.
Qed.

Lemma settledRequest_some (entry e : BalanceEntry) (db : StateDB) :
  BalanceEntry.RequestID entry <> "" ->
  sql_first (request_row (BalanceEntry.UserID entry) (BalanceEntry.RequestID entry))
    (balance_ledger db) = Some e ->
  settledRequest entry db = Ok (Some e, db).
Proof.
  intros Hr Hs. unfold settledRequest. apply eqb_s_false in Hr. rewrite Hr. simpl.
  unfold ledgerEntryByRequest. rewrite Hs. done.
Qed.

(** A purchase that settled under a request id is never charged again: a
    retry with the same user and request id, whatever plan or price it carries
    and however many movements were recorded in between, returns the original
    ledger row marked as replayed and leaves the store untouched. *)
Theorem purchase_retry_replays (sub sub2 : UserSubscription) (entry entry2 : BalanceEntry)
    (nowNs nowNs2 : Z) (r : PurchaseResult) (db db' db2 : StateDB) (k : list BalanceEntry) :
  PurchasePlanWithBalance sub entry nowNs db = (Ok r, db') ->
  BalanceEntry.RequestID entry <> "" ->
  BalanceEntry.UserID entry2 = BalanceEntry.UserID entry ->
  BalanceEntry.RequestID entry2 = BalanceEntry.RequestID entry ->
  balance_ledger db2 = balance_ledger db' ++ k ->
  PurchasePlanWithBalance sub2 entry2 nowNs2 db2 =
    (Ok (mkPurchaseResult (Entry r)
           (default UserSubscription.zero
              (sql_first (active_of (BalanceEntry.UserID entry)) (user_subscriptions db2))) true),
     db2).
Proof.
  intros H Hr Hu Hq Hl.
  assert (sql_first (request_row (BalanceEntry.UserID entry) (BalanceEntry.RequestID entry))
            (balance_ledger db') = Some (Entry r)) as Hs.
  { apply PurchasePlanWithBalance_ok in H
      as [(_ & -> & _ & Hs)|(_ & Hn & db1 & x & row & _ & Hc & Hi)]; [exact Hs|].
    apply insert_subscription_ok in Hi as (-> & _). simpl.
    eapply charge_settles; eauto. }
  apply transact_ok. unfold mbind, tx_bind.
  rewrite (settledRequest_some entry2 (Entry r)); [|congruence|].
  - simpl. unfold activeSubscriptionTx, mret, tx_ret. rewrite Hu. done.
  - rewrite Hl, Hu, Hq. apply settled_first; done.
Qed.

(** ** Purchases and renewals *)

Lemma charge_exact (entry e : BalanceEntry) (db db' : StateDB) :
  money_wf db -> in_int64 (BalanceEntry.DeltaMicro entry) ->
  chargeInTx entry db = Ok (e, db') ->
  let u := BalanceEntry.UserID entry in
  balance_of u db' = balance_of u db + BalanceEntry.DeltaMicro entry /\
  0 <= balance_of u db' /\
  (forall u', u' <> u -> balance_of u' db' = balance_of u' db) /\
  balance_ledger db' = balance_ledger db ++ [e] /\
  user_subscriptions db' = user_subscriptions db /\
  BalanceEntry.UserID e = u.
Proof.
  intros W Hd H. apply chargeInTx_ok in H as (Ha & Hu & -> & _ & ->).
  destruct (balance_of_movements db _ W Hu) as [_ Hb]. simpl.
  set (e := BalanceEntry.with_BalanceAfter _ entry).
  pose proof (posted_own e (BalanceEntry.CreatedAtNs entry) db) as Hown. simpl in Hown.
  pose proof (add64_nonneg_exact _ _ Hb Hd Ha) as Hex.
  rewrite Hown. split_and!; auto.
  intros u' Hne. apply posted_other. done.
Qed.

(** C13: A purchase that goes through charges the account exactly the entry's
    amount and nobody else, writes exactly one ledger row, and leaves the new
    subscription as the buyer's only active one; other users' subscriptions are
    as they were. *)
Theorem purchase_charges_and_activates (sub : UserSubscription) (entry : BalanceEntry) (nowNs : Z)
    (r : PurchaseResult) (db db' : StateDB) :
  money_wf db ->
  in_int64 (BalanceEntry.DeltaMicro entry) ->
  UserSubscription.UserID sub = BalanceEntry.UserID entry ->
  UserSubscription.Status sub = SubscriptionStatusActive ->
  PurchasePlanWithBalance sub entry nowNs db = (Ok r, db') ->
  Replayed r = false ->
  let u := BalanceEntry.UserID entry in
  balance_of u db' = balance_of u db + BalanceEntry.DeltaMicro entry /\
  0 <= balance_of u db' /\
  (forall u', u' <> u -> balance_of u' db' = balance_of u' db) /\
  balance_ledger db' = balance_ledger db ++ [Entry r] /\
  (forall s, In s (user_subscriptions db') /\ active_of u s = true <->
     s = UserSubscription.with_Snapshot (snapshot_or_braces (UserSubscription.PlanSnapshotJSON sub)) sub) /\
  (forall s, UserSubscription.UserID s <> u ->
     In s (user_subscriptions db') <-> In s (user_subscriptions db)).
Proof.
  intros W Hd Hsu Hst H Hrep u.
  apply PurchasePlanWithBalance_ok in H as [(Hr & _)|(_ & _ & db1 & x & row & -> & Hc & Hi)];
    [congruence|].
  destruct (charge_exact _ _ _ _ W Hd Hc) as (Hb & H0 & Hoth & Hl & Hs & Hue).
  apply insert_subscription_ok in Hi as (-> & _).
  rewrite Hst. change (status_or_active SubscriptionStatusActive) with SubscriptionStatusActive.
  assert (UserSubscription.with_Status SubscriptionStatusActive sub = sub) as ->.
  { destruct sub; simpl in *. subst. done. }
  simpl. rewrite Hs, Hue. fold u.
  set (row := UserSubscription.with_Snapshot _ sub).
  assert (active_of u row = true) as Hrow.
  { unfold active_of, is_active. simpl. rewrite Hsu, Hst, !eqb_s_refl. done. }
  split_and!; auto; intros s.
  - rewrite in_app_iff, sql_update_In. split.
    + intros [[(s0 & _ & ->)|[<-|[]]] Hact]; [|done].
      exfalso. destruct (active_of u s0) eqn:E; [|congruence].
      unfold active_of, is_active in Hact. simpl in Hact. bool_prop. done.
    + intros ->. split; [right; left; done|done].
  - intros Hne. rewrite in_app_iff, sql_update_In. split.
    + intros [(s0 & Hs0 & ->)|[<-|[]]].
      * destruct (active_of u s0) eqn:E; [|done]. exfalso. apply Hne.
        unfold active_of in E. bool_prop. done.
      * exfalso. apply Hne. exact Hsu.
    + intros Hin. left. exists s. split; [done|].
      destruct (active_of u s) eqn:E; [|done]. exfalso. apply Hne.
      unfold active_of in E. bool_prop. done.
Qed.

(** A renewal that went through leaves no row with that id at the old index. *)
Lemma renew_moves_index (sub : UserSubscription) (idx : Z) (n : nat) (db db' : StateDB) :
  UserSubscription.PeriodIndex sub <> idx ->
  update_subscription (UserSubscription.ID sub)
    (fun s => UserSubscription.PeriodIndex s =? idx) (renewed_row sub) db = Ok (n, db') ->
  forall s, In s (user_subscriptions db') ->
    (UserSubscription.ID s ==s UserSubscription.ID sub) && (UserSubscription.PeriodIndex s =? idx)
    = false.
Proof.
  intros Hne H s Hs. apply update_subscription_ok in H as (_ & -> & _). simpl in Hs.
  apply sql_update_In in Hs as (s0 & _ & ->).
  destruct ((UserSubscription.ID s0 ==s UserSubscription.ID sub) && _) eqn:E; [|exact E].
  simpl. apply Z.eqb_neq in Hne. rewrite Hne. apply andb_false_r.
Qed.

(** One period is bought once: after a renewal from period index [idx]
    went through, a second renewal of the same subscription that still expects
    [idx] (another writer, or a button pressed while the sweep ran) is refused,
    and neither the balance nor anything else moves. *)
Theorem renewal_of_a_period_happens_once (sub sub2 : UserSubscription) (idx : Z)
    (entry entry2 : BalanceEntry) (r : PurchaseResult) (db db' : StateDB) :
  RenewSubscriptionWithBalance sub idx entry db = (Ok r, db') ->
  Replayed r = false ->
  UserSubscription.PeriodIndex sub <> idx ->
  UserSubscription.ID sub2 = UserSubscription.ID sub ->
  GetBalanceEntryByRequest (BalanceEntry.UserID entry2) (BalanceEntry.RequestID entry2) db'
    = Err ErrNotFound ->
  exists err, RenewSubscriptionWithBalance sub2 idx entry2 db' = (Err err, db').
Proof.
  intros H Hrep Hidx Hid Hnew.
  apply RenewSubscriptionWithBalance_ok in H as [(Hr & _)|(_ & _ & db1 & n & _ & _ & Hu)];
    [congruence|].
  destruct (RenewSubscriptionWithBalance sub2 idx entry2 db') as [[r2|err] db2] eqn:E2;
    [exfalso|apply transact_err in E2 as [-> _]; eauto].
  apply RenewSubscriptionWithBalance_ok in E2
    as [(_ & _ & Hq & Hs)|(_ & _ & db3 & m & Hc & Hm & Hu2)].
  - unfold GetBalanceEntryByRequest in Hnew. apply eqb_s_false in Hq. rewrite Hq, Hs in Hnew. done.
  - apply chargeInTx_ok in Hc as (_ & _ & _ & _ & ->).
    apply update_subscription_ok in Hu2 as (-> & _). apply Hm. apply sql_affected_zero.
    rewrite Hid. exact (renew_moves_index sub idx n db1 db' Hidx Hu).
Qed.

(** ** Redeem codes and invites *)

(** code_hash is UNIQUE, and a capped code has not been used more often than
    its cap. *)
Record codes_wf (db : StateDB) : Prop := {
  cw_hash : NoDup (map RedeemCode.CodeHash (redeem_codes db));
  cw_cap : forall c, In c (redeem_codes db) -> RedeemCode.MaxUses c <> 0 ->
    RedeemCode.UsedCount c <= RedeemCode.MaxUses c
}.

Lemma claim_codes_wf (codeHash : string) (nowNs : Z) (db : StateDB) :
  codes_wf db ->
  codes_wf (set_redeem_codes (sql_update (code_claimable codeHash nowNs) (RedeemCode.claim nowNs)
                                (redeem_codes db)) db).
Proof.
  intros [Hh Hc]. split; simpl.
  - rewrite sql_update_map by done. done.
  - intros c' Hin Hmax. apply sql_update_In in Hin as (c & Hin & ->).
    destruct (code_claimable codeHash nowNs c) eqn:E; [|auto].
    simpl in *. unfold code_claimable in E. bool_prop.
    destruct (RedeemCode.MaxUses c =? 0) eqn:E0; bool_prop; [done|]. simpl in *. bool_prop. lia.
Qed.

(** C14: Redeeming spends exactly one use of exactly one usable code and credits
    exactly the entry's amount to its account, in one step: when it succeeds the
    code was active, unexpired and below its cap, its use count is one higher,
    no other code moved and no other balance moved; when it fails, for whatever
    reason, the store is unchanged. *)
Theorem redeem_spends_one_use_for_one_credit (codeHash : string) (entry : BalanceEntry) (nowNs : Z)
    (db : StateDB) :
  money_wf db -> codes_wf db -> in_int64 (BalanceEntry.DeltaMicro entry) ->
  let u := BalanceEntry.UserID entry in
  match RedeemCodeAndCredit codeHash entry nowNs db with
  | (Ok e, db') =>
      (exists pre c post,
         redeem_codes db = pre ++ c :: post /\
         code_claimable codeHash nowNs c = true /\
         redeem_codes db' = pre ++ RedeemCode.claim nowNs c :: post) /\
      balance_of u db' = balance_of u db + BalanceEntry.DeltaMicro entry /\
      (forall u', u' <> u -> balance_of u' db' = balance_of u' db) /\
      balance_ledger db' = balance_ledger db ++ [e] /\
      codes_wf db'
  | (Err _, db') => db' = db
  end.
Proof.
  intros W C Hd u. destruct (RedeemCodeAndCredit codeHash entry nowNs db) as [[e|err] db'] eqn:E.
  2: { apply transact_err in E as [-> _]. done. }
  apply RedeemCodeAndCredit_ok in E as ((c & Hc & Hp) & db1 & Hdb1 & H).
  pose proof (claim_codes_wf codeHash nowNs db C) as C1. rewrite <- Hdb1 in C1.
  assert (money_wf db1) as W1 by (subst; eapply money_wf_frame; eauto).
  destruct (charge_exact _ _ _ _ W1 Hd H) as (Hb & _ & Ho & Hl & _ & _).
  apply chargeInTx_ok in H as (_ & _ & _ & _ & ->). subst db1. split_and!; auto.
  2: { destruct C1. split; done. }
  destruct (sql_update_one RedeemCode.CodeHash (code_claimable codeHash nowNs)
              (RedeemCode.claim nowNs) (redeem_codes db) c) as (pre & post & E1 & E2); auto.
  - apply (cw_hash db C).
  - intros r Hr. unfold code_claimable in *. bool_prop. congruence.
  - exists pre, c, post. auto.
Qed.

Lemma RedeemCodeAndCredit_codes_wf (codeHash : string) (entry : BalanceEntry) (nowNs : Z)
    (db : StateDB) :
  codes_wf db -> codes_wf (snd (RedeemCodeAndCredit codeHash entry nowNs db)).
Proof.
  intros C. destruct (RedeemCodeAndCredit codeHash entry nowNs db) as [[e|err] db'] eqn:E; simpl.
  - apply RedeemCodeAndCredit_ok in E as (_ & db1 & -> & H).
    apply chargeInTx_ok in H as (_ & _ & _ & _ & ->).
    destruct (claim_codes_wf codeHash nowNs db C). split; done.
  - apply transact_err in E as [-> _]. done.
Qed.

Lemma InsertRedeemCode_codes_wf (code : RedeemCode) (db : StateDB) :
  RedeemCode.UsedCount code = 0 -> 0 <= RedeemCode.MaxUses code ->
  codes_wf db -> codes_wf (snd (InsertRedeemCode code db)).
Proof.
  intros H0 Hm C. by_commit. destruct C as [Hh Hc]. bool_prop. split; simpl.
  - apply NoDup_map_snoc; [done|]. intros r Hr.
    match goal with H : forall r, In r _ -> (RedeemCode.CodeHash _ ==s _) = false |- _ =>
      apply H, eqb_s_false in Hr end. done.
  - intros c Hin. apply in_app_iff in Hin as [Hin|[<-|[]]]; [auto|lia].
Qed.

Lemma DeleteRedeemCode_codes_wf (id : string) (db : StateDB) :
  codes_wf db -> codes_wf (snd (DeleteRedeemCode id db)).
Proof.
  intros C. by_commit. destruct C as [Hh Hc]. split; simpl.
  - apply NoDup_map_filter. done.
  - intros c Hin. apply sql_where_In in Hin as [Hin _]. auto.
Qed.

(** The invite code column is UNIQUE, and a capped invite is not overdrawn. *)
Record invites_wf (db : StateDB) : Prop := {
  iw_code : NoDup (map Invite.Code (invites db));
  iw_cap : forall i, In i (invites db) -> Invite.MaxUses i <> 0 ->
    Invite.UsedCount i <= Invite.MaxUses i
}.

Lemma claim_invites_wf (code : string) (nowNs : Z) (db : StateDB) :
  invites_wf db ->
  invites_wf (set_invites (sql_update (invite_claimable code nowNs) (Invite.claim nowNs)
                             (invites db)) db).
Proof.
  intros [Hh Hc]. split; simpl.
  - rewrite sql_update_map by done. done.
  - intros i' Hin Hmax. apply sql_update_In in Hin as (i & Hin & ->).
    destruct (invite_claimable code nowNs i) eqn:E; [|auto].
    simpl in *. unfold invite_claimable in E. bool_prop.
    destruct (Invite.MaxUses i =? 0) eqn:E0; bool_prop; [done|]. simpl in *. bool_prop. lia.
Qed.

(** C15: Registration by invite is all or nothing: the account exists after the
    call exactly when the call succeeded, and then exactly one use of one valid
    invite was spent and its cap still holds; a failed registration (a taken
    user name included) leaves the store, the invite's count included, as it
    was. *)
Theorem registration_is_atomic (code : string) (nowNs : Z) (u : User) (db : StateDB) :
  invites_wf db ->
  match RedeemInviteAndInsertUser code nowNs u db with
  | (Ok i', db') =>
      (exists pre i post,
         invites db = pre ++ i :: post /\
         invite_claimable code nowNs i = true /\
         i' = Invite.claim nowNs i /\
         invites db' = pre ++ i' :: post) /\
      users db' = users db ++ [user_row u] /\
      user_exists (User.ID u) db = false /\
      invites_wf db'
  | (Err _, db') => db' = db
  end.
Proof.
  intros I. destruct (RedeemInviteAndInsertUser code nowNs u db) as [[i'|err] db'] eqn:E.
  2: { apply transact_err in E as [-> _]. done. }
  apply transact_ok in E. pose proof (claim_invites_wf code nowNs db I) as I1.
  apply tx_bind_ok in E as (n & db1 & [= <- <-] & E).
  destruct (_ =? 0)%nat eqn:En; [done|]. bool_prop. apply sql_affected_pos in En as (i & Hi & Hp).
  destruct (sql_update_one Invite.Code (invite_claimable code nowNs) (Invite.claim nowNs)
              (invites db) i) as (pre & post & E1 & E2); auto.
  { apply (iw_code db I). }
  { intros r Hr. unfold invite_claimable in *. bool_prop. congruence. }
  unfold insert_user_tx in E. tx_invert.
  match goal with H : as_sql_error _ _ = _ |- _ => apply as_sql_error_ok in H; rename H into Hg end.
  unfold getInviteByCodeLocked, GetInviteByCode in Hg. simpl in Hg.
  destruct (sql_first _ _) as [i0|] eqn:Ef in Hg; [|done]. tx_invert.
  assert (i0 = Invite.claim nowNs i) as Hi'.
  { apply find_some_In in Ef as [Hin Hcode]. apply eqb_s_true in Hcode.
    eapply (NoDup_map_inj Invite.Code); [apply (iw_code _ I1)|exact Hin| |].
    - simpl. rewrite E2. apply in_app_iff. right. left. done.
    - unfold invite_claimable in Hp. bool_prop. simpl. congruence. }
  split_and!; auto.
  - exists pre, i, post. subst i0. auto.
  - destruct I1. split; done.
Qed.

(** ** The ledger invariant under the account operations *)

Lemma emptyDB_money_wf : money_wf emptyDB.
Proof.
  split; simpl.
  - intros u row H. rewrite lookup_empty in H. done.
  - done.
  - intros pre e post H. destruct pre; done.
  - intros pre e post H. destruct pre; done.
Qed.

Lemma insert_user_money_wf (u : User) (x : unit) (db db' : StateDB) :
  money_wf db -> (forall e, In e (balance_ledger db) -> BalanceEntry.UserID e <> User.ID u) ->
  insert_user_tx u db = Ok (x, db') -> money_wf db'.
Proof.
  intros W Hfresh H. unfold insert_user_tx in H. tx_invert.
  assert (forall v, user_exists v db = true ->
            user_exists v (set_users (users db ++ [user_row u]) db) = true) as Hmono.
  { intros v Hv. unfold user_exists in *. simpl. rewrite existsb_app, Hv. done. }
  split; simpl.
  - intros v row Hrow. destruct (mw_balance db W v row Hrow) as (? & ? & ?). auto.
  - intros v Hv Hnone e He. apply user_exists_spec in Hv as (w & Hw & <-). simpl in Hw.
    apply in_app_iff in Hw as [Hw|[<-|[]]]; [|auto].
    eapply (mw_fresh db W); eauto. apply user_exists_spec. eauto.
  - apply (mw_after db W).
  - apply (mw_once db W).
Qed.

Lemma DeleteUser_money_wf (id : string) (db : StateDB) :
  money_wf db -> money_wf (snd (DeleteUser id db)).
Proof.
  intros W. by_commit. split; simpl.
  - intros v row Hrow. apply lookup_delete_Some in Hrow as [Hne Hrow].
    destruct (mw_balance db W v row Hrow) as (? & ? & Hu). split_and!; try tauto.
    apply user_exists_spec in Hu as (u & Hu & <-). apply user_exists_spec. simpl.
    exists u. split; [|done]. apply sql_where_In. split; [done|].
    apply negb_true_iff, eqb_s_false. congruence.
  - intros v Hv Hnone. apply user_exists_spec in Hv as (u & Hu & <-). simpl in Hu.
    apply sql_where_In in Hu as [Hu Hne]. bool_prop.
    rewrite lookup_delete_ne in Hnone by congruence.
    apply (mw_fresh db W); [|done]. apply user_exists_spec. eauto.
  - apply (mw_after db W).
  - apply (mw_once db W).
Qed.

(** A method that touches none of the three tables keeps the money. *)
Ltac money_untouched :=
  by_commit; eapply money_wf_frame; [eassumption|done|done|done].

(** ** A concrete store

    One user with 5 units, one code worth 1 unit, one plan and an invite: the
    values the statements above are evaluated at. *)
Module LedgerDemo.
Definition alice : User := User.mkUser "u1" "alice" "hash" "user" "active" None 0 0 0 0.
Definition bob : User := User.mkUser "u2" "bob" "hash" "user" "active" None 0 0 0 0.
Definition movement (id request : string) (delta : Z) : BalanceEntry :=
  BalanceEntry.mkBalanceEntry id "u1" delta 0 BalanceReasonPurchase "" request "" "" 7.
Definition monthly (id : string) : UserSubscription :=
  UserSubscription.mkUserSubscription id "u1" "" SnapEmpty 0 100 0 0 false 0 SubscriptionStatusActive.
Definition code : RedeemCode :=
  RedeemCode.mkRedeemCode "c1" "h1" "" 1000000 1 0 0 "" RedeemCodeStatusActive "" 0 0.
Definition invite : Invite := Invite.mkInvite "i1" "WELCOME" "" 1 0 0 "" InviteStatusActive "" 0 0.
Definition db1 : StateDB := Eval vm_compute in snd (InsertUser alice emptyDB).
Definition db2 : StateDB := Eval vm_compute in snd (ApplyBalanceDelta (movement "b1" "" 5000000) db1).
Definition db3 : StateDB := Eval vm_compute in
  snd (InsertInvite invite (snd (InsertRedeemCode code (snd (UpsertUserSubscription (monthly "s0") db2))))).
Definition after_purchase : StateDB := Eval vm_compute in
  snd (PurchasePlanWithBalance (monthly "s1") (movement "b2" "req-1" (-3000000)) 8 db3).

Lemma db1_money_wf : money_wf db1.
Proof.
  assert (db1 = snd (InsertUser alice emptyDB)) as -> by (vm_compute; reflexivity).
  eapply transact_preserves; [reflexivity|apply emptyDB_money_wf|].
  intros x db H. eapply insert_user_money_wf; [apply emptyDB_money_wf|done|exact H].
Qed.

Lemma db2_money_wf : money_wf db2.
Proof.
  assert (db2 = snd (transact (chargeInTx (movement "b1" "" 5000000)) db1)) as ->
    by (vm_compute; reflexivity).
  eapply transact_preserves; [reflexivity|apply db1_money_wf|].
  intros e db H. eapply chargeInTx_wf; [apply db1_money_wf| |exact H]. simpl. int64_unfold. lia.
Qed.

Lemma db3_money_wf : money_wf db3.
Proof. apply (money_wf_frame db2); [apply db2_money_wf|vm_compute; reflexivity..]. Qed.

Lemma db3_codes_wf : codes_wf db3.
Proof.
  split.
  - change (map RedeemCode.CodeHash (redeem_codes db3)) with ["h1"%string].
    apply list.NoDup_singleton.
  - intros c [<-|[]] _. vm_compute. done.
Qed.

Lemma db3_invites_wf : invites_wf db3.
Proof.
  split.
  - change (map Invite.Code (invites db3)) with ["WELCOME"%string]. apply list.NoDup_singleton.
  - intros i [<-|[]] _. vm_compute. done.
Qed.
End LedgerDemo.


(** The purchase of the demo, with the result it returns. *)
Definition demo_purchase : PurchaseResult := Eval vm_compute in
  match fst (PurchasePlanWithBalance (LedgerDemo.monthly "s1")
               (LedgerDemo.movement "b2" "req-1" (-3000000)) 8 LedgerDemo.db3) with
  | Ok r => r
  | Err _ => mkPurchaseResult (LedgerDemo.movement "" "" 0) UserSubscription.zero false
  end.

Lemma demo_purchase_ok :
  PurchasePlanWithBalance (LedgerDemo.monthly "s1") (LedgerDemo.movement "b2" "req-1" (-3000000)) 8
    LedgerDemo.db3 = (Ok demo_purchase, LedgerDemo.after_purchase).
Proof. vm_compute. reflexivity. Qed.

Lemma purchase_retry_replays_witness :
  exists cur,
  PurchasePlanWithBalance (LedgerDemo.monthly "s2") (LedgerDemo.movement "b3" "req-1" (-9)) 9
      LedgerDemo.after_purchase =
    (Ok (mkPurchaseResult (Entry demo_purchase) cur true), LedgerDemo.after_purchase).
Proof.
  eexists.
  apply (purchase_retry_replays (LedgerDemo.monthly "s1") (LedgerDemo.monthly "s2")
           (LedgerDemo.movement "b2" "req-1" (-3000000)) (LedgerDemo.movement "b3" "req-1" (-9)) 8 9
           demo_purchase LedgerDemo.db3 LedgerDemo.after_purchase LedgerDemo.after_purchase []).
  - exact demo_purchase_ok.
  - discriminate.
  - reflexivity.
  - reflexivity.
  - reflexivity.
Defined.

Lemma purchase_charges_and_activates_witness :
  balance_of "u1" LedgerDemo.after_purchase = balance_of "u1" LedgerDemo.db3 + -3000000 /\
  In (UserSubscription.with_Snapshot SnapBraces (LedgerDemo.monthly "s1"))
     (user_subscriptions LedgerDemo.after_purchase).
Proof.
  destruct (purchase_charges_and_activates (LedgerDemo.monthly "s1")
    (LedgerDemo.movement "b2" "req-1" (-3000000)) 8 demo_purchase LedgerDemo.db3
    LedgerDemo.after_purchase LedgerDemo.db3_money_wf ltac:(split; vm_compute; discriminate)
    eq_refl eq_refl demo_purchase_ok eq_refl) as (Hb & _ & _ & _ & Ha & _).
  split; [exact Hb|]. apply Ha. reflexivity.
Defined.

(** Renewing the demo subscription from period 0 to period 1. *)
Definition demo_renewal : UserSubscription :=
  UserSubscription.mkUserSubscription "s0" "u1" "" SnapEmpty 0 200 100 0 false 1
    SubscriptionStatusActive.
Definition demo_renewed : res StateErr PurchaseResult * StateDB := Eval vm_compute in
  RenewSubscriptionWithBalance demo_renewal 0 (LedgerDemo.movement "b2" "renew:s0:1" (-1000000))
    LedgerDemo.db3.

Lemma renewal_of_a_period_happens_once_witness :
  exists err,
    RenewSubscriptionWithBalance demo_renewal 0 (LedgerDemo.movement "b3" "again" (-1000000))
      (snd demo_renewed) = (Err err, snd demo_renewed).
Proof.
  eapply (renewal_of_a_period_happens_once demo_renewal demo_renewal 0
    (LedgerDemo.movement "b2" "renew:s0:1" (-1000000)) (LedgerDemo.movement "b3" "again" (-1000000))
    _ LedgerDemo.db3 (snd demo_renewed)).
  - vm_compute. reflexivity.
  - reflexivity.
  - discriminate.
  - reflexivity.
  - vm_compute. reflexivity.
Defined.

Definition demo_redeemed : res StateErr BalanceEntry * StateDB := Eval vm_compute in
  RedeemCodeAndCredit "h1" (LedgerDemo.movement "b4" "" 1000000) 9 LedgerDemo.db3.

Lemma redeem_spends_one_use_for_one_credit_witness :
  is_ok (fst demo_redeemed) = true /\
  balance_of "u1" (snd demo_redeemed) = balance_of "u1" LedgerDemo.db3 + 1000000.
Proof.
  pose proof (redeem_spends_one_use_for_one_credit "h1" (LedgerDemo.movement "b4" "" 1000000) 9
    LedgerDemo.db3 LedgerDemo.db3_money_wf LedgerDemo.db3_codes_wf
    ltac:(split; vm_compute; discriminate)) as H.
  assert (RedeemCodeAndCredit "h1" (LedgerDemo.movement "b4" "" 1000000) 9 LedgerDemo.db3
          = demo_redeemed) as E by (vm_compute; reflexivity).
  rewrite E in H. destruct H as (_ & Hb & _). split; [reflexivity|exact Hb].
Defined.

Definition demo_registered : res StateErr Invite * StateDB := Eval vm_compute in
  RedeemInviteAndInsertUser "WELCOME" 9 LedgerDemo.bob LedgerDemo.db3.

Lemma registration_is_atomic_witness :
  is_ok (fst demo_registered) = true /\
  users (snd demo_registered) = users LedgerDemo.db3 ++ [user_row LedgerDemo.bob].
Proof.
  pose proof (registration_is_atomic "WELCOME" 9 LedgerDemo.bob LedgerDemo.db3
    LedgerDemo.db3_invites_wf) as H.
  assert (RedeemInviteAndInsertUser "WELCOME" 9 LedgerDemo.bob LedgerDemo.db3
          = demo_registered) as E by (vm_compute; reflexivity).
  rewrite E in H. destruct H as (_ & Hu & _). split; [reflexivity|exact Hu].
Defined.
