(* ===== verification/Deposits.v ===== *)
(** * On-chain deposits

    [repo_deposit.go] (the intents that hold a payable amount, the chain
    cursor, and the transaction that credits a transfer) and the scan of
    [service/control_plane_deposit.go] that drives it.  The page of transfers a
    scan works on is the answer of the chain service and is an argument;
    [toMicro] of [tron/client.go] has its own file. *)

From stdpp Require Import base gmap strings list.
From S2P Require Import Prelude Model Store Ledger.

(** ** repo_deposit.go *)

(** status IN ('pending', 'unpaid'): the statuses under the partial unique
    index ux_deposit_intents_amount (amount_micro). *)
Definition holding (i : DepositIntent) : bool :=
  (DepositIntent.Status i ==s DepositStatusPending) || (DepositIntent.Status i ==s DepositStatusUnpaid).

Definition release_due (nowNs : Z) (i : DepositIntent) : bool :=
  holding i && (DepositIntent.HoldUntilNs i <=? nowNs).

Definition releaseExpiredDepositsTx (nowNs : Z) : DbTx unit := tx_modify (fun db =>
  set_deposit_intents
    (sql_update (release_due nowNs) (DepositIntent.with_Status DepositStatusReleased)
       (deposit_intents db)) db).

(** INSERT ... ON CONFLICT DO NOTHING: the rows affected.  The conflicts are
    the primary key and the amount of another holding row. *)
Definition intent_conflict (row : DepositIntent) (t : list DepositIntent) : bool :=
  existsb (fun r => (DepositIntent.ID r ==s DepositIntent.ID row)
    || (holding row && holding r
        && (DepositIntent.AmountMicro r =? DepositIntent.AmountMicro row))) t.

Definition insert_intent_or_nothing (row : DepositIntent) : DbTx bool := fun db =>
  if intent_conflict row (deposit_intents db) then Ok (false, db)
  else Ok (true, set_deposit_intents (deposit_intents db ++ [row]) db).

(** The row written for one candidate amount. *)
Definition candidate_row (intent : DepositIntent) (amount : Z) : DepositIntent :=
  DepositIntent.mkDepositIntent (DepositIntent.ID intent) (DepositIntent.UserID intent) amount
    DepositStatusPending "" (DepositIntent.CreatedAtNs intent) (DepositIntent.ExpiresAtNs intent)
    (DepositIntent.HoldUntilNs intent) 0.

Fixpoint allocate (intent : DepositIntent) (candidates : list Z) : DbTx DepositIntent :=
  match candidates with
  | [] => tx_fail ErrConflict
  | amount :: rest =>
      affected ← insert_intent_or_nothing (candidate_row intent amount);
      if (affected : bool) then mret (candidate_row intent amount) else allocate intent rest
  end.

Definition InsertDepositIntent (intent : DepositIntent) (candidates : list Z) (nowNs : Z)
    : Method DepositIntent := transact (
  match candidates with
  | [] => tx_fail ErrConflict
  | _ =>
      _ ← releaseExpiredDepositsTx nowNs;
      allocate intent candidates
  end).

Definition GetDepositIntent (id : string) (db : StateDB) : res StateErr DepositIntent :=
  match sql_first (fun i => DepositIntent.ID i ==s id) (deposit_intents db) with
  | Some i => Ok i
  | None => Err ErrNotFound
  end.

(** ORDER BY created_at_ns DESC, id DESC *)
Definition ListDepositIntents (userID : string) (limit : Z) (db : StateDB) : list DepositIntent :=
  sql_limit limit
    (sort_by (fun a b =>
        (DepositIntent.CreatedAtNs b <? DepositIntent.CreatedAtNs a) ||
        ((DepositIntent.CreatedAtNs b =? DepositIntent.CreatedAtNs a) &&
         String.leb (DepositIntent.ID b) (DepositIntent.ID a)))
      (sql_where (fun i => DepositIntent.UserID i ==s userID) (deposit_intents db))).

Definition unpaid_due (nowNs : Z) (i : DepositIntent) : bool :=
  (DepositIntent.Status i ==s DepositStatusPending)
  && (DepositIntent.ExpiresAtNs i <=? nowNs) && (nowNs <? DepositIntent.HoldUntilNs i).

Definition SweepDeposits (nowNs : Z) : Method Z := transact (fun db =>
  let t := sql_update (unpaid_due nowNs) (DepositIntent.with_Status DepositStatusUnpaid)
             (deposit_intents db) in
  Ok (Z.of_nat (sql_affected (release_due nowNs) t),
      set_deposit_intents
        (sql_update (release_due nowNs) (DepositIntent.with_Status DepositStatusReleased) t) db)).

(** The WHERE clause that attributes a transfer. *)
Definition matches_transfer (amountMicro blockTSNs : Z) (i : DepositIntent) : bool :=
  (DepositIntent.AmountMicro i =? amountMicro) && (DepositIntent.Status i <>s DepositStatusPaid)
  && (DepositIntent.CreatedAtNs i <=? blockTSNs) && (blockTSNs <? DepositIntent.HoldUntilNs i).

(** ORDER BY created_at_ns DESC LIMIT 1 *)
Definition depositIntentForTransferTx (amountMicro blockTSNs : Z) : DbTx DepositIntent := fun db =>
  match sort_by (fun a b => DepositIntent.CreatedAtNs b <=? DepositIntent.CreatedAtNs a)
          (sql_where (matches_transfer amountMicro blockTSNs) (deposit_intents db)) with
  | i :: _ => Ok (i, db)
  | [] => Err ErrNotFound
  end.

(** chainCursorUpsert: watermark_ms = max(stored, new). *)
Definition chainCursorUpsert (name : string) (watermarkMs nowNs : Z) (db : StateDB) : StateDB :=
  let w := match chain_cursor db !! name with
           | Some row => Z.max (watermark_ms row) watermarkMs
           | None => watermarkMs
           end in
  set_chain_cursor (<[name := mkCursorRow w nowNs]> (chain_cursor db)) db.

Definition advanceChainCursorTx (name : string) (watermarkMs nowNs : Z) : DbTx unit :=
  tx_modify (chainCursorUpsert name watermarkMs nowNs).

Definition AdvanceChainCursor (name : string) (watermarkMs nowNs : Z) : Method unit :=
  transact (advanceChainCursorTx name watermarkMs nowNs).

Definition ChainCursor (name : string) (db : StateDB) : Z :=
  match chain_cursor db !! name with
  | Some row => watermark_ms row
  | None => 0
  end.

Definition settled_tx (txID : string) (i : DepositIntent) : bool :=
  (DepositIntent.TxID i ==s txID) && (DepositIntent.Status i ==s DepositStatusPaid).

(** The ledger row of a credited transfer: what the caller leaves open is the
    id, the request id, the note and the actor. *)
Definition deposit_entry (entry : BalanceEntry) (intent : DepositIntent) (txID : string)
    (after nowNs : Z) : BalanceEntry :=
  BalanceEntry.mkBalanceEntry (BalanceEntry.ID entry) (DepositIntent.UserID intent)
    (DepositIntent.AmountMicro intent) after BalanceReasonDeposit txID
    (BalanceEntry.RequestID entry) (BalanceEntry.Note entry) (BalanceEntry.Actor entry) nowNs.

Definition CreditDeposit (txID : string) (amountMicro blockTSNs nowNs : Z) (cursorName : string)
    (watermarkMs : Z) (entry : BalanceEntry) : Method DepositIntent := transact (
  db ← tx_get;
  if existsb (settled_tx txID) (deposit_intents db) then tx_fail ErrConflict else
  intent ← depositIntentForTransferTx amountMicro blockTSNs;
  current ← balanceForUpdate (DepositIntent.UserID intent);
  let entry := deposit_entry entry intent txID
                 (add64 current (DepositIntent.AmountMicro intent)) nowNs in
  _ ← upsert_user_balance (BalanceEntry.UserID entry) (BalanceEntry.BalanceAfterMicro entry) nowNs;
  _ ← insert_balance_ledger entry;
  _ ← tx_modify (fun db => set_deposit_intents
        (sql_update (fun i => DepositIntent.ID i ==s DepositIntent.ID intent)
           (DepositIntent.settle txID nowNs) (deposit_intents db)) db);
  _ ← advanceChainCursorTx cursorName watermarkMs nowNs;
  mret (DepositIntent.settle txID nowNs intent)).

(** ** service/control_plane_deposit.go *)

Definition depositWindowNs : Z := 15 * 60 * 1000000000.
Definition depositHoldNs : Z := 15 * 60 * 1000000000.
Definition depositMinMicro : Z := 1000000.
Definition depositMaxMicro : Z := 100000 * 1000000.
Definition depositAmountAttempts : nat := 100.
Definition depositCursorName : string := "tron".

(** [for offset := 1; offset <= depositAmountAttempts; offset++], skipping
    whole amounts. *)
Definition depositCandidates (wantMicro : Z) : list Z :=
  List.filter (fun amount => negb (Z.rem amount 1000000 =? 0))
    (map (fun offset => add64 wantMicro (Z.of_nat offset)) (seq 1 depositAmountAttempts)).

Inductive DepositErr :=
| DepositInvalidArg
| DepositForbidden
| DepositConflict
| DepositState (e : StateErr).

(** [SelfDeposit]: [address] is the configured receiving address, [intentID]
    the id [newID] drew. *)
Definition SelfDeposit (address intentID userID : string) (wantMicro nowNs : Z) (db : StateDB)
    : res DepositErr DepositIntent * StateDB :=
  if address ==s "" then (Err DepositInvalidArg, db)
  else if wantMicro <? depositMinMicro then (Err DepositInvalidArg, db)
  else if depositMaxMicro <? wantMicro then (Err DepositInvalidArg, db)
  else match GetUser userID db with
  | Err e => (Err (DepositState e), db)
  | Ok user =>
      if User.Status user <>s UserStatusActive then (Err DepositForbidden, db)
      else
        let candidates := depositCandidates wantMicro in
        if (length candidates =? 0)%nat then (Err DepositConflict, db)
        else
          let intent := DepositIntent.mkDepositIntent intentID userID 0 "" "" nowNs
                          (add64 nowNs depositWindowNs)
                          (add64 (add64 nowNs depositWindowNs) depositHoldNs) 0 in
          match InsertDepositIntent intent candidates nowNs db with
          | (Ok stored, db') => (Ok stored, db')
          | (Err ErrConflict, db') => (Err DepositConflict, db')
          | (Err e, db') => (Err (DepositState e), db')
          end
  end.

(** A confirmed transfer of the page (tron.Transfer), without the addresses. *)
Record Transfer := mkTransfer { TxID : string; AmountMicro : Z; BlockTSMs : Z }.

Definition scan_entry (entryID : string) (t : Transfer) : BalanceEntry :=
  BalanceEntry.mkBalanceEntry entryID "" 0 0 BalanceReasonDeposit (TxID t) "" "on-chain deposit"
    "chain" 0.

(** One transfer of the page, with the id [newID] drew for its ledger row. *)
Definition scan_credit (nowNs : Z) (entryID : string) (t : Transfer) : Method DepositIntent :=
  CreditDeposit (TxID t) (AmountMicro t) (mul64 (BlockTSMs t) 1000000) nowNs depositCursorName
    (BlockTSMs t) (scan_entry entryID t).

(** The loop over the page: the number credited, and the error that ended it. *)
Fixpoint scan_transfers (nowNs : Z) (page : list (string * Transfer)) (credited : Z) (db : StateDB)
    : Z * option StateErr * StateDB :=
  match page with
  | [] => (credited, None, db)
  | (entryID, t) :: rest =>
      if AmountMicro t <? depositMinMicro then scan_transfers nowNs rest credited db
      else match scan_credit nowNs entryID t db with
           | (Ok _, db') => scan_transfers nowNs rest (credited + 1) db'
           | (Err ErrNotFound, db') | (Err ErrConflict, db') =>
               scan_transfers nowNs rest credited db'
           | (Err e, db') => (credited, Some e, db')
           end
  end.

(** [ScanDeposits] once the page has been read from the chain at the stored
    watermark; [newestRawMs] is the page's newest row before filtering. *)
Definition ScanDeposits (nowNs : Z) (page : list (string * Transfer)) (newestRawMs : Z)
    (db : StateDB) : Z * option StateErr * StateDB :=
  let watermarkMs := ChainCursor depositCursorName db in
  match scan_transfers nowNs page 0 db with
  | (credited, Some e, db') => (credited, Some e, db')
  | (credited, None, db') =>
      if watermarkMs <? newestRawMs
      then (credited, None, snd (AdvanceChainCursor depositCursorName newestRawMs nowNs db'))
      else (credited, None, db')
  end.

(** ** The intents invariant

    Relative to the latest clock reading [now]: ids are unique, no two holding
    intents share an amount, no intent is younger than the clock, an intent
    that stopped holding without being paid is past its hold, and the windows
    [created, hold_until) of unpaid intents for the same amount do not
    overlap. *)
Record deposits_wf (now : Z) (db : StateDB) : Prop := {
  dw_ids : NoDup (map DepositIntent.ID (deposit_intents db));
  dw_amount : forall a b, In a (deposit_intents db) -> In b (deposit_intents db) ->
    holding a = true -> holding b = true ->
    DepositIntent.AmountMicro a = DepositIntent.AmountMicro b -> a = b;
  dw_created : forall a, In a (deposit_intents db) -> DepositIntent.CreatedAtNs a <= now;
  dw_released : forall a, In a (deposit_intents db) -> holding a = false ->
    DepositIntent.Status a <> DepositStatusPaid -> DepositIntent.HoldUntilNs a <= now;
  dw_windows : forall a b, In a (deposit_intents db) -> In b (deposit_intents db) -> a <> b ->
    DepositIntent.Status a <> DepositStatusPaid -> DepositIntent.Status b <> DepositStatusPaid ->
    DepositIntent.AmountMicro a = DepositIntent.AmountMicro b ->
    DepositIntent.HoldUntilNs a <= DepositIntent.CreatedAtNs b \/
    DepositIntent.HoldUntilNs b <= DepositIntent.CreatedAtNs a
}.

(** The steps of the deposit table under a clock that does not run backwards.
    Everything else the program does leaves the table alone. *)
Inductive deposit_step : Z * StateDB -> Z * StateDB -> Prop :=
| ds_open now now' db intent candidates :
    now <= now' -> DepositIntent.CreatedAtNs intent = now' ->
    deposit_step (now, db) (now', snd (InsertDepositIntent intent candidates now' db))
| ds_sweep now now' db :
    now <= now' -> deposit_step (now, db) (now', snd (SweepDeposits now' db))
| ds_credit now now' db txID amountMicro blockTSNs cursorName watermarkMs entry :
    now <= now' ->
    deposit_step (now, db)
      (now', snd (CreditDeposit txID amountMicro blockTSNs now' cursorName watermarkMs entry db))
| ds_other now now' db db' :
    now <= now' -> deposit_intents db' = deposit_intents db -> deposit_step (now, db) (now', db').

(** A paid row keeps its place for good. *)
Definition paid_kept (db db' : StateDB) : Prop :=
  forall i, In i (deposit_intents db) -> DepositIntent.Status i = DepositStatusPaid ->
    In i (deposit_intents db').

Lemma holding_not_paid (i : DepositIntent) :
  holding i = true -> DepositIntent.Status i <> DepositStatusPaid.
Proof.
  unfold holding. intros H E. rewrite E in H. done.
Qed.

Lemma deposits_wf_clock (now now' : Z) (db db' : StateDB) :
  now <= now' -> deposit_intents db' = deposit_intents db -> deposits_wf now db -> deposits_wf now' db'.
Proof.
  intros Hle E [Hi Ha Hc Hr Hw]. split; rewrite ?E; auto.
  - intros a H. apply Hc in H. lia.
  - intros a H1 H2 H3. specialize (Hr a H1 H2 H3). lia.
Qed.

(** Status changes that only move a row out of force, or between holding
    statuses, keep the invariant: [st] may be reached from the rows [p]
    selects. *)
Lemma restatus_wf (now now' : Z) (db : StateDB) (p : DepositIntent -> bool) (st : string) :
  now <= now' ->
  (forall i, p i = true -> holding i = true) ->
  (st = DepositStatusUnpaid \/
   (st = DepositStatusReleased /\ forall i, p i = true -> DepositIntent.HoldUntilNs i <= now')) ->
  deposits_wf now db ->
  deposits_wf now' (set_deposit_intents
                      (sql_update p (DepositIntent.with_Status st) (deposit_intents db)) db).
Proof.
  intros Hle Hp Hst [Hi Ha Hc Hr Hw].
  set (f := fun i => if p i then DepositIntent.with_Status st i else i).
  assert (Hpaid : forall i, DepositIntent.Status (f i) <> DepositStatusPaid ->
                            DepositIntent.Status i <> DepositStatusPaid).
  { intros i. unfold f. destruct (p i) eqn:E; [|done]. intros _. apply holding_not_paid; auto. }
  assert (Hhold : forall i, holding (f i) = true -> holding i = true).
  { intros i. unfold f. destruct (p i) eqn:E; [auto|done]. }
  assert (Hsame : forall i, DepositIntent.AmountMicro (f i) = DepositIntent.AmountMicro i /\
            DepositIntent.CreatedAtNs (f i) = DepositIntent.CreatedAtNs i /\
            DepositIntent.HoldUntilNs (f i) = DepositIntent.HoldUntilNs i).
  { intros i. unfold f. destruct (p i); done. }
  split; simpl.
  - rewrite sql_update_map by done. done.
  - intros a' b' Ha' Hb' H1 H2 Hamt.
    apply sql_update_In in Ha' as (a & Hina & ->), Hb' as (b & Hinb & ->).
    fold (f a) (f b) in *. f_equal. apply Ha; auto.
    destruct (Hsame a) as (<- & _), (Hsame b) as (<- & _). done.
  - intros a' Ha'. apply sql_update_In in Ha' as (a & Hina & ->). fold (f a).
    destruct (Hsame a) as (_ & -> & _). apply Hc in Hina. lia.
  - intros a' Ha' Hn Hpd. apply sql_update_In in Ha' as (a & Hina & ->). fold (f a) in *.
    destruct (Hsame a) as (_ & _ & ->). unfold f in Hn, Hpd.
    destruct (p a) eqn:E; [|specialize (Hr a Hina Hn Hpd); lia].
    destruct Hst as [->|[-> Hdue]]; [done|auto].
  - intros a' b' Ha' Hb' Hne H1 H2 Hamt.
    apply sql_update_In in Ha' as (a & Hina & ->), Hb' as (b & Hinb & ->).
    fold (f a) (f b) in *.
    destruct (Hsame a) as (Ea & -> & ->), (Hsame b) as (Eb & -> & ->).
    rewrite Ea, Eb in Hamt. apply Hw; auto. congruence.
Qed.

Lemma release_wf (now now' : Z) (db : StateDB) :
  now <= now' -> deposits_wf now db ->
  deposits_wf now' (set_deposit_intents
    (sql_update (release_due now') (DepositIntent.with_Status DepositStatusReleased)
       (deposit_intents db)) db).
Proof.
  intros Hle W. eapply restatus_wf; [exact Hle| | |exact W].
  - intros i H. unfold release_due in H. bool_prop. done.
  - right. split; [done|]. intros i H. unfold release_due in H. bool_prop. done.
Qed.

Lemma allocate_ok (intent row : DepositIntent) (candidates : list Z) (db db' : StateDB) :
  allocate intent candidates db = Ok (row, db') ->
  exists amount, In amount candidates /\ row = candidate_row intent amount /\
    intent_conflict row (deposit_intents db) = false /\
    db' = set_deposit_intents (deposit_intents db ++ [row]) db.
Proof.
  induction candidates as [|amount rest IH]; simpl; [done|].
  unfold mbind, tx_bind, insert_intent_or_nothing.
  destruct (intent_conflict (candidate_row intent amount) _) eqn:E.
  - intros H. apply IH in H as (x & Hin & ?). eauto.
  - intros [= <- <-]. eauto 10.
Qed.

Lemma intent_conflict_false (row r : DepositIntent) (t : list DepositIntent) :
  intent_conflict row t = false -> In r t ->
  DepositIntent.ID r <> DepositIntent.ID row /\
  (holding row = true -> holding r = true ->
   DepositIntent.AmountMicro r <> DepositIntent.AmountMicro row).
Proof.
  unfold intent_conflict. intros H Hr. rewrite existsb_false in H. specialize (H r Hr).
  bool_prop. split; [done|]. intros H1 H2 E. rewrite H1, H2, E, Z.eqb_refl in *. done.
Qed.

Lemma InsertDepositIntent_ok (intent row : DepositIntent) (candidates : list Z) (nowNs : Z)
    (db db' : StateDB) :
  InsertDepositIntent intent candidates nowNs db = (Ok row, db') ->
  let db1 := set_deposit_intents
    (sql_update (release_due nowNs) (DepositIntent.with_Status DepositStatusReleased)
       (deposit_intents db)) db in
  exists amount, In amount candidates /\ row = candidate_row intent amount /\
    intent_conflict row (deposit_intents db1) = false /\
    db' = set_deposit_intents (deposit_intents db1 ++ [row]) db1.
Proof.
  intros H. apply transact_ok in H. destruct candidates as [|c cs]; [done|].
  unfold releaseExpiredDepositsTx in H. apply tx_bind_ok in H as (x & db1 & [= <- <-] & H).
  apply allocate_ok in H. exact H.
Qed.

Lemma InsertDepositIntent_wf (now now' : Z) (intent : DepositIntent) (candidates : list Z)
    (db : StateDB) :
  now <= now' -> DepositIntent.CreatedAtNs intent = now' -> deposits_wf now db ->
  deposits_wf now' (snd (InsertDepositIntent intent candidates now' db)).
Proof.
  intros Hle Hc W.
  destruct (InsertDepositIntent intent candidates now' db) as [[row|err] db'] eqn:E; simpl.
  2: { apply transact_err in E as [-> _]. eapply deposits_wf_clock; eauto. }
  apply InsertDepositIntent_ok in E as (amount & _ & Hrow & Hconf & ->).
  pose proof (release_wf now now' db Hle W) as W1.
  set (db1 := set_deposit_intents _ db) in *.
  assert (holding row = true) as Hh by (subst row; done).
  assert (forall r, In r (deposit_intents db1) -> DepositIntent.Status r <> DepositStatusPaid ->
            DepositIntent.AmountMicro r = DepositIntent.AmountMicro row ->
            DepositIntent.HoldUntilNs r <= now') as Hold.
  { intros r Hr Hp Ha. destruct (holding r) eqn:Er; [|apply (dw_released _ _ W1); auto].
    exfalso. destruct (intent_conflict_false row r _ Hconf Hr) as [_ H]. apply H; auto. }
  assert (DepositIntent.CreatedAtNs row = now') as Hcr by (subst row; done).
  destruct W1 as [Wi Wa Wc Wr Ww]. split; simpl.
  - apply NoDup_map_snoc; [done|]. intros r Hr. eapply intent_conflict_false; eauto.
  - intros a b Ha Hb Hha Hhb Ham.
    apply in_app_iff in Ha as [Ha|[<-|[]]], Hb as [Hb|[<-|[]]]; auto.
    + exfalso. eapply (intent_conflict_false row a); eauto.
    + exfalso. eapply (intent_conflict_false row b); eauto.
  - intros a Ha. apply in_app_iff in Ha as [Ha|[<-|[]]]; [auto|lia].
  - intros a Ha Hn Hp. apply in_app_iff in Ha as [Ha|[<-|[]]]; [auto|congruence].
  - intros a b Ha Hb Hne Hpa Hpb Ham.
    apply in_app_iff in Ha as [Ha|[<-|[]]], Hb as [Hb|[<-|[]]]; auto; [| |done].
    + left. rewrite Hcr. auto.
    + right. rewrite Hcr. auto.
Qed.

Lemma SweepDeposits_wf (now now' : Z) (db : StateDB) :
  now <= now' -> deposits_wf now db -> deposits_wf now' (snd (SweepDeposits now' db)).
Proof.
  intros Hle W. simpl.
  assert (deposits_wf now' (set_deposit_intents
            (sql_update (unpaid_due now') (DepositIntent.with_Status DepositStatusUnpaid)
               (deposit_intents db)) db)) as W1.
  { eapply restatus_wf; [exact Hle| |auto|exact W].
    intros i H. unfold unpaid_due in H. unfold holding. bool_prop.
    match goal with H : DepositIntent.Status i = _ |- _ => rewrite H end. done. }
  exact (release_wf now' now' _ (Z.le_refl _) W1).
Qed.

(** The shape of a successful credit. *)
Lemma CreditDeposit_ok (txID : string) (amountMicro blockTSNs nowNs : Z) (cursorName : string)
    (watermarkMs : Z) (entry : BalanceEntry) (paid : DepositIntent) (db db' : StateDB) :
  CreditDeposit txID amountMicro blockTSNs nowNs cursorName watermarkMs entry db = (Ok paid, db') ->
  exists intent e,
    existsb (settled_tx txID) (deposit_intents db) = false /\
    In intent (deposit_intents db) /\ matches_transfer amountMicro blockTSNs intent = true /\
    paid = DepositIntent.settle txID nowNs intent /\
    e = deposit_entry entry intent txID
          (add64 (balance_of (DepositIntent.UserID intent) db) (DepositIntent.AmountMicro intent)) nowNs /\
    user_exists (DepositIntent.UserID intent) db = true /\
    unclaimed e (balance_ledger db) /\
    db' = chainCursorUpsert cursorName watermarkMs nowNs
            (set_deposit_intents
               (sql_update (fun i => DepositIntent.ID i ==s DepositIntent.ID intent)
                  (DepositIntent.settle txID nowNs) (deposit_intents db))
               (posted e nowNs db)).
Proof.
  intros H. apply transact_ok in H.
  unfold depositIntentForTransferTx, balanceForUpdate, advanceChainCursorTx in H. tx_invert.
  destruct (sort_by _ _) as [|intent rest] eqn:Es; [done|]. tx_invert.
  repeat match goal with
  | H : upsert_user_balance _ _ _ _ = _ |- _ => apply upsert_user_balance_ok in H as [? ->]
  | H : insert_balance_ledger _ _ = _ |- _ => apply insert_balance_ledger_ok in H as [? ->]
  end.
  match type of Es with _ = ?i :: _ =>
    assert (In i (sql_where (matches_transfer amountMicro blockTSNs) (deposit_intents db))) as Hin
      by (eapply sort_by_In; rewrite Es; left; done) end.
  apply sql_where_In in Hin as [Hin Hm].
  do 2 eexists. split_and!; eauto.
Qed.

Lemma settle_wf (now now' nowNs : Z) (txID id : string) (db db' : StateDB) :
  now <= now' -> deposits_wf now db ->
  deposit_intents db' = sql_update (fun i => DepositIntent.ID i ==s id)
                          (DepositIntent.settle txID nowNs) (deposit_intents db) ->
  deposits_wf now' db'.
Proof.
  intros Hle [Hi Ha Hc Hr Hw] E.
  assert (forall i', In i' (deposit_intents db') ->
            DepositIntent.Status i' <> DepositStatusPaid -> In i' (deposit_intents db)) as Hback.
  { intros i' H Hp. rewrite E in H. apply sql_update_In in H as (i & H & ->).
    destruct (_ ==s id); done. }
  split.
  - rewrite E, sql_update_map; done.
  - intros a b Hina Hinb H1 H2. apply Ha; auto using holding_not_paid.
  - intros a' H. rewrite E in H. apply sql_update_In in H as (a & H & ->).
    apply Hc in H. destruct (_ ==s id); simpl; lia.
  - intros a H H1 H2. specialize (Hr a (Hback a H H2) H1 H2). lia.
  - intros a b Hina Hinb Hne H1 H2. apply Hw; auto.
Qed.

Lemma CreditDeposit_intents (txID : string) (amountMicro blockTSNs nowNs : Z) (cursorName : string)
    (watermarkMs : Z) (entry : BalanceEntry) (db : StateDB) :
  let db' := snd (CreditDeposit txID amountMicro blockTSNs nowNs cursorName watermarkMs entry db) in
  deposit_intents db' = deposit_intents db \/
  exists intent, In intent (deposit_intents db) /\
    DepositIntent.Status intent <> DepositStatusPaid /\
    deposit_intents db' = sql_update (fun i => DepositIntent.ID i ==s DepositIntent.ID intent)
                            (DepositIntent.settle txID nowNs) (deposit_intents db).
Proof.
  simpl. destruct (CreditDeposit _ _ _ _ _ _ _ db) as [[paid|err] db'] eqn:E; simpl.
  - right. apply CreditDeposit_ok in E as (intent & e & _ & Hin & Hm & _ & _ & _ & _ & ->).
    exists intent. unfold matches_transfer in Hm. bool_prop. auto.
  - left. apply transact_err in E as [-> _]. done.
Qed.

Lemma deposit_step_wf (now now' : Z) (db db' : StateDB) :
  deposit_step (now, db) (now', db') -> deposits_wf now db -> deposits_wf now' db'.
Proof.
  intros H W. inversion H; subst.
  - apply InsertDepositIntent_wf with now; auto.
  - apply SweepDeposits_wf with now; auto.
  - destruct (CreditDeposit_intents txID amountMicro blockTSNs now' cursorName watermarkMs entry db)
      as [E|(intent & _ & _ & E)].
    + eapply deposits_wf_clock; eauto.
    + eapply settle_wf; eauto.
  - eapply deposits_wf_clock; eauto.
Qed.

Lemma restatus_paid_kept (p : DepositIntent -> bool) (st : string) (l : list DepositIntent) :
  (forall i, p i = true -> holding i = true) ->
  forall i, In i l -> DepositIntent.Status i = DepositStatusPaid ->
  In i (sql_update p (DepositIntent.with_Status st) l).
Proof.
  intros Hp i Hin Hpaid. apply sql_update_In. exists i. split; [done|].
  destruct (p i) eqn:E; [|done]. exfalso. eapply holding_not_paid; eauto.
Qed.

Lemma deposit_step_paid_kept (now now' : Z) (db db' : StateDB) :
  deposits_wf now db -> deposit_step (now, db) (now', db') -> paid_kept db db'.
Proof.
  intros W H i Hin Hpaid.
  assert (forall n j, release_due n j = true -> holding j = true) as Hrel.
  { intros n j Hj. unfold release_due in Hj. bool_prop. done. }
  inversion H; subst.
  - destruct (InsertDepositIntent intent candidates _ db) as [[row|err] db'] eqn:E; simpl.
    + apply InsertDepositIntent_ok in E as (amount & _ & _ & _ & ->). simpl.
      apply in_app_iff. left. apply restatus_paid_kept; eauto.
    + apply transact_err in E as [-> _]. done.
  - simpl. apply restatus_paid_kept; eauto. apply restatus_paid_kept; eauto.
    intros j Hj. unfold unpaid_due in Hj. unfold holding. bool_prop.
    match goal with H : DepositIntent.Status j = _ |- _ => rewrite H end. done.
  - destruct (CreditDeposit_intents txID amountMicro blockTSNs now' cursorName watermarkMs entry db)
      as [E|(intent & Hint & Hnp & E)]; rewrite E; [done|].
    apply sql_update_In. exists i. split; [done|].
    destruct (_ ==s _) eqn:Eid; [|done]. exfalso. apply eqb_s_true in Eid.
    apply Hnp. rewrite <- (NoDup_map_inj _ _ _ _ (dw_ids _ _ W) Hin Hint Eid). done.
  - match goal with H : deposit_intents db' = _ |- _ => rewrite H end. done.
Qed.

Lemma deposit_steps (c c' : Z * StateDB) :
  rtc deposit_step c c' -> deposits_wf (fst c) (snd c) ->
  deposits_wf (fst c') (snd c') /\ paid_kept (snd c) (snd c').
Proof.
  induction 1 as [c|c1 c2 c3 H _ IH]; intros W; [split; [done|intros i ? ?; done]|].
  destruct c1 as [n1 d1], c2 as [n2 d2]. simpl in *.
  pose proof (deposit_step_wf _ _ _ _ H W) as W2. destruct (IH W2) as [W3 K].
  split; [done|]. intros i Hi Hp. apply K; [|done].
  exact (deposit_step_paid_kept n1 n2 d1 d2 W H i Hi Hp).
Qed.

Lemma emptyDB_deposits_wf (now : Z) : deposits_wf now emptyDB.
Proof. split; simpl; try done. apply NoDup_nil_2. Qed.

(** Two intents that a transfer matches are the same intent. *)
Lemma match_unique (now amountMicro blockTSNs : Z) (db : StateDB) (a b : DepositIntent) :
  deposits_wf now db -> In a (deposit_intents db) -> In b (deposit_intents db) ->
  matches_transfer amountMicro blockTSNs a = true ->
  matches_transfer amountMicro blockTSNs b = true -> a = b.
Proof.
  intros W Ha Hb Hma Hmb. destruct (decide (a = b)) as [|Hne]; [done|exfalso].
  unfold matches_transfer in *. bool_prop.
  destruct (dw_windows _ _ W a b) as [?|?]; auto; [congruence|lia|lia].
Qed.

(** ** Attribution *)

(** A settled transaction id is refused, whatever else the call carries. *)
Lemma settled_refused (txID : string) (amountMicro blockTSNs nowNs : Z) (cursorName : string)
    (watermarkMs : Z) (entry : BalanceEntry) (i : DepositIntent) (db : StateDB) :
  In i (deposit_intents db) -> settled_tx txID i = true ->
  CreditDeposit txID amountMicro blockTSNs nowNs cursorName watermarkMs entry db
  = (Err ErrConflict, db).
Proof.
  intros Hi Hs. assert (existsb (settled_tx txID) (deposit_intents db) = true) as E.
  { apply List.existsb_exists. eauto. }
  unfold CreditDeposit, transact, mbind, tx_bind. simpl. rewrite E. done.
Qed.

Lemma CreditDeposit_settles (txID : string) (amountMicro blockTSNs nowNs : Z) (cursorName : string)
    (watermarkMs : Z) (entry : BalanceEntry) (paid : DepositIntent) (db db' : StateDB) :
  CreditDeposit txID amountMicro blockTSNs nowNs cursorName watermarkMs entry db = (Ok paid, db') ->
  In paid (deposit_intents db') /\ settled_tx txID paid = true.
Proof.
  intros H. apply CreditDeposit_ok in H as (intent & e & _ & Hin & _ & -> & _ & _ & _ & ->).
  split.
  - simpl. apply sql_update_In. exists intent. rewrite eqb_s_refl. done.
  - unfold settled_tx. simpl. rewrite eqb_s_refl. done.
Qed.

(** C9: A credited transfer is attributed to the only intent that can own it:
    in every reachable table exactly one unpaid intent has that amount and a
    window [created, hold_until) containing the block time, the credit goes to
    that intent's user and to nobody else, and that intent is the one marked
    paid.  A transfer older than an intent is therefore never credited to it. *)
Theorem deposit_credits_the_only_holder (t0 now nowNs : Z) (db db' : StateDB) (txID : string)
    (amountMicro blockTSNs : Z) (cursorName : string) (watermarkMs : Z) (entry : BalanceEntry)
    (paid : DepositIntent) :
  rtc deposit_step (t0, emptyDB) (now, db) ->
  CreditDeposit txID amountMicro blockTSNs nowNs cursorName watermarkMs entry db = (Ok paid, db') ->
  exists intent,
    (forall other, In other (deposit_intents db) /\ matches_transfer amountMicro blockTSNs other = true
                   <-> other = intent) /\
    DepositIntent.CreatedAtNs intent <= blockTSNs < DepositIntent.HoldUntilNs intent /\
    DepositIntent.AmountMicro intent = amountMicro /\
    paid = DepositIntent.settle txID nowNs intent /\ In paid (deposit_intents db') /\
    balance_of (DepositIntent.UserID intent) db' =
      add64 (balance_of (DepositIntent.UserID intent) db) amountMicro /\
    (forall u, u <> DepositIntent.UserID intent -> balance_of u db' = balance_of u db).
Proof.
  intros Hreach H. destruct (deposit_steps _ _ Hreach (emptyDB_deposits_wf t0)) as [W _].
  destruct (CreditDeposit_settles _ _ _ _ _ _ _ _ _ _ H) as [Hpin _].
  apply CreditDeposit_ok in H as (intent & e & _ & Hin & Hm & -> & -> & _ & _ & ->).
  exists intent. split.
  - intros other. split; [|intros ->; auto]. intros [Ho Hmo].
    eapply match_unique; [exact W|..]; eauto.
  - pose proof Hm as Hm'. unfold matches_transfer in Hm'. bool_prop.
    split_and!; auto; try lia.
    + unfold balance_of at 1. simpl. rewrite lookup_insert_eq. simpl. congruence.
    + intros u Hu. unfold balance_of. simpl. rewrite lookup_insert_ne by congruence. done.
Qed.

(** C16: A chain transaction is credited at most once, for good: after it was
    credited, in every table reachable from there by opening, sweeping and
    crediting deposits (and anything that leaves the table alone), crediting it
    again is refused with a conflict and changes nothing, whatever amount,
    block time or ledger entry the second attempt carries. *)
Theorem deposit_credited_at_most_once (now nowNs now2 : Z) (db db' db2 : StateDB) (txID : string)
    (amountMicro blockTSNs : Z) (cursorName : string) (watermarkMs : Z) (entry : BalanceEntry)
    (paid : DepositIntent) :
  deposits_wf now db -> now <= nowNs ->
  CreditDeposit txID amountMicro blockTSNs nowNs cursorName watermarkMs entry db = (Ok paid, db') ->
  rtc deposit_step (nowNs, db') (now2, db2) ->
  forall amountMicro2 blockTSNs2 nowNs2 cursorName2 watermarkMs2 entry2,
    CreditDeposit txID amountMicro2 blockTSNs2 nowNs2 cursorName2 watermarkMs2 entry2 db2
    = (Err ErrConflict, db2).
Proof.
  intros W Hle H Hsteps *.
  destruct (CreditDeposit_settles _ _ _ _ _ _ _ _ _ _ H) as [Hin Hs].
  assert (deposit_step (now, db) (nowNs, db')) as Hstep.
  { replace db' with (snd (CreditDeposit txID amountMicro blockTSNs nowNs cursorName watermarkMs
      entry db)) by (rewrite H; done). constructor. done. }
  pose proof (deposit_step_wf _ _ _ _ Hstep W) as W'.
  destruct (deposit_steps _ _ Hsteps W') as [_ K].
  eapply settled_refused; [|exact Hs]. apply K; [done|].
  unfold settled_tx in Hs. bool_prop. done.
Qed.

(** ** The scan *)

Definition transfer_ns (t : Transfer) : Z := mul64 (BlockTSMs t) 1000000.

(** A transfer that can no longer be credited: it is settled, no unpaid intent
    owns it, or its ledger row exists. *)
Definition spent (t : Transfer) (db : StateDB) : Prop :=
  existsb (settled_tx (TxID t)) (deposit_intents db) = true \/
  (forall i, In i (deposit_intents db) -> matches_transfer (AmountMicro t) (transfer_ns t) i = false) \/
  (TxID t <> "" /\
   (exists r, In r (balance_ledger db) /\ BalanceEntry.Reason r = BalanceReasonDeposit /\
      BalanceEntry.RefID r = TxID t) /\
   (forall i, In i (deposit_intents db) -> matches_transfer (AmountMicro t) (transfer_ns t) i = true ->
      user_exists (DepositIntent.UserID i) db = true)).

Lemma forTransfer_none (amountMicro blockTSNs : Z) (db : StateDB) :
  (forall i, In i (deposit_intents db) -> matches_transfer amountMicro blockTSNs i = false) ->
  depositIntentForTransferTx amountMicro blockTSNs db = Err ErrNotFound.
Proof.
  intros H. unfold depositIntentForTransferTx.
  destruct (sort_by _ _) as [|i l] eqn:E; [done|exfalso].
  assert (In i (sql_where (matches_transfer amountMicro blockTSNs) (deposit_intents db))) as Hin.
  { eapply sort_by_In. rewrite E. left. done. }
  apply sql_where_In in Hin as [Hin Hm]. rewrite H in Hm; done.
Qed.

Lemma forTransfer_cases (amountMicro blockTSNs : Z) (db : StateDB) :
  (depositIntentForTransferTx amountMicro blockTSNs db = Err ErrNotFound /\
   forall i, In i (deposit_intents db) -> matches_transfer amountMicro blockTSNs i = false) \/
  exists i, depositIntentForTransferTx amountMicro blockTSNs db = Ok (i, db) /\
    In i (deposit_intents db) /\ matches_transfer amountMicro blockTSNs i = true.
Proof.
  unfold depositIntentForTransferTx.
  set (cmp := fun a b => DepositIntent.CreatedAtNs b <=? DepositIntent.CreatedAtNs a).
  pose proof (fun i => sort_by_In cmp (sql_where (matches_transfer amountMicro blockTSNs)
                (deposit_intents db)) i) as Hs.
  destruct (sort_by cmp _) as [|i l].
  - left. split; [done|]. intros i Hi. destruct (matches_transfer _ _ i) eqn:E; [|done].
    exfalso. apply (Hs i), sql_where_In. auto.
  - right. exists i. split; [done|]. apply sql_where_In, Hs. left. done.
Qed.

(** The statements of a credit after the transfer was matched. *)
Lemma CreditDeposit_unfold (txID : string) (amountMicro blockTSNs nowNs : Z) (cursorName : string)
    (watermarkMs : Z) (entry : BalanceEntry) (i : DepositIntent) (db : StateDB) :
  existsb (settled_tx txID) (deposit_intents db) = false ->
  depositIntentForTransferTx amountMicro blockTSNs db = Ok (i, db) ->
  let e := deposit_entry entry i txID
             (add64 (balance_of (DepositIntent.UserID i) db) (DepositIntent.AmountMicro i)) nowNs in
  fst (CreditDeposit txID amountMicro blockTSNs nowNs cursorName watermarkMs entry db) =
  if user_exists (DepositIntent.UserID i) db then
    if existsb (fun r => BalanceEntry.ID r ==s BalanceEntry.ID entry) (balance_ledger db) then Err ErrSQL
    else if existsb (fun r => same_request e r || same_deposit e r) (balance_ledger db)
    then Err ErrConflict
    else Ok (DepositIntent.settle txID nowNs i)
  else Err ErrSQL.
Proof.
  intros Hs Hm e. unfold CreditDeposit, transact, mbind, tx_bind. simpl. rewrite Hs, Hm. simpl.
  unfold upsert_user_balance. destruct (user_exists _ db); [|done].
  unfold insert_balance_ledger. simpl. fold e.
  destruct (existsb (fun r => BalanceEntry.ID r ==s _) _); [done|].
  destruct (existsb (fun r => same_request e r || _) _); done.
Qed.

Lemma spent_refused (nowNs : Z) (entryID : string) (t : Transfer) (db : StateDB) :
  spent t db -> (forall r, In r (balance_ledger db) -> BalanceEntry.ID r <> entryID) ->
  scan_credit nowNs entryID t db = (Err ErrNotFound, db) \/
  scan_credit nowNs entryID t db = (Err ErrConflict, db).
Proof.
  intros Hs Hid. unfold scan_credit.
  destruct (CreditDeposit _ _ _ _ _ _ _ db) as [r db'] eqn:E.
  assert (r = Err ErrNotFound \/ r = Err ErrConflict) as Hr.
  2: { destruct Hr as [-> | ->]; apply transact_err in E as [-> _]; auto. }
  assert (fst (CreditDeposit (TxID t) (AmountMicro t) (mul64 (BlockTSMs t) 1000000) nowNs
            depositCursorName (BlockTSMs t) (scan_entry entryID t) db) = r) as Hf by (rewrite E; done).
  destruct (existsb (settled_tx (TxID t)) (deposit_intents db)) eqn:Est.
  { apply List.existsb_exists in Est as (i & Hi & Hst).
    rewrite (settled_refused _ _ _ _ _ _ _ i _ Hi Hst) in Hf. auto. }
  destruct (forTransfer_cases (AmountMicro t) (transfer_ns t) db) as [[Hn _]|(i & Hi & Hin & Hm)].
  { left. rewrite <- Hf. unfold CreditDeposit, transact, mbind, tx_bind. simpl. rewrite Est.
    fold (transfer_ns t). rewrite Hn. done. }
  destruct Hs as [Hs|[Hs|(Htx & (row & Hrow & Hreas & Href) & Hu)]];
    [congruence|rewrite Hs in Hm; done|].
  right. rewrite <- Hf, (CreditDeposit_unfold _ _ _ _ _ _ _ i _ Est Hi), (Hu i Hin Hm).
  rewrite (proj2 (existsb_false _ _)).
  2: { intros r0 Hr0. apply eqb_s_false. apply Hid. done. }
  assert (existsb _ (balance_ledger db) = true) as ->; [|done].
  apply List.existsb_exists. exists row. split; [done|]. apply orb_true_iff. right.
  unfold same_deposit. simpl. apply eqb_s_false in Htx. rewrite Hreas, Href, Htx, !eqb_s_refl. done.
Qed.

(** What crediting does to the tables a later credit reads: paid rows stay,
    unpaid rows are old ones, the ledger only grows, users stay. *)
Record credit_grows (db db' : StateDB) : Prop := {
  cg_paid : paid_kept db db';
  cg_unpaid : forall i, In i (deposit_intents db') ->
    DepositIntent.Status i <> DepositStatusPaid -> In i (deposit_intents db);
  cg_ledger : forall r, In r (balance_ledger db) -> In r (balance_ledger db');
  cg_users : users db' = users db
}.

#[global] Instance credit_grows_preorder : PreOrder credit_grows.
Proof.
  split.
  - intros db. split; try done. intros i ? ?. done.
  - intros a b c [P1 U1 L1 S1] [P2 U2 L2 S2]. split.
    + intros i Hi Hp. apply P2; [apply P1|]; done.
    + auto.
    + auto.
    + congruence.
Qed.

Lemma CreditDeposit_grows (now : Z) (txID : string) (amountMicro blockTSNs nowNs : Z)
    (cursorName : string) (watermarkMs : Z) (entry : BalanceEntry) (db : StateDB) :
  deposits_wf now db ->
  credit_grows db (snd (CreditDeposit txID amountMicro blockTSNs nowNs cursorName watermarkMs entry db)).
Proof.
  intros W. destruct (CreditDeposit _ _ _ _ _ _ _ db) as [[paid|err] db'] eqn:E; simpl.
  2: { apply transact_err in E as [-> _]. reflexivity. }
  apply CreditDeposit_ok in E as (intent & e & _ & Hin & Hm & _ & _ & _ & _ & ->).
  unfold matches_transfer in Hm. bool_prop. split; simpl.
  - intros i Hi Hp. simpl. apply sql_update_In. exists i. split; [done|].
    destruct (_ ==s _) eqn:Eid; [|done]. exfalso. apply eqb_s_true in Eid.
    rewrite (NoDup_map_inj _ _ _ _ (dw_ids _ _ W) Hi Hin Eid) in Hp. done.
  - intros i' Hi' Hp. apply sql_update_In in Hi' as (i & Hi & ->). destruct (_ ==s _); done.
  - intros r Hr. apply in_app_iff. auto.
  - done.
Qed.

Lemma spent_grows (t : Transfer) (db db' : StateDB) :
  credit_grows db db' -> spent t db -> spent t db'.
Proof.
  intros [P U L S] Hs. assert (forall i, In i (deposit_intents db') ->
      matches_transfer (AmountMicro t) (transfer_ns t) i = true -> In i (deposit_intents db)) as Hback.
  { intros i Hi Hm. apply U; [done|]. unfold matches_transfer in Hm. bool_prop. done. }
  destruct Hs as [Hs|[Hs|(Htx & (r & Hr & Hrow) & Hu)]].
  - left. apply List.existsb_exists in Hs as (i & Hi & Hst). apply List.existsb_exists.
    exists i. split; [|done]. apply P; [done|]. unfold settled_tx in Hst. bool_prop. done.
  - right. left. intros i Hi. destruct (matches_transfer _ _ i) eqn:E; [|done].
    rewrite (Hs i (Hback i Hi E)) in E. done.
  - right. right. split_and!; eauto. intros i Hi Hm.
    unfold user_exists. rewrite S. apply Hu; auto.
Qed.

(** Whatever happened to a transfer, short of an error that ends the pass, it
    is spent afterwards. *)
Lemma scan_credit_spends (now nowNs : Z) (entryID : string) (t : Transfer) (db : StateDB) :
  deposits_wf now db ->
  match fst (scan_credit nowNs entryID t db) with
  | Ok _ | Err ErrNotFound | Err ErrConflict => spent t (snd (scan_credit nowNs entryID t db))
  | Err _ => True
  end.
Proof.
  intros W. unfold scan_credit. destruct (CreditDeposit _ _ _ _ _ _ _ db) as [r db'] eqn:E. simpl.
  destruct (existsb (settled_tx (TxID t)) (deposit_intents db)) eqn:Est.
  { pose proof Est as Est'. apply List.existsb_exists in Est' as (i & Hi & Hst).
    rewrite (settled_refused _ _ _ _ _ _ _ i _ Hi Hst) in E. injection E as <- <-. left. done. }
  destruct (forTransfer_cases (AmountMicro t) (transfer_ns t) db) as [[Hn Hno]|(i & Hi & Hin & Hm)].
  { unfold CreditDeposit, transact, mbind, tx_bind in E. simpl in E. rewrite Est in E.
    fold (transfer_ns t) in E. rewrite Hn in E. injection E as <- <-. right. left. done. }
  destruct r as [paid|err].
  { destruct (CreditDeposit_settles _ _ _ _ _ _ _ _ _ _ E) as [Hp Hst].
    left. apply List.existsb_exists. eauto. }
  pose proof (CreditDeposit_unfold (TxID t) (AmountMicro t) (mul64 (BlockTSMs t) 1000000) nowNs
    depositCursorName (BlockTSMs t) (scan_entry entryID t) i db Est Hi) as Hf.
  rewrite E in Hf. simpl in Hf. apply transact_err in E as [-> _].
  destruct (user_exists (DepositIntent.UserID i) db) eqn:Hu; [|injection Hf as ->; done].
  destruct (existsb _ _) in Hf; [injection Hf as ->; done|].
  destruct (existsb _ _) eqn:Ec in Hf; [|done]. injection Hf as ->.
  apply List.existsb_exists in Ec as (r & Hr & Hc). right. right.
  unfold same_request, same_deposit in Hc. simpl in Hc. bool_prop.
  split_and!; eauto. intros j Hj Hmj.
  rewrite (match_unique now (AmountMicro t) (transfer_ns t) db j i); auto.
Qed.

Lemma scan_credit_wf (now nowNs : Z) (entryID : string) (t : Transfer) (db : StateDB) :
  now <= nowNs -> deposits_wf now db -> deposits_wf nowNs (snd (scan_credit nowNs entryID t db)).
Proof.
  intros Hle W. eapply (deposit_step_wf now nowNs db); [|exact W]. apply ds_credit. done.
Qed.

(** A pass that reaches the end of its page leaves every transfer of the page
    spent (those below the minimum are skipped on every pass). *)
Lemma scan_transfers_spends (nowNs : Z) (page : list (string * Transfer)) :
  forall now credited n db db1,
  now <= nowNs -> deposits_wf now db ->
  scan_transfers nowNs page credited db = (n, None, db1) ->
  credit_grows db db1 /\
  forall entryID t, In (entryID, t) page -> depositMinMicro <= AmountMicro t -> spent t db1.
Proof.
  induction page as [|[entryID t] rest IH]; intros now credited n db db1 Hle W H.
  { injection H as _ <-. split; [reflexivity|done]. }
  simpl in H. destruct (AmountMicro t <? depositMinMicro) eqn:Emin.
  { destruct (IH now _ _ _ _ Hle W H) as [G S]. split; [done|].
    intros id t' [[= <- <-]|Hin] Hge; [bool_prop; lia|eauto]. }
  pose proof (scan_credit_spends now nowNs entryID t db W) as Hsp.
  pose proof (scan_credit_wf now nowNs entryID t db Hle W) as W'.
  pose proof (CreditDeposit_grows now (TxID t) (AmountMicro t) (transfer_ns t) nowNs
    depositCursorName (BlockTSMs t) (scan_entry entryID t) db W) as G0.
  change (CreditDeposit _ _ _ _ _ _ _ db) with (scan_credit nowNs entryID t db) in G0.
  destruct (scan_credit nowNs entryID t db) as [r db'] eqn:E. simpl in *.
  assert (exists credited', scan_transfers nowNs rest credited' db' = (n, None, db1)) as [c' H'].
  { destruct r as [i|[]]; try done; eauto. }
  assert (spent t db') as Hs by (destruct r as [i|[]]; done).
  destruct (IH nowNs _ _ _ _ (Z.le_refl _) W' H') as [G S]. split.
  - etransitivity; [|exact G]. exact G0.
  - intros id t' [[= <- <-]|Hin] Hge; [eapply spent_grows; eauto|eauto].
Qed.

Lemma scan_spent_noop (nowNs : Z) (page : list (string * Transfer)) (credited : Z) (db : StateDB) :
  (forall entryID t, In (entryID, t) page ->
     (forall r, In r (balance_ledger db) -> BalanceEntry.ID r <> entryID) /\
     (depositMinMicro <= AmountMicro t -> spent t db)) ->
  scan_transfers nowNs page credited db = (credited, None, db).
Proof.
  induction page as [|[entryID t] rest IH]; intros H; [done|]. simpl.
  destruct (H entryID t (or_introl eq_refl)) as [Hid Hs].
  specialize (IH (fun id t' Hin => H id t' (or_intror Hin))).
  destruct (AmountMicro t <? depositMinMicro) eqn:E; [done|]. bool_prop.
  destruct (spent_refused nowNs entryID t db (Hs E) Hid) as [-> | ->]; done.
Qed.

(** Reading a page of transfers again is harmless: once a pass has gone
    through a page, a later pass over the same transfers (with fresh ledger
    ids, as [newID] draws them) credits nothing and changes no row at all, even
    though the chain service returns the rows on the watermark again. *)
Theorem rescan_credits_nothing (now nowNs nowNs2 : Z) (page page2 : list (string * Transfer))
    (n : Z) (db db1 : StateDB) :
  deposits_wf now db -> now <= nowNs ->
  scan_transfers nowNs page 0 db = (n, None, db1) ->
  map snd page2 = map snd page ->
  (forall entryID r, In entryID (map fst page2) -> In r (balance_ledger db1) ->
     BalanceEntry.ID r <> entryID) ->
  scan_transfers nowNs2 page2 0 db1 = (0, None, db1).
Proof.
  intros W Hle H Hpage Hfresh.
  destruct (scan_transfers_spends nowNs page now _ _ _ _ Hle W H) as [_ S].
  apply scan_spent_noop. intros entryID t Hin. split.
  - intros r Hr. apply Hfresh; [|done]. apply in_map_iff. exists (entryID, t). auto.
  - intros Hge. assert (In t (map snd page)) as Ht.
    { rewrite <- Hpage. apply in_map_iff. exists (entryID, t). auto. }
    apply in_map_iff in Ht as ([id t'] & E & Hin'). simpl in E. subst. eauto.
Qed.


(** ** Opening a deposit *)

Lemma depositCandidates_spec (wantMicro amount : Z) :
  depositMinMicro <= wantMicro <= depositMaxMicro ->
  In amount (depositCandidates wantMicro) <->
  wantMicro < amount <= wantMicro + 100 /\ amount mod 1000000 <> 0.
Proof.
  intros Hw. unfold depositMinMicro, depositMaxMicro in Hw. unfold depositCandidates.
  rewrite List.filter_In, in_map_iff.
  assert (forall o, (1 <= o <= 100)%nat -> add64 wantMicro (Z.of_nat o) = wantMicro + Z.of_nat o) as Ha.
  { intros o Ho. apply wrap64_id. int64_unfold. lia. }
  split.
  - intros [(o & <- & Ho) Hr]. apply in_seq in Ho. unfold depositAmountAttempts in Ho.
    rewrite Ha in * by lia. bool_prop. rewrite Z.rem_mod_nonneg in Hr by lia. lia.
  - intros [Hrange Hm]. split.
    + exists (Z.to_nat (amount - wantMicro)). split; [rewrite Ha; lia|].
      apply in_seq. unfold depositAmountAttempts. lia.
    + rewrite Z.rem_mod_nonneg by lia. apply negb_true_iff, Z.eqb_neq. done.
Qed.

Lemma allocate_full (intent : DepositIntent) (candidates : list Z) (db : StateDB) (err : StateErr) :
  allocate intent candidates db = Err err ->
  err = ErrConflict /\
  forall amount, In amount candidates ->
    intent_conflict (candidate_row intent amount) (deposit_intents db) = true.
Proof.
  induction candidates as [|c rest IH]; simpl; [intros [= <-]; done|].
  unfold mbind, tx_bind, insert_intent_or_nothing.
  destruct (intent_conflict (candidate_row intent c) _) eqn:E; [|done].
  intros H. destruct (IH H) as [-> Hall]. split; [done|]. intros amount [<-|Hin]; auto.
Qed.

Lemma InsertDepositIntent_err (intent : DepositIntent) (candidates : list Z) (nowNs : Z)
    (err : StateErr) (db db' : StateDB) :
  InsertDepositIntent intent candidates nowNs db = (Err err, db') ->
  db' = db /\ err = ErrConflict /\
  forall amount, In amount candidates ->
    intent_conflict (candidate_row intent amount)
      (sql_update (release_due nowNs) (DepositIntent.with_Status DepositStatusReleased)
         (deposit_intents db)) = true.
Proof.
  intros E. apply transact_err in E as [-> E]. split; [done|].
  destruct candidates as [|c cs]; [injection E as <-; done|].
  unfold releaseExpiredDepositsTx, mbind, tx_bind, tx_modify in E.
  apply allocate_full in E. exact E.
Qed.

(** Opening a deposit for an allowed amount by an active user with a fresh
    intent id either hands out an amount at most 100 micro-units above what was
    asked for, never a whole number of USDT, that no other holding intent has,
    or refuses because every such amount is held right now; then nothing
    changes. *)
Theorem self_deposit_allocates (address intentID userID : string) (user : User)
    (wantMicro nowNs : Z) (db : StateDB) :
  address <> "" -> depositMinMicro <= wantMicro <= depositMaxMicro ->
  GetUser userID db = Ok user -> User.Status user = UserStatusActive ->
  (forall i, In i (deposit_intents db) -> DepositIntent.ID i <> intentID) ->
  match SelfDeposit address intentID userID wantMicro nowNs db with
  | (Ok stored, db') =>
      wantMicro < DepositIntent.AmountMicro stored <= wantMicro + 100 /\
      DepositIntent.AmountMicro stored mod 1000000 <> 0 /\
      DepositIntent.Status stored = DepositStatusPending /\
      DepositIntent.UserID stored = userID /\
      (forall i, In i (deposit_intents db') /\ holding i = true /\
         DepositIntent.AmountMicro i = DepositIntent.AmountMicro stored <-> i = stored)
  | (Err e, db') =>
      e = DepositConflict /\ db' = db /\
      forall amount, wantMicro < amount <= wantMicro + 100 -> amount mod 1000000 <> 0 ->
        exists i, In i (deposit_intents db) /\ holding i = true /\
          DepositIntent.AmountMicro i = amount /\ nowNs < DepositIntent.HoldUntilNs i
  end.
Proof.
  intros Haddr Hw Hu Hact Hid. unfold SelfDeposit.
  apply eqb_s_false in Haddr. rewrite Haddr.
  rewrite (proj2 (Z.ltb_ge _ _) (proj1 Hw)), (proj2 (Z.ltb_ge _ _) (proj2 Hw)), Hu, Hact, eqb_s_refl.
  cbn [negb]. set (intent := DepositIntent.mkDepositIntent _ _ _ _ _ _ _ _ _).
  destruct (depositCandidates wantMicro) as [|c cs] eqn:Ecs.
  { exfalso. assert (exists o, (o = 1 \/ o = 2) /\ (wantMicro + o) mod 1000000 <> 0) as (o & Ho & Hm).
    { destruct (decide ((wantMicro + 1) mod 1000000 = 0)) as [E|E]; [|eauto].
      exists 2. split; [auto|]. replace (wantMicro + 2) with (wantMicro + 1 + 1) by lia.
      rewrite Z.add_mod, E by lia. done. }
    assert (In (wantMicro + o) (depositCandidates wantMicro)) as H
      by (apply depositCandidates_spec; [done|split; [lia|done]]).
    rewrite Ecs in H. done. }
  rewrite <- Ecs. assert (length (depositCandidates wantMicro) <> O) as Hl by (rewrite Ecs; done).
  apply Nat.eqb_neq in Hl. rewrite Hl.
  destruct (InsertDepositIntent intent _ nowNs db) as [[row|err] db'] eqn:E.
  - apply InsertDepositIntent_ok in E as (amount & Hin & -> & Hconf & ->).
    apply depositCandidates_spec in Hin as [Hr Hm]; [|done]. cbn [candidate_row DepositIntent.AmountMicro]. split_and!; try done; try lia.
    intros i. simpl. rewrite in_app_iff. split.
    + intros ([Hi|[<-|[]]] & Hh & Ha); [|done]. exfalso.
      apply (intent_conflict_false _ i _ Hconf Hi); done.
    + intros ->. split_and!; try done. right. left. done.
  - apply InsertDepositIntent_err in E as (-> & -> & Hall). split_and!; [done..|].
    intros amount Hr Hm. specialize (Hall amount).
    rewrite depositCandidates_spec in Hall by done.
    assert (intent_conflict _ _ = true) as Hc by (apply Hall; done).
    apply List.existsb_exists in Hc as (i' & Hi' & Hc). simpl in Hi'.
    apply sql_update_In in Hi' as (i & Hi & ->).
    destruct (release_due nowNs i) eqn:Er; simpl in Hc; apply orb_true_iff in Hc as [Hc|Hc];
      bool_prop; try (exfalso; eapply Hid; eauto; fail).
    + done.
    + exists i. unfold release_due in Er.
      match goal with H : holding i = true |- _ => rewrite H in Er end. simpl in Er. bool_prop. auto.
Qed.

(** ** A concrete run

    A user opens a deposit of 5 USDT, pays it, and is deleted in the variant
    that blocks the scan. *)
Module DepositDemo.
Definition now0 : Z := 1000000000000.
Definition alice : User := User.mkUser "u1" "alice" "hash" "user" "active" None 0 0 0 0.
Definition users_db : StateDB := Eval vm_compute in snd (InsertUser alice emptyDB).
Definition intent : DepositIntent :=
  DepositIntent.mkDepositIntent "d1" "u1" 0 "" "" now0 (now0 + depositWindowNs)
    (now0 + depositWindowNs + depositHoldNs) 0.
Definition opened : StateDB := Eval vm_compute in
  snd (InsertDepositIntent intent (depositCandidates 5000000) now0 users_db).
Definition transfer : Transfer := mkTransfer "tx1" 5000001 1000001.
Definition paid : res StateErr DepositIntent * StateDB := Eval vm_compute in
  scan_credit (now0 + 5000000000) "b1" transfer opened.
Definition scanned : Z * option StateErr * StateDB := Eval vm_compute in
  scan_transfers (now0 + 5000000000) [("b1"%string, transfer)] 0 opened.
Definition orphaned : StateDB := Eval vm_compute in snd (DeleteUser "u1" opened).

Lemma opened_reachable : rtc deposit_step (0, emptyDB) (now0, opened).
Proof.
  eapply rtc_l; [apply (ds_other 0 0 emptyDB users_db); [lia|reflexivity]|].
  eapply rtc_l; [|apply rtc_refl].
  assert (opened = snd (InsertDepositIntent intent (depositCandidates 5000000) now0 users_db)) as ->
    by (vm_compute; reflexivity).
  apply ds_open; [unfold now0; lia|reflexivity].
Qed.

Lemma opened_wf : deposits_wf now0 opened.
Proof. exact (proj1 (deposit_steps _ _ opened_reachable (emptyDB_deposits_wf 0))). Qed.

Lemma paid_eq :
  CreditDeposit "tx1" 5000001 1000001000000 (now0 + 5000000000) depositCursorName 1000001
    (scan_entry "b1" transfer) opened = paid.
Proof. vm_compute. reflexivity. Qed.
End DepositDemo.

Lemma deposit_credits_the_only_holder_witness :
  exists intent, In intent (deposit_intents DepositDemo.opened) /\
    balance_of (DepositIntent.UserID intent) (snd DepositDemo.paid) =
      add64 (balance_of (DepositIntent.UserID intent) DepositDemo.opened) 5000001.
Proof.
  edestruct (deposit_credits_the_only_holder 0 DepositDemo.now0 (DepositDemo.now0 + 5000000000)
    DepositDemo.opened (snd DepositDemo.paid) "tx1" 5000001 1000001000000 depositCursorName 1000001
    (scan_entry "b1" DepositDemo.transfer)) as (intent & Hu & _ & _ & _ & _ & Hb & _).
  - exact DepositDemo.opened_reachable.
  - rewrite DepositDemo.paid_eq. reflexivity.
  - exists intent. split; [apply Hu; reflexivity|exact Hb].
Defined.

Lemma deposit_credited_at_most_once_witness :
  CreditDeposit "tx1" 5000001 1000001000000 (DepositDemo.now0 + 9000000000) depositCursorName 1000001
    (scan_entry "b2" DepositDemo.transfer) (snd DepositDemo.paid)
  = (Err ErrConflict, snd DepositDemo.paid).
Proof.
  eapply (deposit_credited_at_most_once DepositDemo.now0 (DepositDemo.now0 + 5000000000)
    (DepositDemo.now0 + 5000000000) DepositDemo.opened (snd DepositDemo.paid) (snd DepositDemo.paid)
    "tx1" 5000001 1000001000000 depositCursorName 1000001 (scan_entry "b1" DepositDemo.transfer)).
  - exact DepositDemo.opened_wf.
  - lia.
  - rewrite DepositDemo.paid_eq. reflexivity.
  - apply rtc_refl.
Defined.

Lemma rescan_credits_nothing_witness :
  scan_transfers (DepositDemo.now0 + 9000000000) [("b2"%string, DepositDemo.transfer)] 0
    (snd DepositDemo.scanned) = (0, None, snd DepositDemo.scanned).
Proof.
  eapply (rescan_credits_nothing DepositDemo.now0 (DepositDemo.now0 + 5000000000)
    (DepositDemo.now0 + 9000000000) [("b1"%string, DepositDemo.transfer)]
    [("b2"%string, DepositDemo.transfer)] 1 DepositDemo.opened (snd DepositDemo.scanned)).
  - exact DepositDemo.opened_wf.
  - lia.
  - vm_compute. reflexivity.
  - reflexivity.
  - intros entryID r [<-|[]] [<-|[]]. discriminate.
Defined.


Lemma self_deposit_allocates_witness :
  is_ok (fst (SelfDeposit "TAddr" "d2" "u1" 5000000 (DepositDemo.now0 + 1) DepositDemo.opened)) = true.
Proof.
  pose proof (self_deposit_allocates "TAddr" "d2" "u1" DepositDemo.alice 5000000
    (DepositDemo.now0 + 1) DepositDemo.opened) as H.
  destruct (SelfDeposit _ _ _ _ _ _) as [[stored|e] db'] eqn:E; [reflexivity|].
  destruct H as (_ & _ & Hall).
  - discriminate.
  - vm_compute. split; discriminate.
  - reflexivity.
  - reflexivity.
  - intros i [<-|[]]. discriminate.
  - destruct (Hall 5000002) as (i & Hi & _ & Ha & _); [lia|discriminate|].
    destruct Hi as [<-|[]]. discriminate Ha.
Defined.
