(* ===== verification/UsageTables.v ===== *)
(** * The usage tables and their retention

    usage_hourly and usage_daily of [src/internal/state/repo_user.go]: the
    additive upsert of the flusher, the summary that folds aged hours into
    days, the batched delete, the two reads the console is built on, and the
    retention pass of [src/internal/usage/retention.go].

    Column values are unbounded here: SQLite keeps them in 64 bits and a sum
    of byte counts does not get there. *)

From stdpp Require Import base list strings.
From S2P Require Import Prelude Model.

Record UsageTables := mkUsageTables { usage_hourly : list UsageRow; usage_daily : list UsageRow }.

Definition nsPerHour : Z := 3600000000000.
Definition nsPerDay : Z := 86400000000000.

(** [(ts / nsPerDay) * nsPerDay] of both SQLite and Go: truncating division. *)
Definition day_of (ts : Z) : Z := Z.quot ts nsPerDay * nsPerDay.

(** The primary key of both tables, and the GROUP BY of the reads. *)
Definition same_slot (a b : UsageRow) : bool :=
  (UsageRow.KeyID a ==s UsageRow.KeyID b) && (UsageRow.PlatformID a ==s UsageRow.PlatformID b)
  && (UsageRow.TSNs a =? UsageRow.TSNs b).

Definition same_group (a b : UsageRow) : bool :=
  same_slot a b && (UsageRow.UserID a ==s UsageRow.UserID b).

(** The four columns added up; the row keeps its key. *)
Definition add_columns (r x : UsageRow) : UsageRow :=
  UsageRow.mkUsageRow (UsageRow.KeyID r) (UsageRow.UserID r) (UsageRow.PlatformID r) (UsageRow.TSNs r)
    (UsageRow.IngressBytes r + UsageRow.IngressBytes x)
    (UsageRow.EgressBytes r + UsageRow.EgressBytes x)
    (UsageRow.Requests r + UsageRow.Requests x) (UsageRow.Errors r + UsageRow.Errors x).

Fixpoint merge_row (same : UsageRow -> UsageRow -> bool) (x : UsageRow) (t : list UsageRow)
    : list UsageRow :=
  match t with
  | [] => [x]
  | r :: rest => if same r x then add_columns r x :: rest else r :: merge_row same x rest
  end.

Definition merge_rows (same : UsageRow -> UsageRow -> bool) (rows t : list UsageRow) : list UsageRow :=
  fold_left (fun t x => merge_row same x t) rows t.

(** INSERT ... ON CONFLICT(key_id, platform_id, ts) DO UPDATE SET c = c + excluded.c *)
Definition upsertUsage (rows t : list UsageRow) : list UsageRow := merge_rows same_slot rows t.

Definition UpsertUsageHourly (rows : list UsageRow) (tb : UsageTables) : UsageTables :=
  mkUsageTables (upsertUsage rows (usage_hourly tb)) (usage_daily tb).

(** SELECT key, user, platform, day, SUM(...) GROUP BY key, user, platform, day *)
Definition at_day (r : UsageRow) : UsageRow :=
  UsageRow.mkUsageRow (UsageRow.KeyID r) (UsageRow.UserID r) (UsageRow.PlatformID r)
    (day_of (UsageRow.TSNs r)) (UsageRow.IngressBytes r) (UsageRow.EgressBytes r)
    (UsageRow.Requests r) (UsageRow.Errors r).

Definition group_rows (rows : list UsageRow) : list UsageRow := merge_rows same_group rows [].

Definition older (cutoffNs : Z) (r : UsageRow) : bool := UsageRow.TSNs r <? cutoffNs.

Definition SummarizeUsageHourlyBefore (cutoffNs : Z) (tb : UsageTables) : Z * UsageTables :=
  let old := sql_where (older cutoffNs) (usage_hourly tb) in
  (Z.of_nat (length old),
   mkUsageTables (sql_where (fun r => negb (older cutoffNs r)) (usage_hourly tb))
     (upsertUsage (group_rows (map at_day old)) (usage_daily tb))).

(** One statement of the batched delete.  A rowid is a row's position. *)
Definition rowids (t : list UsageRow) : list (nat * UsageRow) := combine (seq 0 (length t)) t.

Definition batch_ids (batch : nat) (cutoff : Z) (t : list UsageRow) : list nat :=
  map fst (take batch
    (sort_by (fun a b => UsageRow.TSNs (snd a) <=? UsageRow.TSNs (snd b))
       (sql_where (fun ir => older cutoff (snd ir)) (rowids t)))).

Definition delete_batch (batch : nat) (cutoff : Z) (t : list UsageRow) : list UsageRow :=
  map snd (sql_where (fun ir => negb (existsb (Nat.eqb (fst ir)) (batch_ids batch cutoff t))) (rowids t)).

(** The loop of [deleteBeforeBatched]; [None] is running out of fuel. *)
Fixpoint deleteBeforeBatched (fuel batch : nat) (cutoff total : Z) (t : list UsageRow)
    : option (Z * list UsageRow) :=
  match fuel with
  | O => None
  | S fuel' =>
      let removed := length (batch_ids batch cutoff t) in
      let t' := delete_batch batch cutoff t in
      let total' := total + Z.of_nat removed in
      if (removed <? batch)%nat then Some (total', t')
      else deleteBeforeBatched fuel' batch cutoff total' t'
  end.

Definition stateDeleteBatch : nat := 5000%nat.

(** Every full batch removes a row, so a fuel of one more than the rows is
    enough ([deleteBeforeBatched_spec]). *)
Definition DeleteUsageDailyBefore (cutoffNs : Z) (tb : UsageTables) : option (Z * UsageTables) :=
  match deleteBeforeBatched (S (length (usage_daily tb))) stateDeleteBatch cutoffNs 0 (usage_daily tb) with
  | Some (n, t) => Some (n, mkUsageTables (usage_hourly tb) t)
  | None => None
  end.

(** ** The reads *)

Definition in_window (fromNs toNs : Z) (r : UsageRow) : bool :=
  (fromNs <=? UsageRow.TSNs r) && (UsageRow.TSNs r <? toNs).

(** The hourly side of [ListUsageDailyRange] is filtered by overlap. *)
Definition overlaps (fromNs toNs : Z) (r : UsageRow) : bool :=
  (fromNs <? UsageRow.TSNs r + nsPerHour) && (UsageRow.TSNs r <? toNs).

Definition newest_day (a b : UsageRow) : bool := UsageRow.TSNs b <=? UsageRow.TSNs a.

Definition newest_day_then_user (a b : UsageRow) : bool :=
  (UsageRow.TSNs b <? UsageRow.TSNs a) ||
  ((UsageRow.TSNs b =? UsageRow.TSNs a) && String.leb (UsageRow.UserID a) (UsageRow.UserID b)).

Definition ListUsageByUser (userID : string) (fromNs toNs : Z) (tb : UsageTables) : list UsageRow :=
  let mine r := UsageRow.UserID r ==s userID in
  sort_by newest_day (group_rows
    (sql_where (fun r => mine r && in_window fromNs toNs r) (usage_daily tb) ++
     map at_day (sql_where (fun r => mine r && in_window fromNs toNs r) (usage_hourly tb)))).

Definition ListUsageDailyRange (fromNs toNs : Z) (tb : UsageTables) : list UsageRow :=
  sort_by newest_day_then_user (group_rows
    (sql_where (in_window fromNs toNs) (usage_daily tb) ++
     map at_day (sql_where (overlaps fromNs toNs) (usage_hourly tb)))).

(** ** The retention pass *)

Record Retention := mkRetention {
  HourlyKeep : Z;
  DailyKeep : Z;
  DailyKeepFn : option Z  (* the answer of the function at this pass, if one is set *)
}.

Record RetentionResult := mkRetentionResult { Summarized : Z; HourlyRemoved : Z; DailyRemoved : Z }.

Definition DefaultHourlyKeep : Z := 30 * nsPerDay.
Definition DefaultDailyKeep : Z := 400 * nsPerDay.

Definition hourlyKeep (r : Retention) : Z :=
  if 0 <? HourlyKeep r then HourlyKeep r else DefaultHourlyKeep.

Definition dailyKeep (r : Retention) : Z :=
  match DailyKeepFn r with
  | Some keep => if 0 <? keep then keep else if 0 <? DailyKeep r then DailyKeep r else DefaultDailyKeep
  | None => if 0 <? DailyKeep r then DailyKeep r else DefaultDailyKeep
  end.

(** [RunOnce] at a positive time. *)
Definition RetentionRunOnce (r : Retention) (nowNs : Z) (tb : UsageTables)
    : option (RetentionResult * UsageTables) :=
  let (summarized, tb1) := SummarizeUsageHourlyBefore (nowNs - hourlyKeep r) tb in
  match DeleteUsageDailyBefore (nowNs - dailyKeep r) tb1 with
  | Some (dailyRemoved, tb2) => Some (mkRetentionResult summarized summarized dailyRemoved, tb2)
  | None => None
  end.

(** ** Totals by group *)

Inductive column := CIngress | CEgress | CRequests | CErrors.

Definition col (c : column) (r : UsageRow) : Z :=
  match c with
  | CIngress => UsageRow.IngressBytes r
  | CEgress => UsageRow.EgressBytes r
  | CRequests => UsageRow.Requests r
  | CErrors => UsageRow.Errors r
  end.

Abbreviation GroupKey := (string * string * Z * string)%type.

Definition group_key (r : UsageRow) : GroupKey :=
  (UsageRow.KeyID r, UsageRow.PlatformID r, UsageRow.TSNs r, UsageRow.UserID r).

(** The sum of a column over the rows whose group is selected. *)
Definition total (c : column) (sel : GroupKey -> bool) (t : list UsageRow) : Z :=
  sum_by (fun r => if sel (group_key r) then col c r else 0) t.

Lemma total_app (c : column) (sel : GroupKey -> bool) (t k : list UsageRow) :
  total c sel (t ++ k) = total c sel t + total c sel k.
Proof. apply sum_by_app. Qed.

Lemma total_where (c : column) (sel w : GroupKey -> bool) (t : list UsageRow) :
  total c sel (sql_where (fun r => w (group_key r)) t) = total c (fun k => w k && sel k) t.
Proof.
  unfold total, sum_by, sql_where. induction t as [|r t IH]; [done|]. simpl.
  destruct (w (group_key r)); simpl; rewrite IH; done.
Qed.

Lemma col_add (c : column) (r x : UsageRow) : col c (add_columns r x) = col c r + col c x.
Proof. destruct c; reflexivity. Qed.

Lemma row_ext (r x : UsageRow) :
  group_key r = group_key x -> (forall c, col c r = col c x) -> r = x.
Proof.
  intros Hk Hc. pose proof (Hc CIngress); pose proof (Hc CEgress).
  pose proof (Hc CRequests); pose proof (Hc CErrors).
  destruct r, x. unfold group_key in Hk. simpl in *. congruence.
Qed.

Lemma same_group_key (a b : UsageRow) : same_group a b = true <-> group_key a = group_key b.
Proof.
  unfold same_group, same_slot, group_key. rewrite !andb_true_iff, !eqb_s_true, Z.eqb_eq.
  split; [intros [[[-> ->] ->] ->]; done|intros [= -> -> -> ->]; done].
Qed.

(** Merging under a predicate that, on the rows at hand, is equality of the
    group. *)
Section Merge.
Context (same : UsageRow -> UsageRow -> bool) (good : UsageRow -> Prop).
Hypothesis same_key : forall r x, good r -> good x -> same r x = true <-> group_key r = group_key x.
Hypothesis good_add : forall r x, good r -> good (add_columns r x).

Lemma merge_row_good (x : UsageRow) (t : list UsageRow) :
  good x -> Forall good t -> Forall good (merge_row same x t).
Proof.
  intros Hx H. induction H as [|r t Hr Ht IH]; simpl; [auto|].
  destruct (same r x); constructor; auto.
Qed.

Lemma merge_rows_good (l t : list UsageRow) :
  Forall good l -> Forall good t -> Forall good (merge_rows same l t).
Proof.
  intros Hl. revert t. induction Hl as [|x l Hx Hl IH]; intros t Ht; simpl; auto using merge_row_good.
Qed.

Lemma merge_row_total (c : column) (sel : GroupKey -> bool) (x : UsageRow) (t : list UsageRow) :
  good x -> Forall good t ->
  total c sel (merge_row same x t) = total c sel t + (if sel (group_key x) then col c x else 0).
Proof.
  intros Hx H. unfold total, sum_by. induction H as [|r t Hr Ht IH]; simpl; [lia|].
  destruct (same r x) eqn:E; simpl; [|rewrite IH; lia].
  apply same_key in E; [|done..]. change (group_key (add_columns r x)) with (group_key r).
  rewrite col_add, <- E. destruct (sel (group_key r)); lia.
Qed.

Lemma merge_rows_total (c : column) (sel : GroupKey -> bool) (l t : list UsageRow) :
  Forall good l -> Forall good t -> total c sel (merge_rows same l t) = total c sel t + total c sel l.
Proof.
  intros Hl. revert t. induction Hl as [|x l Hx Hl IH]; intros t Ht; simpl.
  { change (total c sel []) with 0. lia. }
  rewrite IH, merge_row_total by auto using merge_row_good. unfold total, sum_by. simpl. lia.
Qed.

Lemma merge_row_keys (x : UsageRow) (t : list UsageRow) :
  good x -> Forall good t ->
  map group_key (merge_row same x t) =
    (if existsb (fun r => same r x) t then map group_key t else map group_key t ++ [group_key x]).
Proof.
  intros Hx H. induction H as [|r t Hr Ht IH]; simpl; [done|].
  destruct (same r x); simpl; [done|]. rewrite IH. destruct (existsb _ t); done.
Qed.

Lemma merge_row_found (x : UsageRow) (t : list UsageRow) :
  good x -> Forall good t ->
  existsb (fun r => same r x) t = true <-> In (group_key x) (map group_key t).
Proof.
  intros Hx Ht. rewrite List.existsb_exists, in_map_iff. rewrite List.Forall_forall in Ht.
  split; intros (r & H1 & H2); exists r; split; auto; apply same_key; auto.
Qed.

Lemma merge_row_NoDup (x : UsageRow) (t : list UsageRow) :
  good x -> Forall good t -> NoDup (map group_key t) -> NoDup (map group_key (merge_row same x t)).
Proof.
  intros Hx Ht Hn. rewrite merge_row_keys by done. pose proof (merge_row_found x t Hx Ht) as Hf.
  destruct (existsb _ t); [done|]. apply list.NoDup_app. split_and!; [done| |apply NoDup_singleton].
  intros k Hk Hk'. apply list_elem_of_singleton in Hk' as ->. apply list_elem_of_In, Hf in Hk. done.
Qed.

Lemma merge_row_In_keys (x : UsageRow) (t : list UsageRow) (k : GroupKey) :
  good x -> Forall good t ->
  In k (map group_key (merge_row same x t)) <-> k = group_key x \/ In k (map group_key t).
Proof.
  intros Hx Ht. rewrite merge_row_keys by done. pose proof (merge_row_found x t Hx Ht) as Hf.
  destruct (existsb _ t).
  - split; [auto|]. intros [->|H]; [apply Hf; done|done].
  - rewrite in_app_iff. simpl. split; intros H; intuition auto.
Qed.

Lemma merge_rows_In_keys (l t : list UsageRow) (k : GroupKey) :
  Forall good l -> Forall good t ->
  In k (map group_key (merge_rows same l t)) <-> In k (map group_key l) \/ In k (map group_key t).
Proof.
  intros Hl. revert t. induction Hl as [|x l Hx Hl IH]; intros t Ht; simpl; [tauto|].
  rewrite IH by auto using merge_row_good. rewrite merge_row_In_keys by done.
  split; intros H; intuition auto.
Qed.

Lemma merge_rows_NoDup (l t : list UsageRow) :
  Forall good l -> Forall good t -> NoDup (map group_key t) ->
  NoDup (map group_key (merge_rows same l t)).
Proof.
  intros Hl. revert t. induction Hl as [|x l Hx Hl IH]; intros t Ht Hn; simpl; [done|].
  apply IH; auto using merge_row_good, merge_row_NoDup.
Qed.
End Merge.

Abbreviation anyrow := (fun _ : UsageRow => True).

Lemma Forall_any (l : list UsageRow) : Forall anyrow l.
Proof. induction l; constructor; auto. Qed.

Definition is_key (k k' : GroupKey) : bool := bool_decide (k' = k).

(** With distinct groups, the total of a group is its one row. *)
Lemma total_one (c : column) (r : UsageRow) (t : list UsageRow) :
  NoDup (map group_key t) -> In r t -> total c (is_key (group_key r)) t = col c r.
Proof.
  induction t as [|x t IH]; [done|]. intros Hn. simpl in Hn. apply list.NoDup_cons in Hn as [Hx Hn].
  change (total c (is_key (group_key r)) (x :: t)) with
    ((if is_key (group_key r) (group_key x) then col c x else 0) + total c (is_key (group_key r)) t).
  unfold is_key at 1. intros [->|Hin].
  - rewrite bool_decide_true by done. unfold total. rewrite sum_by_zero; [lia|]. intros y Hy.
    unfold is_key. rewrite bool_decide_false; [done|]. intros E. apply Hx, list_elem_of_In, in_map_iff. eauto.
  - rewrite bool_decide_false; [|intros E; apply Hx, list_elem_of_In, in_map_iff; eauto].
    rewrite IH; auto.
Qed.

(** What a GROUP BY returns: one row for every group present, with the sums. *)
Lemma group_rows_spec (l : list UsageRow) (r : UsageRow) :
  In r (group_rows l) <->
  In (group_key r) (map group_key l) /\ forall c, col c r = total c (is_key (group_key r)) l.
Proof.
  assert (forall a b, anyrow a -> anyrow b -> same_group a b = true <-> group_key a = group_key b) as HK
    by (intros; apply same_group_key).
  assert (NoDup (map group_key (group_rows l))) as Hn.
  { apply (merge_rows_NoDup same_group anyrow); auto using Forall_any. apply NoDup_nil_2. }
  assert (forall c k, total c k (group_rows l) = total c k l) as Ht.
  { intros c k. unfold group_rows. rewrite (merge_rows_total same_group anyrow) by auto using Forall_any.
    change (total c k []) with 0. lia. }
  assert (forall k, In k (map group_key (group_rows l)) <-> In k (map group_key l)) as Hk.
  { intros k. unfold group_rows. rewrite (merge_rows_In_keys same_group anyrow) by auto using Forall_any.
    simpl. tauto. }
  split.
  - intros H. split; [apply Hk, in_map; done|]. intros c. rewrite <- Ht. symmetry. apply total_one; done.
  - intros [H1 H2]. apply Hk, in_map_iff in H1 as (x & Ex & Hx).
    assert (r = x) as ->; [|done]. apply row_ext; [done|]. intros c.
    rewrite H2, <- Ht, <- Ex. apply total_one; done.
Qed.

(** Two selections with the same groups and the same totals read the same. *)
Lemma group_rows_ext (l l' : list UsageRow) (r : UsageRow) :
  (forall k, In k (map group_key l) <-> In k (map group_key l')) ->
  (forall c k, total c k l = total c k l') ->
  In r (group_rows l) <-> In r (group_rows l').
Proof.
  intros Hk Ht. rewrite !group_rows_spec, Hk. split; intros [H1 H2]; split; auto; intros c;
  [rewrite <- Ht|rewrite Ht]; auto.
Qed.

(** ** The invariant of the tables *)

(** A key belongs to one user, hourly rows are on the hour and daily rows on
    the day. *)
Definition owned (owner : string -> string) (r : UsageRow) : Prop :=
  UsageRow.UserID r = owner (UsageRow.KeyID r).

Definition on_hour (r : UsageRow) : Prop :=
  exists h, 0 <= h /\ UsageRow.TSNs r = h * nsPerHour.

Definition on_day (r : UsageRow) : Prop :=
  exists d, 0 <= d /\ UsageRow.TSNs r = d * nsPerDay.

Record tables_wf (owner : string -> string) (tb : UsageTables) : Prop := {
  tw_hourly : Forall (fun r => owned owner r /\ on_hour r) (usage_hourly tb);
  tw_daily : Forall (fun r => owned owner r /\ on_day r) (usage_daily tb)
}.

Lemma owned_slot (owner : string -> string) (r x : UsageRow) :
  owned owner r -> owned owner x -> same_slot r x = true <-> group_key r = group_key x.
Proof.
  intros Hr Hx. rewrite <- same_group_key. unfold same_group. rewrite andb_true_iff, eqb_s_true.
  split; [|tauto]. intros H. split; [done|]. unfold owned in *. rewrite Hr, Hx.
  unfold same_slot in H. bool_prop. congruence.
Qed.

Lemma owned_add (owner : string -> string) (r x : UsageRow) :
  owned owner r -> owned owner (add_columns r x).
Proof. done. Qed.

Lemma on_hour_on_day (r : UsageRow) : on_hour r -> on_day (at_day r).
Proof.
  intros (h & Hh & E). exists (Z.quot (UsageRow.TSNs r) nsPerDay). split; [|done].
  rewrite E. unfold nsPerDay, nsPerHour. apply Z.quot_pos; lia.
Qed.

Lemma day_of_bounds (ts : Z) : 0 <= ts -> day_of ts <= ts < day_of ts + nsPerDay.
Proof.
  intros H. unfold day_of, nsPerDay. rewrite Z.quot_div_nonneg by lia.
  pose proof (Z.div_mod ts 86400000000000). pose proof (Z.mod_pos_bound ts 86400000000000). lia.
Qed.

Lemma window_at_day (a b : Z) (r : UsageRow) :
  on_hour r ->
  in_window (a * nsPerDay) (b * nsPerDay) r = in_window (a * nsPerDay) (b * nsPerDay) (at_day r) /\
  overlaps (a * nsPerDay) (b * nsPerDay) r = in_window (a * nsPerDay) (b * nsPerDay) (at_day r).
Proof.
  intros (h & Hh & E). assert (0 <= UsageRow.TSNs r) as Hp by (rewrite E; unfold nsPerHour; lia).
  pose proof (day_of_bounds _ Hp) as Hb. unfold in_window, overlaps. simpl.
  unfold day_of in *. set (q := Z.quot (UsageRow.TSNs r) nsPerDay) in *. rewrite E in *.
  unfold nsPerDay, nsPerHour in *. split; f_equal; apply eq_iff_eq_true;
  rewrite ?Z.leb_le, ?Z.ltb_lt; lia.
Qed.

(** Both tables as one list of daily rows. *)
Definition all_days (tb : UsageTables) : list UsageRow :=
  usage_daily tb ++ map at_day (usage_hourly tb).

(** A read of either kind, over whole days. *)
Definition day_selector (user : option string) (a b : Z) (k : GroupKey) : bool :=
  match k with
  | (_, _, ts, u) =>
      match user with Some v => u ==s v | None => true end &&
      ((a * nsPerDay <=? ts) && (ts <? b * nsPerDay))
  end.

Definition usage_report (user : option string) (a b : Z) (tb : UsageTables) : list UsageRow :=
  match user with
  | Some u => ListUsageByUser u (a * nsPerDay) (b * nsPerDay) tb
  | None => ListUsageDailyRange (a * nsPerDay) (b * nsPerDay) tb
  end.

Lemma where_map_ext (p q : UsageRow -> bool) (f : UsageRow -> UsageRow) (t : list UsageRow) :
  (forall r, In r t -> p r = q (f r)) -> map f (sql_where p t) = sql_where q (map f t).
Proof.
  unfold sql_where. induction t as [|r t IH]; intros H; simpl; [done|].
  rewrite <- (H r) by (left; done). destruct (p r); simpl; rewrite IH; auto using in_cons.
Qed.

Lemma where_ext (p q : UsageRow -> bool) (t : list UsageRow) :
  (forall r, In r t -> p r = q r) -> sql_where p t = sql_where q t.
Proof. apply filter_ext_in. Qed.

Lemma where_app (p : UsageRow -> bool) (t k : list UsageRow) :
  sql_where p (t ++ k) = sql_where p t ++ sql_where p k.
Proof. apply List.filter_app. Qed.

Lemma usage_report_In (owner : string -> string) (user : option string) (a b : Z) (tb : UsageTables)
    (r : UsageRow) :
  tables_wf owner tb ->
  In r (usage_report user a b tb) <->
  In r (group_rows (sql_where (fun x => day_selector user a b (group_key x)) (all_days tb))).
Proof.
  intros [Hh _]. unfold all_days. rewrite where_app.
  assert (forall x, In x (usage_hourly tb) -> on_hour x) as Ho.
  { intros x Hx. rewrite List.Forall_forall in Hh. apply Hh. done. }
  destruct user as [u|]; simpl; unfold ListUsageByUser, ListUsageDailyRange; rewrite sort_by_In.
  - rewrite (where_map_ext _ (fun x => day_selector (Some u) a b (group_key x)) at_day); [reflexivity|].
    intros x Hx. destruct (window_at_day a b x (Ho x Hx)) as [W1 _]. rewrite W1. reflexivity.
  - rewrite (where_map_ext _ (fun x => day_selector None a b (group_key x)) at_day); [reflexivity|].
    intros x Hx. destruct (window_at_day a b x (Ho x Hx)) as [_ W2]. rewrite W2. reflexivity.
Qed.

(** ** The summary moves traffic, it does not change it *)

Lemma owned_where (P : UsageRow -> Prop) (p : UsageRow -> bool) (t : list UsageRow) :
  Forall P t -> Forall P (sql_where p t).
Proof. rewrite !List.Forall_forall. intros H r Hr. apply sql_where_In in Hr as [Hr _]. auto. Qed.

Lemma at_day_rows (owner : string -> string) (t : list UsageRow) :
  Forall (fun r => owned owner r /\ on_hour r) t ->
  Forall (fun r => owned owner r /\ on_day r) (map at_day t).
Proof.
  rewrite !List.Forall_forall. intros H r' Hr. apply in_map_iff in Hr as (r & <- & Hr).
  destruct (H r Hr). split; [done|]. apply on_hour_on_day. done.
Qed.

Lemma Summarize_wf (owner : string -> string) (cutoff : Z) (tb : UsageTables) :
  tables_wf owner tb -> tables_wf owner (snd (SummarizeUsageHourlyBefore cutoff tb)).
Proof.
  intros [Hh Hd]. split; simpl; [apply owned_where; done|].
  apply merge_rows_good; [intros r x [H1 H2]; split; done| |done].
  apply merge_rows_good; [intros r x [H1 H2]; split; done| |constructor].
  apply at_day_rows, owned_where. done.
Qed.

Lemma UpsertUsageHourly_wf (owner : string -> string) (rows : list UsageRow) (tb : UsageTables) :
  Forall (fun r => owned owner r /\ on_hour r) rows -> tables_wf owner tb ->
  tables_wf owner (UpsertUsageHourly rows tb).
Proof.
  intros Hr [Hh Hd]. split; simpl; [|done].
  apply merge_rows_good; [intros r x [H1 H2]; split; done|done|done].
Qed.

Lemma total_split (c : column) (sel : GroupKey -> bool) (p : UsageRow -> bool) (t : list UsageRow) :
  total c sel (map at_day t) =
  total c sel (map at_day (sql_where p t)) + total c sel (map at_day (sql_where (fun r => negb (p r)) t)).
Proof.
  unfold total, sum_by, sql_where. induction t as [|r t IH]; simpl; [done|].
  rewrite IH. destruct (p r); simpl; lia.
Qed.

Lemma summarized_rows (owner : string -> string) (cutoff : Z) (tb : UsageTables) :
  tables_wf owner tb ->
  let tb' := snd (SummarizeUsageHourlyBefore cutoff tb) in
  (forall c sel, total c sel (all_days tb') = total c sel (all_days tb)) /\
  (forall k, In k (map group_key (all_days tb')) <-> In k (map group_key (all_days tb))).
Proof.
  intros [Hh Hd]. simpl. unfold all_days. simpl. set (old := sql_where (older cutoff) (usage_hourly tb)).
  set (new := sql_where (fun r => negb (older cutoff r)) (usage_hourly tb)).
  assert (Forall (owned owner) (map at_day old)) as Ho.
  { eapply List.Forall_impl; [|apply at_day_rows, owned_where, Hh]. intros r [Hr _]. exact Hr. }
  assert (Forall (owned owner) (group_rows (map at_day old))) as Hg
    by (apply merge_rows_good; [done|done|constructor]).
  assert (Forall (owned owner) (usage_daily tb)) as Hw
    by (eapply List.Forall_impl; [|exact Hd]; intros r [Hr _]; exact Hr).
  assert (forall a b, anyrow a -> anyrow b -> same_group a b = true <-> group_key a = group_key b) as HK
    by (intros; apply same_group_key).
  split.
  - intros c sel. rewrite !total_app. unfold upsertUsage.
    rewrite (merge_rows_total same_slot (owned owner)) by eauto using owned_slot, owned_add.
    unfold group_rows. rewrite (merge_rows_total same_group anyrow) by auto using Forall_any.
    rewrite (total_split c sel (older cutoff) (usage_hourly tb)). fold old new.
    change (total c sel []) with 0. lia.
  - intros k. rewrite !map_app, !in_app_iff. unfold upsertUsage.
    rewrite (merge_rows_In_keys same_slot (owned owner)) by eauto using owned_slot, owned_add.
    unfold group_rows. rewrite (merge_rows_In_keys same_group anyrow) by auto using Forall_any.
    assert (In k (map group_key (map at_day (usage_hourly tb))) <->
            In k (map group_key (map at_day old)) \/ In k (map group_key (map at_day new))) as ->;
      [|simpl; tauto].
    rewrite !map_map, !in_map_iff. subst old new. split.
    + intros (r & E & Hr). destruct (older cutoff r) eqn:Eo; [left|right]; exists r;
        (split; [done|]); apply sql_where_In; rewrite ?Eo; done.
    + intros [(r & E & Hr)|(r & E & Hr)]; exists r; apply sql_where_In in Hr as [Hr _]; done.
Qed.

(** ** The batched delete *)

Definition newer (cutoff : Z) (r : UsageRow) : bool := negb (older cutoff r).

Lemma rowids_snd (t : list UsageRow) : map snd (rowids t) = t.
Proof. unfold rowids. generalize 0%nat. induction t as [|r t IH]; intros n; simpl; [done|]. f_equal. apply IH. Qed.

Lemma rowids_NoDup (t : list UsageRow) : NoDup (map fst (rowids t)).
Proof.
  unfold rowids. assert (forall n, map fst (combine (seq n (length t)) t) = seq n (length t)) as ->.
  { induction t as [|r t IH]; intros n; simpl; [done|]. f_equal. apply IH. }
  apply NoDup_ListNoDup, seq_NoDup.
Qed.

Lemma where_snd (p : UsageRow -> bool) (l : list (nat * UsageRow)) :
  sql_where p (map snd l) = map snd (sql_where (fun ir => p (snd ir)) l).
Proof. unfold sql_where. induction l as [|[i r] l IH]; simpl; [done|]. destruct (p r); simpl; rewrite IH; done. Qed.

Lemma where_rowids (p : UsageRow -> bool) (t : list UsageRow) :
  sql_where p t = map snd (sql_where (fun ir => p (snd ir)) (rowids t)).
Proof. rewrite <- where_snd, rowids_snd. done. Qed.

Lemma where_comm {R} (p q : R -> bool) (l : list R) :
  sql_where p (sql_where q l) = sql_where q (sql_where p l).
Proof.
  unfold sql_where. induction l as [|r l IH]; simpl; [done|].
  destruct (p r) eqn:P, (q r) eqn:Q; simpl; rewrite ?P, ?Q, IH; done.
Qed.

Lemma where_all {R} (p : R -> bool) (l : list R) :
  (forall r, In r l -> p r = true) -> sql_where p l = l.
Proof.
  unfold sql_where. induction l as [|r l IH]; intros H; simpl; [done|].
  rewrite (H r) by (left; done). rewrite IH; auto using in_cons.
Qed.

#[global] Instance where_perm {R} (p : R -> bool) : Proper ((≡ₚ) ==> (≡ₚ)) (sql_where p).
Proof. intros l k H. apply filter_perm. done. Qed.

Definition oldest_first (a b : nat * UsageRow) : bool := UsageRow.TSNs (snd a) <=? UsageRow.TSNs (snd b).

(** A batch takes as many old rows as it can and leaves the rest. *)
Lemma batch_split (batch : nat) (cutoff : Z) (t : list UsageRow) :
  exists taken rest,
    sql_where (fun ir => older cutoff (snd ir)) (rowids t) ≡ₚ taken ++ rest /\
    batch_ids batch cutoff t = map fst taken /\
    length taken = Nat.min batch (sql_affected (older cutoff) t).
Proof.
  set (l := sql_where (fun ir => older cutoff (snd ir)) (rowids t)).
  exists (take batch (sort_by oldest_first l)), (drop batch (sort_by oldest_first l)).
  split_and!.
  - rewrite take_drop. symmetry. apply sort_by_perm.
  - reflexivity.
  - rewrite length_take, (Permutation_length (sort_by_perm oldest_first l)).
    unfold sql_affected. change (List.filter (older cutoff) t) with (sql_where (older cutoff) t).
    rewrite where_rowids, length_map. done.
Qed.

Lemma in_ids (l : list (nat * UsageRow)) (i : nat) :
  existsb (Nat.eqb i) (map fst l) = true <-> In i (map fst l).
Proof.
  rewrite List.existsb_exists. split; [intros (j & Hj & E); apply Nat.eqb_eq in E; subst; done|].
  intros H. exists i. split; [done|]. apply Nat.eqb_refl.
Qed.

Lemma delete_batch_spec (batch : nat) (cutoff : Z) (t : list UsageRow) :
  sql_where (newer cutoff) (delete_batch batch cutoff t) = sql_where (newer cutoff) t /\
  length (batch_ids batch cutoff t) = Nat.min batch (sql_affected (older cutoff) t) /\
  sql_affected (older cutoff) (delete_batch batch cutoff t) =
    (sql_affected (older cutoff) t - length (batch_ids batch cutoff t))%nat.
Proof.
  destruct (batch_split batch cutoff t) as (taken & rest & Hp & Hids & Hlen).
  pose proof (rowids_NoDup t) as Hn. unfold delete_batch. rewrite Hids, length_map.
  set (keep := fun ir : nat * UsageRow => negb (existsb (Nat.eqb (fst ir)) (map fst taken))).
  assert (forall ir, In ir taken -> In ir (rowids t) /\ older cutoff (snd ir) = true) as Ht.
  { intros ir H. apply (sql_where_In (fun ir => older cutoff (snd ir))).
    apply list_elem_of_In. rewrite Hp. apply elem_of_app. left. apply list_elem_of_In. done. }
  split_and!; [|done|].
  - rewrite where_snd, where_comm, (where_rowids _ t). f_equal.
    apply where_all. intros ir Hir. apply sql_where_In in Hir as [Hir Hnew]. subst keep. simpl.
    apply negb_true_iff, not_true_iff_false. rewrite in_ids, in_map_iff. intros (jr & E & Hj).
    destruct (Ht jr Hj) as [Hjr Hold]. assert (jr = ir) as -> by (eapply NoDup_map_inj; eauto).
    unfold newer in Hnew. rewrite Hold in Hnew. done.
  - unfold sql_affected. change (List.filter (older cutoff)) with (sql_where (older cutoff)).
    rewrite where_snd, length_map, where_comm.
    assert (length (sql_where (older cutoff) t) = length (taken ++ rest)) as ->.
    { rewrite <- Hp, where_rowids, length_map. done. }
    rewrite Hp. unfold sql_where. rewrite List.filter_app. fold (sql_where keep taken) (sql_where keep rest).
    assert (sql_where keep taken = []) as ->.
    { destruct (sql_where keep taken) as [|ir l] eqn:E; [done|]. exfalso.
      assert (In ir (sql_where keep taken)) as Hi by (rewrite E; left; done).
      apply sql_where_In in Hi as [Hi Hk]. subst keep. simpl in Hk.
      apply negb_true_iff, not_true_iff_false in Hk. apply Hk, in_ids, in_map. done. }
    rewrite where_all; [rewrite (length_app taken); simpl; lia|]. intros ir Hir. subst keep. simpl.
    apply negb_true_iff, not_true_iff_false. rewrite in_ids. intros Hi.
    assert (NoDup (map fst (taken ++ rest))) as Hnd.
    { rewrite <- Hp. apply NoDup_map_filter. done. }
    rewrite map_app in Hnd. apply list.NoDup_app in Hnd as (_ & Hd & _).
    eapply (Hd (fst ir)); apply list_elem_of_In; [done|]. apply in_map. done.
Qed.

(** The loop ends, and removes exactly the old rows. *)
Lemma deleteBeforeBatched_spec (fuel batch : nat) (cutoff n : Z) (t : list UsageRow) :
  (0 < batch)%nat -> (sql_affected (older cutoff) t < fuel)%nat ->
  deleteBeforeBatched fuel batch cutoff n t =
    Some (n + Z.of_nat (sql_affected (older cutoff) t), sql_where (newer cutoff) t).
Proof.
  intros Hb. revert n t. induction fuel as [|fuel IH]; intros n t Hf; [lia|]. simpl.
  destruct (delete_batch_spec batch cutoff t) as (Hnew & Hids & Hold).
  destruct (length (batch_ids batch cutoff t) <? batch)%nat eqn:E.
  - apply Nat.ltb_lt in E. assert (sql_affected (older cutoff) (delete_batch batch cutoff t) = 0%nat)
      as Hz by lia. rewrite <- Hnew, where_all; [do 2 f_equal; lia|].
    intros r Hr. pose proof (proj1 (sql_affected_zero _ _) Hz r Hr). unfold newer.
    apply negb_true_iff. done.
  - apply Nat.ltb_ge in E. rewrite IH by lia. rewrite Hnew. do 2 f_equal. lia.
Qed.

Lemma DeleteUsageDailyBefore_spec (cutoff : Z) (tb : UsageTables) :
  DeleteUsageDailyBefore cutoff tb =
    Some (Z.of_nat (sql_affected (older cutoff) (usage_daily tb)),
          mkUsageTables (usage_hourly tb) (sql_where (newer cutoff) (usage_daily tb))).
Proof.
  unfold DeleteUsageDailyBefore. rewrite deleteBeforeBatched_spec.
  - rewrite Z.add_0_l. done.
  - apply Nat.lt_0_succ.
  - unfold sql_affected. apply Nat.lt_succ_r, List.filter_length_le.
Qed.

(** C22: A retention pass always completes, and it changes no report that a
    chart can show.  For every window of whole UTC days that starts inside the
    daily retention, the rows [ListUsageByUser] and [ListUsageDailyRange]
    return are the same after the pass as before it: folding hours into days
    neither loses traffic nor counts it twice, even for the day the cutoff
    falls in.  The pass keeps the tables well formed, leaves no hour older than
    its cutoff and no day older than its own. *)
Theorem retention_preserves_reports (owner : string -> string) (cfg : Retention) (nowNs : Z)
    (tb : UsageTables) :
  tables_wf owner tb ->
  exists res tb', RetentionRunOnce cfg nowNs tb = Some (res, tb') /\
    tables_wf owner tb' /\
    Summarized res = Z.of_nat (sql_affected (older (nowNs - hourlyKeep cfg)) (usage_hourly tb)) /\
    (forall r, In r (usage_hourly tb') -> nowNs - hourlyKeep cfg <= UsageRow.TSNs r) /\
    (forall r, In r (usage_daily tb') -> nowNs - dailyKeep cfg <= UsageRow.TSNs r) /\
    forall user a b r, nowNs - dailyKeep cfg <= a * nsPerDay ->
      In r (usage_report user a b tb') <-> In r (usage_report user a b tb).
Proof.
  intros W. unfold RetentionRunOnce.
  pose proof (Summarize_wf owner (nowNs - hourlyKeep cfg) tb W) as W1.
  destruct (summarized_rows owner (nowNs - hourlyKeep cfg) tb W) as [Ht Hk].
  destruct (SummarizeUsageHourlyBefore (nowNs - hourlyKeep cfg) tb) as [n tb1] eqn:E. simpl in *.
  rewrite DeleteUsageDailyBefore_spec. do 2 eexists. split; [reflexivity|].
  assert (tables_wf owner (mkUsageTables (usage_hourly tb1)
            (sql_where (newer (nowNs - dailyKeep cfg)) (usage_daily tb1)))) as W2.
  { destruct W1 as [H1 H2]. split; simpl; [done|]. apply owned_where. done. }
  split; [exact W2|]. injection E as <- <-. simpl in *. split_and!; [done|..].
  - intros r Hr. apply sql_where_In in Hr as [_ Hr]. unfold older in Hr. bool_prop. lia.
  - intros r Hr. apply sql_where_In in Hr as [_ Hr]. unfold newer, older in Hr. bool_prop. lia.
  - intros user a b r Ha. rewrite (usage_report_In owner) by done. rewrite (usage_report_In owner) by done.
    unfold all_days at 1. cbn [usage_daily usage_hourly]. rewrite where_app, where_comm, where_all, <- where_app.
    + apply group_rows_ext.
      * intros k. rewrite !in_map_iff. setoid_rewrite sql_where_In.
        split; intros (x & <- & Hx & Hs); pose proof (in_map group_key _ _ Hx) as Hin; apply Hk in Hin;
        apply in_map_iff in Hin as (y & Ey & Hy); exists y; rewrite Ey; auto.
      * intros c k. rewrite !total_where. apply Ht.
    + intros x Hx. apply sql_where_In in Hx as [_ Hs]. unfold newer, older, day_selector in *.
      simpl in Hs. bool_prop. apply negb_true_iff, Z.ltb_ge. lia.
Qed.

Module UsageDemo.
Definition owner (k : string) : string := if k ==s "k1" then "ann" else "bob".
Definition cfg : Retention := mkRetention 0 0 None.
Definition now : Z := 500 * nsPerDay + 7 * nsPerHour.

Definition row (k : string) (ts n : Z) : UsageRow :=
  UsageRow.mkUsageRow k (owner k) "p" ts n (2 * n) 1 0.

(** Day 470 is split: part of it is already summarized, part still hourly. *)
Definition tables : UsageTables :=
  UpsertUsageHourly [row "k1" (470 * nsPerDay + 2 * nsPerHour) 10; row "k1" (499 * nsPerDay) 5;
                     row "k2" (499 * nsPerDay) 1; row "k1" (470 * nsPerDay + 2 * nsPerHour) 4]
    (mkUsageTables [] [row "k1" (470 * nsPerDay) 100; row "k2" (3 * nsPerDay) 9]).

Lemma tables_ok : tables_wf owner tables.
Proof.
  apply UpsertUsageHourly_wf.
  - repeat constructor; [exists (470*24+2)|exists (499*24)|exists (499*24)|exists (470*24+2)];
    unfold nsPerHour, nsPerDay; simpl; lia.
  - split; simpl; repeat constructor; [exists 470|exists 3]; unfold nsPerDay; simpl; lia.
Qed.
End UsageDemo.

Lemma retention_preserves_reports_witness :
  UsageDemo.now - dailyKeep UsageDemo.cfg <= 400 * nsPerDay /\
  exists res tb', RetentionRunOnce UsageDemo.cfg UsageDemo.now UsageDemo.tables = Some (res, tb') /\
    Summarized res = 1 /\
    (In (UsageRow.mkUsageRow "k1" "ann" "p" (470 * nsPerDay) 114 228 3 0)
        (usage_report (Some "ann") 400 501 tb') <->
     In (UsageRow.mkUsageRow "k1" "ann" "p" (470 * nsPerDay) 114 228 3 0)
        (usage_report (Some "ann") 400 501 UsageDemo.tables)).
Proof.
  split; [vm_compute; discriminate|].
  destruct (retention_preserves_reports UsageDemo.owner UsageDemo.cfg UsageDemo.now UsageDemo.tables
              UsageDemo.tables_ok) as (res & tb' & H & _ & Hs & _ & _ & Hr).
  exists res, tb'. split; [exact H|]. split; [rewrite Hs; vm_compute; reflexivity|].
  apply Hr. vm_compute. discriminate.
Defined.
