(* ===== verification/Counters.v ===== *)
(** * Live traffic counters

    [src/internal/usage/counters.go]: the per (key, platform) buckets, the
    per-key totals, the per-user aggregate a quota is checked against, and the
    water mark of what is already on disk.

    The maps are xsync maps whose per-key critical sections make each operation
    on one bucket atomic, so the counters are a record of finite maps and every
    method a function on it.  The atomics are int64 and wrap.  A bucket's
    [bytes] pointer is the accumulator of its key id, which is never removed:
    the model reads and writes [keyBytes] at that key id instead. *)

From stdpp Require Import base gmap strings list.
From S2P Require Import Prelude.

Record CounterKey := mkCounterKey { KeyID : string; UserID : string; PlatformID : string }.

#[global] Instance CounterKey_eq_dec : EqDecision CounterKey.
Proof. solve_decision. Defined.

#[global] Instance CounterKey_countable : Countable CounterKey.
Proof.
  refine (inj_countable' (fun k => (KeyID k, UserID k, PlatformID k))
            (fun t => mkCounterKey (fst (fst t)) (snd (fst t)) (snd t)) _).
  intros []. reflexivity.
Defined.

Record Delta := mkDelta { IngressBytes : Z; EgressBytes : Z; Requests : Z; Errors : Z }.

#[global] Instance Delta_eq_dec : EqDecision Delta.
Proof. solve_decision. Defined.

Definition zeroDelta : Delta := mkDelta 0 0 0 0.

(** [Delta.Total] *)
Definition Total (d : Delta) : Z := add64 (IngressBytes d) (EgressBytes d).

Record Counters := mkCounters {
  entries : gmap CounterKey Delta;
  users : gmap string Z;
  persisted : gmap string Z;
  keyBytes : gmap string Z
}.

Definition NewCounters : Counters := mkCounters ∅ ∅ ∅ ∅.

(** [keyTotalFor]: the accumulator of a key id, created at zero on first use;
    the empty key id has none. *)
Definition keyTotalFor (keyID : string) (kb : gmap string Z) : gmap string Z :=
  if keyID ==s "" then kb
  else match kb !! keyID with
       | Some _ => kb
       | None => <[keyID := 0]> kb
       end.

(** [atomic.Int64.Add] on an accumulator of a map, if it exists. *)
Definition atomic_add (k : string) (n : Z) (m : gmap string Z) : gmap string Z :=
  match m !! k with
  | Some v => <[k := add64 v n]> m
  | None => m
  end.

Definition delta_add (a b : Delta) : Delta :=
  mkDelta (add64 (IngressBytes a) (IngressBytes b)) (add64 (EgressBytes a) (EgressBytes b))
    (add64 (Requests a) (Requests b)) (add64 (Errors a) (Errors b)).

(** The critical section of one bucket: create it, add the delta, and add its
    bytes to the key's total. *)
Definition addToBuckets (key : CounterKey) (delta : Delta) (c : Counters) : Counters :=
  let old := entries c !! key in
  let kb := match old with
            | Some _ => keyBytes c
            | None => keyTotalFor (KeyID key) (keyBytes c)
            end in
  mkCounters (<[key := delta_add (default zeroDelta old) delta]> (entries c)) (users c) (persisted c)
    (if negb (Total delta =? 0) && (KeyID key <>s "")
     then atomic_add (KeyID key) (Total delta) kb else kb).

(** [LoadOrCompute] then [Add] on the user aggregate. *)
Definition user_add (u : string) (n : Z) (m : gmap string Z) : gmap string Z :=
  <[u := add64 (default 0 (m !! u)) n]> m.

Definition Add (key : CounterKey) (delta : Delta) (c : Counters) : Counters :=
  if bool_decide (delta = zeroDelta) then c
  else
    let c' := addToBuckets key delta c in
    if negb (Total delta =? 0) && (UserID key <>s "")
    then mkCounters (entries c') (user_add (UserID key) (Total delta) (users c')) (persisted c')
           (keyBytes c')
    else c'.

(** [Requeue] over any enumeration of the drained map. *)
Fixpoint Requeue (drained : list (CounterKey * Delta)) (c : Counters) : Counters :=
  match drained with
  | [] => c
  | (key, delta) :: rest =>
      Requeue rest (if bool_decide (delta = zeroDelta) then c else addToBuckets key delta c)
  end.

Definition KeyTotal (keyID : string) (c : Counters) : Z :=
  if keyID ==s "" then 0 else default 0 (keyBytes c !! keyID).

Definition KeyBytes (key : CounterKey) (c : Counters) : Delta := default zeroDelta (entries c !! key).

Definition UserBytes (userID : string) (c : Counters) : Z :=
  if userID ==s "" then 0 else default 0 (users c !! userID).

Definition UserBytesPresent (userID : string) (c : Counters) : option Z :=
  if userID ==s "" then None else users c !! userID.

Definition PersistedBytes (userID : string) (c : Counters) : option Z :=
  if userID ==s "" then None else persisted c !! userID.

Definition MarkPersisted (userID : string) (bytes : Z) (c : Counters) : Counters :=
  if bytes =? 0 then c
  else if userID ==s "" then c
  else mkCounters (entries c) (users c) (user_add userID bytes (persisted c)) (keyBytes c).

(** [drainOne]: remove the bucket, take its value, and subtract its bytes from
    the key's total. *)
Definition drainOne (key : CounterKey) (c : Counters) : Delta * Counters :=
  match entries c !! key with
  | None => (zeroDelta, c)
  | Some delta =>
      (delta,
       mkCounters (base.delete key (entries c)) (users c) (persisted c)
         (if KeyID key <>s "" then atomic_add (KeyID key) (wrap64 (- Total delta)) (keyBytes c)
          else keyBytes c))
  end.

Fixpoint Drain (keys : list CounterKey) (c : Counters) : gmap CounterKey Delta * Counters :=
  match keys with
  | [] => (∅, c)
  | key :: rest =>
      let (delta, c1) := drainOne key c in
      let (drained, c2) := Drain rest c1 in
      (if bool_decide (delta = zeroDelta) then drained
       else <[key := default delta (drained !! key)]> drained, c2)
  end.

Definition Keys (c : Counters) : list CounterKey := (map_to_list (entries c)).*1.

Definition Size (c : Counters) : Z := Z.of_nat (size (entries c)).

(** Store into an accumulator that exists. *)
Definition atomic_store (k : string) (n : Z) (m : gmap string Z) : gmap string Z :=
  match m !! k with
  | Some _ => <[k := n]> m
  | None => m
  end.

Definition ResetUser (userID : string) (c : Counters) : Counters :=
  if userID ==s "" then c
  else mkCounters (entries c) (atomic_store userID 0 (users c)) (atomic_store userID 0 (persisted c))
         (keyBytes c).

Definition LoadUser (userID : string) (bytes : Z) (c : Counters) : Counters :=
  if userID ==s "" then c
  else mkCounters (entries c) (<[userID := bytes]> (users c)) (<[userID := bytes]> (persisted c))
         (keyBytes c).

(** ** The key totals are the sums of the buckets *)

(** Bytes of a bucket, exactly. *)
Definition bytes_of (d : Delta) : Z := IngressBytes d + EgressBytes d.

Definition key_sum (keyID : string) (m : gmap CounterKey Delta) : Z :=
  msum (fun key d => if KeyID key ==s keyID then bytes_of d else 0) m.

Definition delta_in_range (d : Delta) : Prop :=
  in_int64 (IngressBytes d) /\ in_int64 (EgressBytes d) /\ in_int64 (Requests d) /\ in_int64 (Errors d).

Record counters_wf (c : Counters) : Prop := {
  cw_total : forall k, k <> "" -> default 0 (keyBytes c !! k) = wrap64 (key_sum k (entries c));
  cw_keys : forall key d, entries c !! key = Some d -> KeyID key <> "" ->
    is_Some (keyBytes c !! KeyID key);
  cw_range : forall key d, entries c !! key = Some d -> delta_in_range d
}.

Lemma NewCounters_wf : counters_wf NewCounters.
Proof.
  split; simpl.
  - intros k _. unfold key_sum. rewrite msum_empty, lookup_empty. reflexivity.
  - intros key d H. rewrite lookup_empty in H. done.
  - intros key d H. rewrite lookup_empty in H. done.
Qed.

Lemma Total_eqm (d : Delta) : Total d ≡₆₄ bytes_of d.
Proof. unfold Total, bytes_of. solve_eqm64. Qed.

Lemma delta_add_eqm (a b : Delta) : bytes_of (delta_add a b) ≡₆₄ bytes_of a + bytes_of b.
Proof. unfold bytes_of. simpl. solve_eqm64. Qed.

Lemma keyTotalFor_lookup (keyID k : string) (kb : gmap string Z) :
  default 0 (keyTotalFor keyID kb !! k) = default 0 (kb !! k).
Proof.
  unfold keyTotalFor. destruct (keyID ==s ""); [done|].
  destruct (kb !! keyID) eqn:E; [done|]. rewrite lookup_insert. case_decide; [|done].
  subst. rewrite E. done.
Qed.

Lemma keyTotalFor_present (keyID : string) (kb : gmap string Z) :
  keyID <> "" -> is_Some (keyTotalFor keyID kb !! keyID).
Proof.
  intros H. apply eqb_s_false in H. unfold keyTotalFor. rewrite H.
  destruct (kb !! keyID) eqn:E; [rewrite E|rewrite lookup_insert_eq]; eauto.
Qed.

Lemma keyTotalFor_mono (keyID k : string) (kb : gmap string Z) :
  is_Some (kb !! k) -> is_Some (keyTotalFor keyID kb !! k).
Proof.
  intros H. unfold keyTotalFor. destruct (keyID ==s ""); [done|].
  destruct (kb !! keyID) eqn:E; [done|]. rewrite lookup_insert. case_decide; eauto.
Qed.

Lemma atomic_add_lookup (k k' : string) (n : Z) (m : gmap string Z) :
  is_Some (m !! k) ->
  default 0 (atomic_add k n m !! k') =
    if k ==s k' then add64 (default 0 (m !! k)) n else default 0 (m !! k').
Proof.
  intros [v Hv]. unfold atomic_add. rewrite Hv. simpl. destruct (k ==s k') eqn:E; bool_prop.
  - subst. rewrite lookup_insert_eq. done.
  - rewrite lookup_insert_ne by done. done.
Qed.

Lemma atomic_add_mono (k k' : string) (n : Z) (m : gmap string Z) :
  is_Some (m !! k') -> is_Some (atomic_add k n m !! k').
Proof.
  intros H. unfold atomic_add. destruct (m !! k) eqn:E; [|done].
  rewrite lookup_insert. case_decide; eauto.
Qed.

Lemma addToBuckets_wf (key : CounterKey) (delta : Delta) (c : Counters) :
  counters_wf c -> counters_wf (addToBuckets key delta c).
Proof.
  intros [Ht Hk Hr]. unfold addToBuckets.
  set (kb := match entries c !! key with Some _ => _ | None => _ end).
  assert (forall k, default 0 (kb !! k) = default 0 (keyBytes c !! k)) as Hkb.
  { intros k. subst kb. destruct (entries c !! key); [done|]. apply keyTotalFor_lookup. }
  assert (KeyID key <> "" -> is_Some (kb !! KeyID key)) as Hpres.
  { intros Hne. subst kb. destruct (entries c !! key) eqn:E; [eauto|].
    apply keyTotalFor_present. done. }
  assert (forall k, is_Some (keyBytes c !! k) -> is_Some (kb !! k)) as Hmono.
  { intros k. subst kb. destruct (entries c !! key); [done|]. apply keyTotalFor_mono. }
  split; simpl.
  - intros k Hne. unfold key_sum. rewrite msum_insert. fold (key_sum k (entries c)).
    assert (from_option (fun d => if KeyID key ==s k then bytes_of d else 0) 0 (entries c !! key) =
            if KeyID key ==s k then bytes_of (default zeroDelta (entries c !! key)) else 0) as ->.
    { destruct (entries c !! key); simpl; destruct (KeyID key ==s k); done. }
    destruct (KeyID key ==s k) eqn:Ek; bool_prop.
    + subst k. pose proof (Hpres Hne) as Hp. apply eqb_s_false in Hne as Hb. rewrite Hb.
      transitivity (add64 (default 0 (keyBytes c !! KeyID key)) (Total delta)).
      * destruct (Total delta =? 0) eqn:E0; bool_prop; simpl.
        { rewrite Hkb, E0, (Ht _ Hne). unfold add64. rewrite Z.add_0_r.
          apply eqm_wrap64. symmetry. apply wrap64_eqm. }
        { rewrite atomic_add_lookup, eqb_s_refl, Hkb by done. done. }
      * rewrite (Ht _ Hne). apply eqm_wrap64. rewrite wrap64_eqm, Total_eqm, delta_add_eqm.
        apply eq_eqm64. lia.
    + rewrite Z.sub_0_r, Z.add_0_r. rewrite <- (Ht k Hne), <- Hkb.
      destruct (negb _ && _) eqn:Eb; [|done]. bool_prop.
      apply eqb_s_false in Ek. rewrite atomic_add_lookup, Ek by auto. done.
  - intros key' d Hd Hne. rewrite lookup_insert in Hd.
    assert (is_Some (kb !! KeyID key')) as Hs.
    { case_decide; [subst; auto|eauto]. }
    destruct (negb _ && _); [apply atomic_add_mono|]; done.
  - intros key' d Hd. rewrite lookup_insert in Hd. case_decide; [|eauto].
    injection Hd as <-. split_and!; apply wrap64_in.
Qed.

Lemma drainOne_wf (key : CounterKey) (c : Counters) :
  counters_wf c -> counters_wf (snd (drainOne key c)).
Proof.
  intros [Ht Hk Hr]. unfold drainOne. destruct (entries c !! key) as [delta|] eqn:E; [|split; done].
  simpl. split; simpl.
  - intros k Hne. unfold key_sum. rewrite msum_delete, E. simpl. fold (key_sum k (entries c)).
    destruct (KeyID key ==s k) eqn:Ek.
    + apply eqb_s_true in Ek. subst k. apply eqb_s_false in Hne as Hb. rewrite Hb. simpl.
      rewrite atomic_add_lookup, eqb_s_refl, (Ht _ Hne) by eauto.
      apply eqm_wrap64. rewrite !wrap64_eqm, Total_eqm. apply eq_eqm64. lia.
    + rewrite Z.sub_0_r, <- (Ht k Hne).
      destruct (KeyID key <>s "") eqn:Eb; [|done]. bool_prop.
      rewrite atomic_add_lookup by eauto. apply eqb_s_false in Ek. rewrite Ek. done.
  - intros key' d Hd Hne. apply lookup_delete_Some in Hd as [_ Hd].
    destruct (KeyID key <>s ""); [apply atomic_add_mono|]; eauto.
  - intros key' d Hd. apply lookup_delete_Some in Hd as [_ Hd]. eauto.
Qed.

Lemma Drain_wf (keys : list CounterKey) (c : Counters) :
  counters_wf c -> counters_wf (snd (Drain keys c)).
Proof.
  revert c. induction keys as [|key rest IH]; intros c W; simpl; [done|].
  pose proof (drainOne_wf key c W) as W1. destruct (drainOne key c) as [delta c1]. simpl in W1.
  specialize (IH c1 W1). destruct (Drain rest c1). done.
Qed.

Lemma Requeue_wf (drained : list (CounterKey * Delta)) (c : Counters) :
  counters_wf c -> counters_wf (Requeue drained c).
Proof.
  revert c. induction drained as [|[key delta] rest IH]; intros c W; simpl; [done|].
  apply IH. case_bool_decide; [done|]. apply addToBuckets_wf. done.
Qed.

Lemma same_buckets_wf (c c' : Counters) :
  counters_wf c -> entries c' = entries c -> keyBytes c' = keyBytes c -> counters_wf c'.
Proof. intros [Ht Hk Hr] E1 E2. split; intros *; rewrite ?E1, ?E2; eauto. Qed.

Lemma Add_wf (key : CounterKey) (delta : Delta) (c : Counters) :
  counters_wf c -> counters_wf (Add key delta c).
Proof.
  intros W. unfold Add. case_bool_decide; [done|].
  pose proof (addToBuckets_wf key delta c W) as W1.
  destruct (negb _ && _); [|done]. eapply same_buckets_wf; eauto.
Qed.

(** ** Draining and requeueing *)

Lemma drainOne_bytes (key key' : CounterKey) (c : Counters) :
  fst (drainOne key c) = KeyBytes key c /\
  KeyBytes key' (snd (drainOne key c)) = (if decide (key' = key) then zeroDelta else KeyBytes key' c) /\
  users (snd (drainOne key c)) = users c /\ persisted (snd (drainOne key c)) = persisted c.
Proof.
  unfold drainOne, KeyBytes. destruct (entries c !! key) as [d|] eqn:E; simpl.
  - split_and!; auto. rewrite lookup_delete. repeat case_decide; subst; done.
  - split_and!; auto. case_decide; [subst; rewrite E|]; done.
Qed.

(** What a non-empty bucket contributes to the drained map. *)
Definition nonzero (d : Delta) : option Delta := if bool_decide (d = zeroDelta) then None else Some d.

Lemma Drain_spec (keys : list CounterKey) (c : Counters) (key : CounterKey) :
  fst (Drain keys c) !! key = (if decide (key ∈ keys) then nonzero (KeyBytes key c) else None) /\
  KeyBytes key (snd (Drain keys c)) = (if decide (key ∈ keys) then zeroDelta else KeyBytes key c) /\
  users (snd (Drain keys c)) = users c /\ persisted (snd (Drain keys c)) = persisted c.
Proof.
  revert c. induction keys as [|k rest IH]; intros c.
  { simpl. rewrite lookup_empty. destruct (decide (key ∈ [])) as [H|_]; [inversion H|]. done. }
  simpl. destruct (drainOne_bytes k key c) as (H1 & H2 & H3 & H4).
  destruct (drainOne k c) as [delta c1]. simpl in *.
  destruct (IH c1) as (I1 & I2 & I3 & I4).
  destruct (Drain rest c1) as [drained c2]. simpl in *. rewrite I2, I3, I4, H2, H3, H4. clear IH.
  rewrite H2 in I1. subst delta. unfold nonzero in *.
  destruct (decide (key = k)) as [->|Hne].
  - destruct (decide (k ∈ k :: rest)) as [_|H]; [|exfalso; apply H; left].
    assert (drained !! k = None) as Hn.
    { rewrite I1. destruct (decide (k ∈ rest)); [|done]. done. }
    clear I1. split_and!; auto; [|destruct (decide (k ∈ rest)); done].
    case_bool_decide; [rewrite Hn; done|]. rewrite lookup_insert_eq, Hn. done.
  - assert ((if bool_decide (KeyBytes k c = zeroDelta) then drained
             else <[k := default (KeyBytes k c) (drained !! k)]> drained) !! key = drained !! key) as ->.
    { destruct (bool_decide (KeyBytes k c = zeroDelta)); [done|].
      rewrite lookup_insert_ne by done. done. }
    rewrite I1. destruct (decide (key ∈ rest)) as [Hr|Hr], (decide (key ∈ k :: rest)) as [Hk|Hk]; auto.
    + exfalso. apply Hk. right. done.
    + apply list_elem_of_In in Hk. destruct Hk as [->|Hk]; [done|].
      apply list_elem_of_In in Hk. done.
Qed.

Lemma addToBuckets_bytes (key key' : CounterKey) (delta : Delta) (c : Counters) :
  KeyBytes key' (addToBuckets key delta c) =
    (if decide (key' = key) then delta_add (KeyBytes key c) delta else KeyBytes key' c) /\
  users (addToBuckets key delta c) = users c /\ persisted (addToBuckets key delta c) = persisted c.
Proof.
  unfold addToBuckets, KeyBytes. simpl. split_and!; auto.
  rewrite lookup_insert. repeat case_decide; subst; done.
Qed.

Lemma delta_add_zero_l (d : Delta) : delta_in_range d -> delta_add zeroDelta d = d.
Proof.
  intros (H1 & H2 & H3 & H4). unfold delta_add, add64. simpl. rewrite !wrap64_id by done.
  destruct d. done.
Qed.

(** Requeueing a batch with distinct keys adds each entry to its bucket. *)
Lemma Requeue_spec (l : list (CounterKey * Delta)) (c : Counters) (key : CounterKey) :
  NoDup l.*1 ->
  users (Requeue l c) = users c /\ persisted (Requeue l c) = persisted c /\
  (key ∉ l.*1 -> KeyBytes key (Requeue l c) = KeyBytes key c) /\
  (forall d, (key, d) ∈ l -> d <> zeroDelta -> KeyBytes key (Requeue l c) = delta_add (KeyBytes key c) d).
Proof.
  intros Hnd. revert c. induction l as [|[k delta] rest IH]; intros c; simpl.
  { split_and!; auto. intros d H. inversion H. }
  apply list.NoDup_cons in Hnd as [Hk Hnd]. specialize (IH Hnd).
  destruct (addToBuckets_bytes k key delta c) as (A1 & A2 & A3).
  set (c1 := if bool_decide (delta = zeroDelta) then c else addToBuckets k delta c).
  assert (users c1 = users c /\ persisted c1 = persisted c) as [U P]
    by (subst c1; case_bool_decide; auto).
  destruct (IH c1) as (I1 & I2 & I3 & I4). rewrite I1, I2, U, P. split_and!; auto.
  - intros Hn. rewrite I3 by set_solver. subst c1. case_bool_decide; [done|].
    rewrite A1. destruct (decide (key = k)) as [->|]; [set_solver|done].
  - intros d Hin Hz. apply list_elem_of_In in Hin as [[= -> ->]|Hin].
    + rewrite I3 by done. subst c1. case_bool_decide; [done|].
      rewrite A1. destruct (decide (key = key)); done.
    + apply list_elem_of_In in Hin. rewrite (I4 d Hin Hz). f_equal. subst c1.
      case_bool_decide; [done|]. rewrite A1. destruct (decide (key = k)) as [->|]; [|done].
      exfalso. apply Hk. apply list_elem_of_fmap. exists (k, d). done.
Qed.

(** Empty buckets weigh nothing: two bucket maps that read the same have the
    same sums. *)
Lemma key_sum_nonzero (k : string) (m : gmap CounterKey Delta) :
  key_sum k m = key_sum k (filter (fun kv => snd kv <> zeroDelta) m).
Proof.
  unfold key_sum. induction m as [|key d m Hnew IH] using map_ind.
  { rewrite map_filter_empty. done. }
  rewrite msum_insert_new by done. destruct (decide (d = zeroDelta)) as [->|Hd].
  - rewrite map_filter_insert_False by (simpl; tauto).
    rewrite delete_id by done. rewrite <- IH. destruct (_ ==s k); done.
  - rewrite map_filter_insert_True by done. rewrite msum_insert_new, IH; [done|].
    apply map_lookup_filter_None. left. done.
Qed.

Lemma key_sum_ext (k : string) (c c' : Counters) :
  (forall key, KeyBytes key c = KeyBytes key c') -> key_sum k (entries c) = key_sum k (entries c').
Proof.
  intros H. rewrite (key_sum_nonzero k (entries c)), (key_sum_nonzero k (entries c')). f_equal.
  apply map_eq. intros key. specialize (H key). unfold KeyBytes in H. apply option_eq. intros d.
  rewrite !map_lookup_filter_Some. simpl.
  destruct (entries c !! key), (entries c' !! key); simpl in *; naive_solver.
Qed.

Lemma KeyTotal_sum (k : string) (c : Counters) :
  counters_wf c -> KeyTotal k c = if k ==s "" then 0 else wrap64 (key_sum k (entries c)).
Proof.
  intros W. unfold KeyTotal. destruct (k ==s "") eqn:E; [done|]. bool_prop. apply (cw_total c W). done.
Qed.

(** Draining any buckets and putting the drained batch back, in whatever order
    the map is walked, restores every bucket and every key's total, and leaves
    the user aggregate and the water mark as they were. *)
Lemma drain_then_requeue_restores (c : Counters) (keys : list CounterKey)
    (batch : list (CounterKey * Delta)) :
  counters_wf c -> batch ≡ₚ map_to_list (fst (Drain keys c)) ->
  let c' := Requeue batch (snd (Drain keys c)) in
  (forall key, KeyBytes key c' = KeyBytes key c) /\
  (forall keyID, KeyTotal keyID c' = KeyTotal keyID c) /\
  (forall u, UserBytes u c' = UserBytes u c) /\
  (forall u, PersistedBytes u c' = PersistedBytes u c).
Proof.
  intros W Hp c'.
  assert (NoDup batch.*1) as Hnd by (rewrite Hp; apply NoDup_fst_map_to_list).
  assert (forall key, KeyBytes key c' = KeyBytes key c /\ users c' = users c /\
            persisted c' = persisted c) as H.
  { intros key. destruct (Drain_spec keys c key) as (D1 & D2 & D3 & D4).
    destruct (Requeue_spec batch (snd (Drain keys c)) key Hnd) as (R1 & R2 & R3 & R4).
    fold c' in R1, R2, R3, R4. split_and!; [|congruence..].
    destruct (fst (Drain keys c) !! key) as [d|] eqn:Ed.
    - destruct (decide (key ∈ keys)); [|done]. unfold nonzero in D1. case_bool_decide; [done|].
      injection D1 as ->. rewrite (R4 (KeyBytes key c)); [|rewrite Hp; apply elem_of_map_to_list; done|done].
      rewrite D2. apply delta_add_zero_l. unfold KeyBytes.
      destruct (entries c !! key) as [d|] eqn:Ek; [apply (cw_range c W key d Ek)|].
      split_and!; simpl; int64_unfold; lia.
    - rewrite R3.
      + rewrite D2. destruct (decide (key ∈ keys)); [|done]. unfold nonzero in D1.
        case_bool_decide as Hz; [congruence|done].
      + rewrite Hp. intros Hin. apply list_elem_of_fmap in Hin as ([k d] & -> & Hin).
        apply elem_of_map_to_list in Hin. simpl in Ed. congruence. }
  assert (counters_wf c') as W' by (apply Requeue_wf, Drain_wf, W).
  split_and!.
  - intros key. apply H.
  - intros keyID. rewrite !KeyTotal_sum by done. destruct (keyID ==s ""); [done|].
    f_equal. apply key_sum_ext. intros key. apply H.
  - intros u. unfold UserBytes. destruct (H (mkCounterKey "" "" "")) as (_ & -> & _). done.
  - intros u. unfold PersistedBytes. destruct (H (mkCounterKey "" "" "")) as (_ & _ & ->). done.
Qed.

(** ** Histories *)

Inductive CounterOp :=
| OpAdd (key : CounterKey) (delta : Delta)
| OpDrain (keys : list CounterKey)
| OpRequeue (batch : list (CounterKey * Delta))
| OpMark (userID : string) (bytes : Z)
| OpReset (userID : string)
| OpLoad (userID : string) (bytes : Z).

Definition run_op (op : CounterOp) (c : Counters) : Counters :=
  match op with
  | OpAdd key delta => Add key delta c
  | OpDrain keys => snd (Drain keys c)
  | OpRequeue batch => Requeue batch c
  | OpMark userID bytes => MarkPersisted userID bytes c
  | OpReset userID => ResetUser userID c
  | OpLoad userID bytes => LoadUser userID bytes c
  end.

Definition run_ops (ops : list CounterOp) (c : Counters) : Counters :=
  fold_left (fun c op => run_op op c) ops c.

(** The bytes a user's allowance should have been charged after a history:
    what was added since the last reset or load. *)
Definition allowance_after (userID : string) (ops : list CounterOp) (start : Z) : Z :=
  fold_left (fun acc op =>
    match op with
    | OpAdd key delta => if UserID key ==s userID then acc + bytes_of delta else acc
    | OpReset u => if u ==s userID then 0 else acc
    | OpLoad u bytes => if u ==s userID then bytes else acc
    | _ => acc
    end) ops start.

Lemma run_op_wf (op : CounterOp) (c : Counters) : counters_wf c -> counters_wf (run_op op c).
Proof.
  intros W. destruct op; simpl; auto using Add_wf, Drain_wf, Requeue_wf.
  - unfold MarkPersisted. destruct (_ =? _); [done|]. destruct (_ ==s _); [done|].
    eapply same_buckets_wf; eauto.
  - unfold ResetUser. destruct (_ ==s _); [done|]. eapply same_buckets_wf; eauto.
  - unfold LoadUser. destruct (_ ==s _); [done|]. eapply same_buckets_wf; eauto.
Qed.

Lemma run_ops_wf (ops : list CounterOp) (c : Counters) : counters_wf c -> counters_wf (run_ops ops c).
Proof. revert c. induction ops as [|op ops IH]; intros c W; simpl; auto using run_op_wf. Qed.

(** After any history of adds, drains, requeues, marks, resets and loads,
    the running total of a key is exactly (modulo 2^64) the sum of the bytes in
    the buckets of that key which have not been drained. *)
Theorem key_total_is_the_bucket_sum (ops : list CounterOp) (keyID : string) :
  keyID <> "" ->
  let c := run_ops ops NewCounters in
  KeyTotal keyID c = wrap64 (key_sum keyID (entries c)).
Proof.
  intros Hne c. rewrite KeyTotal_sum by (apply run_ops_wf, NewCounters_wf).
  apply eqb_s_false in Hne. rewrite Hne. reflexivity.
Qed.

Lemma UserBytes_eqm_step (u : string) (op : CounterOp) (c : Counters) (acc : Z) :
  u <> "" -> UserBytes u c ≡₆₄ acc ->
  UserBytes u (run_op op c) ≡₆₄ allowance_after u [op] acc.
Proof.
  intros Hne H. unfold allowance_after. simpl. apply eqb_s_false in Hne as Hu.
  unfold UserBytes in *. rewrite Hu in *. destruct op as [key delta|keys|batch|v b|v|v b]; simpl.
  - unfold Add. case_bool_decide as Hz.
    { subst delta. destruct (_ ==s u); rewrite ?H; apply eq_eqm64; unfold bytes_of; simpl; lia. }
    pose proof (Total_eqm delta) as HT.
    destruct (UserID key ==s u) eqn:E.
    + apply eqb_s_true in E. subst u. rewrite Hu.
      destruct (Total delta =? 0) eqn:E0; simpl; bool_prop.
      * rewrite <- HT, E0, H. apply eq_eqm64. lia.
      * unfold user_add. rewrite lookup_insert_eq. simpl.
        unfold add64. rewrite wrap64_eqm, H, HT. reflexivity.
    + destruct (negb _ && _); simpl; [|done].
      apply eqb_s_false in E. unfold user_add. rewrite lookup_insert_ne by done. done.
  - destruct (Drain_spec keys c (mkCounterKey "" "" "")) as (_ & _ & -> & _). done.
  - assert (users (Requeue batch c) = users c) as ->; [|done].
    clear. revert c. induction batch as [|[k d] rest IH]; intros c; simpl; [done|].
    rewrite IH. case_bool_decide; done.
  - unfold MarkPersisted. destruct (b =? 0); [exact H|]. destruct (v ==s ""); exact H.
  - unfold ResetUser. destruct (v ==s "") eqn:Ev.
    { apply eqb_s_true in Ev. subst v. destruct ("" ==s u) eqn:E; [|done].
      apply eqb_s_true in E. congruence. }
    simpl. unfold atomic_store. destruct (v ==s u) eqn:E.
    + apply eqb_s_true in E. subst v. destruct (users c !! u) eqn:El; simpl.
      * rewrite lookup_insert_eq. done.
      * rewrite El. done.
    + apply eqb_s_false in E. destruct (users c !! v); [|done].
      rewrite lookup_insert_ne by done. done.
  - unfold LoadUser. destruct (v ==s "") eqn:Ev.
    { apply eqb_s_true in Ev. subst v. destruct ("" ==s u) eqn:E; [|done].
      apply eqb_s_true in E. congruence. }
    simpl. destruct (v ==s u) eqn:E.
    + apply eqb_s_true in E. subst v. rewrite lookup_insert_eq. done.
    + apply eqb_s_false in E. rewrite lookup_insert_ne by done. done.
Qed.

Lemma UserBytes_eqm (u : string) (ops : list CounterOp) (c : Counters) (acc : Z) :
  u <> "" -> UserBytes u c ≡₆₄ acc -> UserBytes u (run_ops ops c) ≡₆₄ allowance_after u ops acc.
Proof.
  intros Hne. revert c acc. induction ops as [|op ops IH]; intros c acc H; simpl; [done|].
  apply IH. exact (UserBytes_eqm_step u op c acc Hne H).
Qed.

(** C21: The aggregate a quota is checked against counts every byte of the
    user's traffic since the last reset or load exactly once (modulo 2^64):
    draining the buckets, requeueing a failed batch and moving the water mark
    never change it, so a flush neither hands the allowance back nor charges
    the same bytes twice. *)
Theorem user_aggregate_counts_each_byte_once (ops : list CounterOp) (u : string) :
  u <> "" -> UserBytes u (run_ops ops NewCounters) ≡₆₄ allowance_after u ops 0.
Proof.
  intros Hne. apply UserBytes_eqm; [done|]. unfold UserBytes. simpl. rewrite lookup_empty.
  destruct (u ==s ""); reflexivity.
Qed.

(** The arguments of a history are int64. *)
Definition loads_in_range (ops : list CounterOp) : Prop :=
  forall u b, In (OpLoad u b) ops -> in_int64 b.

Definition users_in_range (c : Counters) : Prop := forall u v, users c !! u = Some v -> in_int64 v.

Lemma run_op_range (op : CounterOp) (c : Counters) :
  loads_in_range [op] -> users_in_range c -> users_in_range (run_op op c).
Proof.
  intros Hl Hr u v. destruct op as [key delta|keys|batch|w b|w|w b]; simpl.
  - unfold Add. case_bool_decide; [apply Hr|]. destruct (negb _ && _); simpl; [|apply Hr].
    unfold user_add. rewrite lookup_insert. case_decide; [|apply Hr]. intros [= <-]. apply wrap64_in.
  - destruct (Drain_spec keys c (mkCounterKey "" "" "")) as (_ & _ & -> & _). apply Hr.
  - assert (users (Requeue batch c) = users c) as ->; [|apply Hr].
    clear. revert c. induction batch as [|[k d] rest IH]; intros c; simpl; [done|].
    rewrite IH. case_bool_decide; done.
  - unfold MarkPersisted. destruct (b =? 0); [apply Hr|]. destruct (w ==s ""); apply Hr.
  - unfold ResetUser. destruct (w ==s ""); [apply Hr|]. simpl. unfold atomic_store.
    destruct (users c !! w); [|apply Hr]. rewrite lookup_insert. case_decide; [|apply Hr].
    intros [= <-]. int64_unfold. lia.
  - unfold LoadUser. destruct (w ==s ""); [apply Hr|]. simpl. rewrite lookup_insert. case_decide; [|apply Hr].
    intros [= <-]. apply (Hl w). left. done.
Qed.

Lemma run_ops_range (ops : list CounterOp) (c : Counters) :
  loads_in_range ops -> users_in_range c -> users_in_range (run_ops ops c).
Proof.
  revert c. induction ops as [|op ops IH]; intros c Hl Hr; simpl; [done|]. apply IH.
  - intros u b Hin. apply (Hl u). right. done.
  - apply run_op_range; [|done]. intros u b [->|[]]. apply (Hl u). left. done.
Qed.

Module CountersDemo.
Definition k1 : CounterKey := mkCounterKey "k1" "ann" "p1".
Definition k2 : CounterKey := mkCounterKey "k1" "ann" "p2".
Definition history : list CounterOp :=
  [OpAdd k1 (mkDelta 5 7 1 0); OpAdd k2 (mkDelta 1 1 1 0); OpDrain [k1];
   OpRequeue [(k1, mkDelta 5 7 1 0)]; OpMark "ann" 12; OpDrain [k2]].
End CountersDemo.

Lemma key_total_is_the_bucket_sum_witness :
  KeyTotal "k1" (run_ops CountersDemo.history NewCounters) = 12.
Proof.
  rewrite (key_total_is_the_bucket_sum CountersDemo.history "k1") by discriminate.
  vm_compute. reflexivity.
Defined.

Lemma user_aggregate_counts_each_byte_once_witness :
  "ann" <> "" /\ UserBytes "ann" (run_ops CountersDemo.history NewCounters) ≡₆₄ 14.
Proof.
  split; [discriminate|].
  exact (user_aggregate_counts_each_byte_once CountersDemo.history "ann" ltac:(discriminate)).
Defined.
