(* ===== verification/Flush.v ===== *)
(** * Flushing the counters, and seeding them after a restart

    [src/internal/usage/flush.go], with the hourly usage table of
    [repo_user.go] it writes to.

    The flusher sees its store through the [FlushStore] interface of the
    source; here it is a class with the laws the flusher relies on, and the
    repository is its instance.  Between reading the billing windows and
    charging them the store is unlocked: [interfere] is whatever other writers
    did to it and to the counters there. *)

From stdpp Require Import base gmap strings list.
From S2P Require Import Prelude Model Store UsageTables Counters.

(** ** The interface *)

Class FlushStore (S : Type) := {
  UpsertHourly : list UsageRow -> S -> bool * S;
  GetActive : string -> S -> option UserSubscription;
  AddUsedBytes : string -> Z -> S -> bool * S;
  store_ok : S -> Prop
}.

(** What the flusher relies on: failed writes change nothing, usage rows do not
    touch subscriptions, an add reaches exactly the subscription it names, and
    subscriptions of different users are different rows. *)
Class FlushStoreLaws (S : Type) `{FlushStore S} : Prop := {
  upsert_law : forall rows s, store_ok s ->
    store_ok (snd (UpsertHourly rows s)) /\
    (forall u, GetActive u (snd (UpsertHourly rows s)) = GetActive u s) /\
    (fst (UpsertHourly rows s) = false -> snd (UpsertHourly rows s) = s);
  add_law : forall id d s, store_ok s ->
    store_ok (snd (AddUsedBytes id d s)) /\
    (fst (AddUsedBytes id d s) = false -> snd (AddUsedBytes id d s) = s) /\
    (fst (AddUsedBytes id d s) = true -> forall u,
       GetActive u (snd (AddUsedBytes id d s)) =
       (fun sub => if UserSubscription.ID sub ==s id
          then UserSubscription.with_Period (UserSubscription.PeriodStartNs sub)
                 (Z.max 0 (UserSubscription.PeriodUsedBytes sub + d)) sub
          else sub) <$> GetActive u s);
  add_succeeds : forall u sub d s, store_ok s -> GetActive u s = Some sub ->
    fst (AddUsedBytes (UserSubscription.ID sub) d s) = true;
  active_distinct : forall u v a b s, store_ok s -> GetActive u s = Some a -> GetActive v s = Some b ->
    UserSubscription.ID a = UserSubscription.ID b -> u = v
}.

Record FlushResult := mkFlushResult {
  Rows : Z;
  Bytes : Z;
  Subscriptions : Z;
  RolledBytes : Z;
  UnclaimedBytes : Z
}.

Definition emptyResult : FlushResult := mkFlushResult 0 0 0 0 0.

Record subscriptionWindow := mkWindow { window_id : string; window_start : Z }.

Definition hourNs : Z := 3600000000000.
Definition hourOf (nowNs : Z) : Z := mul64 (Z.quot nowNs hourNs) hourNs.

Definition usage_row (hourTS : Z) (kd : CounterKey * Delta) : UsageRow :=
  let (key, delta) := kd in
  UsageRow.mkUsageRow (KeyID key) (UserID key) (PlatformID key) hourTS
    (IngressBytes delta) (EgressBytes delta) (Requests delta) (Errors delta).

(** [perUser[key.UserID] += delta.Total()] *)
Definition per_user (drained : list (CounterKey * Delta)) : gmap string Z :=
  fold_left (fun m kd =>
    if UserID (fst kd) ==s "" then m else user_add (UserID (fst kd)) (Total (snd kd)) m)
    drained ∅.

Section Flusher.
Context {S : Type} `{FlushStore S}.

(** [chargeSubscription] for a store without the period guard: re-read the
    window, and add only if it is still the one the bytes were drained under. *)
Definition chargeSubscription (userID : string) (w : subscriptionWindow) (bytes : Z) (s : S)
    : option bool * S :=
  match GetActive userID s with
  | None => (None, s)
  | Some current =>
      if (UserSubscription.ID current <>s window_id w) ||
         negb (UserSubscription.PeriodStartNs current =? window_start w)
      then (Some false, s)
      else match AddUsedBytes (window_id w) bytes s with
           | (true, s') => (Some true, s')
           | (false, s') => (None, s')
           end
  end.

(** The first loop over [perUser]: the window of each user that has one. *)
Definition windows_of (users : list (string * Z)) (s : S) : gmap string subscriptionWindow :=
  fold_left (fun m ub =>
    match GetActive (fst ub) s with
    | Some sub => <[fst ub := mkWindow (UserSubscription.ID sub) (UserSubscription.PeriodStartNs sub)]> m
    | None => m
    end) users ∅.

Definition unclaimed_bytes (users : list (string * Z)) (s : S) : Z :=
  fold_left (fun acc ub =>
    match GetActive (fst ub) s with Some _ => acc | None => add64 acc (snd ub) end) users 0.

(** The second loop: charge every user that has a window. *)
Fixpoint charge_users (users : list (string * Z)) (windows : gmap string subscriptionWindow)
    (r : FlushResult) (c : Counters) (s : S) : FlushResult * Counters * S :=
  match users with
  | [] => (r, c, s)
  | (userID, bytes) :: rest =>
      match windows !! userID with
      | None => charge_users rest windows r c s
      | Some w =>
          match chargeSubscription userID w bytes s with
          | (None, s') =>
              charge_users rest windows
                (mkFlushResult (Rows r) (Bytes r) (Subscriptions r) (RolledBytes r)
                   (add64 (UnclaimedBytes r) bytes)) c s'
          | (Some false, s') =>
              charge_users rest windows
                (mkFlushResult (Rows r) (Bytes r) (Subscriptions r) (add64 (RolledBytes r) bytes)
                   (UnclaimedBytes r)) c s'
          | (Some true, s') =>
              charge_users rest windows
                (mkFlushResult (Rows r) (Bytes r) (Subscriptions r + 1) (RolledBytes r)
                   (UnclaimedBytes r)) (MarkPersisted userID bytes c) s'
          end
      end
  end.

(** [FlushOnce] at a positive time: the result, whether the hourly write
    failed, the counters and the store. *)
Definition FlushOnce (nowNs : Z) (interfere : Counters * S -> Counters * S) (c : Counters) (s : S)
    : FlushResult * bool * Counters * S :=
  let keys := Keys c in
  if (length keys =? 0)%nat then (emptyResult, true, c, s) else
  let (drained, c1) := Drain keys c in
  if (size drained =? 0)%nat then (emptyResult, true, c1, s) else
  let batch := map_to_list drained in
  let rows := map (usage_row (hourOf nowNs)) batch in
  match UpsertHourly rows s with
  | (false, s') => (emptyResult, false, Requeue batch c1, s')
  | (true, s1) =>
      let users := map_to_list (per_user batch) in
      let r := mkFlushResult (Z.of_nat (length rows))
                 (fold_left (fun acc row =>
                    add64 acc (add64 (UsageRow.IngressBytes row) (UsageRow.EgressBytes row))) rows 0)
                 0 0 (unclaimed_bytes users s1) in
      let windows := windows_of users s1 in
      let (c2, s2) := interfere (c1, s1) in
      match charge_users users windows r c2 s2 with
      | (r', c3, s3) => (r', true, c3, s3)
      end
  end.
End Flusher.

(** ** Seeding *)

Definition seed_eligible (nowNs : Z) (sub : UserSubscription) : bool :=
  (UserSubscription.UserID sub <>s "") && (0 <? UserSubscription.PeriodUsedBytes sub)
  && (UserSubscription.Status sub ==s SubscriptionStatusActive)
  && negb ((0 <? UserSubscription.ExpiresAtNs sub) && (0 <? nowNs)
           && (UserSubscription.ExpiresAtNs sub <? nowNs)).

(** One iteration: restore the part of the persisted total above the water
    mark, and move the mark to the total. *)
Definition seed_one (nowNs : Z) (cs : Counters * Z) (sub : UserSubscription) : Counters * Z :=
  let (c, seeded) := cs in
  if seed_eligible nowNs sub then
    let u := UserSubscription.UserID sub in
    let used := UserSubscription.PeriodUsedBytes sub in
    let restore := sub64 used (default 0 (persisted c !! u)) in
    (mkCounters (entries c) (if 0 <? restore then user_add u restore (users c) else users c)
       (<[u := used]> (persisted c)) (keyBytes c),
     if 0 <? restore then seeded + 1 else seeded)
  else (c, seeded).

Definition SeedFromSubscriptions (subs : list UserSubscription) (nowNs : Z) (c : Counters)
    : Counters * Z :=
  fold_left (seed_one nowNs) subs (c, 0).

(** The water mark of a user; a missing one stands for zero. *)
Definition mark_of (u : string) (c : Counters) : Z := default 0 (persisted c !! u).

Definition charged_row (bytes : Z) (sub : UserSubscription) : UserSubscription :=
  UserSubscription.with_Period (UserSubscription.PeriodStartNs sub)
    (Z.max 0 (UserSubscription.PeriodUsedBytes sub + bytes)) sub.

Definition bumped (bytes mark : Z) : Z := if bytes =? 0 then mark else add64 mark bytes.

Lemma MarkPersisted_mark (u v : string) (bytes : Z) (c : Counters) :
  u <> "" ->
  mark_of v (MarkPersisted u bytes c) = (if u ==s v then bumped bytes (mark_of v c) else mark_of v c) /\
  users (MarkPersisted u bytes c) = users c /\ entries (MarkPersisted u bytes c) = entries c.
Proof.
  intros Hu. apply eqb_s_false in Hu. unfold MarkPersisted, mark_of, bumped. rewrite Hu.
  destruct (bytes =? 0); [split_and!; try done; destruct (u ==s v); done|]. simpl. split_and!; try done.
  unfold user_add. destruct (u ==s v) eqn:E; bool_prop.
  - subst. rewrite lookup_insert_eq. done.
  - rewrite lookup_insert_ne by done. done.
Qed.

(** ** The pending batch *)

Lemma per_user_from (batch : list (CounterKey * Delta)) (m : gmap string Z) (u : string) :
  fold_left (fun m kd =>
    if UserID (fst kd) ==s "" then m else user_add (UserID (fst kd)) (Total (snd kd)) m) batch m !! u =
  if existsb (fun kd => (UserID (fst kd) <>s "") && (UserID (fst kd) ==s u)) batch
  then Some (fold_left (fun acc kd => if UserID (fst kd) ==s u then add64 acc (Total (snd kd)) else acc)
               batch (default 0 (m !! u)))
  else m !! u.
Proof.
  revert m. induction batch as [|[k d] batch IH]; intros m; simpl; [done|]. rewrite IH.
  destruct (UserID k ==s "") eqn:E0; simpl.
  - apply eqb_s_true in E0. rewrite E0. destruct ("" ==s u) eqn:Eu; [|done].
    apply eqb_s_true in Eu. subst u. destruct (existsb _ batch) eqn:Ex; [|done].
    apply List.existsb_exists in Ex as (kd & _ & Hk). bool_prop. congruence.
  - unfold user_add. destruct (UserID k ==s u) eqn:Eu; simpl.
    + apply eqb_s_true in Eu. subst u. rewrite lookup_insert_eq. simpl.
      destruct (existsb _ batch) eqn:Ex; [done|]. f_equal.
      assert (forall kd, In kd batch -> (UserID (fst kd) ==s UserID k) = false) as Hno.
      { intros kd Hin. rewrite existsb_false in Ex. specialize (Ex kd Hin).
        destruct (UserID (fst kd) ==s UserID k) eqn:Ek; [|done].
        apply eqb_s_true in Ek. rewrite Ek in Ex. rewrite E0 in Ex. done. }
      clear -Hno. revert Hno. generalize (add64 (default 0 (m !! UserID k)) (Total d)).
      induction batch as [|kd batch IH]; intros z Hno; simpl; [done|].
      rewrite (Hno kd (or_introl eq_refl)). apply IH. intros kd' Hin. apply Hno. right. done.
    + apply eqb_s_false in Eu. rewrite lookup_insert_ne by done. done.
Qed.

Lemma per_user_nonempty (batch : list (CounterKey * Delta)) (u : string) (b : Z) :
  per_user batch !! u = Some b -> u <> "".
Proof.
  unfold per_user. rewrite per_user_from, lookup_empty. destruct (existsb _ batch) eqn:E; [|done].
  apply List.existsb_exists in E as (kd & _ & H). bool_prop. congruence.
Qed.

(** The bytes a flush of these counters would charge to each user. *)
Definition pending (c : Counters) : gmap string Z := per_user (map_to_list (fst (Drain (Keys c) c))).

Section FlushSpec.
Context {S : Type} `{FlushStoreLaws S}.

(** The user's active subscription is still the window recorded for them. *)
Definition window_holds (u : string) (windows : gmap string subscriptionWindow) (s : S) : Prop :=
  exists w sub, windows !! u = Some w /\ GetActive u s = Some sub /\
    UserSubscription.ID sub = window_id w /\ UserSubscription.PeriodStartNs sub = window_start w.

(** Charging one user. *)
Lemma chargeSubscription_spec (u : string) (w : subscriptionWindow) (bytes : Z) (s : S) :
  store_ok s ->
  store_ok (snd (chargeSubscription u w bytes s)) /\
  match chargeSubscription u w bytes s with
  | (Some true, s') =>
      exists sub, GetActive u s = Some sub /\ UserSubscription.ID sub = window_id w /\
        UserSubscription.PeriodStartNs sub = window_start w /\
        GetActive u s' = Some (charged_row bytes sub) /\
        (forall v, v <> u -> GetActive v s' = GetActive v s)
  | (_, s') => s' = s /\
      forall sub, GetActive u s = Some sub -> UserSubscription.ID sub = window_id w ->
        UserSubscription.PeriodStartNs sub <> window_start w
  end.
Proof.
  intros W. unfold chargeSubscription. destruct (GetActive u s) as [sub|] eqn:E; [|done].
  destruct ((_ <>s _) || _) eqn:Eg.
  { simpl. split; [done|]. split; [done|]. intros sub' [= <-] Hid Hst.
    rewrite Hid, Hst, eqb_s_refl, Z.eqb_refl in Eg. done. }
  bool_prop. pose proof (add_law (window_id w) bytes s W) as (L1 & L2 & L3).
  pose proof (add_succeeds u sub bytes s W E) as Hok.
  match goal with H : UserSubscription.ID sub = _ |- _ => rewrite H in Hok end.
  destruct (AddUsedBytes (window_id w) bytes s) as [ok s'] eqn:Ea. simpl in *. subst ok.
  split; [done|]. exists sub. specialize (L3 eq_refl). split_and!; auto.
  - rewrite L3, E. simpl. rewrite (proj2 (eqb_s_true _ _)) by done. done.
  - intros v Hv. rewrite L3. destruct (GetActive v s) as [b|] eqn:Eb; [|done]. simpl. f_equal.
    destruct (_ ==s _) eqn:Ei; [|done]. exfalso. apply eqb_s_true in Ei. apply Hv.
    eapply (active_distinct v u b sub s); eauto. congruence.
Qed.

(** One iteration of the charging loop. *)
Lemma charge_users_cons (u0 : string) (b0 : Z) (l : list (string * Z))
    (windows : gmap string subscriptionWindow) (r : FlushResult) (c : Counters) (s : S) :
  store_ok s -> u0 <> "" ->
  exists r1 c1 s1,
    charge_users ((u0, b0) :: l) windows r c s = charge_users l windows r1 c1 s1 /\
    store_ok s1 /\ users c1 = users c /\ entries c1 = entries c /\
    (forall v, v <> u0 -> GetActive v s1 = GetActive v s /\ mark_of v c1 = mark_of v c) /\
    (forall sub, window_holds u0 windows s -> GetActive u0 s = Some sub ->
       GetActive u0 s1 = Some (charged_row b0 sub) /\ mark_of u0 c1 = bumped b0 (mark_of u0 c)) /\
    (~ window_holds u0 windows s ->
       GetActive u0 s1 = GetActive u0 s /\ mark_of u0 c1 = mark_of u0 c).
Proof.
  intros W Hne. simpl. destruct (windows !! u0) as [w|] eqn:Ew.
  2: { do 3 eexists. split_and!; [reflexivity|done..| |done].
       intros sub (w & ? & ? & _). congruence. }
  destruct (chargeSubscription_spec u0 w b0 s W) as [W1 Hsp].
  destruct (chargeSubscription u0 w b0 s) as [[[|]|] s1] eqn:Ec; simpl in W1.
  - destruct Hsp as (sub & Ha & Hid & Hst & Ha1 & Ho).
    do 3 eexists. split_and!; [reflexivity|done|apply MarkPersisted_mark; done..| | |].
    + intros v Hv. split; [auto|]. destruct (MarkPersisted_mark u0 v b0 c Hne) as [-> _].
      rewrite (proj2 (eqb_s_false u0 v)) by congruence. done.
    + intros sub' _ Ha'. assert (sub' = sub) as -> by congruence. split; [done|].
      destruct (MarkPersisted_mark u0 u0 b0 c Hne) as [-> _]. rewrite eqb_s_refl. done.
    + intros Hn. exfalso. apply Hn. exists w, sub. auto.
  - destruct Hsp as [-> Hno]. do 3 eexists. split_and!; [reflexivity|done..| |done].
    intros sub (w' & sub' & Hw & Ha & Hid & Hst). exfalso.
    assert (w' = w) as -> by congruence. eapply Hno; eauto.
  - destruct Hsp as [-> Hno]. do 3 eexists. split_and!; [reflexivity|done..| |done].
    intros sub (w' & sub' & Hw & Ha & Hid & Hst). exfalso.
    assert (w' = w) as -> by congruence. eapply Hno; eauto.
Qed.

Lemma window_holds_ext (u : string) (windows : gmap string subscriptionWindow) (s s' : S) :
  GetActive u s' = GetActive u s -> window_holds u windows s' <-> window_holds u windows s.
Proof. intros E. unfold window_holds. rewrite E. done. Qed.

(** The charging loop, user by user: a user whose window still holds is
    charged and marked by exactly their bytes, everybody else is left alone. *)
Lemma charge_users_spec (l : list (string * Z)) (windows : gmap string subscriptionWindow)
    (r : FlushResult) (c : Counters) (s : S) :
  NoDup l.*1 -> store_ok s -> (forall u b, (u, b) ∈ l -> u <> "") ->
  match charge_users l windows r c s with
  | (_, c', s') =>
      store_ok s' /\ users c' = users c /\ entries c' = entries c /\
      forall u,
        (forall b sub, (u, b) ∈ l -> window_holds u windows s -> GetActive u s = Some sub ->
           GetActive u s' = Some (charged_row b sub) /\ mark_of u c' = bumped b (mark_of u c)) /\
        ((u ∉ l.*1 \/ ~ window_holds u windows s) ->
           GetActive u s' = GetActive u s /\ mark_of u c' = mark_of u c)
  end.
Proof.
  revert r c s. induction l as [|[u0 b0] l IH]; intros r c s Hnd W Hne.
  { simpl. split_and!; auto. intros u. split; [intros b sub Hin; inversion Hin|auto]. }
  apply list.NoDup_cons in Hnd as [Hu0 Hnd].
  destruct (charge_users_cons u0 b0 l windows r c s W) as
    (r1 & c1 & s1 & -> & W1 & U1 & E1 & Ho & Hh & Hn); [eapply (Hne u0 b0); left|].
  specialize (IH r1 c1 s1 Hnd W1 (fun u b Hin => Hne u b (proj2 (elem_of_cons _ _ _) (or_intror Hin)))).
  destruct (charge_users l windows r1 c1 s1) as [[r' c'] s'].
  destruct IH as (W' & U' & E' & IH). split_and!; [done|congruence|congruence|].
  intros u. destruct (IH u) as [I1 I2]. destruct (decide (u = u0)) as [->|Hneq].
  - destruct (I2 (or_introl Hu0)) as [-> ->]. split.
    + intros b sub Hin Hw Ha. apply elem_of_cons in Hin as [[= ->]|Hin]; [auto|].
      exfalso. apply Hu0. apply list_elem_of_fmap. exists (u0, b). done.
    + intros [Hni|Hni]; [exfalso; apply Hni; left|]. auto.
  - destruct (Ho u Hneq) as [Ea Em].
    pose proof (window_holds_ext u windows s s1 Ea) as Hx. rewrite <- Ea, <- Em. split.
    + intros b sub Hin Hw Ha. apply elem_of_cons in Hin as [[= -> ->]|Hin]; [done|].
      apply I1; [done|apply Hx; done|done].
    + intros [Hni|Hni]; apply I2; [left|right; rewrite Hx; done].
      intros Hin. apply Hni. right. done.
Qed.

Lemma windows_of_lookup (l : list (string * Z)) (s : S) (u : string) :
  windows_of l s !! u =
    if existsb (fun ub => fst ub ==s u) l
    then (fun sub => mkWindow (UserSubscription.ID sub) (UserSubscription.PeriodStartNs sub)) <$> GetActive u s
    else None.
Proof.
  unfold windows_of. assert (forall m : gmap string subscriptionWindow,
    fold_left (fun m ub => match GetActive (fst ub) s with
      | Some sub => <[fst ub := mkWindow (UserSubscription.ID sub) (UserSubscription.PeriodStartNs sub)]> m
      | None => m end) l m !! u =
    if existsb (fun ub => fst ub ==s u) l
    then match GetActive u s with
         | Some sub => Some (mkWindow (UserSubscription.ID sub) (UserSubscription.PeriodStartNs sub))
         | None => m !! u end
    else m !! u) as Hg.
  { induction l as [|[v b] l IH]; intros m; simpl; [done|]. rewrite IH.
    destruct (v ==s u) eqn:E; simpl.
    - apply eqb_s_true in E. subst v. destruct (GetActive u s); [|destruct (existsb _ l); done].
      rewrite lookup_insert_eq. destruct (existsb _ l); done.
    - apply eqb_s_false in E. destruct (GetActive v s); [|done].
      rewrite lookup_insert_ne by done. done. }
  rewrite Hg, lookup_empty. destruct (existsb _ l); [|done]. destruct (GetActive u s); done.
Qed.

Lemma existsb_key (m : gmap string Z) (u : string) (b : Z) :
  m !! u = Some b -> existsb (fun ub => fst ub ==s u) (map_to_list m) = true.
Proof.
  intros E. apply List.existsb_exists. exists (u, b). split; [|apply eqb_s_refl].
  apply list_elem_of_In, elem_of_map_to_list. done.
Qed.

(** The counters and the store as the charging loop finds them. *)
Definition at_charge (nowNs : Z) (interfere : Counters * S -> Counters * S) (c : Counters) (s : S)
    : Counters * S :=
  interfere (snd (Drain (Keys c) c),
    snd (UpsertHourly (map (usage_row (hourOf nowNs)) (map_to_list (fst (Drain (Keys c) c)))) s)).

(** The three ways a pass ends: nothing buffered, the hourly write failed, or
    the charging loop ran. *)
Lemma FlushOnce_cases (nowNs : Z) (interfere : Counters * S -> Counters * S) (c : Counters) (s : S)
    (r : FlushResult) (ok : bool) (c' : Counters) (s' : S) :
  FlushOnce nowNs interfere c s = (r, ok, c', s') ->
  let batch := map_to_list (fst (Drain (Keys c) c)) in
  let c1 := snd (Drain (Keys c) c) in
  let rows := map (usage_row (hourOf nowNs)) batch in
  (batch = [] /\ r = emptyResult /\ ok = true /\ (c' = c \/ c' = c1) /\ s' = s) \/
  (ok = false /\ r = emptyResult /\ UpsertHourly rows s = (false, s') /\ c' = Requeue batch c1) \/
  (ok = true /\ fst (UpsertHourly rows s) = true /\
   exists r0, charge_users (map_to_list (pending c))
     (windows_of (map_to_list (pending c)) (snd (UpsertHourly rows s))) r0
     (fst (at_charge nowNs interfere c s)) (snd (at_charge nowNs interfere c s)) = (r, c', s')).
Proof.
  unfold FlushOnce, pending, at_charge. destruct (Keys c) as [|k keys] eqn:Ek.
  { simpl. intros [= <- <- <- <-]. left. rewrite map_to_list_empty. split_and!; auto. }
  rewrite <- Ek. replace (length (Keys c) =? 0)%nat with false by (rewrite Ek; done).
  destruct (Drain (Keys c) c) as [drained c1]. simpl.
  destruct (size drained =? 0)%nat eqn:Es.
  { apply Nat.eqb_eq, map_size_empty_inv in Es. subst drained. intros [= <- <- <- <-]. left.
    rewrite map_to_list_empty. split_and!; auto. }
  destruct (UpsertHourly _ s) as [[|] s1]; simpl.
  - destruct (interfere (c1, s1)) as [c2 s2]. simpl.
    destruct (charge_users _ _ _ c2 s2) as [[r' c3] s3] eqn:Ec. intros [= <- <- <- <-].
    right. right. split_and!; auto. eexists. exact Ec.
  - intros [= <- <- <- <-]. right. left. auto.
Qed.

Lemma Drain_keeps (keys : list CounterKey) (c : Counters) :
  users (snd (Drain keys c)) = users c /\ persisted (snd (Drain keys c)) = persisted c.
Proof. destruct (Drain_spec keys c (mkCounterKey "" "" "")) as (_ & _ & H1 & H2). auto. Qed.

(** What a pass does to one user, against the state the charging loop found. *)
Lemma FlushOnce_user (nowNs : Z) (interfere : Counters * S -> Counters * S) (c : Counters) (s : S)
    (r : FlushResult) (c' : Counters) (s' : S) :
  store_ok s -> store_ok (snd (at_charge nowNs interfere c s)) -> pending c <> ∅ ->
  FlushOnce nowNs interfere c s = (r, true, c', s') ->
  let cm := fst (at_charge nowNs interfere c s) in
  let sm := snd (at_charge nowNs interfere c s) in
  let held u := exists before after, GetActive u s = Some before /\ GetActive u sm = Some after /\
    UserSubscription.ID after = UserSubscription.ID before /\
    UserSubscription.PeriodStartNs after = UserSubscription.PeriodStartNs before in
  store_ok s' /\ users c' = users cm /\
  (forall u b sub, pending c !! u = Some b -> held u -> GetActive u sm = Some sub ->
     GetActive u s' = Some (charged_row b sub) /\ mark_of u c' = bumped b (mark_of u cm)) /\
  (forall u, pending c !! u = None \/ ~ held u ->
     GetActive u s' = GetActive u sm /\ mark_of u c' = mark_of u cm).
Proof.
  intros W Wm Hp H2 cm sm held. apply FlushOnce_cases in H2 as [(Hb & _)|[(? & _)|(_ & Hup & r0 & Hc)]].
  { exfalso. apply Hp. unfold pending. rewrite Hb. done. }
  { done. }
  fold cm sm in Hc. set (rows := map _ _) in Hup, Hc.
  pose proof (upsert_law rows s W) as (W1 & Ha & _).
  set (win := windows_of (map_to_list (pending c)) (snd (UpsertHourly rows s))) in Hc.
  assert (forall u b, pending c !! u = Some b -> window_holds u win sm <-> held u) as Hheld.
  { intros u b Hu. unfold window_holds, held, win.
    rewrite windows_of_lookup, (existsb_key _ u b Hu), Ha. split.
    - intros (w & sub & Ew & Es & E1 & E2). destruct (GetActive u s) as [before|]; [|done].
      injection Ew as <-. exists before, sub. auto.
    - intros (before & after & -> & Es & E1 & E2). eexists _, after. split_and!; [reflexivity|auto..]. }
  assert (NoDup (map_to_list (pending c)).*1) as Hnd by apply NoDup_fst_map_to_list.
  pose proof (charge_users_spec (map_to_list (pending c)) win r0 cm sm Hnd Wm) as Hs.
  rewrite Hc in Hs. destruct Hs as (W' & U' & _ & Hs).
  { intros u b Hin. apply elem_of_map_to_list in Hin. eapply per_user_nonempty. exact Hin. }
  split_and!; [done..| |].
  - intros u b sub Hu Hh Hg. apply (proj1 (Hs u)); [apply elem_of_map_to_list; done| |done].
    apply (Hheld u b Hu). done.
  - intros u Hn. apply (proj2 (Hs u)). destruct (pending c !! u) as [b|] eqn:Eu.
    + right. destruct Hn as [|Hn]; [done|]. rewrite (Hheld u b Eu). done.
    + left. intros Hin. apply list_elem_of_fmap in Hin as ([v b] & -> & Hin).
      apply elem_of_map_to_list in Hin. simpl in Eu. congruence.
Qed.

(** Disk and water mark agree for every user with a subscription. *)
Definition covered (c : Counters) (s : S) : Prop :=
  forall u sub, u <> "" -> GetActive u s = Some sub -> mark_of u c = UserSubscription.PeriodUsedBytes sub.

(** Adding the buffered bytes overflows no subscription. *)
Definition has_room (c : Counters) (s : S) : Prop :=
  forall u sub b, pending c !! u = Some b -> GetActive u s = Some sub ->
    0 <= UserSubscription.PeriodUsedBytes sub + b <= int64_max.

Lemma flush_covered (nowNs : Z) (c : Counters) (s : S) (r : FlushResult) (ok : bool) (c' : Counters) (s' : S) :
  store_ok s -> covered c s -> has_room c s -> FlushOnce nowNs id c s = (r, ok, c', s') ->
  covered c' s' /\ users c' = users c /\ store_ok s'.
Proof.
  intros W C R HF. destruct (Drain_keeps (Keys c) c) as [Hu Hm].
  destruct (FlushOnce_cases _ _ _ _ _ _ _ _ HF) as
    [(Hb & _ & _ & Hc & ->)|[(-> & _ & Hup & ->)|(-> & Hup & _)]].
  - assert (users c' = users c /\ persisted c' = persisted c) as [E1 E2] by (destruct Hc as [->| ->]; auto).
    split_and!; [|done|done]. intros u sub Hne Ha. unfold mark_of. rewrite E2. apply C; done.
  - match type of Hup with UpsertHourly ?rows s = _ => pose proof (upsert_law rows s W) as (W1 & Ha & Hf) end.
    rewrite Hup in *. simpl in *. rewrite (Hf eq_refl) in *.
    destruct (Requeue_spec (map_to_list (fst (Drain (Keys c) c))) (snd (Drain (Keys c) c))
                (mkCounterKey "" "" "")) as (R1 & R2 & _); [apply NoDup_fst_map_to_list|].
    split_and!; [|congruence|done]. intros u sub Hne Hg. unfold mark_of. rewrite R2, Hm. apply C; done.
  - match type of Hup with fst (UpsertHourly ?rows s) = _ =>
      pose proof (upsert_law rows s W) as (W1 & Ha & _) end.
    destruct (decide (pending c = ∅)) as [Hp|Hp].
    { apply FlushOnce_cases in HF as [(_ & _ & _ & Hc & ->)|[(? & _)|(_ & _ & r0 & Hc)]]; [|done|].
      - destruct Hc as [->| ->]; split_and!; try done. intros u sub Hne Hg. unfold mark_of.
        rewrite Hm. apply C; done.
      - rewrite Hp, map_to_list_empty in Hc. simpl in Hc. injection Hc as <- <- <-.
        split_and!; [|done|done]. intros u sub Hne Hg. unfold mark_of. simpl. rewrite Hm.
        apply C; [done|]. rewrite <- Ha. exact Hg. }
    destruct (FlushOnce_user nowNs id c s r c' s' W W1 Hp HF) as (W' & U' & Hh & Hn).
    unfold at_charge, id in *. simpl in *. split_and!; [|congruence|done]. intros u sub Hne Hg.
    assert (mark_of u (snd (Drain (Keys c) c)) = mark_of u c) as Em by (unfold mark_of; rewrite Hm; done).
    destruct (pending c !! u) as [b|] eqn:Eu.
    + destruct (GetActive u s) as [before|] eqn:Eb.
      * destruct (Hh u b before Eu) as [Hg' ->]; [rewrite Ha; eauto 10|rewrite Ha; done|].
        rewrite Hg in Hg'. injection Hg' as ->. rewrite Em, (C u before Hne Eb). simpl.
        pose proof (R u before b Eu Eb) as Hr. unfold bumped, add64.
        destruct (b =? 0) eqn:E0; [apply Z.eqb_eq in E0; lia|]. rewrite wrap64_id; [lia|int64_unfold; lia].
      * destruct (Hn u) as [Hg' _]; [right; intros (x & y & ? & _); congruence|]. rewrite Ha in Hg'. congruence.
    + destruct (Hn u) as [Hg' ->]; [auto|]. rewrite Ha in Hg'. rewrite Em. apply C; [done|]. congruence.
Qed.
End FlushSpec.

(** ** Seeding *)

Lemma seed_one_spec (nowNs : Z) (c : Counters) (n : Z) (sub : UserSubscription) (u : string) :
  let (c', n') := seed_one nowNs (c, n) sub in
  let mine := seed_eligible nowNs sub && (UserSubscription.UserID sub ==s u) in
  mark_of u c' = (if mine then UserSubscription.PeriodUsedBytes sub else mark_of u c) /\
  (in_int64 (UserSubscription.PeriodUsedBytes sub - mark_of (UserSubscription.UserID sub) c) ->
   default 0 (users c' !! u) =
     if mine && (mark_of u c <? UserSubscription.PeriodUsedBytes sub)
     then add64 (default 0 (users c !! u)) (UserSubscription.PeriodUsedBytes sub - mark_of u c)
     else default 0 (users c !! u)) /\
  n <= n'.
Proof.
  unfold seed_one, mark_of. destruct (seed_eligible nowNs sub); [|simpl; split_and!; auto; lia].
  simpl. split_and!; [| |destruct (0 <? _); lia].
  - destruct (_ ==s u) eqn:E; [apply eqb_s_true in E; subst; rewrite lookup_insert_eq; done|].
    apply eqb_s_false in E. rewrite lookup_insert_ne; done.
  - intros Hr. unfold sub64. rewrite wrap64_id by done.
    set (used := UserSubscription.PeriodUsedBytes sub) in *.
    replace (0 <? used - default 0 (persisted c !! UserSubscription.UserID sub))
      with (default 0 (persisted c !! UserSubscription.UserID sub) <? used)
      by (apply eq_iff_eq_true; rewrite !Z.ltb_lt; lia).
    destruct (UserSubscription.UserID sub ==s u) eqn:E; simpl.
    + apply eqb_s_true in E. subst u. destruct (_ <? used); [|done].
      unfold user_add. rewrite lookup_insert_eq. done.
    + apply eqb_s_false in E. destruct (_ <? used); [|done].
      unfold user_add. rewrite lookup_insert_ne; done.
Qed.

(** Seeding what the water marks already cover changes no aggregate. *)
Lemma seed_covered (nowNs : Z) (subs : list UserSubscription) (c : Counters) (n : Z) :
  (forall sub, In sub subs -> seed_eligible nowNs sub = true ->
     mark_of (UserSubscription.UserID sub) c = UserSubscription.PeriodUsedBytes sub) ->
  snd (fold_left (seed_one nowNs) subs (c, n)) = n /\
  users (fst (fold_left (seed_one nowNs) subs (c, n))) = users c.
Proof.
  revert c n. induction subs as [|sub subs IH]; intros c n H; [done|]. cbn [fold_left].
  assert (exists c1, seed_one nowNs (c, n) sub = (c1, n) /\ users c1 = users c) as (c1 & E & Hu).
  { specialize (H sub (or_introl eq_refl)). unfold seed_one.
    destruct (seed_eligible nowNs sub); [|eauto]. specialize (H eq_refl). unfold mark_of in H. rewrite H.
    unfold sub64. rewrite Z.sub_diag. simpl. eexists. split; [reflexivity|]. done. }
  destruct (IH c1 n) as [E1 E2].
  - intros sub' Hin He. rewrite <- (H sub' (or_intror Hin) He).
    pose proof (seed_one_spec nowNs c n sub (UserSubscription.UserID sub')) as Hs. rewrite E in Hs.
    destruct Hs as [-> _]. destruct (seed_eligible nowNs sub) eqn:Es; [|done]. simpl.
    destruct (UserSubscription.UserID sub ==s UserSubscription.UserID sub') eqn:Eu; [|done].
    apply eqb_s_true in Eu. rewrite <- Eu. symmetry. apply H; [left|]; done.
  - rewrite E, E1, E2. auto.
Qed.

(** Seeding leaves alone a user with nothing to seed. *)
Lemma seed_skips (nowNs : Z) (l : list UserSubscription) (c : Counters) (n : Z) (u : string) :
  (forall x, In x l -> UserSubscription.UserID x = u -> seed_eligible nowNs x = false) ->
  let c' := fst (fold_left (seed_one nowNs) l (c, n)) in
  users c' !! u = users c !! u /\ persisted c' !! u = persisted c !! u.
Proof.
  revert c n. induction l as [|x l IH]; intros c n Hni; [done|]. cbn [fold_left].
  destruct (seed_one nowNs (c, n) x) as [c1 n1] eqn:E.
  destruct (IH c1 n1) as [-> ->]; [auto using in_cons|]. unfold seed_one in E.
  specialize (Hni x (or_introl eq_refl)).
  destruct (seed_eligible nowNs x); injection E as <- <-; [|done]. simpl.
  assert (UserSubscription.UserID x <> u) as Hne by (intros Eu; discriminate (Hni Eu)).
  rewrite lookup_insert_ne by done. split; [|done].
  destruct (0 <? _); [|done]. unfold user_add. rewrite lookup_insert_ne; done.
Qed.

(** Seeding fresh counters restores every eligible subscription's total. *)
Lemma seed_fresh (nowNs : Z) (subs : list UserSubscription) (c : Counters) (n : Z) (sub : UserSubscription) :
  NoDup (map UserSubscription.UserID subs) -> In sub subs -> seed_eligible nowNs sub = true ->
  mark_of (UserSubscription.UserID sub) c = 0 -> default 0 (users c !! UserSubscription.UserID sub) = 0 ->
  UserSubscription.PeriodUsedBytes sub <= int64_max ->
  let c' := fst (fold_left (seed_one nowNs) subs (c, n)) in
  default 0 (users c' !! UserSubscription.UserID sub) = UserSubscription.PeriodUsedBytes sub /\
  mark_of (UserSubscription.UserID sub) c' = UserSubscription.PeriodUsedBytes sub.
Proof.
  intros Hnd Hin He Hm Hu Hmax.
  assert (0 < UserSubscription.PeriodUsedBytes sub) as Hpos.
  { unfold seed_eligible in He. bool_prop. done. }
  set (u := UserSubscription.UserID sub) in *. simpl.
  revert c n Hm Hu. induction subs as [|x l IH]; [done|]. intros c n Hm Hu. cbn [fold_left].
  simpl in Hnd. apply list.NoDup_cons in Hnd as [Hx Hnd].
  pose proof (seed_one_spec nowNs c n x u) as Hs. destruct (seed_one nowNs (c, n) x) as [c1 n1] eqn:E.
  destruct Hs as (Hm1 & Hu1 & _). destruct Hin as [->|Hin].
  - rewrite He in *. subst u. rewrite eqb_s_refl in *. simpl in *. rewrite Hm, Hu in *.
    unfold mark_of. destruct (seed_skips nowNs l c1 n1 (UserSubscription.UserID sub)) as [-> ->].
    { intros y Hy Ey. exfalso. apply Hx, list_elem_of_In, in_map_iff. eauto. }
    unfold mark_of in Hm1.
    rewrite Hu1, Hm1 by (int64_unfold; lia). split; [|done].
    destruct (0 <? _) eqn:E0; [|bool_prop; lia]. unfold add64. rewrite wrap64_id; [lia|int64_unfold; lia].
  - assert ((UserSubscription.UserID x ==s u) = false) as Ex.
    { apply eqb_s_false. intros Eq. apply Hx, list_elem_of_In, in_map_iff. exists sub. auto. }
    apply IH; [done|done| |].
    + rewrite Hm1, Ex, andb_false_r. done.
    + unfold seed_one in E. destruct (seed_eligible nowNs x); injection E as <- <-; [|done]. simpl.
      apply eqb_s_false in Ex. destruct (0 <? _); [|done]. unfold user_add. rewrite lookup_insert_ne; done.
Qed.

(** ** The repository behind the interface *)

Definition active_row (u : string) (db : StateDB) : option UserSubscription :=
  match GetActiveUserSubscription u db with Ok s => Some s | Err _ => None end.

Definition method_ok {A} (r : res StateErr A * StateDB) : bool := is_ok (fst r).

#[global] Instance repo_flush_store : FlushStore (UsageTables * StateDB) := {
  UpsertHourly rows s := (true, (UpsertUsageHourly rows (fst s), snd s));
  GetActive u s := active_row u (snd s);
  AddUsedBytes id d s :=
    (method_ok (AddSubscriptionUsedBytes id d (snd s)), (fst s, snd (AddSubscriptionUsedBytes id d (snd s))));
  store_ok s := subs_wf (snd s)
}.

Lemma active_row_Some (u : string) (db : StateDB) (sub : UserSubscription) :
  active_row u db = Some sub ->
  In sub (user_subscriptions db) /\ is_active sub = true /\ UserSubscription.UserID sub = u.
Proof.
  unfold active_row, GetActiveUserSubscription. intros H.
  destruct (sql_first (active_of u) (user_subscriptions db)) as [s|] eqn:E; [|done].
  injection H as ->. apply find_some in E as [Hin Ha]. unfold active_of in Ha. bool_prop. auto.
Qed.

(** An update by id that keeps owner and status, seen through the lookup. *)
Lemma find_update (u : string) (p : UserSubscription -> bool) (f : UserSubscription -> UserSubscription)
    (t : list UserSubscription) :
  (forall r, active_of u (f r) = active_of u r) ->
  sql_first (active_of u) (sql_update p f t) =
    (fun r => if p r then f r else r) <$> sql_first (active_of u) t.
Proof.
  intros Hf. unfold sql_first, sql_update. induction t as [|r t IH]; simpl; [done|].
  destruct (p r) eqn:Ep; rewrite ?Hf; destruct (active_of u r); simpl; rewrite ?Ep; done.
Qed.

(** An update of the period columns meets every constraint. *)
Lemma update_period_ok (id : string) (p : UserSubscription -> bool) (a b : UserSubscription -> Z)
    (db : StateDB) :
  subs_wf db ->
  let hit r := (UserSubscription.ID r ==s id) && p r in
  let f r := UserSubscription.with_Period (a r) (b r) r in
  update_subscription id p f db =
    Ok (sql_affected hit (user_subscriptions db),
        set_user_subscriptions (sql_update hit f (user_subscriptions db)) db).
Proof.
  intros W hit f. unfold update_subscription. cbv zeta.
  assert (forall g : UserSubscription -> bool, (forall r, In r (user_subscriptions db) -> g r = false) ->
    existsb (fun r => ((UserSubscription.ID r ==s id) && p r) && g r) (user_subscriptions db) = false) as Hno.
  { intros g Hg. apply existsb_false. intros r Hr. rewrite (Hg r Hr), andb_false_r. done. }
  rewrite (Hno (fun r => negb (subscription_status_valid (UserSubscription.Status (f r))))).
  2: { intros r Hr. destruct (sw_row db W r Hr) as [Hst _]. apply negb_false_iff. exact Hst. }
  rewrite (Hno (fun r => active_slot_taken (f r) (user_subscriptions db))).
  2: { intros r Hr. unfold active_slot_taken. destruct (is_active (f r)) eqn:Ea; [|done]. simpl.
       apply existsb_false. intros r' Hr'. destruct (is_active r') eqn:Ea'; [|done]. simpl.
       destruct (_ ==s UserSubscription.UserID r) eqn:Eu; [|done]. simpl. apply eqb_s_true in Eu.
       apply negb_false_iff, eqb_s_true. f_equal. exact (sw_active db W r' r Hr' Hr Ea' Ea Eu). }
  rewrite (Hno (fun r => negb (subscription_fk_ok (f r) db))); [done|].
  intros r Hr. destruct (sw_row db W r Hr) as [_ Hfk]. apply negb_false_iff. exact Hfk.
Qed.

Lemma affected_id (sub : UserSubscription) (p : UserSubscription -> bool) (db : StateDB) :
  In sub (user_subscriptions db) -> p sub = true ->
  sql_affected (fun r => (UserSubscription.ID r ==s UserSubscription.ID sub) && p r)
    (user_subscriptions db) <> O.
Proof. intros Hin Hp. apply sql_affected_pos. exists sub. rewrite eqb_s_refl, Hp. auto. Qed.

Lemma AddSubscriptionUsedBytes_succeeds (u : string) (sub : UserSubscription) (d : Z) (db : StateDB) :
  subs_wf db -> active_row u db = Some sub ->
  method_ok (AddSubscriptionUsedBytes (UserSubscription.ID sub) d db) = true.
Proof.
  intros W H. apply active_row_Some in H as (Hin & Hact & Hu).
  unfold method_ok, AddSubscriptionUsedBytes, transact, mbind, tx_bind.
  rewrite update_period_ok by done. pose proof (affected_id sub (fun _ => true) db Hin eq_refl) as Hn.
  destruct (sql_affected _ _); done.
Qed.

Lemma ResetSubscriptionPeriod_active (u : string) (sub : UserSubscription) (to : Z) (db : StateDB) :
  subs_wf db -> active_row u db = Some sub ->
  active_row u (snd (ResetSubscriptionPeriod (UserSubscription.ID sub) (UserSubscription.PeriodStartNs sub) to db))
    = Some (UserSubscription.with_Period to 0 sub).
Proof.
  intros W H. pose proof (active_row_Some _ _ _ H) as (Hin & Hact & Hu).
  unfold ResetSubscriptionPeriod, transact, mbind, tx_bind.
  rewrite (update_period_ok _ _ (fun _ => to) (fun _ => 0)) by done.
  pose proof (affected_id sub (fun r => UserSubscription.PeriodStartNs r =? UserSubscription.PeriodStartNs sub)
    db Hin (Z.eqb_refl _)) as Hn.
  destruct (sql_affected _ _) as [|n]; [done|]. simpl.
  unfold active_row, GetActiveUserSubscription in *. simpl. rewrite find_update by (intros r; reflexivity).
  destruct (sql_first (active_of u) (user_subscriptions db)) as [r|]; [|done]. injection H as ->. simpl.
  rewrite eqb_s_refl, Z.eqb_refl. done.
Qed.

#[global] Instance repo_flush_laws : FlushStoreLaws (UsageTables * StateDB).
Proof.
  split.
  - intros rows [tb db] W. simpl. done.
  - intros id d [tb db] W. simpl. split_and!; [apply AddSubscriptionUsedBytes_subs_wf; done|..].
    + unfold method_ok. destruct (AddSubscriptionUsedBytes id d db) as [[x|e] db'] eqn:E; [done|].
      apply transact_err in E as [-> _]. done.
    + unfold method_ok. destruct (AddSubscriptionUsedBytes id d db) as [[x|e] db'] eqn:E; [|done].
      intros _ u. simpl. apply transact_ok in E. tx_invert.
      match goal with H : update_subscription _ _ _ _ = _ |- _ =>
        apply update_subscription_ok in H as (_ & -> & _) end.
      unfold active_row, GetActiveUserSubscription. simpl.
      rewrite find_update by (intros r; reflexivity).
      destruct (sql_first (active_of u) (user_subscriptions db)) as [r|]; [|done]. simpl.
      rewrite andb_true_r. done.
  - intros u sub d [tb db] W H. simpl. apply (AddSubscriptionUsedBytes_succeeds u); done.
  - intros u v a b [tb db] W Ha Hb E. simpl in *.
    apply active_row_Some in Ha as (Ha & _ & <-), Hb as (Hb & _ & <-). f_equal.
    eapply NoDup_map_inj; [apply (sw_ids db W)|..]; done.
Qed.

(** C19: A flush whose hourly write fails loses nothing and bills nothing: the
    store is as it was, every bucket and every key's running total read as
    before the drain, and so do the aggregates and the water marks. *)
Theorem failed_flush_loses_nothing {S : Type} `{FlushStoreLaws S} (nowNs : Z)
    (interfere : Counters * S -> Counters * S) (c : Counters) (s : S) (r : FlushResult)
    (c' : Counters) (s' : S) :
  store_ok s -> counters_wf c -> FlushOnce nowNs interfere c s = (r, false, c', s') ->
  s' = s /\ r = emptyResult /\
  (forall key, KeyBytes key c' = KeyBytes key c) /\
  (forall keyID, KeyTotal keyID c' = KeyTotal keyID c) /\
  (forall u, UserBytes u c' = UserBytes u c) /\
  (forall u, PersistedBytes u c' = PersistedBytes u c).
Proof.
  intros W Wc HF.
  apply FlushOnce_cases in HF as [(_ & _ & ? & _)|[(_ & -> & Hup & ->)|(? & _)]]; [done| |done].
  split; [|split; [done|apply drain_then_requeue_restores; [done|reflexivity]]].
  match type of Hup with UpsertHourly ?rows s = _ => pose proof (upsert_law rows s W) as (_ & _ & Hf) end.
  rewrite Hup in Hf. apply Hf. done.
Qed.

(** C18: Flushing and seeding account for every byte once.  If disk and water
    mark agree for every subscription before a pass, they agree after it, the
    aggregates the quotas are checked against are untouched, and seeding from
    the store's own subscriptions afterwards restores nothing: the bytes just
    written are not added to the aggregate a second time. *)
Theorem flush_then_seed_adds_nothing {S : Type} `{FlushStoreLaws S} (nowNs seedNs : Z) (c : Counters) (s : S)
    (r : FlushResult) (ok : bool) (c' : Counters) (s' : S) (subs : list UserSubscription) :
  store_ok s -> covered c s -> has_room c s -> FlushOnce nowNs id c s = (r, ok, c', s') ->
  (forall sub, In sub subs -> GetActive (UserSubscription.UserID sub) s' = Some sub) ->
  covered c' s' /\ users c' = users c /\
  snd (SeedFromSubscriptions subs seedNs c') = 0 /\
  users (fst (SeedFromSubscriptions subs seedNs c')) = users c.
Proof.
  intros W C R HF Hsubs. destruct (flush_covered nowNs c s r ok c' s' W C R HF) as (C' & U & _).
  destruct (seed_covered seedNs subs c' 0) as [E1 E2].
  - intros sub Hin He. apply C'; [|auto]. unfold seed_eligible in He. bool_prop. done.
  - split_and!; auto. unfold SeedFromSubscriptions. congruence.
Qed.

(** What a period reset leaves of a user's counters. *)
Lemma ResetUser_reads (u : string) (c : Counters) :
  u <> "" -> UserBytes u (ResetUser u c) = 0 /\ mark_of u (ResetUser u c) = 0.
Proof.
  intros Hne. apply eqb_s_false in Hne. unfold UserBytes, mark_of, ResetUser, atomic_store. rewrite Hne. simpl.
  split; [destruct (users c !! u) eqn:E|destruct (persisted c !! u) eqn:E];
    rewrite ?lookup_insert_eq, ?E; done.
Qed.

(** Everything a rollover does to a user: the row's new period, the counters. *)
Definition roll_over (u : string) (sub : UserSubscription) (to : Z)
    (x : Counters * (UsageTables * StateDB)) : Counters * (UsageTables * StateDB) :=
  match x with
  | (c, (tb, db)) =>
      (ResetUser u c,
       (tb, snd (ResetSubscriptionPeriod (UserSubscription.ID sub) (UserSubscription.PeriodStartNs sub) to db)))
  end.


(** The guard looks at the period the bytes are drained in, not the one
    they were counted in: traffic still buffered when the period rolls over is
    charged, by the next pass, to the new period on disk, while the live
    aggregate of that period starts from zero without it. *)
Theorem buffered_bytes_are_charged_to_the_next_period (nowNs : Z) (c : Counters) (tb : UsageTables)
    (db : StateDB) (u : string) (b to : Z) (sub : UserSubscription) (r : FlushResult) (c' : Counters)
    (tb' : UsageTables) (db' : StateDB) :
  subs_wf db -> active_row u db = Some sub -> pending c !! u = Some b -> 0 < b ->
  FlushOnce nowNs id (fst (roll_over u sub to (c, (tb, db)))) (snd (roll_over u sub to (c, (tb, db)))) =
    (r, true, c', (tb', db')) ->
  active_row u db' = Some (UserSubscription.with_Period to b sub) /\ UserBytes u c' = 0.
Proof.
  intros W Ha Hp Hb HF. assert (u <> "") as Hne by (eapply per_user_nonempty; exact Hp).
  pose proof (ResetSubscriptionPeriod_active u sub to db W Ha) as Hact. simpl in HF.
  apply eqb_s_false in Hne as Hne'.
  assert (pending (ResetUser u c) = pending c) as Hpd.
  { unfold pending, Keys, ResetUser. rewrite Hne'. simpl. do 2 f_equal.
    generalize ((map_to_list (entries c)).*1). intros keys. apply map_eq. intros key.
    destruct (Drain_spec keys c key) as [-> _]. destruct (Drain_spec keys (mkCounters (entries c)
      (atomic_store u 0 (users c)) (atomic_store u 0 (persisted c)) (keyBytes c)) key) as [-> _]. done. }
  match type of HF with FlushOnce _ _ ?c0 ?s0 = _ =>
    destruct (FlushOnce_user nowNs id c0 s0 r c' (tb', db')) as (_ & U & Hh & _) end;
    [apply ResetSubscriptionPeriod_subs_wf; exact W|apply ResetSubscriptionPeriod_subs_wf; exact W
    |rewrite Hpd; intros E; rewrite E in Hp; done|exact HF|].
  unfold at_charge, id in *. simpl in Hh, U.
  destruct (Hh u b (UserSubscription.with_Period to 0 sub)) as [Hg _];
    [congruence|rewrite Hact; eauto 10|exact Hact|].
  split.
  - rewrite Hg. unfold charged_row. simpl. rewrite Z.max_r by lia. done.
  - destruct (ResetUser_reads u c) as [E _]; [apply eqb_s_false; done|].
    destruct (Drain_keeps (Keys (ResetUser u c)) (ResetUser u c)) as [U1 _].
    revert E. unfold UserBytes. rewrite U, U1. done.
Qed.

Lemma active_rows_distinct (db : StateDB) :
  subs_wf db -> NoDup (map UserSubscription.UserID (ListActiveUserSubscriptions db)).
Proof.
  intros W. unfold ListActiveUserSubscriptions.
  match goal with |- NoDup (map _ (sort_by ?le ?t)) =>
    rewrite (fmap_Permutation UserSubscription.UserID _ _ (sort_by_perm le t)) end.
  assert (forall l, (forall s, In s l -> In s (user_subscriptions db)) -> NoDup l ->
            NoDup (map UserSubscription.UserID (sql_where is_active l))) as Hl.
  { induction l as [|s l IH]; intros Hin Hnd; simpl; [apply NoDup_nil_2|].
    apply list.NoDup_cons in Hnd as [Hs Hnd]. unfold sql_where. simpl. fold (sql_where is_active l).
    specialize (IH (fun x Hx => Hin x (or_intror Hx)) Hnd).
    destruct (is_active s) eqn:E; [|done]. simpl. apply list.NoDup_cons. split; [|done].
    intros Hx. apply list_elem_of_In, in_map_iff in Hx as (x & Ex & Hx).
    apply sql_where_In in Hx as [Hx Ea]. apply Hs. apply list_elem_of_In.
    rewrite (sw_active db W s x); auto using in_eq, in_cons. }
  apply Hl; [done|]. apply (NoDup_fmap_1 UserSubscription.ID), (sw_ids db W).
Qed.

(** A restart gives back exactly the allowance that was used: seeding fresh
    counters from the active subscriptions leaves, for each subscription in
    force, the aggregate and the water mark at its period usage. *)
Theorem restart_restores_usage (nowNs : Z) (db : StateDB) (u : string) (sub : UserSubscription) :
  subs_wf db -> active_row u db = Some sub -> u <> "" ->
  0 <= UserSubscription.PeriodUsedBytes sub <= int64_max ->
  (UserSubscription.ExpiresAtNs sub <= 0 \/ nowNs <= UserSubscription.ExpiresAtNs sub) ->
  let c := fst (SeedFromSubscriptions (ListActiveUserSubscriptions db) nowNs NewCounters) in
  UserBytes u c = UserSubscription.PeriodUsedBytes sub /\
  mark_of u c = UserSubscription.PeriodUsedBytes sub.
Proof.
  intros W Ha Hne Hr Hexp c. pose proof (active_row_Some u db sub Ha) as (Hin & Hact & Hu).
  assert (In sub (ListActiveUserSubscriptions db)) as Hl
    by (apply sort_by_In, sql_where_In; done).
  pose proof (active_rows_distinct db W) as Hnd. apply eqb_s_false in Hne as Hne'.
  unfold UserBytes. rewrite Hne'. subst u c.
  destruct (decide (UserSubscription.PeriodUsedBytes sub = 0)) as [Hz|Hz].
  - rewrite Hz. unfold mark_of, SeedFromSubscriptions.
    destruct (seed_skips nowNs (ListActiveUserSubscriptions db) NewCounters 0 (UserSubscription.UserID sub))
      as [-> ->]; [|done]. intros x Hx Hux.
    assert (x = sub) as ->.
    { apply sort_by_In, sql_where_In in Hx as [Hx Ea]. apply (sw_active db W); done. }
    unfold seed_eligible. rewrite Hz. rewrite andb_false_r. done.
  - apply seed_fresh; auto; [|lia]. unfold seed_eligible. rewrite Hne'. unfold is_active in Hact. rewrite Hact.
    simpl. rewrite (proj2 (Z.ltb_lt _ _)) by lia. simpl. apply negb_true_iff, not_true_iff_false.
    rewrite !andb_true_iff, !Z.ltb_lt. lia.
Qed.

(** A concrete store: one user, on a subscription with 40 bytes used. *)
Module FlushDemo.
Definition ann : User := User.mkUser "u1" "ann" "hash" "user" "active" None 0 0 0 0.
Definition sub : UserSubscription :=
  UserSubscription.mkUserSubscription "s0" "u1" "" SnapBraces 5 1000 5 40 false 0 SubscriptionStatusActive.
Definition db : StateDB := Eval vm_compute in
  snd (UpsertUserSubscription sub (snd (InsertUser ann emptyDB))).
Definition tables : UsageTables := mkUsageTables [] [].
Definition key : CounterKey := mkCounterKey "k1" "u1" "p1".
Definition counters : Counters := Eval vm_compute in
  Add key (mkDelta 70 30 1 0) (LoadUser "u1" 40 NewCounters).
Definition after : FlushResult * bool * Counters * (UsageTables * StateDB) := Eval vm_compute in
  FlushOnce 7 id counters (tables, db).
Definition after_rollover : FlushResult * bool * Counters * (UsageTables * StateDB) := Eval vm_compute in
  FlushOnce 7 (roll_over "u1" sub 6) counters (tables, db).
Definition rolled_first : FlushResult * bool * Counters * (UsageTables * StateDB) := Eval vm_compute in
  FlushOnce 7 id (fst (roll_over "u1" sub 6 (counters, (tables, db))))
    (snd (roll_over "u1" sub 6 (counters, (tables, db)))).

Lemma db_wf : subs_wf db.
Proof.
  assert (db = snd (UpsertUserSubscription sub (snd (InsertUser ann emptyDB)))) as -> by (vm_compute; reflexivity).
  apply UpsertUserSubscription_subs_wf. eapply transact_preserves; [reflexivity|apply emptyDB_subs_wf|].
  intros x db' H. eapply insert_user_wf; [apply emptyDB_subs_wf|exact H].
Qed.

Lemma active : active_row "u1" db = Some sub.
Proof. vm_compute. reflexivity. Qed.

Lemma only_user (u : string) (s : UserSubscription) : active_row u db = Some s -> u = "u1" /\ s = sub.
Proof.
  intros H. apply active_row_Some in H as (Hin & _ & <-). destruct Hin as [<-|[]].
  split; reflexivity.
Qed.

Lemma covers : covered counters (tables, db).
Proof. intros u s Hne H. apply only_user in H as [-> ->]. vm_compute. reflexivity. Qed.

Lemma pending_eq : pending counters = {["u1" := 100]}.
Proof. vm_compute. reflexivity. Qed.

Lemma room : has_room counters (tables, db).
Proof.
  intros u s b Hb H. apply only_user in H as [-> ->]. rewrite pending_eq in Hb.
  vm_compute in Hb. injection Hb as <-. vm_compute. split; discriminate.
Qed.

Lemma pending_u1 : pending counters !! "u1" = Some 100.
Proof. rewrite pending_eq. vm_compute. reflexivity. Qed.

Lemma after_eq : FlushOnce 7 id counters (tables, db) = after.
Proof. vm_compute. reflexivity. Qed.

Lemma after_rollover_eq : FlushOnce 7 (roll_over "u1" sub 6) counters (tables, db) = after_rollover.
Proof. vm_compute. reflexivity. Qed.

Lemma rolled_first_eq :
  FlushOnce 7 id (fst (roll_over "u1" sub 6 (counters, (tables, db))))
    (snd (roll_over "u1" sub 6 (counters, (tables, db)))) = rolled_first.
Proof. vm_compute. reflexivity. Qed.

Lemma counters_ok : counters_wf counters.
Proof.
  assert (counters = run_ops [OpLoad "u1" 40; OpAdd key (mkDelta 70 30 1 0)] NewCounters) as ->
    by (vm_compute; reflexivity).
  apply run_ops_wf, NewCounters_wf.
Qed.

(** The repository behind a connection that refuses the hourly write. *)
Record Offline := mkOffline { inner : UsageTables * StateDB }.

#[local] Instance offline_store : FlushStore Offline := {
  UpsertHourly _ s := (false, s);
  GetActive u s := GetActive u (inner s);
  AddUsedBytes id d s :=
    (fst (AddUsedBytes id d (inner s)), mkOffline (snd (AddUsedBytes id d (inner s))));
  store_ok s := store_ok (inner s)
}.

#[local] Instance offline_laws : FlushStoreLaws Offline.
Proof.
  split.
  - done.
  - intros id d [s] W. destruct (add_law id d s W) as (H1 & H2 & H3). split_and!; [exact H1| |exact H3].
    intros E. simpl. f_equal. apply H2. exact E.
  - intros u x d [s] W H. apply (add_succeeds u x d s W H).
  - intros u v a b [s] W. apply (active_distinct u v a b s W).
Qed.

Definition refused : FlushResult * bool * Counters * Offline := Eval vm_compute in
  FlushOnce 7 id counters (mkOffline (tables, db)).

Lemma refused_eq : FlushOnce 7 id counters (mkOffline (tables, db)) = refused.
Proof. vm_compute. reflexivity. Qed.
End FlushDemo.

Lemma failed_flush_loses_nothing_witness :
  snd (fst (fst FlushDemo.refused)) = false /\
  KeyBytes FlushDemo.key (snd (fst FlushDemo.refused)) = mkDelta 70 30 1 0.
Proof.
  split; [reflexivity|].
  destruct (@failed_flush_loses_nothing FlushDemo.Offline FlushDemo.offline_store FlushDemo.offline_laws 7 id
    FlushDemo.counters (FlushDemo.mkOffline (FlushDemo.tables, FlushDemo.db)) (fst (fst (fst FlushDemo.refused)))
    (snd (fst FlushDemo.refused)) (snd FlushDemo.refused) FlushDemo.db_wf FlushDemo.counters_ok
    FlushDemo.refused_eq) as (_ & _ & H & _).
  rewrite H. reflexivity.
Defined.

Lemma flush_then_seed_adds_nothing_witness :
  covered (snd (fst FlushDemo.after)) (snd FlushDemo.after) /\
  snd (SeedFromSubscriptions (ListActiveUserSubscriptions (snd (snd FlushDemo.after))) 9
         (snd (fst FlushDemo.after))) = 0.
Proof.
  destruct (@flush_then_seed_adds_nothing (UsageTables * StateDB) repo_flush_store repo_flush_laws 7 9
    FlushDemo.counters (FlushDemo.tables, FlushDemo.db) (fst (fst (fst FlushDemo.after))) true
    (snd (fst FlushDemo.after)) (snd FlushDemo.after)
    (ListActiveUserSubscriptions (snd (snd FlushDemo.after)))
    FlushDemo.db_wf FlushDemo.covers FlushDemo.room FlushDemo.after_eq) as (H1 & _ & H2 & _).
  - intros s [<-|[]]. vm_compute. reflexivity.
  - split; assumption.
Defined.


Lemma buffered_bytes_are_charged_to_the_next_period_witness :
  active_row "u1" (snd (snd FlushDemo.rolled_first)) =
    Some (UserSubscription.with_Period 6 100 FlushDemo.sub) /\
  UserBytes "u1" (snd (fst FlushDemo.rolled_first)) = 0.
Proof.
  destruct (buffered_bytes_are_charged_to_the_next_period 7 FlushDemo.counters FlushDemo.tables FlushDemo.db
    "u1" 100 6 FlushDemo.sub (fst (fst (fst FlushDemo.rolled_first))) (snd (fst FlushDemo.rolled_first))
    (fst (snd FlushDemo.rolled_first)) (snd (snd FlushDemo.rolled_first))
    FlushDemo.db_wf FlushDemo.active) as (H1 & H2);
    [exact FlushDemo.pending_u1|lia|exact FlushDemo.rolled_first_eq|split; assumption].
Defined.

Lemma restart_restores_usage_witness :
  UserBytes "u1" (fst (SeedFromSubscriptions (ListActiveUserSubscriptions FlushDemo.db) 9 NewCounters)) = 40.
Proof.
  destruct (restart_restores_usage 9 FlushDemo.db "u1" FlushDemo.sub FlushDemo.db_wf FlushDemo.active)
    as [H _]; [discriminate|vm_compute; split; discriminate|right; vm_compute; discriminate|exact H].
Defined.
