(* ===== verification/GoStrings.v ===== *)
(** * Strings of the Go standard library

    What the sources use of [strings] and [strconv] on byte strings:
    [strings.TrimSpace], [strings.Trim] with an ASCII cutset, prefix tests,
    [strings.Contains] of one byte and splitting at a byte. *)

From Stdlib Require Import Ascii String OrderedTypeEx.
From stdpp Require Import base list strings.
From S2P Require Import Prelude.

Abbreviation bytes := (list ascii).

Definition of_codes (l : list nat) : bytes := map ascii_of_nat l.

(** The UTF-8 encodings of the runes with [unicode.IsSpace]. *)
Definition space_encodings : list bytes :=
  map of_codes
    ([[9]; [10]; [11]; [12]; [13]; [32]; [194; 133]; [194; 160]; [225; 154; 128]]
     ++ map (fun b => [226; 128; b]) (seq 128 11)
     ++ [[226; 128; 168]; [226; 128; 169]; [226; 128; 175]; [226; 129; 159]; [227; 128; 128]])%nat.

Fixpoint strip_prefix (p l : bytes) : option bytes :=
  match p, l with
  | [], _ => Some l
  | a :: p', b :: l' => if Ascii.eqb a b then strip_prefix p' l' else None
  | _ :: _, [] => None
  end.

(** Drop one of the encodings from the front. *)
Fixpoint strip_any (ps : list bytes) (l : bytes) : option bytes :=
  match ps with
  | [] => None
  | p :: ps' => match strip_prefix p l with Some l' => Some l' | None => strip_any ps' l end
  end.

(** Each round drops at least a byte, so the length is enough fuel. *)
Fixpoint trim_front (fuel : nat) (ps : list bytes) (l : bytes) : bytes :=
  match fuel with
  | O => l
  | S fuel' => match strip_any ps l with Some l' => trim_front fuel' ps l' | None => l end
  end.

Definition trim_bytes (ps : list bytes) (l : bytes) : bytes :=
  let l1 := trim_front (length l) ps l in
  rev (trim_front (length l1) (map (@rev ascii) ps) (rev l1)).

Definition TrimSpace (s : string) : string :=
  string_of_list_ascii (trim_bytes space_encodings (list_ascii_of_string s)).

(** [strings.Trim(s, "[]")] *)
Definition TrimBrackets (s : string) : string :=
  string_of_list_ascii (trim_bytes [of_codes [91]; of_codes [93]]%nat (list_ascii_of_string s)).

Definition HasPrefix (s p : string) : bool := String.prefix p s.

Definition ContainsByte (c : ascii) (s : string) : bool := existsb (Ascii.eqb c) (list_ascii_of_string s).

(** Split at the first occurrence of a byte. *)
Fixpoint cut_byte (c : ascii) (l : bytes) : option (bytes * bytes) :=
  match l with
  | [] => None
  | a :: l' =>
      if Ascii.eqb a c then Some ([], l')
      else match cut_byte c l' with Some (x, y) => Some (a :: x, y) | None => None end
  end.

(** Split at the last occurrence. *)
Definition cut_last (c : ascii) (l : bytes) : option (bytes * bytes) :=
  match cut_byte c (rev l) with Some (x, y) => Some (rev y, rev x) | None => None end.

Definition is_digit (c : ascii) : bool := ((48 <=? nat_of_ascii c) && (nat_of_ascii c <=? 57))%nat.

(** [strconv.Itoa] and [strconv.FormatInt] of a non-negative number, base 10. *)
Fixpoint digits_of (fuel : nat) (n : Z) (acc : bytes) : bytes :=
  match fuel with
  | O => acc
  | S fuel' =>
      let acc' := ascii_of_nat (48 + Z.to_nat (n mod 10))%nat :: acc in
      if n / 10 =? 0 then acc' else digits_of fuel' (n / 10) acc'
  end.

Definition Itoa (n : Z) : string :=
  if n <? 0 then string_of_list_ascii (ascii_of_nat 45 :: digits_of 20 (- n) [])
  else string_of_list_ascii (digits_of 20 n []).

Definition lower_ascii (c : ascii) : ascii :=
  let n := nat_of_ascii c in
  if ((65 <=? n) && (n <=? 90))%nat then ascii_of_nat (n + 32) else c.

(** [strings.ToLower], up to the letters outside ASCII.  The result is only
    compared with ASCII text, so of those letters only the two whose lower case
    is an ASCII letter matter: the Kelvin sign and the dotted capital i. *)
Fixpoint lower_bytes (fuel : nat) (l : bytes) : bytes :=
  match fuel, l with
  | S n, c :: l' =>
      match strip_prefix (of_codes [226; 132; 170]%nat) l, strip_prefix (of_codes [196; 176]%nat) l with
      | Some rest, _ => "k"%char :: lower_bytes n rest
      | None, Some rest => "i"%char :: lower_bytes n rest
      | None, None => lower_ascii c :: lower_bytes n l'
      end
  | _, _ => []
  end.

Definition ToLower (s : string) : string :=
  let l := list_ascii_of_string s in string_of_list_ascii (lower_bytes (length l) l).

Definition upper_ascii (c : ascii) : ascii :=
  let n := nat_of_ascii c in
  if ((97 <=? n) && (n <=? 122))%nat then ascii_of_nat (n - 32) else c.

(** [strings.ToUpper], up to the letters outside ASCII.  The result is only
    read as ASCII text, so of those letters only the two whose upper case is an
    ASCII letter matter: the dotless i and the long s. *)
Fixpoint upper_bytes (fuel : nat) (l : bytes) : bytes :=
  match fuel, l with
  | S n, c :: l' =>
      match strip_prefix (of_codes [196; 177]%nat) l, strip_prefix (of_codes [197; 191]%nat) l with
      | Some rest, _ => "I"%char :: upper_bytes n rest
      | None, Some rest => "S"%char :: upper_bytes n rest
      | None, None => upper_ascii c :: upper_bytes n l'
      end
  | _, _ => []
  end.

Definition ToUpper (s : string) : string :=
  let l := list_ascii_of_string s in string_of_list_ascii (upper_bytes (length l) l).

(** ** Facts *)

Lemma strip_prefix_length (p l l' : bytes) :
  strip_prefix p l = Some l' -> length l = (length p + length l')%nat.
Proof.
  revert l. induction p as [|a p IH]; intros [|b l]; simpl; intros H; simplify_eq; [done..|].
  destruct (Ascii.eqb a b); [|done]. apply IH in H. lia.
Qed.

Lemma strip_any_shorter (ps : list bytes) (l l' : bytes) :
  Forall (fun p => p <> []) ps -> strip_any ps l = Some l' -> (length l' < length l)%nat.
Proof.
  intros Hps. induction Hps as [|p ps Hp Hps IH]; simpl; intros H; [done|].
  destruct (strip_prefix p l) as [x|] eqn:E; [|auto]. injection H as ->.
  apply strip_prefix_length in E. destruct p; [done|simpl in E; lia].
Qed.

Lemma trim_front_done (ps : list bytes) (fuel : nat) (l : bytes) :
  Forall (fun p => p <> []) ps -> (length l <= fuel)%nat -> strip_any ps (trim_front fuel ps l) = None.
Proof.
  intros Hps. revert l. induction fuel as [|fuel IH]; intros l Hl; simpl.
  - destruct l; simpl in Hl; [|lia]. destruct (strip_any ps []) eqn:E; [|done].
    apply strip_any_shorter in E; [simpl in E; lia|done].
  - destruct (strip_any ps l) as [l'|] eqn:E; [|done].
    pose proof (strip_any_shorter ps l l' Hps E). apply IH. lia.
Qed.

Lemma trim_front_id (ps : list bytes) (fuel : nat) (l : bytes) :
  strip_any ps l = None -> trim_front fuel ps l = l.
Proof. intros H. destruct fuel; simpl; [done|]. rewrite H. done. Qed.

Lemma trim_front_suffix (ps : list bytes) (fuel : nat) (l : bytes) :
  exists pre, l = pre ++ trim_front fuel ps l.
Proof.
  revert l. induction fuel as [|fuel IH]; intros l; simpl; [exists []; done|].
  destruct (strip_any ps l) as [l'|] eqn:E; [|exists []; done].
  destruct (IH l') as [pre Hp].
  assert (exists p, l = p ++ l') as [p ->].
  { clear -E. induction ps as [|p ps IH]; simpl in E; [done|].
    destruct (strip_prefix p l) as [x|] eqn:Ep; [|auto]. injection E as ->. clear IH.
    exists p. revert l Ep. induction p as [|a p IH]; intros [|b l] H; simpl in *; simplify_eq; [done..|].
    destruct (Ascii.eqb a b) eqn:Eab; [|done]. apply Ascii.eqb_eq in Eab. subst. f_equal. auto. }
  exists (p ++ pre). rewrite <- app_assoc, <- Hp. done.
Qed.

Lemma strip_prefix_app (p l l' : bytes) : strip_prefix p l = Some l' -> l = p ++ l'.
Proof.
  revert l. induction p as [|a p IH]; intros [|b l] H; simpl in *; simplify_eq; [done..|].
  destruct (Ascii.eqb a b) eqn:E; [|done]. apply Ascii.eqb_eq in E. subst. f_equal. auto.
Qed.

(** Trimming removes nothing a filter keeps, where the filter drops every
    character of the text that occurs in a trimmed encoding. *)
Lemma trim_front_filter (keep : ascii -> bool) (ps : list bytes) (fuel : nat) (l : bytes) :
  (forall p c, In p ps -> In c p -> In c l -> keep c = false) ->
  List.filter keep (trim_front fuel ps l) = List.filter keep l.
Proof.
  revert l. induction fuel as [|fuel IH]; intros l H; simpl; [done|].
  destruct (strip_any ps l) as [l'|] eqn:E; [|done].
  assert (exists p, In p ps /\ l = p ++ l') as (p & Hp & ->).
  { clear -E. induction ps as [|p ps IH]; simpl in E; [done|].
    destruct (strip_prefix p l) as [x|] eqn:Ep; [injection E as ->|].
    - exists p. split; [left; done|by apply strip_prefix_app].
    - destruct (IH E) as (q & ? & ?). exists q. split; [right|]; done. }
  rewrite IH, List.filter_app.
  - rewrite (filter_drop keep p); [done|]. intros c Hc. apply (H p); [done..|]. apply in_app_iff. auto.
  - intros q c Hq Hc Hin. apply (H q); [done..|]. apply in_app_iff. auto.
Qed.

Lemma TrimSpace_filter (keep : ascii -> bool) (s : string) :
  (forall p c, In p space_encodings -> In c p -> In c (list_ascii_of_string s) -> keep c = false) ->
  List.filter keep (list_ascii_of_string (TrimSpace s)) = List.filter keep (list_ascii_of_string s).
Proof.
  intros H. unfold TrimSpace, trim_bytes. rewrite list_ascii_of_string_of_list_ascii.
  set (l := list_ascii_of_string s) in *. set (l1 := trim_front (length l) space_encodings l).
  rewrite List.filter_rev, trim_front_filter.
  - rewrite List.filter_rev, rev_involutive. by apply trim_front_filter.
  - intros p c Hp Hc Hin. apply in_map_iff in Hp as (q & <- & Hq). apply in_rev in Hc, Hin.
    apply (H q); [done..|]. destruct (trim_front_suffix space_encodings (length l) l) as [pre E].
    rewrite E. apply in_app_iff. auto.
Qed.

(** On ASCII text upper-casing is byte by byte. *)
Lemma upper_bytes_ascii (fuel : nat) (l : bytes) :
  (forall c, In c l -> (nat_of_ascii c < 128)%nat) -> (length l <= fuel)%nat ->
  upper_bytes fuel l = map upper_ascii l.
Proof.
  revert l. induction fuel as [|fuel IH]; intros [|c l] Hl Hf; simpl in Hf; try done; [lia|].
  cbn [upper_bytes map].
  assert (forall k q, (128 <= k)%nat -> (k < 256)%nat -> strip_prefix (ascii_of_nat k :: q) (c :: l) = None) as Hno.
  { intros k q Hk Hk2. cbn [strip_prefix]. destruct (Ascii.eqb _ c) eqn:E; [|done].
    apply Ascii.eqb_eq in E as <-. specialize (Hl _ (or_introl eq_refl)).
    rewrite nat_ascii_embedding in Hl; lia. }
  unfold of_codes. cbn [map]. rewrite !Hno by lia. f_equal. apply IH; [|lia]. intros d Hd. apply Hl. right. done.
Qed.

Lemma digits_of_app (fuel : nat) (n : Z) (acc : bytes) :
  digits_of fuel n acc = digits_of fuel n [] ++ acc.
Proof.
  revert n acc. induction fuel as [|fuel IH]; intros n acc; simpl; [done|].
  destruct (n / 10 =? 0); [done|]. rewrite IH, (IH _ [_]), <- app_assoc. done.
Qed.

(** The value of a digit string. *)
Definition value_of (l : bytes) : Z :=
  fold_left (fun v c => 10 * v + (Z.of_nat (nat_of_ascii c) - 48)) l 0.

Lemma value_of_snoc (l : bytes) (c : ascii) :
  value_of (l ++ [c]) = 10 * value_of l + (Z.of_nat (nat_of_ascii c) - 48).
Proof. unfold value_of. rewrite fold_left_app. done. Qed.

Lemma digits_of_value (fuel : nat) (n : Z) :
  0 <= n < 10 ^ Z.of_nat fuel -> value_of (digits_of fuel n []) = n.
Proof.
  revert n. induction fuel as [|fuel IH]; intros n Hn; [simpl in Hn; cbn; lia|].
  pose proof (Z.mod_pos_bound n 10). pose proof (Z.div_mod n 10). cbn [digits_of].
  assert (Z.of_nat (nat_of_ascii (ascii_of_nat (48 + Z.to_nat (n mod 10)))) - 48 = n mod 10) as Hd.
  { rewrite nat_ascii_embedding by lia. lia. }
  destruct (n / 10 =? 0) eqn:E.
  - apply Z.eqb_eq in E. unfold value_of. cbn [fold_left]. rewrite Hd. lia.
  - rewrite digits_of_app, value_of_snoc, Hd, IH; [lia|].
    rewrite Nat2Z.inj_succ, Z.pow_succ_r in Hn by lia. split; [apply Z.div_pos; lia|].
    apply Z.div_lt_upper_bound; lia.
Qed.

(** Different numbers print differently. *)
Lemma Itoa_inj (m n : Z) : 0 <= m < 10 ^ 20 -> 0 <= n < 10 ^ 20 -> Itoa m = Itoa n -> m = n.
Proof.
  intros Hm Hn H. unfold Itoa in H. rewrite (proj2 (Z.ltb_ge _ _)) in H by lia.
  rewrite (proj2 (Z.ltb_ge n _)) in H by lia.
  rewrite <- (digits_of_value 20 m), <- (digits_of_value 20 n) by lia. f_equal.
  apply (f_equal list_ascii_of_string) in H. rewrite !list_ascii_of_string_of_list_ascii in H. done.
Qed.

(** ** The byte-wise order of strings *)

Lemma string_ltb_lt (a b : string) : String.ltb a b = true <-> OrderedTypeEx.String_as_OT.lt a b.
Proof.
  rewrite <- OrderedTypeEx.String_as_OT.cmp_lt. unfold String.ltb, OrderedTypeEx.String_as_OT.cmp.
  destruct (String.compare a b); done.
Qed.

Lemma string_ltb_trans (a b c : string) : String.ltb a b = true -> String.ltb b c = true -> String.ltb a c = true.
Proof. rewrite !string_ltb_lt. apply OrderedTypeEx.String_as_OT.lt_trans. Qed.

Lemma string_ltb_asym (a b : string) : String.ltb a b = true -> String.ltb b a = true -> False.
Proof.
  unfold String.ltb. rewrite (String.compare_antisym b a). destruct (String.compare a b); done.
Qed.

Lemma string_ltb_total (a b : string) : a <> b -> String.ltb a b = true \/ String.ltb b a = true.
Proof.
  intros Hne. unfold String.ltb. rewrite (String.compare_antisym b a).
  destruct (String.compare a b) eqn:E; simpl; auto. apply String.compare_eq_iff in E. done.
Qed.

(** ** Splitting *)

Lemma list_ascii_app (a b : string) :
  list_ascii_of_string (a ++ b) = (list_ascii_of_string a ++ list_ascii_of_string b)%list.
Proof. induction a as [|c a IH]; simpl; [done|]. rewrite IH. done. Qed.

Lemma cut_byte_spec (c : ascii) (l x y : bytes) :
  cut_byte c l = Some (x, y) <-> l = x ++ c :: y /\ ~ In c x.
Proof.
  revert x. induction l as [|a l IH]; intros x; simpl.
  { split; [done|]. intros [H _]. destruct x; done. }
  destruct (Ascii.eqb a c) eqn:E.
  - apply Ascii.eqb_eq in E. subst a. split.
    + intros [= <- <-]. auto.
    + intros [H Hn]. destruct x as [|b x]; simpl in *; [congruence|]. exfalso. apply Hn. left. congruence.
  - apply Ascii.eqb_neq in E. destruct (cut_byte c l) as [[x' y']|]; split.
    + intros [= <- <-]. destruct (proj1 (IH x') eq_refl) as [-> Hn]. split; [done|].
      intros [->|Hin]; [done|auto].
    + intros [H Hn]. destruct x as [|b x]; simpl in *; [congruence|]. injection H as -> H.
      pose proof (proj2 (IH x) (conj H (fun Hin => Hn (or_intror Hin)))) as E'. congruence.
    + done.
    + intros [H Hn]. destruct x as [|b x]; simpl in *; [congruence|]. injection H as -> H.
      discriminate (proj2 (IH x) (conj H (fun Hin => Hn (or_intror Hin)))).
Qed.

Lemma prefix_spec (p s : string) : String.prefix p s = true <-> exists r, s = (p ++ r)%string.
Proof.
  revert s. induction p as [|a p IH]; intros [|b s]; simpl; split; intros H; eauto; try done.
  - destruct H as [r H]. done.
  - destruct (ascii_dec a b) as [->|]; [|done]. apply IH in H as [r ->]. eauto.
  - destruct H as [r [= -> ->]]. destruct (ascii_dec a a); [|done]. apply IH. eauto.
Qed.

(** ** Text that trimming leaves alone *)

Lemma strip_any_plain (plain : ascii -> bool) (ps : list bytes) (l : bytes) :
  forallb (fun p => match p with a :: _ => negb (plain a) | [] => false end) ps = true ->
  (forall c, In c l -> plain c = true) -> strip_any ps l = None.
Proof.
  intros Hps Hl. induction ps as [|p ps IH]; simpl in *; [done|]. apply andb_true_iff in Hps as [Hp Hps].
  destruct p as [|a p]; [done|]. destruct l as [|c l]; cbn [strip_prefix]; [by apply IH|].
  destruct (Ascii.eqb a c) eqn:E; [|by apply IH]. apply Ascii.eqb_eq in E as ->.
  rewrite (Hl c (or_introl eq_refl)) in Hp. done.
Qed.

Lemma trim_front_plain (plain : ascii -> bool) (fuel : nat) (ps : list bytes) (l : bytes) :
  forallb (fun p => match p with a :: _ => negb (plain a) | [] => false end) ps = true ->
  (forall c, In c l -> plain c = true) -> trim_front fuel ps l = l.
Proof. intros Hps Hl. destruct fuel; simpl; [done|]. by rewrite (strip_any_plain plain). Qed.

(** [plain] bytes neither begin nor end a space. *)
Lemma TrimSpace_plain (plain : ascii -> bool) (s : string) :
  forallb (fun p => match p with a :: _ => negb (plain a) | [] => false end) space_encodings = true ->
  forallb (fun p => match p with a :: _ => negb (plain a) | [] => false end) (map (@rev ascii) space_encodings) = true ->
  (forall c, In c (list_ascii_of_string s) -> plain c = true) -> TrimSpace s = s.
Proof.
  intros H1 H2 Hs. unfold TrimSpace, trim_bytes. cbv zeta. rewrite !(trim_front_plain plain _ space_encodings) by done.
  rewrite (trim_front_plain plain); [by rewrite rev_involutive, string_of_list_ascii_of_string|exact H2|].
  intros c Hc. apply in_rev in Hc. auto.
Qed.

Lemma lower_bytes_plain (fuel : nat) (l : bytes) :
  (length l <= fuel)%nat -> (forall c, In c l -> (nat_of_ascii c < 65)%nat \/ (90 < nat_of_ascii c < 128)%nat) ->
  lower_bytes fuel l = l.
Proof.
  revert l. induction fuel as [|fuel IH]; intros [|c l] Hf Hl; simpl in Hf; try done; [lia|].
  pose proof (Hl c (or_introl eq_refl)) as Hc. cbn [lower_bytes].
  assert (forall k q, (128 <= k < 256)%nat -> strip_prefix (ascii_of_nat k :: q) (c :: l) = None) as Hno.
  { intros k q Hk. cbn [strip_prefix]. destruct (Ascii.eqb _ c) eqn:E; [|done]. apply Ascii.eqb_eq in E as <-.
    rewrite nat_ascii_embedding in Hc; lia. }
  unfold of_codes. cbn [map]. rewrite !Hno by lia. f_equal.
  - unfold lower_ascii. destruct (_ && _) eqn:E; [|done]. apply andb_true_iff in E as [E1 E2].
    apply Nat.leb_le in E1, E2. lia.
  - apply IH; [lia|]. intros d Hd. apply Hl. by right.
Qed.
