(* ===== verification/Utf8.v ===== *)
(** * UTF-8

    What [for _, r := range s] and [utf8] see of a Go string: the runes of its
    bytes, where a byte that starts no valid encoding is the replacement rune
    and one byte wide. *)

From Stdlib Require Import Ascii String.
From stdpp Require Import base list strings.
From S2P Require Import Prelude GoStrings.

Definition RuneError : Z := 65533.

Definition code (c : ascii) : Z := Z.of_nat (nat_of_ascii c).

(** The bits a continuation byte carries, where it lies in [lo, hi]. *)
Definition cont (lo hi : Z) (c : ascii) : option Z :=
  if (lo <=? code c) && (code c <=? hi) then Some (Z.land (code c) 63) else None.

(** The range of the second byte depends on the first: no overlong form, no
    surrogate, nothing above U+10FFFF. *)
Definition second_range (b : Z) : Z * Z :=
  if b =? 224 then (160, 191)
  else if b =? 237 then (128, 159)
  else if b =? 240 then (144, 191)
  else if b =? 244 then (128, 143)
  else (128, 191).

(** How many bytes the first byte announces; 0 is none. *)
Definition announced (b : Z) : nat :=
  if b <? 128 then 1
  else if (194 <=? b) && (b <=? 223) then 2
  else if (224 <=? b) && (b <=? 239) then 3
  else if (240 <=? b) && (b <=? 244) then 4
  else 0.

(** [utf8.DecodeRune] on a non-empty slice: the rune and the rest. *)
Definition DecodeRune (c : ascii) (l : bytes) : Z * bytes :=
  let b := code c in
  let '(lo, hi) := second_range b in
  let bad := (RuneError, l) in
  match announced b, l with
  | 1%nat, _ => (b, l)
  | 2%nat, c1 :: l1 =>
      match cont lo hi c1 with Some x1 => (Z.lor (Z.shiftl (Z.land b 31) 6) x1, l1) | None => bad end
  | 3%nat, c1 :: c2 :: l2 =>
      match cont lo hi c1, cont 128 191 c2 with
      | Some x1, Some x2 => (Z.lor (Z.shiftl (Z.land b 15) 12) (Z.lor (Z.shiftl x1 6) x2), l2)
      | _, _ => bad
      end
  | 4%nat, c1 :: c2 :: c3 :: l3 =>
      match cont lo hi c1, cont 128 191 c2, cont 128 191 c3 with
      | Some x1, Some x2, Some x3 =>
          (Z.lor (Z.shiftl (Z.land b 7) 18) (Z.lor (Z.shiftl x1 12) (Z.lor (Z.shiftl x2 6) x3)), l3)
      | _, _, _ => bad
      end
  | _, _ => bad
  end.

(** Every round drops at least a byte, so the length is enough fuel. *)
Fixpoint runes_from (fuel : nat) (l : bytes) : list Z :=
  match fuel, l with
  | S n, c :: l' => let '(r, rest) := DecodeRune c l' in r :: runes_from n rest
  | _, _ => []
  end.

Definition runes (s : string) : list Z :=
  let l := list_ascii_of_string s in runes_from (length l) l.

Definition RuneCountInString (s : string) : nat := length (runes s).

(** [utf8.AppendRune]: a rune that is none encodes as the replacement. *)
Definition byte (b : Z) : ascii := ascii_of_nat (Z.to_nat b).
Definition EncodeRune (r : Z) : bytes :=
  if (0 <=? r) && (r <? 128) then [byte r]
  else if (128 <=? r) && (r <? 2048) then [byte (192 + Z.shiftr r 6); byte (128 + Z.land r 63)]
  else if ((2048 <=? r) && (r <? 55296)) || ((57344 <=? r) && (r <? 65536))
  then [byte (224 + Z.shiftr r 12); byte (128 + Z.land (Z.shiftr r 6) 63); byte (128 + Z.land r 63)]
  else if (65536 <=? r) && (r <=? 1114111)
  then [byte (240 + Z.shiftr r 18); byte (128 + Z.land (Z.shiftr r 12) 63); byte (128 + Z.land (Z.shiftr r 6) 63);
        byte (128 + Z.land r 63)]
  else [byte 239; byte 191; byte 189].

(** [string(runes)] *)
Definition of_runes (l : list Z) : string := string_of_list_ascii (flat_map EncodeRune l).

(** ** Facts *)

Lemma runes_from_ascii (l : bytes) (fuel : nat) :
  (length l <= fuel)%nat -> Forall (fun c => code c < 128) l -> runes_from fuel l = map code l.
Proof.
  revert l. induction fuel as [|n IH]; intros [|c l] Hf Hl; simpl in *; try done; try lia.
  apply Forall_cons in Hl as [Hc Hl].
  assert (DecodeRune c l = (code c, l)) as ->; [|by rewrite IH by (done || lia)].
  unfold DecodeRune. assert (0 <= code c) by (unfold code; lia).
  assert (announced (code c) = 1%nat) as ->.
  { unfold announced. by rewrite (proj2 (Z.ltb_lt _ _) Hc). }
  by destruct (second_range (code c)).
Qed.
