(* ===== verification/Netip.v ===== *)
(** * Addresses and prefixes

    The part of Go's [net/netip] the access-key allowlist uses: parsing an
    address or a prefix, unmapping, masking and containment.  An address is its
    value and its family; the zone is kept where parsing keeps it. *)

From Stdlib Require Import Ascii String.
From stdpp Require Import base countable list strings numbers.
From S2P Require Import Prelude GoStrings.

Inductive Addr :=
| AddrInvalid
| Addr4 (v : Z)
| Addr6 (v : Z) (zone : string).

#[global] Instance Addr_eq_dec : EqDecision Addr.
Proof. solve_decision. Defined.

#[global] Program Instance Addr_countable : Countable Addr :=
  inj_countable'
    (fun a => match a with AddrInvalid => inl tt | Addr4 v => inr (inl v) | Addr6 v z => inr (inr (v, z)) end)
    (fun s => match s with inl _ => AddrInvalid | inr (inl v) => Addr4 v | inr (inr (v, z)) => Addr6 v z end) _.
Next Obligation. by intros []. Qed.

Definition IsValid (a : Addr) : bool := match a with AddrInvalid => false | _ => true end.
Definition BitLen (a : Addr) : Z := match a with AddrInvalid => 0 | Addr4 _ => 32 | Addr6 _ _ => 128 end.
Definition hasZone (a : Addr) : bool := match a with Addr6 _ z => z <>s "" | _ => false end.
Definition withoutZone (a : Addr) : Addr := match a with Addr6 v _ => Addr6 v "" | _ => a end.
Definition addr_value (a : Addr) : Z := match a with AddrInvalid => 0 | Addr4 v => v | Addr6 v _ => v end.

(** [Unmap] of ::ffff:a.b.c.d is a.b.c.d. *)
Definition Unmap (a : Addr) : Addr :=
  match a with
  | Addr6 v _ => if Z.shiftr v 32 =? 65535 then Addr4 (Z.land v 4294967295) else a
  | _ => a
  end.

Record Prefix := mkPrefix { prefix_addr : Addr; prefix_bits : Z }.

Definition PrefixFrom (a : Addr) (bits : Z) : Prefix :=
  if IsValid a && (0 <=? bits) && (bits <=? BitLen a) then mkPrefix (withoutZone a) bits
  else mkPrefix (withoutZone a) (-1).

(** The high [bits] of an address of the given width. *)
Definition mask_value (width bits v : Z) : Z := Z.shiftl (Z.shiftr v (width - bits)) (width - bits).

Definition Masked (p : Prefix) : Prefix :=
  match prefix_addr p with
  | Addr4 v => mkPrefix (Addr4 (mask_value 32 (prefix_bits p) v)) (prefix_bits p)
  | Addr6 v z => mkPrefix (Addr6 (mask_value 128 (prefix_bits p) v) z) (prefix_bits p)
  | AddrInvalid => p
  end.

Definition Contains (p : Prefix) (a : Addr) : bool :=
  if (prefix_bits p <? 0) || hasZone a then false
  else
    let n := BitLen a in
    if (n =? 0) || negb (BitLen (prefix_addr p) =? n) then false
    else Z.shiftr (Z.lxor (addr_value a) (addr_value (prefix_addr p))) (n - prefix_bits p) =? 0.

(** ** Parsing *)

Definition dot : ascii := "."%char.
Definition colon : ascii := ":"%char.
Definition percent : ascii := "%"%char.
Definition slash : ascii := "/"%char.

Definition code (c : ascii) : Z := Z.of_nat (nat_of_ascii c).

(** [parseIPv4Fields]: [digLen] digits of the current octet have been read,
    [start] says that the next byte opens an octet, [pos] octets are complete. *)
Fixpoint parse4 (l : bytes) (start : bool) (digLen val : Z) (pos : nat) (acc : Z) : option Z :=
  match l with
  | [] => if (pos <? 3)%nat || start then None else Some (acc * 256 + val)
  | c :: l' =>
      if is_digit c then
        if (digLen =? 1) && (val =? 0) then None
        else
          let val' := val * 10 + (code c - 48) in
          if 255 <? val' then None else parse4 l' false (digLen + 1) val' pos acc
      else if Ascii.eqb c dot then
        if start || (pos =? 3)%nat then None else parse4 l' true 0 0 (S pos) (acc * 256 + val)
      else None
  end.

Definition parseIPv4 (l : bytes) : option Z := parse4 l true 0 0 0 0.

Definition hex_value (c : ascii) : option Z :=
  let n := code c in
  if (48 <=? n) && (n <=? 57) then Some (n - 48)
  else if (97 <=? n) && (n <=? 102) then Some (n - 87)
  else if (65 <=? n) && (n <=? 70) then Some (n - 55)
  else None.

(** The hex digits at the front: their value and number.  [None] is a field of
    more than four digits. *)
Fixpoint parse_hex (l : bytes) (acc : Z) (off : nat) : option (Z * nat * bytes) :=
  match l with
  | c :: l' =>
      match hex_value c with
      | Some d => if (3 <? off)%nat then None else parse_hex l' (acc * 16 + d) (S off)
      | None => Some (acc, off, l)
      end
  | [] => Some (acc, off, l)
  end.

(** The loop of [parseIPv6] over the 16-bit fields: the fields read so far, and
    how many of them precede the ellipsis.  Every round reads a field, so eight
    rounds of fuel are enough. *)
Fixpoint parse6 (fuel : nat) (l : bytes) (ellipsis : option nat) (fields : list Z)
    : option (bytes * option nat * list Z) :=
  match fuel with
  | O => Some (l, ellipsis, fields)
  | S fuel' =>
      match parse_hex l 0 0 with
      | None | Some (_, O, _) => None
      | Some (acc, S _, rest) =>
          match rest with
          | [] => Some ([], ellipsis, fields ++ [acc])
          | c :: rest' =>
              if Ascii.eqb c dot then
                if (match ellipsis with None => negb (length fields =? 6)%nat | Some _ => false end)
                   || (6 <? length fields)%nat then None
                else match parseIPv4 l with
                     | Some v => Some ([], ellipsis, fields ++ [Z.shiftr v 16; Z.land v 65535])
                     | None => None
                     end
              else if negb (Ascii.eqb c colon) then None
              else match rest' with
                   | [] => None
                   | d :: rest'' =>
                       if Ascii.eqb d colon then
                         match ellipsis with
                         | Some _ => None
                         | None =>
                             let fields' := fields ++ [acc] in
                             match rest'' with
                             | [] => Some ([], Some (length fields'), fields')
                             | _ => parse6 fuel' rest'' (Some (length fields')) fields'
                             end
                         end
                       else parse6 fuel' rest' ellipsis (fields ++ [acc])
                   end
          end
      end
  end.

Definition join_fields (fields : list Z) : Z := fold_left (fun v f => v * 65536 + f) fields 0.

Definition parseIPv6 (l : bytes) : option Addr :=
  let split := match cut_byte percent l with
               | Some (s, []) => None
               | Some (s, zone) => Some (s, string_of_list_ascii zone)
               | None => Some (l, ""%string)
               end in
  match split with
  | None => None
  | Some (s, zone) =>
      let start := match s with
                   | a :: b :: s' => if Ascii.eqb a colon && Ascii.eqb b colon then Some s' else None
                   | _ => None
                   end in
      match start with
      | Some [] => Some (Addr6 0 zone)
      | _ =>
          let parsed := match start with
                        | Some s' => parse6 8 s' (Some O) []
                        | None => parse6 8 s None []
                        end in
          match parsed with
          | Some ([], ellipsis, fields) =>
              if (length fields <? 8)%nat then
                match ellipsis with
                | None => None
                | Some n => Some (Addr6 (join_fields (take n fields ++ replicate (8 - length fields) 0
                                                      ++ drop n fields)) zone)
                end
              else match ellipsis with
                   | Some _ => None
                   | None => Some (Addr6 (join_fields fields) zone)
                   end
          | _ => None
          end
      end
  end.

(** [ParseAddr]: the first separator decides the family. *)
Fixpoint parse_addr_at (l whole : bytes) : option Addr :=
  match l with
  | [] => None
  | c :: l' =>
      if Ascii.eqb c dot then match parseIPv4 whole with Some v => Some (Addr4 v) | None => None end
      else if Ascii.eqb c colon then parseIPv6 whole
      else if Ascii.eqb c percent then None
      else parse_addr_at l' whole
  end.

Definition ParseAddr (s : string) : option Addr :=
  parse_addr_at (list_ascii_of_string s) (list_ascii_of_string s).

(** The prefix length: one digit, or digits without a leading zero.  A string
    of more than four digits is out of range. *)
Definition parse_bits (l : bytes) (maxBits : Z) : option Z :=
  match l with
  | [] => None
  | c :: l' =>
      if negb (forallb is_digit l) || ((0 <? length l')%nat && Ascii.eqb c "0"%char) then None
      else let bits := value_of l in if maxBits <? bits then None else Some bits
  end.

Definition ParsePrefix (s : string) : option Prefix :=
  match cut_last slash (list_ascii_of_string s) with
  | None => None
  | Some (a, bits) =>
      match parse_addr_at a a with
      | None => None
      | Some addr =>
          if hasZone addr then None
          else match parse_bits bits (BitLen addr) with
               | Some n => Some (PrefixFrom addr n)
               | None => None
               end
      end
  end.

(** ** Printing *)

Definition hex_digit (d : Z) : ascii :=
  ascii_of_nat (Z.to_nat (if d <? 10 then 48 + d else 87 + d)).

(** A 16-bit field in hex without leading zeros. *)
Definition hex_field (x : Z) : bytes :=
  (if 4096 <=? x then [hex_digit (Z.shiftr x 12)] else []) ++
  (if 256 <=? x then [hex_digit (Z.land (Z.shiftr x 8) 15)] else []) ++
  (if 16 <=? x then [hex_digit (Z.land (Z.shiftr x 4) 15)] else []) ++
  [hex_digit (Z.land x 15)].

Definition string4 (v : Z) : bytes :=
  let octet i := digits_of 3 (Z.land (Z.shiftr v i) 255) [] in
  octet 24 ++ dot :: octet 16 ++ dot :: octet 8 ++ dot :: octet 0.

Definition fields6 (v : Z) : list Z := map (fun i => Z.land (Z.shiftr v i) 65535) [112; 96; 80; 64; 48; 32; 16; 0].

Fixpoint zero_run (l : list Z) : nat :=
  match l with [] => O | x :: l' => if x =? 0 then S (zero_run l') else O end.

(** The first longest run of at least two zero fields: its start and length. *)
Fixpoint longest_run (l : list Z) (i best len : nat) : nat * nat :=
  match l with
  | [] => (best, len)
  | _ :: l' =>
      let n := zero_run l in
      if (2 <=? n)%nat && (len <? n)%nat then longest_run l' (S i) i n else longest_run l' (S i) best len
  end.

Definition join6 (l : list Z) : bytes :=
  match l with
  | [] => []
  | x :: l' => hex_field x ++ flat_map (fun f => colon :: hex_field f) l'
  end.

Definition string6 (v : Z) (zone : string) : bytes :=
  let fields := fields6 v in
  let (start, len) := longest_run fields 0 0 0 in
  (if (len =? 0)%nat then join6 fields
   else join6 (take start fields) ++ colon :: colon :: join6 (drop (start + len) fields))
  ++ (if zone ==s "" then [] else percent :: list_ascii_of_string zone).

Definition mapped_prefix : bytes := list_ascii_of_string "::ffff:".

(** [Addr.String] *)
Definition addr_string (a : Addr) : string :=
  string_of_list_ascii
    match a with
    | AddrInvalid => list_ascii_of_string "invalid IP"
    | Addr4 v => string4 v
    | Addr6 v zone =>
        if Z.shiftr v 32 =? 65535 then
          mapped_prefix ++ string4 (Z.land v 4294967295)
          ++ (if zone ==s "" then [] else percent :: list_ascii_of_string zone)
        else string6 v zone
    end.

(** [Prefix.String] of a valid prefix. *)
Definition prefix_string (p : Prefix) : string :=
  (addr_string (prefix_addr p) ++ "/" ++ string_of_list_ascii (digits_of 3 (prefix_bits p) []))%string.

(** ** Containment is agreement on the leading bits *)

Lemma Contains_spec (p : Prefix) (a : Addr) :
  hasZone a = false -> BitLen a = BitLen (prefix_addr p) -> IsValid a = true ->
  0 <= prefix_bits p <= BitLen a -> 0 <= addr_value a -> 0 <= addr_value (prefix_addr p) ->
  Contains p a = true <->
  addr_value a / 2 ^ (BitLen a - prefix_bits p) = addr_value (prefix_addr p) / 2 ^ (BitLen a - prefix_bits p).
Proof.
  intros Hz Hl Hv Hb Ha Hp. unfold Contains. rewrite Hz, <- Hl, Z.eqb_refl.
  rewrite (proj2 (Z.ltb_ge _ _)) by lia. simpl.
  assert ((BitLen a =? 0) = false) as -> by (destruct a; done). simpl.
  rewrite Z.eqb_eq, Z.shiftr_lxor, Z.lxor_eq_0_iff, !Z.shiftr_div_pow2 by lia. done.
Qed.

(** A single address allows itself and nothing else of its family. *)
Lemma Contains_host (a b : Addr) :
  hasZone b = false -> IsValid a = true -> 0 <= addr_value a -> 0 <= addr_value b ->
  Contains (PrefixFrom a (BitLen a)) b = true <-> b = withoutZone a.
Proof.
  intros Hz Hv Ha Hb. unfold PrefixFrom, Contains. rewrite Hv, Z.leb_refl.
  assert ((0 <=? BitLen a) = true) as -> by (destruct a; done). simpl. rewrite Hz.
  assert ((BitLen a <? 0) = false) as -> by (destruct a; done). simpl.
  destruct a as [|v|v z], b as [|w|w y]; simpl in *; try done.
  - rewrite Z.eqb_eq, Z.shiftr_0_r, Z.lxor_eq_0_iff. split; [intros ->; done|intros [= ->]; done].
  - rewrite Z.eqb_eq, Z.shiftr_0_r, Z.lxor_eq_0_iff. apply negb_false_iff, eqb_s_true in Hz. subst y.
    split; [intros ->; done|intros [= ->]; done].
Qed.
