(* ===== verification/Digests.v ===== *)
(** * Digests of the Go standard library

    SHA-1, SHA-256 and HMAC ([crypto/sha1], [crypto/sha256], [crypto/hmac]) over
    bytes and 32-bit words, so that what the credentials are derived with can be
    computed, and the hexadecimal and base32 text the sources store and show. *)

From Stdlib Require Import Ascii String.
From stdpp Require Import base list strings.
From S2P Require Import Prelude GoStrings.

(** ** Words *)

Definition byte_of (c : ascii) : Z := Z.of_nat (nat_of_ascii c).
Definition ascii_of (b : Z) : ascii := ascii_of_nat (Z.to_nat b).

Definition w32 (x : Z) : Z := x mod 2 ^ 32.
Definition not32 (x : Z) : Z := Z.lxor x (2 ^ 32 - 1).
Definition rotl32 (n x : Z) : Z := Z.lor (w32 (Z.shiftl x n)) (Z.shiftr x (32 - n)).
Definition rotr32 (n x : Z) : Z := rotl32 (32 - n) x.

(** Big-endian encodings. *)
Fixpoint be_bytes (n : nat) (v : Z) (acc : list Z) : list Z :=
  match n with
  | O => acc
  | S n' => be_bytes n' (Z.shiftr v 8) (Z.land v 255 :: acc)
  end.

Definition be_value (l : list Z) : Z := fold_left (fun v b => Z.lor (Z.shiftl v 8) b) l 0.

(** 0x80, zeros up to eight bytes short of a block, and the length in bits. *)
Definition sha_pad (msg : list Z) : list Z :=
  let len := Z.of_nat (length msg) in
  msg ++ 128 :: repeat 0 (Z.to_nat ((55 - len) mod 64)) ++ be_bytes 8 (8 * len) [].

Fixpoint chunks {A} (fuel n : nat) (l : list A) : list (list A) :=
  match fuel, l with
  | S fuel', _ :: _ => take n l :: chunks fuel' n (drop n l)
  | _, _ => []
  end.

(** ** SHA-1

    The message schedule, newest word first. *)
Fixpoint sha1_extend (n : nat) (w : list Z) : list Z :=
  match n with
  | O => w
  | S n' =>
      let at_ i := nth i w 0 in
      sha1_extend n' (rotl32 1 (Z.lxor (Z.lxor (at_ 2%nat) (at_ 7%nat)) (Z.lxor (at_ 13%nat) (at_ 15%nat))) :: w)
  end.

Record sha1_state := mkSha1 { sh_a : Z; sh_b : Z; sh_c : Z; sh_d : Z; sh_e : Z }.

Definition sha1_init : sha1_state :=
  mkSha1 0x67452301 0xEFCDAB89 0x98BADCFE 0x10325476 0xC3D2E1F0.

Definition sha1_f (t : nat) (b c d : Z) : Z :=
  if (t <? 20)%nat then Z.lor (Z.land b c) (Z.land (not32 b) d)
  else if (t <? 40)%nat then Z.lxor (Z.lxor b c) d
  else if (t <? 60)%nat then Z.lor (Z.lor (Z.land b c) (Z.land b d)) (Z.land c d)
  else Z.lxor (Z.lxor b c) d.

Definition sha1_k (t : nat) : Z :=
  if (t <? 20)%nat then 0x5A827999
  else if (t <? 40)%nat then 0x6ED9EBA1
  else if (t <? 60)%nat then 0x8F1BBCDC
  else 0xCA62C1D6.

Fixpoint sha1_rounds (t : nat) (w : list Z) (h : sha1_state) : sha1_state :=
  match w with
  | [] => h
  | wt :: w' =>
      let '(mkSha1 a b c d e) := h in
      let temp := w32 (rotl32 5 a + sha1_f t b c d + e + wt + sha1_k t) in
      sha1_rounds (S t) w' (mkSha1 temp a (rotl32 30 b) c d)
  end.

Definition sha1_block (h : sha1_state) (block : list Z) : sha1_state :=
  let w := rev (sha1_extend 64 (rev (map be_value (chunks 16 4 block)))) in
  let '(mkSha1 a b c d e) := sha1_rounds 0 w h in
  mkSha1 (w32 (sh_a h + a)) (w32 (sh_b h + b)) (w32 (sh_c h + c)) (w32 (sh_d h + d)) (w32 (sh_e h + e)).

Definition sha1 (msg : list Z) : list Z :=
  let padded := sha_pad msg in
  let h := fold_left sha1_block (chunks (length padded) 64 padded) sha1_init in
  flat_map (fun x => be_bytes 4 x []) [sh_a h; sh_b h; sh_c h; sh_d h; sh_e h].

(** ** SHA-256 *)

(** The constants are the leading bits of roots of the first primes. *)
Definition is_prime (n : nat) : bool := forallb (fun d => negb (n mod d =? 0)%nat) (seq 2 (n - 2)).

Definition primes (n : nat) : list Z := map Z.of_nat (take n (List.filter is_prime (seq 2 310))).

(** The largest [r] below [2 ^ bits] with [r ^ k <= x], bit by bit. *)
Fixpoint root_from (bits : nat) (k x r : Z) : Z :=
  match bits with
  | O => r
  | S b => let r' := r + 2 ^ Z.of_nat b in root_from b k x (if r' ^ k <=? x then r' else r)
  end.

(** The first 32 bits of the fraction of the [k]-th root of [p]. *)
Definition root_fraction (k p : Z) : Z := w32 (root_from 40 k (p * 2 ^ (32 * k)) 0).

Definition sha256_k : list Z := Eval vm_compute in map (root_fraction 3) (primes 64).

Definition sha256_init : list Z := Eval vm_compute in map (root_fraction 2) (primes 8).

Fixpoint sha256_extend (n : nat) (w : list Z) : list Z :=
  match n with
  | O => w
  | S n' =>
      let at_ i := nth i w 0 in
      let x := at_ 14%nat in
      let y := at_ 1%nat in
      let s0 := Z.lxor (Z.lxor (rotr32 7 x) (rotr32 18 x)) (Z.shiftr x 3) in
      let s1 := Z.lxor (Z.lxor (rotr32 17 y) (rotr32 19 y)) (Z.shiftr y 10) in
      sha256_extend n' (w32 (at_ 15%nat + s0 + at_ 6%nat + s1) :: w)
  end.

(** One round over the eight working words a..h. *)
Definition sha256_round (v : list Z) (wk : Z * Z) : list Z :=
  match v with
  | [a; b; c; d; e; f; g; h] =>
      let s1 := Z.lxor (Z.lxor (rotr32 6 e) (rotr32 11 e)) (rotr32 25 e) in
      let ch := Z.lxor (Z.land e f) (Z.land (not32 e) g) in
      let t1 := h + s1 + ch + snd wk + fst wk in
      let s0 := Z.lxor (Z.lxor (rotr32 2 a) (rotr32 13 a)) (rotr32 22 a) in
      let maj := Z.lxor (Z.lxor (Z.land a b) (Z.land a c)) (Z.land b c) in
      [w32 (t1 + s0 + maj); a; b; c; w32 (d + t1); e; f; g]
  | _ => v
  end.

Definition sha256_block (h : list Z) (block : list Z) : list Z :=
  let w := rev (sha256_extend 48 (rev (map be_value (chunks 16 4 block)))) in
  zip_with (fun x y => w32 (x + y)) h (fold_left sha256_round (zip w sha256_k) h).

Definition sha256 (msg : list Z) : list Z :=
  let padded := sha_pad msg in
  flat_map (fun x => be_bytes 4 x []) (fold_left sha256_block (chunks (length padded) 64 padded) sha256_init).

(** ** HMAC, for digests with blocks of 64 bytes *)

Definition hmac (digest : list Z -> list Z) (key msg : list Z) : list Z :=
  let key := if (64 <? length key)%nat then digest key else key in
  let block := key ++ repeat 0 (64 - length key) in
  digest (map (Z.lxor 0x5c) block ++ digest (map (Z.lxor 0x36) block ++ msg)).

Definition string_bytes (s : string) : list Z := map byte_of (list_ascii_of_string s).
Definition bytes_string (l : list Z) : string := string_of_list_ascii (map ascii_of l).

(** The lower-case hexadecimal text of [encoding/hex]. *)
Definition hex_text (l : list Z) : string :=
  bytes_string (flat_map (fun b => let digit d := if d <? 10 then 48 + d else 87 + d in
                                   [digit (b / 16); digit (b mod 16)]) l).

(** Test vectors of FIPS 180-2 and of RFC 2202 and RFC 4231. *)
Example sha1_abc : hex_text (sha1 (string_bytes "abc")) = "a9993e364706816aba3e25717850c26c9cd0d89d".
Proof. vm_compute. reflexivity. Qed.

Example sha256_abc : hex_text (sha256 (string_bytes "abc")) =
  "ba7816bf8f01cfea414140de5dae2223b00361a396177a9cb410ff61f20015ad".
Proof. vm_compute. reflexivity. Qed.

Example hmac_sha1_jefe : hex_text (hmac sha1 (string_bytes "Jefe") (string_bytes "what do ya want for nothing?")) =
  "effcdf6ae5eb2fa2d27416d5f184df9c259a7c79".
Proof. vm_compute. reflexivity. Qed.

Example hmac_sha256_jefe :
  hex_text (hmac sha256 (string_bytes "Jefe") (string_bytes "what do ya want for nothing?")) =
  "5bdcc146bf60754e6a042426089575c75a003f089d2739839dec58b964ec3843".
Proof. vm_compute. reflexivity. Qed.
