(* ===== verification/Codes.v ===== *)
(** * Secrets people type: invite codes, redeem codes and the key pepper

    [src/internal/service/control_plane_tenant_helpers.go] (invite codes),
    [control_plane_redeem_code.go] and the hashing half of
    [src/internal/auth/pepper.go].  The bytes drawn for a code are an argument;
    the key derivation of the pepper ([hkdf]) is one too. *)

From Stdlib Require Import Ascii String.
From stdpp Require Import base list strings.
From S2P Require Import Prelude GoStrings Digests.

(** ** Shapes *)

Definition inviteCodeAlphabet : bytes := list_ascii_of_string "23456789ABCDEFGHJKLMNPQRSTUVWXYZ".
Definition redeemCodeSeparator : ascii := "-"%char.

(** Write the characters with a separator before every [n]th but the first. *)
Fixpoint grouped_from (n i : nat) (l : bytes) : bytes :=
  match l with
  | [] => []
  | c :: r =>
      (if (0 <? i)%nat && (i mod n =? 0)%nat then [redeemCodeSeparator; c] else [c]) ++ grouped_from n (S i) r
  end.
Definition grouped (n : nat) (l : bytes) : bytes := grouped_from n 0 l.

Definition symbol (b : Z) : ascii := nth (Z.to_nat (b mod 32)) inviteCodeAlphabet "2"%char.

Definition is_symbol (c : ascii) : bool := existsb (Ascii.eqb c) inviteCodeAlphabet.

(** Position [i] of a code holds the separator or a symbol. *)
Fixpoint shape_from (n i : nat) (l : bytes) : bool :=
  match l with
  | [] => true
  | c :: r =>
      (if (i mod (n + 1) =? n)%nat then Ascii.eqb c redeemCodeSeparator else is_symbol c)
      && shape_from n (S i) r
  end.

Definition inviteCodeGroups : nat := 2.
Definition redeemCodeGroups : nat := 5.
Definition redeemCodeGroupLen : nat := 4.
Definition maxRedeemCodeBatch : Z := 100.
Definition redeemCodeHintLen : nat := 4.

Definition newInviteCode (buf : list Z) : string :=
  string_of_list_ascii (grouped redeemCodeGroupLen (map symbol buf)).

Definition validInviteCodeShape (code : string) : bool :=
  (String.length code =? inviteCodeGroups * redeemCodeGroupLen + (inviteCodeGroups - 1))%nat
  && shape_from redeemCodeGroupLen 0 (list_ascii_of_string code).

Definition newRedeemCode (buf : list Z) : string :=
  string_of_list_ascii (grouped redeemCodeGroupLen (map symbol buf)).

(** What is presentation only: separators and white space. *)
Definition presentation (c : ascii) : bool :=
  existsb (Ascii.eqb c) (redeemCodeSeparator :: of_codes [32; 9; 10; 13]%nat).

Definition normalizeRedeemCode (code : string) : string :=
  string_of_list_ascii (grouped redeemCodeGroupLen
    (List.filter (fun c => negb (presentation c)) (list_ascii_of_string (ToUpper (TrimSpace code))))).

Definition validRedeemCodeShape (code : string) : bool :=
  (String.length code =? redeemCodeGroups * redeemCodeGroupLen + (redeemCodeGroups - 1))%nat
  && shape_from redeemCodeGroupLen 0 (list_ascii_of_string code).

Definition codeHint (code : string) : string :=
  let compact := List.filter (fun c => negb (Ascii.eqb c redeemCodeSeparator)) (list_ascii_of_string code) in
  string_of_list_ascii
    (if (length compact <=? redeemCodeHintLen)%nat then compact else drop (length compact - redeemCodeHintLen) compact).

(** ** The pepper *)

Record Pepper := mkPepper { pepper_raw : list Z; keyHMAC : list Z; totpKey : list Z }.

Definition hkdfInfoKeyHMAC : string := "prism-key-hmac-v1".
Definition hkdfInfoTOTP : string := "prism-totp-v1".

Definition NewPepper (deriveSubkey : list Z -> string -> option (list Z)) (raw : list Z) : option Pepper :=
  if (length raw =? 0)%nat then None
  else k ← deriveSubkey raw hkdfInfoKeyHMAC;
       t ← deriveSubkey raw hkdfInfoTOTP;
       Some (mkPepper raw k t).

(** Hashes are kept as byte strings. *)
Definition HashSecret (p : option Pepper) (secret : string) : string :=
  match p with
  | None => ""
  | Some p => bytes_string (hmac sha256 (keyHMAC p) (string_bytes secret))
  end.

Definition VerifySecret (p : option Pepper) (stored secret : string) : bool :=
  match p with
  | None => false
  | Some _ => if stored ==s "" then false else HashSecret p secret ==s stored
  end.

(** ** Codes survive being read off a screen *)

Lemma symbol_In (b : Z) : In (symbol b) inviteCodeAlphabet.
Proof.
  unfold symbol. apply nth_In. pose proof (Z.mod_pos_bound b 32 ltac:(lia)).
  assert (length inviteCodeAlphabet = 32%nat) as -> by reflexivity. lia.
Qed.

Lemma existsb_ascii (c : ascii) (l : bytes) : In c l -> existsb (Ascii.eqb c) l = true.
Proof. intros H. apply existsb_exists. exists c. split; [done|apply Ascii.eqb_refl]. Qed.

Lemma alphabet_shown (c : ascii) :
  In c inviteCodeAlphabet -> presentation c = false /\ upper_ascii c = c /\ (nat_of_ascii c < 128)%nat.
Proof.
  intros H. assert (forallb (fun c => negb (presentation c) && Ascii.eqb (upper_ascii c) c
                      && (nat_of_ascii c <? 128)%nat) inviteCodeAlphabet = true) as Hall by reflexivity.
  rewrite forallb_forall in Hall. specialize (Hall c H).
  apply andb_true_iff in Hall as [Hall H3]. apply andb_true_iff in Hall as [H1 H2].
  apply negb_true_iff in H1. apply Ascii.eqb_eq in H2. apply Nat.ltb_lt in H3. auto.
Qed.

(** Dropping the separators undoes the grouping. *)
Lemma grouped_from_plain (n i : nat) (l : bytes) :
  (forall c, In c l -> presentation c = false) ->
  List.filter (fun c => negb (presentation c)) (grouped_from n i l) = l.
Proof.
  revert i. induction l as [|c l IH]; intros i H; [done|]. simpl. rewrite List.filter_app, IH by (intros; apply H; by right).
  assert (presentation c = false) as Hc by (apply H; by left).
  destruct (_ && _); simpl; rewrite Hc; done.
Qed.

(** A code of the right number of symbols has the shape. *)
Lemma grouped_shape (l : bytes) :
  length l = (redeemCodeGroups * redeemCodeGroupLen)%nat -> (forall c, In c l -> In c inviteCodeAlphabet) ->
  validRedeemCodeShape (string_of_list_ascii (grouped redeemCodeGroupLen l)) = true.
Proof.
  intros Hl Hin. do 20 (destruct l as [|? l]; [done|]). destruct l; [|done].
  assert (forall c, In c inviteCodeAlphabet -> is_symbol c = true) as He by (intros; by apply existsb_ascii).
  unfold validRedeemCodeShape. rewrite list_ascii_of_string_of_list_ascii. cbv -[is_symbol].
  rewrite !He by (apply Hin; simpl; tauto). done.
Qed.

Lemma compact_symbols (buf : list Z) (c : ascii) : In c (map symbol buf) -> In c inviteCodeAlphabet.
Proof. intros H. apply in_map_iff in H as (b & <- & _). apply symbol_In. Qed.

Lemma filter_map {A B} (f : B -> bool) (g : A -> B) (l : list A) :
  List.filter f (map g l) = map g (List.filter (fun x => f (g x)) l).
Proof. induction l as [|x l IH]; simpl; [done|]. destruct (f (g x)); simpl; by rewrite IH. Qed.

Lemma ascii_spaces (c : ascii) (p : bytes) :
  In p space_encodings -> In c p -> (nat_of_ascii c < 128)%nat ->
  presentation (upper_ascii c) = true \/ upper_ascii c = ascii_of_nat 11 \/ upper_ascii c = ascii_of_nat 12.
Proof.
  intros Hp Hc Hlt. assert (forallb (fun p => forallb (fun c => negb (nat_of_ascii c <? 128)%nat
    || presentation (upper_ascii c) || Ascii.eqb (upper_ascii c) (ascii_of_nat 11)
    || Ascii.eqb (upper_ascii c) (ascii_of_nat 12)) p) space_encodings = true) as Hall by (vm_compute; reflexivity).
  rewrite forallb_forall in Hall. specialize (Hall p Hp). rewrite forallb_forall in Hall. specialize (Hall c Hc).
  apply Nat.ltb_lt in Hlt. rewrite Hlt in Hall. cbn [negb orb] in Hall. rewrite !orb_true_iff, !Ascii.eqb_eq in Hall. intuition.
Qed.

Lemma trimmed_chars (s : string) (c : ascii) :
  In c (list_ascii_of_string (TrimSpace s)) -> In c (list_ascii_of_string s).
Proof.
  unfold TrimSpace, trim_bytes. rewrite list_ascii_of_string_of_list_ascii. rewrite <- in_rev. intros H.
  match type of H with In c (trim_front ?n ?ps ?l) => destruct (trim_front_suffix ps n l) as [pre E] end.
  assert (In c (rev (trim_front (length (list_ascii_of_string s)) space_encodings (list_ascii_of_string s)))) as H2
    by (rewrite E; apply in_app_iff; by right).
  apply in_rev in H2. destruct (trim_front_suffix space_encodings (length (list_ascii_of_string s)) (list_ascii_of_string s)) as [pre2 E2].
  rewrite E2. apply in_app_iff. by right.
Qed.

(** What is left of the typed text when the presentation is dropped. *)
Lemma typed_symbols (typed : string) (buf : list Z) :
  (forall c, In c (list_ascii_of_string typed) -> (nat_of_ascii c < 128)%nat) ->
  List.filter (fun c => negb (presentation c)) (map upper_ascii (list_ascii_of_string typed)) = map symbol buf ->
  List.filter (fun c => negb (presentation c)) (list_ascii_of_string (ToUpper (TrimSpace typed))) =
  List.filter (fun c => negb (presentation c)) (map upper_ascii (list_ascii_of_string typed)).
Proof.
  intros Hascii Ht. unfold ToUpper. rewrite list_ascii_of_string_of_list_ascii, upper_bytes_ascii;
    [|intros; by apply Hascii, trimmed_chars|done].
  rewrite !filter_map. f_equal. apply TrimSpace_filter. intros p c Hp Hc Hin.
  destruct (presentation (upper_ascii c)) eqn:E; [done|]. exfalso.
  assert (In (upper_ascii c) (map symbol buf)) as Hs.
  { rewrite <- Ht. apply List.filter_In. split; [by apply in_map|by rewrite E]. }
  apply compact_symbols in Hs.
  destruct (ascii_spaces c p Hp Hc (Hascii c Hin)) as [He|[He|He]]; [congruence|rewrite He in Hs..];
    vm_compute in Hs; intuition discriminate.
Qed.

(** A redeem code survives being read off a screen.  However the holder
    types the code they were given, in either case, with spaces, tabs, line ends
    and separators anywhere or nowhere, it normalises to the code that was
    minted, which has the shape the shape check wants. *)
Theorem redeem_code_round_trip (buf : list Z) (typed : string) :
  length buf = (redeemCodeGroups * redeemCodeGroupLen)%nat ->
  (forall c, In c (list_ascii_of_string typed) -> (nat_of_ascii c < 128)%nat) ->
  List.filter (fun c => negb (presentation c)) (map upper_ascii (list_ascii_of_string typed)) = map symbol buf ->
  normalizeRedeemCode typed = newRedeemCode buf /\ validRedeemCodeShape (newRedeemCode buf) = true.
Proof.
  intros Hl Hascii Ht. split; [|apply grouped_shape; [by rewrite length_map|apply compact_symbols]].
  unfold normalizeRedeemCode, newRedeemCode. f_equal. f_equal. rewrite <- Ht. by apply (typed_symbols typed buf).
Qed.

Lemma redeem_code_round_trip_witness :
  normalizeRedeemCode " 2345-6789 abcd efgh-jklm
" = "2345-6789-ABCD-EFGH-JKLM".
Proof.
  refine (proj1 (redeem_code_round_trip (map Z.of_nat (seq 0 20)) _ _ _ _)); [reflexivity| |reflexivity].
  intros c Hc. cbn in Hc. repeat destruct Hc as [<-|Hc]; [vm_compute; lia..|done].
Defined.
