(* ===== verification/Keys.v ===== *)
(** * Access keys: the rows, the live store and the credential

    The access_keys table of [src/internal/state/repo_user.go] and the package
    [src/internal/keys]: the snapshot the data plane reads ([store.go]), how it
    is rebuilt at startup ([load.go]) and republished from the console
    ([publish.go]), and the credential format ([credential.go]). *)

From Stdlib Require Import Ascii String.
From stdpp Require Import base gmap list strings.
From S2P Require Import Prelude Model Store GoStrings Netip.

(** ** The access_keys table *)

Definition normalizeAccessKey (k : AccessKey) : AccessKey :=
  AccessKey.mkAccessKey (AccessKey.ID k) (AccessKey.UserID k) (AccessKey.Name k) (AccessKey.SecretHash k)
    (AccessKey.Platforms k) (AccessKey.IPAllowlist k)
    (if AccessKey.Scope k ==s "" then KeyScopeProxy else AccessKey.Scope k)
    (if AccessKey.Status k ==s "" then KeyStatusActive else AccessKey.Status k)
    (AccessKey.ExpiresAtNs k) (AccessKey.LastUsedNs k) (AccessKey.CreatedAtNs k).

(** The CHECK constraints of the table. *)
Definition access_key_valid (k : AccessKey) : bool :=
  ((AccessKey.Scope k ==s KeyScopeProxy) || (AccessKey.Scope k ==s KeyScopeAdmin)) &&
  ((AccessKey.Status k ==s KeyStatusActive) || (AccessKey.Status k ==s KeyStatusDisabled)).

Definition access_key_exists (id : string) (db : StateDB) : bool :=
  existsb (fun k => AccessKey.ID k ==s id) (access_keys db).

Definition InsertAccessKey (key : AccessKey) : Method unit := transact (fun db =>
  if AccessKey.SecretHash key ==s "" then Err ErrSQL
  else
    let k := normalizeAccessKey key in
    if negb (access_key_valid k) || access_key_exists (AccessKey.ID k) db
       || negb (user_exists (AccessKey.UserID k) db)
    then Err ErrSQL
    else Ok (tt, set_access_keys (access_keys db ++ [k]) db)).

(** The SET list of [UpdateAccessKey]: owner and creation time stay. *)
Definition updated_key (k old : AccessKey) : AccessKey :=
  AccessKey.mkAccessKey (AccessKey.ID old) (AccessKey.UserID old) (AccessKey.Name k) (AccessKey.SecretHash k)
    (AccessKey.Platforms k) (AccessKey.IPAllowlist k) (AccessKey.Scope k) (AccessKey.Status k)
    (AccessKey.ExpiresAtNs k) (AccessKey.LastUsedNs k) (AccessKey.CreatedAtNs old).

Definition UpdateAccessKeyRow (key : AccessKey) : Method unit := transact (fun db =>
  let k := normalizeAccessKey key in
  let hit r := AccessKey.ID r ==s AccessKey.ID k in
  if (sql_affected hit (access_keys db) =? 0)%nat then Err ErrNotFound
  else if negb (access_key_valid k) then Err ErrSQL
  else Ok (tt, set_access_keys (sql_update hit (updated_key k) (access_keys db)) db)).

Definition GetAccessKey (id : string) (db : StateDB) : res StateErr AccessKey :=
  match sql_first (fun k => AccessKey.ID k ==s id) (access_keys db) with
  | Some k => Ok k
  | None => Err ErrNotFound
  end.

Definition oldest_key (a b : AccessKey) : bool := AccessKey.CreatedAtNs a <=? AccessKey.CreatedAtNs b.

Definition ListAccessKeysByUser (userID : string) (db : StateDB) : list AccessKey :=
  sort_by oldest_key (sql_where (fun k => AccessKey.UserID k ==s userID) (access_keys db)).

Definition ListActiveAccessKeys (db : StateDB) : list AccessKey :=
  sort_by oldest_key (sql_where (fun k => AccessKey.Status k ==s KeyStatusActive) (access_keys db)).

Definition DeleteAccessKeyRow (id : string) : Method unit := transact (fun db =>
  if access_key_exists id db
  then Ok (tt, set_access_keys (sql_where (fun k => AccessKey.ID k <>s id) (access_keys db)) db)
  else Err ErrNotFound).

(** ** The snapshot the data plane reads *)

Module PlanSnapshot.
Record PlanSnapshot := mkPlanSnapshot {
  Platforms : list string;
  IPTiers : list string;
  TrafficBytes : Z;
  MaxConcurrent : Z;
  MaxRPS : Z;
  MaxBandwidthBps : Z;
  ExpiresAtNs : Z;
  Status : string
}.

Definition zero : PlanSnapshot := mkPlanSnapshot [] [] 0 0 0 0 0 "".
End PlanSnapshot.
Abbreviation PlanSnapshot := PlanSnapshot.PlanSnapshot.

Module KeyState.
Record KeyState := mkKeyState {
  KeyID : string;
  UserID : string;
  SecretHash : string;
  Scope : string;
  Status : string;
  ExpiresAtNs : Z;
  Platforms : list string;
  AllowlistSet : bool;
  Allowlist : list Prefix;
  UserStatus : string;
  UserRole : string;
  Plan : PlanSnapshot
}.
End KeyState.
Abbreviation KeyState := KeyState.KeyState.

Definition Usable (key : option KeyState) (nowNs : Z) : bool :=
  match key with
  | None => false
  | Some k =>
      if KeyState.Status k <>s KeyStatusActive then false
      else if (0 <? KeyState.ExpiresAtNs k) && (KeyState.ExpiresAtNs k <=? nowNs) then false
      else if KeyState.UserStatus k <>s UserStatusActive then false
      else if (PlanSnapshot.Status (KeyState.Plan k) <>s "")
              && (PlanSnapshot.Status (KeyState.Plan k) <>s SubscriptionStatusActive) then false
      else if (0 <? PlanSnapshot.ExpiresAtNs (KeyState.Plan k))
              && (PlanSnapshot.ExpiresAtNs (KeyState.Plan k) <=? nowNs) then false
      else true
  end.

Definition EffectivePlatforms (key : option KeyState) : list string :=
  match key with
  | None => []
  | Some k => match KeyState.Platforms k with [] => PlanSnapshot.Platforms (KeyState.Plan k) | l => l end
  end.

Definition AllowsPlatform (key : option KeyState) (platformID : string) : bool :=
  match key with
  | None => false
  | Some k =>
      match EffectivePlatforms key with
      | [] => true
      | effective => existsb (fun allowed => allowed ==s platformID) effective
      end
  end.

Definition AllowsIP (key : option KeyState) (addr : Addr) : bool :=
  match key with
  | None => false
  | Some k =>
      if negb (KeyState.AllowlistSet k) then true
      else if negb (IsValid addr) then false
      else existsb (fun prefix => Contains prefix (Unmap addr)) (KeyState.Allowlist k)
  end.

(** One entry: a prefix, a single host, or nothing when it does not parse. *)
Definition parse_entry (value : string) : list Prefix :=
  let v := TrimSpace value in
  if v ==s "" then []
  else if ContainsByte slash v then
    match ParsePrefix v with Some p => [Masked p] | None => [] end
  else
    match ParseAddr (TrimBrackets v) with
    | Some a => [PrefixFrom (Unmap a) (BitLen (Unmap a))]
    | None => []
    end.

Definition parseAllowlist (values : list string) : list Prefix := flat_map parse_entry values.

Definition newKeyState (key : AccessKey) (user : User) (plan : PlanSnapshot) : KeyState :=
  KeyState.mkKeyState (AccessKey.ID key) (AccessKey.UserID key) (AccessKey.SecretHash key)
    (AccessKey.Scope key) (AccessKey.Status key) (AccessKey.ExpiresAtNs key) (AccessKey.Platforms key)
    (negb (length (AccessKey.IPAllowlist key) =? 0)%nat) (parseAllowlist (AccessKey.IPAllowlist key))
    (User.Status user) (User.Role user) plan.

(** ** The live store *)

Abbreviation KeyStore := (gmap string KeyState).

Definition Get (keyID : string) (s : KeyStore) : option KeyState := s !! keyID.
Definition Upsert (st : KeyState) (s : KeyStore) : KeyStore := <[KeyState.KeyID st := st]> s.
Definition Delete (keyID : string) (s : KeyStore) : KeyStore := base.delete keyID s.

Definition Publish (key : AccessKey) (user : User) (plan : PlanSnapshot) (s : KeyStore) : KeyStore :=
  Upsert (newKeyState key user plan) s.

(** [Load]: the last row with an id wins, as in the map the code fills. *)
Definition Load (accessKeys : list AccessKey) (users : gmap string User) (plans : gmap string PlanSnapshot)
    : KeyStore :=
  fold_left (fun next key =>
    match users !! AccessKey.UserID key with
    | None => next
    | Some user =>
        <[AccessKey.ID key := newKeyState key user (default PlanSnapshot.zero (plans !! AccessKey.UserID key))]> next
    end) accessKeys ∅.

(** ** From subscriptions to snapshots *)

(** [json.Unmarshal] of a stored snapshot, as an option. *)
Definition decode_snapshot (s : Snapshot) : option Plan :=
  match s with
  | SnapEmpty | SnapBraces => Some Plan.zero
  | SnapPlan p => Some p
  | SnapInvalid _ => None
  end.

Definition SnapshotForPlan (sub : option UserSubscription) (plan : option Plan) : PlanSnapshot :=
  let snap := match plan with
              | Some p => PlanSnapshot.mkPlanSnapshot (Plan.Platforms p) (Plan.IPTiers p) (Plan.TrafficBytes p)
                            (Plan.MaxConcurrent p) (Plan.MaxRPS p) (Plan.MaxBandwidthBps p) 0 (Plan.Status p)
              | None => PlanSnapshot.zero
              end in
  match sub with
  | None => snap
  | Some s =>
      PlanSnapshot.mkPlanSnapshot (PlanSnapshot.Platforms snap) (PlanSnapshot.IPTiers snap)
        (PlanSnapshot.TrafficBytes snap) (PlanSnapshot.MaxConcurrent snap) (PlanSnapshot.MaxRPS snap)
        (PlanSnapshot.MaxBandwidthBps snap) (UserSubscription.ExpiresAtNs s)
        (if UserSubscription.Status s <>s SubscriptionStatusActive then UserSubscription.Status s
         else PlanSnapshot.Status snap)
  end.

(** [None] is the error of an unreadable snapshot. *)
Definition SnapshotFromSubscription (sub : option UserSubscription) : option PlanSnapshot :=
  match sub with
  | None => Some PlanSnapshot.zero
  | Some s =>
      match UserSubscription.PlanSnapshotJSON s with
      | SnapEmpty => Some (SnapshotForPlan sub None)
      | raw => match decode_snapshot raw with
               | Some p => Some (SnapshotForPlan sub (Some p))
               | None => None
               end
      end
  end.

Definition newerSubscription (a b : UserSubscription) : bool :=
  if negb (UserSubscription.ExpiresAtNs a =? UserSubscription.ExpiresAtNs b)
  then UserSubscription.ExpiresAtNs b <? UserSubscription.ExpiresAtNs a
  else if negb (UserSubscription.StartsAtNs a =? UserSubscription.StartsAtNs b)
  then UserSubscription.StartsAtNs b <? UserSubscription.StartsAtNs a
  else String.ltb (UserSubscription.ID b) (UserSubscription.ID a).

(** One round of the loop: the candidate replaces the best so far, or not. *)
Definition decide_step (best : option UserSubscription) (candidate : UserSubscription)
    : option UserSubscription :=
  match best with
  | None => Some candidate
  | Some b =>
      if negb (Bool.eqb (is_active candidate) (is_active b))
      then if is_active candidate then Some candidate else Some b
      else if newerSubscription candidate b then Some candidate else Some b
  end.

Definition DecidingSubscription (subs : list UserSubscription) : option UserSubscription :=
  fold_left decide_step subs None.

(** [planSnapshots]: rows that do not decode are skipped. *)
Definition readable (s : UserSubscription) : bool :=
  match decode_snapshot (UserSubscription.PlanSnapshotJSON s) with Some _ => true | None => false end.

Definition rows_by_user (subs : list UserSubscription) : gmap string (list UserSubscription) :=
  fold_left (fun m s =>
    <[UserSubscription.UserID s := default [] (m !! UserSubscription.UserID s) ++ [s]]> m)
    (List.filter readable subs) ∅.

Definition planSnapshots (subs : list UserSubscription) : gmap string PlanSnapshot :=
  omap (fun rows =>
    match DecidingSubscription rows with
    | None => None
    | Some s => Some (SnapshotForPlan (Some s) (decode_snapshot (UserSubscription.PlanSnapshotJSON s)))
    end) (rows_by_user subs).

Definition LoadFromState (db : StateDB) : KeyStore :=
  Load (ListActiveAccessKeys db)
    (fold_left (fun m u => <[User.ID u := u]> m) (ListUsers db) ∅)
    (planSnapshots (ListUserSubscriptions db)).

(** ** The credential *)

Definition CredentialPrefix : string := "pk_".
Definition IDHexLength : nat := 32.
Definition SecretHexLength : nat := 64.

Definition isLowerHex (value : string) : bool :=
  forallb (fun c =>
    (((48 <=? nat_of_ascii c) && (nat_of_ascii c <=? 57)) ||
     ((97 <=? nat_of_ascii c) && (nat_of_ascii c <=? 102)))%nat) (list_ascii_of_string value).

Definition FormatCredential (id secret : string) : string := CredentialPrefix ++ id ++ "_" ++ secret.

Definition underscore : ascii := "_"%char.

Definition ParseCredential (credential : string) : option (string * string) :=
  if negb (HasPrefix credential CredentialPrefix) then None
  else
    match cut_byte underscore (list_ascii_of_string credential) with
    | None => None
    | Some (_, rest) =>
        match cut_byte underscore rest with
        | None => None
        | Some (i, s) =>
            let id := string_of_list_ascii i in
            let secret := string_of_list_ascii s in
            if negb (length i =? IDHexLength)%nat || negb (length s =? SecretHexLength)%nat then None
            else if negb (isLowerHex id) || negb (isLowerHex secret) then None
            else Some (id, secret)
        end
    end.

Definition IsCredentialShape (value : string) : bool :=
  match ParseCredential value with Some _ => true | None => false end.

(** ** Which row decides *)

(** [a] comes before [b] in the order the loop maximises. *)
Definition beats (a b : UserSubscription) : bool :=
  if negb (Bool.eqb (is_active a) (is_active b)) then is_active a else newerSubscription a b.

Lemma decide_step_beats (a b : UserSubscription) :
  decide_step (Some b) a = Some (if beats a b then a else b).
Proof.
  unfold decide_step, beats. destruct (negb _); [destruct (is_active a)|destruct (newerSubscription a b)]; done.
Qed.

(** Lexicographic comparisons as arithmetic and string order. *)
Lemma newer_spec (a b : UserSubscription) :
  newerSubscription a b = true <->
  UserSubscription.ExpiresAtNs b < UserSubscription.ExpiresAtNs a \/
  (UserSubscription.ExpiresAtNs b = UserSubscription.ExpiresAtNs a /\
   (UserSubscription.StartsAtNs b < UserSubscription.StartsAtNs a \/
    (UserSubscription.StartsAtNs b = UserSubscription.StartsAtNs a /\
     String.ltb (UserSubscription.ID b) (UserSubscription.ID a) = true))).
Proof.
  unfold newerSubscription.
  destruct (UserSubscription.ExpiresAtNs a =? UserSubscription.ExpiresAtNs b) eqn:E1; simpl; bool_prop.
  - destruct (UserSubscription.StartsAtNs a =? UserSubscription.StartsAtNs b) eqn:E2; simpl; bool_prop.
    + split; [auto|]. intros [?|[_ [?|[_ ?]]]]; [lia|lia|done].
    + rewrite Z.ltb_lt. split; [auto|]. intros [?|[_ [?|[? _]]]]; lia.
  - rewrite Z.ltb_lt. split; [auto|]. intros [?|[? _]]; lia.
Qed.

Lemma beats_spec (a b : UserSubscription) :
  beats a b = true <->
  (is_active a = true /\ is_active b = false) \/
  (is_active a = is_active b /\ newerSubscription a b = true).
Proof.
  unfold beats. destruct (is_active a), (is_active b); simpl; split; intros H; auto;
  destruct H as [[? ?]|[? ?]]; done.
Qed.

Lemma newer_trans (a b c : UserSubscription) :
  newerSubscription a b = true -> newerSubscription b c = true -> newerSubscription a c = true.
Proof.
  rewrite !newer_spec. intros [H1|[E1 [H1|[F1 G1]]]] [H2|[E2 [H2|[F2 G2]]]];
  try (left; lia); right; (split; [lia|]); try (left; lia).
  right. split; [lia|]. eapply string_ltb_trans; eauto.
Qed.

Lemma beats_trans (a b c : UserSubscription) :
  beats a b = true -> beats b c = true -> beats a c = true.
Proof.
  rewrite !beats_spec. intros [[A1 A2]|[A1 A2]] [[B1 B2]|[B1 B2]]; try congruence.
  - left. split; congruence.
  - left. split; congruence.
  - right. split; [congruence|]. eapply newer_trans; eauto.
Qed.

Lemma beats_asym (a b : UserSubscription) : beats a b = true -> beats b a = true -> False.
Proof.
  rewrite !beats_spec, !newer_spec. intros [[A1 A2]|[A1 A2]] [[B1 B2]|[B1 B2]]; try congruence.
  destruct A2 as [H1|[E1 [H1|[F1 G1]]]], B2 as [H2|[E2 [H2|[F2 G2]]]]; try lia.
  eapply string_ltb_asym; eauto.
Qed.

Lemma beats_total (a b : UserSubscription) :
  UserSubscription.ID a <> UserSubscription.ID b -> beats a b = true \/ beats b a = true.
Proof.
  intros Hne. rewrite !beats_spec, !newer_spec.
  destruct (is_active a), (is_active b); auto; [|].
  all: destruct (Z.lt_trichotomy (UserSubscription.ExpiresAtNs a) (UserSubscription.ExpiresAtNs b)) as [?|[?|?]];
    auto 6; destruct (Z.lt_trichotomy (UserSubscription.StartsAtNs a) (UserSubscription.StartsAtNs b)) as [?|[?|?]];
    auto 8; destruct (string_ltb_total _ _ Hne); auto 10.
Qed.

Lemma DecidingSubscription_In (l : list UserSubscription) (m : UserSubscription) :
  DecidingSubscription l = Some m -> In m l.
Proof.
  unfold DecidingSubscription. assert (forall b, fold_left decide_step l b = Some m ->
    b = Some m \/ In m l) as H; [|intros E; destruct (H None E); done].
  induction l as [|c l IH]; intros b; simpl; [auto|]. intros E. apply IH in E as [E|E]; [|auto].
  destruct b as [b|]; [rewrite decide_step_beats in E; destruct (beats c b)|simpl in E]; simplify_eq; auto.
Qed.

Lemma DecidingSubscription_None (l : list UserSubscription) : DecidingSubscription l = None -> l = [].
Proof.
  destruct l as [|c l]; [done|]. unfold DecidingSubscription. cbn [fold_left decide_step].
  intros E. exfalso. revert c E. induction l as [|a l IH]; intros c; simpl; [done|].
  fold (decide_step (Some c) a). rewrite decide_step_beats. apply IH.
Qed.

(** [m] is the row of [l] that precedes all others. *)
Definition decides (m : UserSubscription) (l : list UserSubscription) : Prop :=
  In m l /\ forall x, In x l -> x = m \/ beats m x = true.

Lemma decides_unique (m m' : UserSubscription) (l : list UserSubscription) :
  decides m l -> decides m' l -> m = m'.
Proof.
  intros [H1 H2] [H1' H2']. destruct (H2 m' H1') as [->|B]; [done|].
  destruct (H2' m H1) as [->|B']; [done|]. exfalso. eapply beats_asym; eauto.
Qed.

Lemma deciding_from (l : list UserSubscription) (b : UserSubscription) :
  NoDup (map UserSubscription.ID (b :: l)) ->
  exists m, fold_left decide_step l (Some b) = Some m /\ decides m (b :: l).
Proof.
  revert b. induction l as [|c l IH]; intros b Hn.
  { exists b. split; [done|]. split; [left; done|]. intros x [<-|[]]. auto. }
  cbn [fold_left]. rewrite decide_step_beats. simpl in Hn.
  apply list.NoDup_cons in Hn as [Hb Hn]. apply list.NoDup_cons in Hn as [Hc Hn].
  set (w := if beats c b then c else b).
  destruct (IH w) as (m & E & Hm & Hall).
  { simpl. apply list.NoDup_cons. split; [|done]. subst w. destruct (beats c b); [done|].
    intros Hx. apply Hb. right. done. }
  exists m. split; [exact E|]. split.
  - destruct Hm as [<-|Hm]; [subst w; destruct (beats c b); [right; left|left]; done|right; right; done].
  - assert (forall x, x = b \/ x = c -> x = w \/ beats w x = true) as Hw.
    { intros x Hx. subst w. destruct (beats c b) eqn:Ec; [destruct Hx as [->| ->]; auto|].
      destruct Hx as [->| ->]; auto. right. destruct (beats_total c b) as [?|?]; [|congruence|done].
      intros Eid. apply Hb. rewrite Eid. left. }
    assert (forall x, x = b \/ x = c -> x = m \/ beats m x = true) as Hm'.
    { intros x Hx. destruct (Hw x Hx) as [Ex|Bw]; [rewrite Ex; apply Hall; left; done|].
      destruct (Hall w (or_introl eq_refl)) as [Ew|Bm]; [right; rewrite <- Ew; exact Bw|].
      right. eapply beats_trans; eauto. }
    intros x [<-|[<-|Hx]]; [apply Hm'; auto..|apply Hall; right; done].
Qed.

Lemma DecidingSubscription_decides (l : list UserSubscription) :
  NoDup (map UserSubscription.ID l) ->
  match DecidingSubscription l with Some m => decides m l | None => l = [] end.
Proof.
  destruct l as [|b l]; [done|]. intros Hn. unfold DecidingSubscription. cbn [fold_left decide_step].
  destruct (deciding_from l b Hn) as (m & -> & H). done.
Qed.

Lemma DecidingSubscription_perm (l l' : list UserSubscription) :
  NoDup (map UserSubscription.ID l) -> l ≡ₚ l' -> DecidingSubscription l = DecidingSubscription l'.
Proof.
  intros Hn Hp. pose proof (DecidingSubscription_decides l Hn) as D.
  assert (NoDup (map UserSubscription.ID l')) as Hn'.
  { change (NoDup (UserSubscription.ID <$> l')). rewrite <- Hp. exact Hn. }
  pose proof (DecidingSubscription_decides l' Hn') as D'.
  destruct (DecidingSubscription l) as [m|], (DecidingSubscription l') as [m'|]; [| | |done].
  - f_equal. apply (decides_unique m m' l D). destruct D' as [D1 D2]. split.
    * apply list_elem_of_In. rewrite Hp. apply list_elem_of_In. done.
    * intros x Hx. apply D2, list_elem_of_In. rewrite <- Hp. apply list_elem_of_In. done.
  - subst l'. destruct D as [D _]. apply list_elem_of_In in D. rewrite Hp in D. inversion D.
  - subst l. destruct D' as [D' _]. apply list_elem_of_In in D'. rewrite <- Hp in D'. inversion D'.
Qed.

Lemma DecidingSubscription_active (l : list UserSubscription) (s : UserSubscription) :
  NoDup (map UserSubscription.ID l) -> In s l ->
  exists m, DecidingSubscription l = Some m /\ In m l /\ (is_active s = true -> is_active m = true).
Proof.
  intros Hn Hs. pose proof (DecidingSubscription_decides l Hn) as D.
  destruct (DecidingSubscription l) as [m|]; [|subst l; done]. destruct D as [D1 D2].
  exists m. split_and!; [done|done|]. intros Ha. destruct (D2 s Hs) as [->|B]; [done|].
  apply beats_spec in B as [[? _]|[? _]]; congruence.
Qed.

(** Which subscription decides a user's access does not depend on the order
    the rows come back in, is one of the rows whenever there is one, and is an
    active one whenever there is an active one. *)
Theorem deciding_subscription_is_canonical (l l' : list UserSubscription) :
  NoDup (map UserSubscription.ID l) -> l ≡ₚ l' ->
  DecidingSubscription l = DecidingSubscription l' /\
  (forall s, In s l -> exists m, DecidingSubscription l = Some m /\ In m l /\
     (is_active s = true -> is_active m = true)).
Proof.
  intros Hn Hp. split; [by apply DecidingSubscription_perm|]. intros s. by apply DecidingSubscription_active.
Qed.

(** ** The credential has one spelling *)

Lemma lower_hex_no_underscore (s : string) :
  isLowerHex s = true -> ~ In underscore (list_ascii_of_string s).
Proof.
  unfold isLowerHex. rewrite forallb_forall. intros H Hin. specialize (H _ Hin). vm_compute in H. done.
Qed.

(** C24: A credential is accepted exactly when it is the rendering of a 32-digit
    id and a 64-digit secret in lower-case hex, and it then splits into exactly
    those two: formatting and parsing are inverse to each other. *)
Theorem credential_round_trip (c id secret : string) :
  ParseCredential c = Some (id, secret) <->
  c = FormatCredential id secret /\ String.length id = IDHexLength /\
  String.length secret = SecretHexLength /\ isLowerHex id = true /\ isLowerHex secret = true.
Proof.
  assert (forall s, length (list_ascii_of_string s) = String.length s) as Hlen.
  { induction s as [|a s IH]; simpl; [done|]. rewrite IH. done. }
  unfold ParseCredential, HasPrefix. split.
  - destruct (String.prefix CredentialPrefix c) eqn:Ep; [|done]. apply prefix_spec in Ep as [r ->].
    unfold CredentialPrefix. simpl. change ("" +:+ r) with r.
    destruct (cut_byte underscore (list_ascii_of_string r)) as [[i s]|] eqn:Er; [|done].
    apply cut_byte_spec in Er as [Er Hi].
    case_match eqn:E1; [done|]. case_match eqn:E2; [done|].
    intros [= <- <-]. bool_prop. rewrite <- !Hlen, !list_ascii_of_string_of_list_ascii.
    split_and!; try done. unfold FormatCredential, CredentialPrefix. f_equal.
    rewrite <- (string_of_list_ascii_of_string r), Er.
    rewrite <- (string_of_list_ascii_of_string (_ ++ _)). f_equal.
    rewrite !list_ascii_app, !list_ascii_of_string_of_list_ascii. done.
  - intros (-> & H1 & H2 & H3 & H4). unfold FormatCredential, CredentialPrefix. simpl.
    change ("" +:+ ?x) with x.
    assert (list_ascii_of_string (id ++ "_" ++ secret) =
            (list_ascii_of_string id ++ underscore :: list_ascii_of_string secret)%list) as El.
    { rewrite list_ascii_app. done. }
    assert (cut_byte underscore (list_ascii_of_string (id ++ "_" ++ secret)) =
            Some (list_ascii_of_string id, list_ascii_of_string secret)) as Ec.
    { apply cut_byte_spec. split; [exact El|]. apply lower_hex_no_underscore. done. }
    simpl in Ec. rewrite Ec, !string_of_list_ascii_of_string, !Hlen, H1, H2, H3, H4.
    rewrite !Nat.eqb_refl. destruct (id +:+ "_" +:+ secret); done.
Qed.

(** ** Loading the live store *)

Definition user_map (l : list User) : gmap string User := fold_left (fun m u => <[User.ID u := u]> m) l ∅.

Lemma user_map_Some (l : list User) (id : string) (u : User) :
  NoDup (map User.ID l) -> user_map l !! id = Some u <-> In u l /\ User.ID u = id.
Proof.
  induction l as [|x l IH] using rev_ind; intros Hn.
  { unfold user_map. simpl. rewrite lookup_empty. split; [done|]. intros [[] _]. }
  rewrite map_app in Hn. apply list.NoDup_app in Hn as (Hn & Hd & _). specialize (IH Hn).
  unfold user_map. rewrite fold_left_app. fold (user_map l). cbn [fold_left].
  rewrite in_app_iff. destruct (decide (User.ID x = id)) as [<-|Hne].
  - rewrite lookup_insert_eq. split; [intros [= ->]; split; [right; left|]; done|].
    intros [[Hin|[->|[]]] E]; [|done]. exfalso. apply (Hd (User.ID x)); [|left].
    apply list_elem_of_In, in_map_iff. eauto.
  - rewrite lookup_insert_ne by done. rewrite IH. split; [intros [? ?]; auto|].
    intros [[?|[->|[]]] ?]; [auto|done].
Qed.

Lemma Load_Some (l : list AccessKey) (us : gmap string User) (pl : gmap string PlanSnapshot) (id : string)
    (st : KeyState) :
  NoDup (map AccessKey.ID l) ->
  Load l us pl !! id = Some st <->
  exists key user, In key l /\ AccessKey.ID key = id /\ us !! AccessKey.UserID key = Some user /\
    st = newKeyState key user (default PlanSnapshot.zero (pl !! AccessKey.UserID key)).
Proof.
  induction l as [|x l IH] using rev_ind; intros Hn.
  { unfold Load. simpl. rewrite lookup_empty. split; [done|]. intros (k & u & [] & _). }
  rewrite map_app in Hn. apply list.NoDup_app in Hn as (Hn & Hd & _). specialize (IH Hn).
  unfold Load. rewrite fold_left_app. fold (Load l us pl). cbn [fold_left].
  assert (forall key, In key l -> AccessKey.ID key = AccessKey.ID x -> False) as Hnew.
  { intros key Hin E. apply (Hd (AccessKey.ID key)); [|rewrite E; left].
    apply list_elem_of_In, in_map_iff. eauto. }
  destruct (us !! AccessKey.UserID x) as [user|] eqn:Eu.
  - destruct (decide (AccessKey.ID x = id)) as [<-|Hne].
    + rewrite lookup_insert_eq. split.
      * intros [= <-]. exists x, user. rewrite in_app_iff. split_and!; [right; left; done|done..].
      * intros (key & user' & Hin & E & Eu' & ->). apply in_app_iff in Hin as [Hin|[->|[]]]; [|congruence].
        exfalso. eauto.
    + rewrite lookup_insert_ne by done. rewrite IH. split; intros (key & user' & Hin & E & R); exists key, user';
        (split; [|auto]); [apply in_app_iff; auto|]. apply in_app_iff in Hin as [Hin|[->|[]]]; [done|congruence].
  - rewrite IH. split; intros (key & user' & Hin & E & Eu' & R); exists key, user'; (split; [|auto]);
      [apply in_app_iff; auto|]. apply in_app_iff in Hin as [Hin|[->|[]]]; [done|congruence].
Qed.

(** The rows the loader groups under a user. *)
Definition readable_rows (u : string) (subs : list UserSubscription) : list UserSubscription :=
  List.filter (fun s => readable s && (UserSubscription.UserID s ==s u)) subs.

Lemma rows_by_user_lookup (subs : list UserSubscription) (u : string) :
  rows_by_user subs !! u = match readable_rows u subs with [] => None | l => Some l end.
Proof.
  unfold rows_by_user. induction subs as [|s subs IH] using rev_ind.
  { simpl. apply lookup_empty. }
  unfold readable_rows in *. rewrite !List.filter_app. simpl.
  destruct (readable s); simpl; [|rewrite !app_nil_r; exact IH].
  rewrite fold_left_app. cbn [fold_left].
  destruct (UserSubscription.UserID s ==s u) eqn:E; bool_prop.
  - subst u. rewrite lookup_insert_eq, IH. clear IH. destruct (List.filter _ subs); reflexivity.
  - rewrite lookup_insert_ne, app_nil_r by done. exact IH.
Qed.

Lemma planSnapshots_lookup (subs : list UserSubscription) (u : string) :
  planSnapshots subs !! u =
    (fun s => SnapshotForPlan (Some s) (decode_snapshot (UserSubscription.PlanSnapshotJSON s))) <$>
      DecidingSubscription (readable_rows u subs).
Proof.
  unfold planSnapshots. rewrite lookup_omap, rows_by_user_lookup.
  destruct (readable_rows u subs) as [|a l]; [done|]. simpl.
  destruct (DecidingSubscription (a :: l)); done.
Qed.

(** Ids are unique in the two tables, every key passes the CHECK constraints
    and belongs to a user. *)
Record keys_wf (db : StateDB) : Prop := {
  kw_keys : NoDup (map AccessKey.ID (access_keys db));
  kw_users : NoDup (map User.ID (users db));
  kw_valid : forall k, In k (access_keys db) -> access_key_valid k = true;
  kw_owner : forall k, In k (access_keys db) -> user_exists (AccessKey.UserID k) db = true
}.

Lemma InsertAccessKey_ok (key : AccessKey) (db db' : StateDB) (x : unit) :
  InsertAccessKey key db = (Ok x, db') ->
  access_key_valid (normalizeAccessKey key) = true /\
  access_key_exists (AccessKey.ID key) db = false /\ user_exists (AccessKey.UserID key) db = true /\
  db' = set_access_keys (access_keys db ++ [normalizeAccessKey key]) db.
Proof.
  unfold InsertAccessKey. intros H. apply transact_ok in H. tx_invert. bool_prop. auto.
Qed.

Lemma UpdateAccessKeyRow_ok (key : AccessKey) (db db' : StateDB) (x : unit) :
  UpdateAccessKeyRow key db = (Ok x, db') ->
  let k := normalizeAccessKey key in
  access_key_valid k = true /\
  db' = set_access_keys
          (sql_update (fun r => AccessKey.ID r ==s AccessKey.ID key) (updated_key k) (access_keys db)) db.
Proof. unfold UpdateAccessKeyRow. intros H. apply transact_ok in H. tx_invert. bool_prop. auto. Qed.

Lemma DeleteAccessKeyRow_ok (id : string) (db db' : StateDB) (x : unit) :
  DeleteAccessKeyRow id db = (Ok x, db') ->
  db' = set_access_keys (sql_where (fun k => AccessKey.ID k <>s id) (access_keys db)) db.
Proof. unfold DeleteAccessKeyRow. intros H. apply transact_ok in H. tx_invert. auto. Qed.

Lemma InsertAccessKey_wf (key : AccessKey) (db db' : StateDB) (x : unit) :
  InsertAccessKey key db = (Ok x, db') -> keys_wf db -> keys_wf db'.
Proof.
  intros H [Hk Hu Hv Ho]. apply InsertAccessKey_ok in H as (H1 & H2 & H3 & ->). split; simpl; auto.
  - apply NoDup_map_snoc; [done|]. intros r Hr E. unfold access_key_exists in H2.
    rewrite existsb_false in H2. specialize (H2 r Hr). apply eqb_s_false in H2. simpl in E. done.
  - intros k Hin. apply in_app_iff in Hin as [?|[<-|[]]]; auto.
  - intros k Hin. apply in_app_iff in Hin as [?|[<-|[]]]; [apply Ho; done|exact H3].
Qed.

Lemma UpdateAccessKeyRow_wf (key : AccessKey) (db db' : StateDB) (x : unit) :
  UpdateAccessKeyRow key db = (Ok x, db') -> keys_wf db -> keys_wf db'.
Proof.
  intros H [Hk Hu Hv Ho]. apply UpdateAccessKeyRow_ok in H as (H1 & ->). split; simpl; auto.
  - rewrite sql_update_map by done. done.
  - intros k Hin. apply sql_update_In in Hin as (r & Hr & ->). destruct (_ ==s _); [exact H1|auto].
  - intros k Hin. apply sql_update_In in Hin as (r & Hr & ->). destruct (_ ==s _); apply (Ho r Hr).
Qed.

Lemma DeleteAccessKeyRow_wf (id : string) (db db' : StateDB) (x : unit) :
  DeleteAccessKeyRow id db = (Ok x, db') -> keys_wf db -> keys_wf db'.
Proof.
  intros H [Hk Hu Hv Ho]. apply DeleteAccessKeyRow_ok in H as ->. split; simpl; auto.
  - apply NoDup_map_filter. done.
  - intros k Hin. apply sql_where_In in Hin as [Hin _]. auto.
  - intros k Hin. apply sql_where_In in Hin as [Hin _]. apply (Ho k Hin).
Qed.

Lemma ListUsers_NoDup (db : StateDB) :
  NoDup (map User.ID (users db)) -> NoDup (map User.ID (ListUsers db)).
Proof.
  intros H. unfold ListUsers. match goal with |- NoDup (map _ (sort_by ?le ?t)) =>
    change (NoDup (User.ID <$> sort_by le t)); rewrite (sort_by_perm le t) end. done.
Qed.

(** What a restart publishes. *)
Lemma LoadFromState_Some (db : StateDB) (id : string) (st : KeyState) :
  keys_wf db ->
  LoadFromState db !! id = Some st <->
  exists key user, In key (access_keys db) /\ AccessKey.Status key = KeyStatusActive /\
    AccessKey.ID key = id /\ In user (users db) /\ User.ID user = AccessKey.UserID key /\
    st = newKeyState key user
           (default PlanSnapshot.zero (planSnapshots (ListUserSubscriptions db) !! AccessKey.UserID key)).
Proof.
  intros [Hk Hu _ _]. unfold LoadFromState. fold (user_map (ListUsers db)). rewrite Load_Some.
  - unfold ListActiveAccessKeys. setoid_rewrite sort_by_In. setoid_rewrite sql_where_In.
    assert (forall id u, user_map (ListUsers db) !! id = Some u <-> In u (users db) /\ User.ID u = id) as Hm.
    { intros i u. rewrite user_map_Some by (apply ListUsers_NoDup; done).
      unfold ListUsers. rewrite sort_by_In. done. }
    setoid_rewrite Hm. setoid_rewrite eqb_s_true.
    split; intros (key & user & H); exists key, user; tauto.
  - unfold ListActiveAccessKeys. match goal with |- NoDup (map _ (sort_by ?le ?t)) =>
      change (NoDup (AccessKey.ID <$> sort_by le t)); rewrite (sort_by_perm le t) end.
    apply NoDup_map_filter. done.
Qed.

Module KeysDemo.
Definition sub (id status : string) (exp : Z) : UserSubscription :=
  UserSubscription.mkUserSubscription id "u1" "" SnapEmpty 0 exp 0 0 false 0 status.
Definition rows : list UserSubscription :=
  [sub "s1" SubscriptionStatusSuspended 900; sub "s2" SubscriptionStatusActive 100;
   sub "s3" SubscriptionStatusExpired 500].
End KeysDemo.

Lemma deciding_subscription_is_canonical_witness :
  DecidingSubscription KeysDemo.rows = DecidingSubscription (reverse KeysDemo.rows) /\
  DecidingSubscription KeysDemo.rows = Some (KeysDemo.sub "s2" SubscriptionStatusActive 100).
Proof.
  split; [|vm_compute; reflexivity].
  apply (deciding_subscription_is_canonical KeysDemo.rows (reverse KeysDemo.rows)).
  - simpl. repeat (apply list.NoDup_cons; split; [set_solver|]). apply NoDup_nil_2.
  - symmetry. apply reverse_Permutation.
Defined.
