(* ===== verification/Service.v ===== *)
(** * The control plane service: state, errors and shared helpers

    [src/internal/service]: the service holds the state engine, the live key
    store and the usage counters.  A handler may fail after it has changed
    something, so its monad keeps the state on an error; only the repository
    methods it calls are transactions. *)

From stdpp Require Import base gmap list strings.
From S2P Require Import Prelude Counters Model Store Keys.

Record Service := mkService { engine : StateDB; live : KeyStore; usage : Counters }.

Definition set_engine (db : StateDB) (s : Service) : Service := mkService db (live s) (usage s).
Definition set_live (k : KeyStore) (s : Service) : Service := mkService (engine s) k (usage s).
Definition set_usage (c : Counters) (s : Service) : Service := mkService (engine s) (live s) c.

(** [ServiceError.Code] *)
Inductive SvcErr := InvalidArg | NotFound | Conflict | Forbidden | RegistrationClosed | Internal.

#[global] Instance SvcErr_eq_dec : EqDecision SvcErr.
Proof. solve_decision. Defined.

Abbreviation Svc := (Proc Service SvcErr).

Definition svc_fail {A} (e : SvcErr) : Svc A := proc_fail e.
Definition svc_get : Svc Service := proc_get.

(** Calls into the state engine, with the error mapped for the client. *)
Definition call {A} (m : Method A) (onErr : StateErr -> SvcErr) : Svc A := fun s =>
  match m (engine s) with
  | (Ok a, db) => (Ok a, set_engine db s)
  | (Err e, db) => (Err (onErr e), set_engine db s)
  end.

Definition read {A} (f : StateDB -> res StateErr A) (onErr : StateErr -> SvcErr) : Svc A := fun s =>
  match f (engine s) with
  | Ok a => (Ok a, s)
  | Err e => (Err (onErr e), s)
  end.

Definition publish (f : KeyStore -> KeyStore) : Svc unit := fun s => (Ok tt, set_live (f (live s)) s).
Definition count (f : Counters -> Counters) : Svc unit := fun s => (Ok tt, set_usage (f (usage s)) s).

(** ** Error mapping *)

Definition internal_error (_ : StateErr) : SvcErr := Internal.

Definition mapUserLookupError (e : StateErr) : SvcErr :=
  match e with ErrNotFound => NotFound | _ => Internal end.

Definition mapSubscriptionLookupError (e : StateErr) : SvcErr :=
  match e with ErrNotFound => NotFound | _ => Internal end.

Definition mapSubscriptionWriteError (e : StateErr) : SvcErr :=
  match e with ErrConflict => Conflict | ErrNotFound => NotFound | _ => Internal end.

Definition mapPlanLookupError (e : StateErr) : SvcErr :=
  match e with ErrNotFound => NotFound | _ => Internal end.

(** ** Helpers over plans and subscriptions *)

Definition planFromSnapshotJSON (raw : Snapshot) : option Plan := decode_snapshot raw.

Definition dayNs : Z := 86400000000000.

Definition maxDays : Z := int64_max / dayNs.

Definition expiryFromDays (days nowNs : Z) : Z :=
  if days <=? 0 then 0
  else if maxDays <? days then int64_max
  else
    let offset := mul64 days dayNs in
    if sub64 int64_max offset <? nowNs then int64_max else add64 nowNs offset.

Definition remainingBytes (trafficBytes usedBytes : Z) : option Z :=
  if trafficBytes <=? 0 then None
  else
    let remaining := sub64 trafficBytes usedBytes in
    Some (if remaining <? 0 then 0 else remaining).

Definition currentSubscription (userID : string) (db : StateDB) : option UserSubscription :=
  DecidingSubscription
    (List.filter (fun row => UserSubscription.UserID row ==s userID) (ListUserSubscriptions db)).

Definition activeSubscriptionFor (userID : string) (db : StateDB) : option UserSubscription :=
  match currentSubscription userID db with
  | Some sub => if UserSubscription.Status sub ==s SubscriptionStatusActive then Some sub else None
  | None => None
  end.

Definition pageSlice {A} (rows : list A) (limit offset : Z) : list A :=
  let off := if offset <? 0 then 0 else offset in
  if Z.of_nat (length rows) <=? off then []
  else
    let rest := drop (Z.to_nat off) rows in
    if (0 <? limit) && (limit <? Z.of_nat (length rest)) then take (Z.to_nat limit) rest else rest.

Record SubscriptionView := mkSubscriptionView {
  sv_ID : string;
  sv_UserID : string;
  sv_Username : string;
  sv_PlanID : string;
  sv_PlanName : string;
  sv_Status : string;
  sv_StartsAtNs : Z;
  sv_ExpiresAtNs : Z;
  sv_PeriodStartNs : Z;
  sv_PeriodUsedBytes : Z;
  sv_TrafficBytes : Z;
  sv_AutoRenew : bool;
  sv_PeriodIndex : Z;
  sv_PriceMicro : Z;
  sv_RemainingBytes : option Z
}.

Definition userDirectory (db : StateDB) : gmap string User :=
  fold_left (fun m u => <[User.ID u := u]> m) (ListUsers db) ∅.

Definition planDirectory (db : StateDB) : gmap string Plan :=
  fold_left (fun m p => <[Plan.ID p := p]> m) (ListPlans db) ∅.

Definition subscription_view (db : StateDB) (row : UserSubscription) (plan : Plan) : SubscriptionView :=
  let name := match planDirectory db !! UserSubscription.PlanID row with
              | Some p => if Plan.Name p <>s "" then Plan.Name p else Plan.Name plan
              | None => Plan.Name plan
              end in
  let username := match userDirectory db !! UserSubscription.UserID row with
                  | Some u => User.Username u
                  | None => ""
                  end in
  mkSubscriptionView (UserSubscription.ID row) (UserSubscription.UserID row) username
    (UserSubscription.PlanID row) name (UserSubscription.Status row) (UserSubscription.StartsAtNs row)
    (UserSubscription.ExpiresAtNs row) (UserSubscription.PeriodStartNs row)
    (UserSubscription.PeriodUsedBytes row) (Plan.TrafficBytes plan) (UserSubscription.AutoRenew row)
    (UserSubscription.PeriodIndex row) (Plan.PriceMicro plan)
    (remainingBytes (Plan.TrafficBytes plan) (UserSubscription.PeriodUsedBytes row)).

Fixpoint subscriptionViews (rows : list UserSubscription) : Svc (list SubscriptionView) :=
  match rows with
  | [] => mret []
  | row :: rest =>
      plan ← or_fail (planFromSnapshotJSON (UserSubscription.PlanSnapshotJSON row)) Internal;
      s ← svc_get;
      views ← subscriptionViews rest;
      mret (subscription_view (engine s) row plan :: views)
  end.

(** ** Publishing keys *)

Definition userPlanSnapshot (userID : string) : Svc PlanSnapshot :=
  s ← svc_get;
  or_fail (SnapshotFromSubscription (currentSubscription userID (engine s))) Internal.

Definition publish_row (user : User) (snapshot : PlanSnapshot) (k : KeyStore) (row : AccessKey) : KeyStore :=
  if AccessKey.Status row <>s KeyStatusActive then Delete (AccessKey.ID row) k
  else Publish row user snapshot k.

Definition republishUserKeys (userID : string) : Svc unit :=
  user ← read (GetUser userID) mapUserLookupError;
  s ← svc_get;
  let rows := ListAccessKeysByUser userID (engine s) in
  snapshot ← userPlanSnapshot userID;
  publish (fun k => fold_left (publish_row user snapshot) rows k).

Definition publishKey (row : AccessKey) (user : User) : Svc unit :=
  if AccessKey.Status row <>s KeyStatusActive then publish (Delete (AccessKey.ID row))
  else snapshot ← userPlanSnapshot (AccessKey.UserID row);
       publish (Publish row user snapshot).

(** ** Reasoning about handlers *)

Section SvcSteps.
Context {A : Type}.

Lemma call_ok (m : Method A) (h : StateErr -> SvcErr) (s s' : Service) (a : A) :
  call m h s = (Ok a, s') <-> exists db, m (engine s) = (Ok a, db) /\ s' = set_engine db s.
Proof.
  unfold call. destruct (m (engine s)) as [[x|e] db]; split; [intros [= <- <-]; eauto| |done|].
  - intros (db' & [= <- <-] & ->). done.
  - intros (db' & H & _). discriminate.
Qed.

Lemma read_ok (f : StateDB -> res StateErr A) (h : StateErr -> SvcErr) (s s' : Service) (a : A) :
  read f h s = (Ok a, s') <-> f (engine s) = Ok a /\ s' = s.
Proof. unfold read. destruct (f (engine s)); split; [intros [= <- <-]; done|intros [[= ->] ->]; done|done|intros [? _]; done]. Qed.

End SvcSteps.

(** Take a successful run apart. *)
Ltac svc_step :=
  match goal with
  | H : call _ _ _ = (Ok _, _) |- _ => apply call_ok in H as (? & ? & ->)
  | H : read _ _ _ = (Ok _, _) |- _ => apply read_ok in H as [? ->]
  | H : svc_get _ = (Ok _, _) |- _ => injection H as <- <-
  | H : publish _ _ = (Ok _, _) |- _ => injection H as ? <-
  | H : count _ _ = (Ok _, _) |- _ => injection H as ? <-
  | H : svc_fail _ _ = (Ok _, _) |- _ => discriminate H
  | _ => proc_step
  end.
Ltac svc_invert := repeat (svc_step; cbv beta in *).

(** ** What a restart would load *)

(** The snapshot a restart gives a user's keys. *)
Definition loaded_snapshot (u : string) (db : StateDB) : PlanSnapshot :=
  default PlanSnapshot.zero (planSnapshots (ListUserSubscriptions db) !! u).

Definition user_readable (u : string) (db : StateDB) : Prop :=
  forall sub, In sub (user_subscriptions db) -> UserSubscription.UserID sub = u -> readable sub = true.

Lemma readable_rows_all (u : string) (db : StateDB) :
  user_readable u db ->
  readable_rows u (ListUserSubscriptions db) =
    List.filter (fun row => UserSubscription.UserID row ==s u) (ListUserSubscriptions db).
Proof.
  intros H. apply filter_ext_in. intros sub Hin. apply sort_by_In in Hin.
  destruct (UserSubscription.UserID sub ==s u) eqn:E; [|apply andb_false_r].
  apply eqb_s_true in E. rewrite (H sub Hin E). done.
Qed.

Lemma userPlanSnapshot_ok (u : string) (s s' : Service) (snap : PlanSnapshot) :
  user_readable u (engine s) -> userPlanSnapshot u s = (Ok snap, s') ->
  s' = s /\ snap = loaded_snapshot u (engine s).
Proof.
  intros Hr H. unfold userPlanSnapshot in H. svc_invert. split; [done|].
  unfold loaded_snapshot. rewrite planSnapshots_lookup, readable_rows_all by done.
  fold (currentSubscription u (engine s)) in *.
  destruct (currentSubscription u (engine s)) as [sub|]; [|simplify_eq/=; done].
  unfold SnapshotFromSubscription in *. simpl. destruct (UserSubscription.PlanSnapshotJSON sub); simplify_eq/=; done.
Qed.

(** The whole row and user of a key id decide what is loaded for it. *)
Lemma loaded_key (db : StateDB) (row : AccessKey) (user : User) :
  keys_wf db -> In row (access_keys db) -> In user (users db) -> User.ID user = AccessKey.UserID row ->
  LoadFromState db !! AccessKey.ID row =
    if AccessKey.Status row ==s KeyStatusActive
    then Some (newKeyState row user (loaded_snapshot (AccessKey.UserID row) db)) else None.
Proof.
  intros W Hr Hu Hid. destruct (AccessKey.Status row ==s KeyStatusActive) eqn:E.
  - apply eqb_s_true in E. apply LoadFromState_Some; [done|]. exists row, user. auto 8.
  - apply eqb_s_false in E. apply eq_None_not_Some. intros [st H].
    apply LoadFromState_Some in H as (key & u & Hk & Hs & Hi & _); [|done].
    assert (key = row) as -> by (eapply NoDup_map_inj; [apply (kw_keys db W)|done..]). done.
Qed.

Lemma no_key_loaded (db : StateDB) (id : string) :
  keys_wf db -> (forall row, In row (access_keys db) -> AccessKey.ID row <> id) -> LoadFromState db !! id = None.
Proof.
  intros W Hno. apply eq_None_not_Some. intros [st H].
  apply LoadFromState_Some in H as (key & u & Hk & _ & Hi & _); [|done]. eapply Hno; eauto.
Qed.

Definition all_readable (s : Service) : Prop := forall u, user_readable u (engine s).

(** ** Handlers that fail change nothing *)

#[global] Instance pure_svc_fail {A} (e : SvcErr) : Pure (svc_fail e : Svc A).
Proof. done. Qed.
#[global] Instance pure_svc_get : Pure svc_get.
Proof. done. Qed.
#[global] Instance pure_read {A} (f : StateDB -> res StateErr A) h : Pure (read f h).
Proof. intros s. unfold read. destruct (f (engine s)); done. Qed.

Lemma set_engine_id (s : Service) : set_engine (engine s) s = s.
Proof. destruct s. done. Qed.

Lemma atomic_call (P : Service -> Prop) {A} (m : DbTx A) (h : StateErr -> SvcErr) : Atomic P (call (transact m) h).
Proof.
  intros s e s' _ H. unfold call in H. destruct (transact m (engine s)) as [[a|e0] db] eqn:E; [done|].
  apply transact_err in E as [-> _]. injection H as _ <-. apply set_engine_id.
Qed.

(** Publishing cannot fail when the user's snapshots are readable. *)
Lemma userPlanSnapshot_succeeds (u : string) (s : Service) :
  user_readable u (engine s) -> is_ok (fst (userPlanSnapshot u s)) = true.
Proof.
  intros Hr. unfold userPlanSnapshot. simpl. unfold mbind, proc_bind, svc_get, proc_get, or_fail, currentSubscription.
  rewrite <- (readable_rows_all u (engine s) Hr).
  assert (forall sub, DecidingSubscription (readable_rows u (ListUserSubscriptions (engine s))) = Some sub ->
            readable sub = true) as Hd.
  { intros sub Hd. apply DecidingSubscription_In in Hd. unfold readable_rows in Hd.
    apply List.filter_In in Hd as [_ Hd]. bool_prop. done. }
  destruct (DecidingSubscription _) as [sub|]; [|done]. specialize (Hd sub eq_refl).
  unfold readable in Hd. simpl. destruct (UserSubscription.PlanSnapshotJSON sub); done.
Qed.

Lemma publishKey_succeeds (row : AccessKey) (user : User) (s : Service) :
  user_readable (AccessKey.UserID row) (engine s) -> is_ok (fst (publishKey row user s)) = true.
Proof.
  intros Hr. unfold publishKey. destruct (_ <>s _); [done|].
  pose proof (userPlanSnapshot_succeeds _ s Hr) as H. unfold mbind, proc_bind.
  destruct (userPlanSnapshot _ s) as [[snap|e] s1]; done.
Qed.
