(* ===== verification/Totp.v ===== *)
(** * Second factors

    [src/internal/auth/totp.go]: time-based one-time passwords over HMAC-SHA1,
    with the base32 text of the secrets.  A moment is a number of nanoseconds
    since the epoch.  Sealing a secret under the pepper is AES-GCM and is not
    modelled. *)

From Stdlib Require Import Ascii String.
From stdpp Require Import base list strings.
From S2P Require Import Prelude GoStrings Digests.

(** ** Base32 without padding *)

Definition base32_alphabet : list Z := string_bytes "ABCDEFGHIJKLMNOPQRSTUVWXYZ234567".

Definition base32_digit (c : Z) : option Z :=
  if (65 <=? c) && (c <=? 90) then Some (c - 65)
  else if (50 <=? c) && (c <=? 55) then Some (c - 24)
  else None.

(** Five bytes as eight groups of five bits. *)
Definition base32_split (b : list Z) : list Z :=
  match b with
  | [b0; b1; b2; b3; b4] =>
      [Z.shiftr b0 3; Z.lor (Z.land (Z.shiftl b0 2) 31) (Z.shiftr b1 6); Z.land (Z.shiftr b1 1) 31;
       Z.lor (Z.land (Z.shiftl b1 4) 31) (Z.shiftr b2 4); Z.lor (Z.land (Z.shiftl b2 1) 31) (Z.shiftr b3 7);
       Z.land (Z.shiftr b3 2) 31; Z.lor (Z.land (Z.shiftl b3 3) 31) (Z.shiftr b4 5); Z.land b4 31]
  | _ => []
  end.

(** A quantum of the encoder; a short one is filled with zeros and cut. *)
Definition base32_quantum (b : list Z) : list Z :=
  let n := length b in
  take ((8 * n + 4) / 5) (base32_split (b ++ repeat 0 (5 - n))).

Definition base32_encode (l : list Z) : string :=
  bytes_string (map (fun d => nth (Z.to_nat d) base32_alphabet 0)
                 (flat_map base32_quantum (chunks (length l) 5 l))).

(** A quantum of the decoder: how many bytes its digits give. *)
Definition base32_join (d : list Z) : list Z :=
  let n := length d in
  let count := match n with 8 => 5 | 7 => 4 | 5 => 3 | 4 => 2 | 2 => 1 | _ => 0 end%nat in
  match d ++ repeat 0 (8 - n) with
  | [d0; d1; d2; d3; d4; d5; d6; d7] =>
      take count
        (map (fun x => Z.land x 255)
          [Z.lor (Z.shiftl d0 3) (Z.shiftr d1 2);
           Z.lor (Z.lor (Z.shiftl d1 6) (Z.shiftl d2 1)) (Z.shiftr d3 4);
           Z.lor (Z.shiftl d3 4) (Z.shiftr d4 1);
           Z.lor (Z.lor (Z.shiftl d4 7) (Z.shiftl d5 2)) (Z.shiftr d6 3);
           Z.lor (Z.shiftl d6 5) d7])
  | _ => []
  end.

(** The decoder skips line breaks and refuses any other byte. *)
Definition base32_decode (s : string) : option (list Z) :=
  let l := List.filter (fun c => negb ((c =? 10) || (c =? 13))) (string_bytes s) in
  digits ← mapM base32_digit l;
  Some (flat_map base32_join (chunks (length digits) 8 digits)).

(** ** Codes *)

Definition totpDigits : nat := 6.
Definition Second : Z := 1000000000.
Definition totpStep : Z := 30 * Second.
Definition totpSkew : Z := 1.
Definition totpSecretBytes : nat := 20.

(** From the random bytes drawn. *)
Definition GenerateTOTPSecret (buf : list Z) : string := base32_encode buf.

Fixpoint drop_front (c : ascii) (l : bytes) : bytes :=
  match l with
  | a :: l' => if Ascii.eqb a c then drop_front c l' else l
  | [] => []
  end.

(** [strings.TrimRight(s, "=")] and [strings.ReplaceAll(s, " ", "")] *)
Definition trim_equals (l : bytes) : bytes := rev (drop_front "="%char (rev l)).
Definition drop_spaces (l : bytes) : bytes := List.filter (fun c => negb (Ascii.eqb c " "%char)) l.

Definition decodeTOTPSecret (secret : string) : option (list Z) :=
  let normalized := ToUpper (string_of_list_ascii (drop_spaces (list_ascii_of_string (TrimSpace secret)))) in
  let normalized := string_of_list_ascii (trim_equals (list_ascii_of_string normalized)) in
  key ← base32_decode normalized;
  if (length key =? 0)%nat then None else Some key.

(** [time.Time.Unix] *)
Definition Unix (at_ns : Z) : Z := at_ns / Second.

(** ["%06d"] of a number below a million. *)
Definition six_digits (v : Z) : string :=
  bytes_string (map (fun p => 48 + v / p mod 10) [100000; 10000; 1000; 100; 10; 1]).

Definition TOTPCode (secret : string) (at_ns : Z) : option string :=
  key ← decodeTOTPSecret secret;
  let counter := (Z.quot (Unix at_ns) 30) mod 2 ^ 64 in
  let sum := hmac sha1 key (be_bytes 8 counter []) in
  let offset := Z.land (List.last sum 0) 15 in
  let value := Z.land (be_value (take 4 (drop (Z.to_nat offset) sum))) 0x7fffffff in
  Some (six_digits (value mod 1000000)).

(** The moments a code is compared at, oldest first. *)
Definition moments (at_ns : Z) : list Z :=
  map (fun offset => at_ns + offset * totpStep) [- totpSkew; 0; totpSkew].

Definition VerifyTOTP (secret code : string) (at_ns : Z) : bool :=
  let code := TrimSpace code in
  if negb (String.length code =? totpDigits)%nat then false
  else
    match mapM (TOTPCode secret) (moments at_ns) with
    | None => false
    | Some candidates => existsb (fun candidate => candidate ==s code) candidates
    end.

Definition totpStepStartNs (moment : Z) : Z := mul64 (Z.quot (Unix moment) 30 * 30) Second.

(** The arithmetic selection of the last match. *)
Fixpoint match_steps (secret code : string) (ms : list Z) (matched : bool) (step : Z) : option (bool * Z) :=
  match ms with
  | [] => Some (matched, step)
  | moment :: rest =>
      match TOTPCode secret moment with
      | None => None
      | Some candidate =>
          let hit := if candidate ==s code then 1 else 0 in
          match_steps secret code rest (matched || (hit =? 1))
            (add64 (mul64 step (1 - hit)) (mul64 (totpStepStartNs moment) hit))
      end
  end.

Definition VerifyTOTPStep (secret code : string) (at_ns : Z) : option Z :=
  let code := TrimSpace code in
  if negb (String.length code =? totpDigits)%nat then None
  else
    match match_steps secret code (moments at_ns) false 0 with
    | Some (true, step) => Some step
    | _ => None
    end.

(** The test vectors of RFC 6238 (appendix B), cut to six digits. *)
Example totp_rfc6238 :
  map (fun t => TOTPCode (base32_encode (string_bytes "12345678901234567890")) (t * Second))
    [59; 1111111109; 1111111111; 1234567890; 2000000000; 20000000000]%Z =
  map Some ["287082"; "081804"; "050471"; "005924"; "279037"; "353130"]%string.
Proof. vm_compute. reflexivity. Qed.

(** ** Secrets read back *)

Definition is_byte (b : Z) : Prop := 0 <= b < 256.

Lemma chunks_fuel {A} (n f : nat) (l : list A) :
  (0 < n)%nat -> (length l <= f)%nat -> chunks f n l = chunks (length l) n l.
Proof.
  intros Hn. revert l. induction (lt_wf f) as [f _ IH]; intros l Hl.
  destruct f as [|f], l as [|a l]; simpl in *; try done; [lia|].
  f_equal. rewrite IH by (rewrite ?length_drop; simpl; lia).
  symmetry. apply IH; [lia|]. rewrite length_drop. simpl. lia.
Qed.

Lemma chunks_step {A} (n : nat) (l k : list A) :
  (0 < n)%nat -> length l = n -> chunks (length (l ++ k)) n (l ++ k) = l :: chunks (length k) n k.
Proof.
  intros Hn Hl. destruct l as [|a l]; [simpl in Hl; lia|].
  change (take n ((a :: l) ++ k) :: chunks (length (l ++ k)) n (drop n ((a :: l) ++ k)) =
    (a :: l) :: chunks (length k) n k).
  rewrite (take_app_length' (a :: l) k n), (drop_app_length' (a :: l) k n) by done.
  f_equal. apply chunks_fuel; [done|]. rewrite length_app. lia.
Qed.

Lemma chunks_last {A} (n : nat) (l : list A) : l <> [] -> (length l <= n)%nat -> chunks (length l) n l = [l].
Proof.
  intros Hne Hl. destruct l as [|a l]; [done|]. simpl in *.
  rewrite take_ge by (simpl; lia). rewrite drop_ge by (simpl; lia). destruct (length l); done.
Qed.

(** Compare two numbers bit by bit below 256. *)
Lemma byte_ext (x y : Z) :
  is_byte y -> (forall n, 0 <= n < 8 -> Z.testbit x n = Z.testbit y n) -> Z.land x 255 = y.
Proof.
  intros Hy H. apply Z.bits_inj'. intros n Hn. rewrite Z.land_spec. change 255 with (Z.ones 8).
  destruct (Z.lt_ge_cases n 8) as [Hlt|Hge].
  - rewrite Z.ones_spec_low, andb_true_r by lia. apply H. lia.
  - rewrite Z.ones_spec_high, andb_false_r by lia. destruct (Z.eq_dec y 0) as [->|Hne].
    + by rewrite Z.bits_0.
    + symmetry. apply Z.bits_above_log2; [apply Hy|]. apply Z.log2_lt_pow2; [unfold is_byte in Hy; lia|].
      apply Z.lt_le_trans with (2 ^ 8); [apply Hy|]. apply Z.pow_le_mono_r; lia.
Qed.

Lemma byte_high (b n : Z) : is_byte b -> 8 <= n -> Z.testbit b n = false.
Proof.
  intros Hb Hn. rewrite <- (byte_ext b b Hb) by done. rewrite Z.land_spec. change 255 with (Z.ones 8).
  rewrite Z.ones_spec_high by lia. apply andb_false_r.
Qed.

(** Evaluate the bits of an expression at a position that is a number. *)
Ltac bits_at :=
  repeat match goal with
    | |- context [Z.testbit _ ?i] =>
        lazymatch i with context [Z.add] => idtac | context [Z.sub] => idtac end;
        let v := eval vm_compute in i in change i with v
    | |- context [Z.testbit ?b (Z.neg ?p)] => rewrite (Z.testbit_neg_r b (Z.neg p)) by done
    | |- context [Z.testbit (Z.lor ?a ?b) ?i] => rewrite (Z.lor_spec a b i)
    | |- context [Z.testbit (Z.land ?a ?b) ?i] => rewrite (Z.land_spec a b i)
    | |- context [Z.testbit (Z.shiftr ?a ?n) ?i] => rewrite (Z.shiftr_spec a n i) by lia
    | |- context [Z.testbit (Z.shiftl ?a ?n) ?i] => rewrite (Z.shiftl_spec a n i) by lia
    | |- context [Z.testbit 0 ?i] => rewrite (Z.bits_0 i)
    | |- context [Z.testbit 31 ?i] => let v := eval vm_compute in (Z.testbit 31 i) in change (Z.testbit 31 i) with v
    | H : is_byte ?b |- context [Z.testbit ?b ?i] =>
        let v := eval vm_compute in (8 <=? i) in
        lazymatch v with true => rewrite (byte_high b i H) by lia end
    end;
  rewrite ?andb_true_r, ?andb_false_r, ?orb_false_r; cbn [orb]; try done.

Lemma bit_cases (n : Z) :
  0 <= n < 8 -> n = 0 \/ n = 1 \/ n = 2 \/ n = 3 \/ n = 4 \/ n = 5 \/ n = 6 \/ n = 7.
Proof. lia. Qed.

(** A quantum reads back, also a short one. *)
Lemma base32_join_quantum (b : list Z) :
  (0 < length b <= 5)%nat -> Forall is_byte b -> base32_join (base32_quantum b) = b.
Proof.
  intros Hl Hb.
  destruct b as [|b0 [|b1 [|b2 [|b3 [|b4 [|b5 b]]]]]]; simpl in Hl; try lia;
    rewrite ?Forall_cons in Hb; destruct_and?;
    unfold base32_join, base32_quantum, base32_split; cbn [length repeat app Nat.sub Nat.add Nat.mul Nat.div];
    cbn -[Z.lor Z.land Z.shiftl Z.shiftr];
    repeat f_equal; (apply byte_ext; [done|]); intros n Hn;
    destruct (bit_cases n Hn) as [->|[->|[->|[->|[->|[->|[->| ->]]]]]]]; bits_at.
Qed.

Definition is_digit32 (d : Z) : Prop := 0 <= d < 32.

Lemma lor_digit (a b : Z) : is_digit32 a -> is_digit32 b -> is_digit32 (Z.lor a b).
Proof.
  unfold is_digit32. intros Ha Hb. assert (0 <= Z.lor a b) as H0 by (apply Z.lor_nonneg; lia).
  split; [done|]. destruct (Z.eq_dec (Z.lor a b) 0) as [->|Hne]; [lia|].
  change 32 with (2 ^ 5). apply Z.log2_lt_pow2; [lia|]. rewrite Z.log2_lor by lia.
  assert (forall x, 0 <= x < 32 -> Z.log2 x < 5) as Hlog.
  { intros x Hx. destruct (Z.eq_dec x 0) as [->|]; [done|]. apply Z.log2_lt_pow2; lia. }
  apply Z.max_lub_lt; auto.
Qed.

Lemma land_digit (x : Z) : is_digit32 (Z.land x 31).
Proof. change 31 with (Z.ones 5). rewrite Z.land_ones by lia. apply Z.mod_pos_bound. lia. Qed.

Lemma shiftr_digit (b n : Z) : is_byte b -> 3 <= n -> is_digit32 (Z.shiftr b n).
Proof.
  unfold is_byte, is_digit32. intros Hb Hn. rewrite Z.shiftr_div_pow2 by lia.
  assert (2 ^ 3 <= 2 ^ n) by (apply Z.pow_le_mono_r; lia). split; [apply Z.div_pos; lia|].
  apply Z.div_lt_upper_bound; lia.
Qed.

Lemma base32_split_digits (b : list Z) : Forall is_byte b -> Forall is_digit32 (base32_split b).
Proof.
  destruct b as [|b0 [|b1 [|b2 [|b3 [|b4 [|b5 b]]]]]]; try (intros; apply Forall_nil_2).
  rewrite !Forall_cons. intros (H0 & H1 & H2 & H3 & H4 & _).
  repeat apply Forall_cons_2; try apply Forall_nil_2;
    first [apply land_digit | apply lor_digit; [apply land_digit|] | idtac];
    apply shiftr_digit; done || lia.
Qed.

Lemma base32_quantum_digits (b : list Z) : Forall is_byte b -> Forall is_digit32 (base32_quantum b).
Proof.
  intros H. apply Forall_take, base32_split_digits, Forall_app. split; [done|].
  apply Forall_forall. intros x Hx. apply list_elem_of_In, repeat_spec in Hx as ->. unfold is_byte. lia.
Qed.

Lemma base32_quantum_length (b : list Z) :
  (length b <= 5)%nat -> length (base32_quantum b) = ((8 * length b + 4) / 5)%nat.
Proof.
  intros H. destruct b as [|b0 [|b1 [|b2 [|b3 [|b4 [|b5 b]]]]]]; simpl in H; try lia; done.
Qed.

(** The digits of a text, and what they decode to. *)
Definition digits_of_bytes (l : list Z) : list Z := flat_map base32_quantum (chunks (length l) 5 l).

Lemma digits_decode (l : list Z) :
  Forall is_byte l ->
  flat_map base32_join (chunks (length (digits_of_bytes l)) 8 (digits_of_bytes l)) = l /\
  Forall is_digit32 (digits_of_bytes l).
Proof.
  remember (length l) as n eqn:En. revert l En. induction (lt_wf n) as [n _ IH]. intros l -> Hl.
  unfold digits_of_bytes. destruct (decide (l = [])) as [->|Hne]; [done|].
  assert (0 < length l)%nat as Hpos by (destruct l; [done|simpl; lia]).
  destruct (le_gt_dec (length l) 5) as [Hle|Hgt].
  - rewrite (chunks_last 5 l) by done. cbn [flat_map]. rewrite app_nil_r. split; [|by apply base32_quantum_digits].
    rewrite chunks_last; [| |rewrite base32_quantum_length by lia; apply Nat.lt_succ_r, Nat.Div0.div_lt_upper_bound; lia].
    + cbn [flat_map]. rewrite app_nil_r. apply base32_join_quantum; [lia|done].
    + intros E. apply (f_equal length) in E. rewrite base32_quantum_length in E by lia. cbn [length] in E.
      assert (1 <= (8 * length l + 4) / 5)%nat; [apply Nat.div_le_lower_bound; lia|lia].
  - assert (exists t k, l = t ++ k /\ length t = 5%nat) as (t & k & -> & H5).
    { exists (take 5 l), (drop 5 l). rewrite take_drop, length_take. split; [done|lia]. }
    apply Forall_app in Hl as [Ht Hk]. rewrite length_app in *.
    assert (length (base32_quantum t) = 8%nat) as H8 by (rewrite base32_quantum_length; rewrite H5; done).
    destruct (IH (length k)) with (l := k) as [I1 I2]; [lia|done|done|].
    rewrite <- length_app, (chunks_step 5 t) by (done || lia). cbn [flat_map]. fold (digits_of_bytes k).
    rewrite chunks_step by (done || lia). cbn [flat_map].
    rewrite base32_join_quantum by (done || lia). rewrite I1. split; [done|].
    apply Forall_app. split; [by apply base32_quantum_digits|done].
Qed.

Lemma alphabet_digit (d : Z) :
  is_digit32 d ->
  let c := nth (Z.to_nat d) base32_alphabet 0 in
  base32_digit c = Some d /\ (48 < c <= 57 \/ 65 <= c <= 90).
Proof.
  unfold is_digit32. intros Hd.
  assert (forallb (fun n => match base32_digit (nth n base32_alphabet 0) with
                            | Some d => (d =? Z.of_nat n) | None => false end &&
                            (let c := nth n base32_alphabet 0 in
                             ((48 <? c) && (c <=? 57)) || ((65 <=? c) && (c <=? 90)))) (seq 0 32) = true) as H
    by (vm_compute; reflexivity).
  rewrite forallb_forall in H. specialize (H (Z.to_nat d)). rewrite in_seq in H.
  assert (0 <= Z.to_nat d < 0 + 32)%nat as Hin by lia. specialize (H Hin). cbv zeta in *.
  apply andb_true_iff in H as [H1 H2]. apply orb_true_iff in H2. rewrite !andb_true_iff in H2.
  destruct (base32_digit _) as [x|]; [|done]. bool_prop. split; [f_equal; lia|].
  destruct H2 as [[? ?]|[? ?]]; bool_prop; [left|right]; lia.
Qed.

Lemma ascii_of_code (c : Z) : is_byte c -> byte_of (ascii_of c) = c.
Proof.
  unfold is_byte, byte_of, ascii_of. intros H. rewrite nat_ascii_embedding; [lia|]. apply Nat2Z.inj_lt. lia.
Qed.

Lemma string_bytes_of (l : list Z) : Forall is_byte l -> string_bytes (bytes_string l) = l.
Proof.
  intros H. unfold string_bytes, bytes_string. rewrite list_ascii_of_string_of_list_ascii, map_map.
  induction H as [|c l Hc _ IH]; simpl; [done|]. rewrite ascii_of_code by done. f_equal. exact IH.
Qed.

Definition alphabet_byte (c : Z) : Prop := 48 < c <= 57 \/ 65 <= c <= 90.

(** Text over the alphabet. *)
Lemma base32_encode_text (l : list Z) :
  Forall is_byte l -> Forall alphabet_byte (string_bytes (base32_encode l)) /\
  mapM base32_digit (string_bytes (base32_encode l)) = Some (digits_of_bytes l).
Proof.
  intros Hl. destruct (digits_decode l Hl) as [_ Hd]. unfold base32_encode. fold (digits_of_bytes l).
  set (text := map _ (digits_of_bytes l)).
  assert (Forall alphabet_byte text /\ mapM base32_digit text = Some (digits_of_bytes l)) as [Ht Hm].
  { subst text. induction Hd as [|d ds Hd _ [IH1 IH2]]; [done|].
    destruct (alphabet_digit d Hd) as [H1 H2]. split; [by constructor|].
    cbn [map mapM]. rewrite H1. cbn [mbind option_bind]. by rewrite IH2. }
  rewrite string_bytes_of; [done|]. eapply Forall_impl; [exact Ht|].
  intros c Hc. unfold alphabet_byte, is_byte in *. lia.
Qed.

Lemma base32_round_trip (l : list Z) : Forall is_byte l -> base32_decode (base32_encode l) = Some l.
Proof.
  intros Hl. destruct (base32_encode_text l Hl) as [Ht Hm]. unfold base32_decode.
  rewrite filter_keep; [rewrite Hm; simpl; f_equal; by apply digits_decode|].
    intros c Hc. rewrite Forall_forall in Ht. apply list_elem_of_In, Ht in Hc. unfold alphabet_byte in Hc.
    destruct (c =? 10) eqn:E1, (c =? 13) eqn:E2; bool_prop; lia || done.
Qed.

Definition text_char (c : ascii) : Prop := alphabet_byte (byte_of c) \/ c = "="%char.

(** What a character that shows as one of the alphabet can be. *)
Lemma text_char_code (c : ascii) :
  text_char (upper_ascii c) -> (32 < nat_of_ascii c < 128)%nat.
Proof.
  unfold text_char, alphabet_byte, byte_of, upper_ascii. pose proof (nat_ascii_bounded c) as Hb.
  destruct ((97 <=? nat_of_ascii c) && (nat_of_ascii c <=? 122))%nat eqn:E.
  - intros _. apply andb_true_iff in E as [E1 E2]. apply Nat.leb_le in E1, E2. lia.
  - intros [H|H]; [lia|]. rewrite H. vm_compute. lia.
Qed.

Lemma space_codes (p : bytes) (c : ascii) :
  In p space_encodings -> In c p -> ((9 <= nat_of_ascii c <= 13) \/ nat_of_ascii c = 32 \/ 128 <= nat_of_ascii c)%nat.
Proof.
  assert (forallb (forallb (fun c => let n := nat_of_ascii c in
            ((9 <=? n) && (n <=? 13)) || (n =? 32) || (128 <=? n))%nat) space_encodings = true) as H
    by (vm_compute; reflexivity).
  rewrite forallb_forall in H. intros Hp Hc. specialize (H p Hp). rewrite forallb_forall in H.
  specialize (H c Hc). cbv zeta in H. rewrite !orb_true_iff, andb_true_iff, !Nat.leb_le, Nat.eqb_eq in H. tauto.
Qed.

Lemma trim_equals_app (l : bytes) (k : nat) :
  (forall c, In c l -> c <> "="%char) -> trim_equals (l ++ repeat "="%char k) = l.
Proof.
  intros H. unfold trim_equals. rewrite rev_app_distr.
  assert (drop_front "="%char (rev l) = rev l) as Hl.
  { destruct (rev l) as [|c r] eqn:E; [done|]. cbn [drop_front].
    destruct (Ascii.eqb c "="%char) eqn:Ec; [|done]. apply Ascii.eqb_eq in Ec. exfalso. apply (H c); [|done].
    apply in_rev. rewrite E. left. done. }
  assert (rev (repeat "="%char k) = repeat "="%char k) as -> by apply rev_repeat.
  rewrite <- (rev_involutive l) at 2. f_equal. induction k as [|k IH]; [done|]. exact IH.
Qed.

(** A second-factor secret survives being shown and typed back.  However the
    account holder writes the generated secret down, with letters in either
    case, spaces anywhere and the padding other applications add, it decodes to
    the bytes that were drawn. *)
Theorem totp_secret_round_trip (buf : list Z) (typed : string) (padding : nat) :
  Forall is_byte buf -> buf <> [] ->
  map upper_ascii (drop_spaces (list_ascii_of_string typed)) =
    list_ascii_of_string (GenerateTOTPSecret buf) ++ repeat "="%char padding ->
  decodeTOTPSecret typed = Some buf.
Proof.
  intros Hb Hne Ht. destruct (base32_encode_text buf Hb) as [Ha _].
  assert (forall c, In c (list_ascii_of_string (GenerateTOTPSecret buf)) -> alphabet_byte (byte_of c)) as Hal.
  { intros c Hc. rewrite Forall_forall in Ha. apply Ha, list_elem_of_In. apply in_map. exact Hc. }
  assert (forall c, In c (drop_spaces (list_ascii_of_string typed)) -> (32 < nat_of_ascii c < 128)%nat) as Hc.
  { intros c Hc. apply text_char_code. apply (in_map upper_ascii) in Hc. rewrite Ht in Hc.
    apply in_app_iff in Hc as [Hc|Hc]; [left; auto|right; by apply repeat_spec in Hc]. }
  unfold decodeTOTPSecret, drop_spaces. rewrite TrimSpace_filter; fold (drop_spaces (list_ascii_of_string typed)).
  2: { intros p c Hp Hcp Hin. apply space_codes in Hcp; [|done]. apply negb_false_iff, Ascii.eqb_eq.
       destruct (decide (c = " "%char)) as [|Hns]; [done|]. exfalso.
       assert (In c (drop_spaces (list_ascii_of_string typed))) as Hd.
       { apply List.filter_In. split; [done|]. apply negb_true_iff, Ascii.eqb_neq. done. }
       apply Hc in Hd. lia. }
  unfold ToUpper. rewrite !list_ascii_of_string_of_list_ascii, upper_bytes_ascii;
    [|intros c H; apply Hc in H; lia|lia].
  rewrite Ht, trim_equals_app, string_of_list_ascii_of_string.
  - unfold GenerateTOTPSecret. rewrite base32_round_trip by done. simpl. destruct buf; done.
  - intros c H ->. apply Hal in H. unfold alphabet_byte in H. change (byte_of "="%char) with 61 in H. lia.
Qed.

(** ** Verification *)

Lemma TOTPCode_step (secret : string) (a b : Z) :
  Z.quot (Unix a) 30 = Z.quot (Unix b) 30 -> TOTPCode secret a = TOTPCode secret b.
Proof. intros H. unfold TOTPCode. by rewrite H. Qed.

Lemma TOTPCode_total (secret : string) (key : list Z) (at_ns : Z) :
  decodeTOTPSecret secret = Some key -> exists code, TOTPCode secret at_ns = Some code.
Proof. intros H. unfold TOTPCode. rewrite H. simpl. eauto. Qed.

(** The newest of the moments whose code is the one presented. *)
Definition newest_match (secret code : string) (ms : list Z) : option Z :=
  List.find (fun m => match TOTPCode secret m with Some c => c ==s code | None => false end) (rev ms).

Lemma select_step (hit : bool) (step start : Z) :
  in_int64 step -> in_int64 start ->
  let h := if hit then 1 else 0 in
  add64 (mul64 step (1 - h)) (mul64 start h) = if hit then start else step.
Proof.
  intros Hs Ht. destruct hit; simpl; unfold add64, mul64;
    rewrite ?Z.mul_0_r, ?Z.mul_1_r, !wrap64_id; rewrite ?wrap64_id; try done; int64_unfold; lia.
Qed.

Lemma match_steps_spec (secret code : string) (key : list Z) (ms : list Z) (matched : bool) (step : Z) :
  decodeTOTPSecret secret = Some key -> in_int64 step ->
  match_steps secret code ms matched step =
    Some match newest_match secret code ms with
         | Some m => (true, totpStepStartNs m)
         | None => (matched, step)
         end.
Proof.
  intros Hk. revert matched step. induction ms as [|m ms IH]; intros matched step Hs; [done|].
  cbn [match_steps]. destruct (TOTPCode_total secret key m Hk) as [c Ec]. rewrite Ec.
  rewrite (select_step (c ==s code)) by (done || apply wrap64_in).
  rewrite IH by (destruct (c ==s code); [apply wrap64_in|done]).
  unfold newest_match. cbn [rev]. rewrite find_app. unfold sql_first. destruct (List.find _ (rev ms)); [done|].
  cbn [List.find]. rewrite Ec. destruct (c ==s code), matched; done.
Qed.

(** A code of six digits is accepted exactly when it is the code of one of the
    three steps around the moment, and it is booked on the newest of them. *)
Lemma VerifyTOTPStep_spec (secret code : string) (key : list Z) (at_ns : Z) :
  decodeTOTPSecret secret = Some key -> String.length (TrimSpace code) = totpDigits ->
  VerifyTOTPStep secret code at_ns = totpStepStartNs <$> newest_match secret (TrimSpace code) (moments at_ns).
Proof.
  intros Hk Hl. unfold VerifyTOTPStep. rewrite Hl. cbn [Nat.eqb negb].
  rewrite (match_steps_spec _ _ key) by (done || int64_unfold; lia).
  destruct (newest_match _ _ _); done.
Qed.

Lemma totp_secret_round_trip_witness :
  decodeTOTPSecret " jbsw y3dp==" = Some [72; 101; 108; 108; 111].
Proof.
  apply (totp_secret_round_trip [72; 101; 108; 108; 111] " jbsw y3dp==" 2);
    [repeat apply Forall_cons_2; try apply Forall_nil_2; unfold is_byte; lia|discriminate|vm_compute; reflexivity].
Defined.
