(* ===== verification/Accounts.v ===== *)
(** * Accounts and sessions

    The account columns and the sessions of [src/internal/state/repo_user.go],
    and [src/internal/service/control_plane_account.go]: creating accounts, the
    single-column writes, the rule that an active administrator remains, and
    enrolling a second factor.

    Hashing and verifying a password (argon2) and sealing a second factor under
    the pepper (AES-GCM) are parameters; the service takes the former as a field
    of its own.  An account method takes the lock [userWriteMu] for its whole
    read, check and write, so it is one step. *)

From Stdlib Require Import Ascii String.
From stdpp Require Import base gmap list strings.
From S2P Require Import Prelude Model Store GoStrings Digests Totp.

(** ** Account columns *)

Definition with_Password (v : string) (u : User) : User :=
  User.mkUser (User.ID u) (User.Username u) v (User.Role u) (User.Status u) (User.TOTPSecretEnc u)
    (User.CreatedAtNs u) (User.UpdatedAtNs u) (User.LastLoginNs u) (User.TOTPLastUsedNs u).
Definition with_Role (v : string) (u : User) : User :=
  User.mkUser (User.ID u) (User.Username u) (User.PasswordHash u) v (User.Status u) (User.TOTPSecretEnc u)
    (User.CreatedAtNs u) (User.UpdatedAtNs u) (User.LastLoginNs u) (User.TOTPLastUsedNs u).
Definition with_UserStatus (v : string) (u : User) : User :=
  User.mkUser (User.ID u) (User.Username u) (User.PasswordHash u) (User.Role u) v (User.TOTPSecretEnc u)
    (User.CreatedAtNs u) (User.UpdatedAtNs u) (User.LastLoginNs u) (User.TOTPLastUsedNs u).
Definition with_TOTPSecret (v : option string) (u : User) : User :=
  User.mkUser (User.ID u) (User.Username u) (User.PasswordHash u) (User.Role u) (User.Status u) v
    (User.CreatedAtNs u) (User.UpdatedAtNs u) (User.LastLoginNs u) (User.TOTPLastUsedNs u).
Definition with_UpdatedAt (v : Z) (u : User) : User :=
  User.mkUser (User.ID u) (User.Username u) (User.PasswordHash u) (User.Role u) (User.Status u)
    (User.TOTPSecretEnc u) (User.CreatedAtNs u) v (User.LastLoginNs u) (User.TOTPLastUsedNs u).
Definition with_LastLogin (v : Z) (u : User) : User :=
  User.mkUser (User.ID u) (User.Username u) (User.PasswordHash u) (User.Role u) (User.Status u)
    (User.TOTPSecretEnc u) (User.CreatedAtNs u) (User.UpdatedAtNs u) v (User.TOTPLastUsedNs u).

Definition CountUsers (db : StateDB) : Z := Z.of_nat (length (users db)).

Definition MarkUserLogin (id : string) (atNs : Z) : Method unit := transact (fun db =>
  let hit u := User.ID u ==s id in
  if (sql_affected hit (users db) =? 0)%nat then Err ErrNotFound
  else Ok (tt, set_users (sql_update hit (with_LastLogin atNs) (users db)) db)).

Definition userRowExists (id : string) (db : StateDB) : bool :=
  (0 <? sql_affected (fun u => User.ID u ==s id) (users db))%nat.

Definition userNotFoundIfAbsent (id : string) : DbTx unit := fun db =>
  if userRowExists id db then Ok (tt, db) else Err ErrNotFound.

(** UPDATE users SET column = ?, updated_at_ns = ? WHERE id = ?; [set] writes
    the column.  The CHECKs of role and status are tested on the row written. *)
Definition updateUserColumn (id : string) (set : User -> User) (atNs : Z) : Method unit := transact (fun db =>
  let hit u := User.ID u ==s id in
  let row u := with_UpdatedAt atNs (set u) in
  if existsb (fun u => hit u && negb (user_check_ok (row u))) (users db) then Err ErrSQL
  else
    let db' := set_users (sql_update hit row (users db)) db in
    if (sql_affected hit (users db) =? 0)%nat then userNotFoundIfAbsent id db' else Ok (tt, db')).

Definition UpdateUserPassword (id passwordHash : string) (atNs : Z) : Method unit :=
  updateUserColumn id (with_Password passwordHash) atNs.
Definition UpdateUserStatus (id status : string) (atNs : Z) : Method unit :=
  updateUserColumn id (with_UserStatus status) atNs.
Definition UpdateUserRole (id role : string) (atNs : Z) : Method unit :=
  updateUserColumn id (with_Role role) atNs.

(** An empty blob reads back as no secret. *)
Definition UpdateUserTOTPSecret (id : string) (sealed : option string) (atNs : Z) : Method unit :=
  updateUserColumn id (with_TOTPSecret (match sealed with Some v => if v ==s "" then None else Some v | None => None end))
    atNs.

(** ** Sessions *)

(** id_hash is the primary key, user_id references users. *)
Definition InsertSession (s : Session) : Method unit := transact (fun db =>
  if existsb (fun r => Session.IDHash r ==s Session.IDHash s) (sessions db)
     || negb (user_exists (Session.UserID s) db)
  then Err ErrSQL
  else Ok (tt, set_sessions (sessions db ++ [s]) db)).

Definition GetSession (idHash : string) (db : StateDB) : res StateErr Session :=
  match sql_first (fun s => Session.IDHash s ==s idHash) (sessions db) with
  | Some s => Ok s
  | None => Err ErrNotFound
  end.

Definition DeleteSession (idHash : string) : Method unit := transact (fun db =>
  let hit s := Session.IDHash s ==s idHash in
  if (sql_affected hit (sessions db) =? 0)%nat then Err ErrNotFound
  else Ok (tt, set_sessions (sql_where (fun s => negb (hit s)) (sessions db)) db)).

(** DELETE FROM sessions WHERE ...; the number of rows. *)
Definition delete_sessions (hit : Session -> bool) : Method Z := transact (fun db =>
  Ok (Z.of_nat (sql_affected hit (sessions db)),
      set_sessions (sql_where (fun s => negb (hit s)) (sessions db)) db)).

Definition DeleteSessionsByUser (userID : string) : Method Z :=
  delete_sessions (fun s => Session.UserID s ==s userID).

Definition DeleteUserSession (userID idHash : string) : Method Z :=
  delete_sessions (fun s => (Session.UserID s ==s userID) && (Session.IDHash s ==s idHash)).

Definition PruneSessions (nowNs : Z) : Method Z :=
  delete_sessions (fun s => Session.ExpiresAtNs s <? nowNs).

Definition TouchSession (idHash : string) (expiresAtNs : Z) : Method unit := transact (fun db =>
  let hit s := Session.IDHash s ==s idHash in
  if (sql_affected hit (sessions db) =? 0)%nat then Err ErrNotFound
  else Ok (tt, set_sessions (sql_update hit (Session.with_Expiry expiresAtNs) (sessions db)) db)).

(** ORDER BY created_at_ns DESC, id_hash *)
Definition ListSessionsByUser (userID : string) (db : StateDB) : list Session :=
  sort_by (fun a b =>
      (Session.CreatedAtNs b <? Session.CreatedAtNs a) ||
      ((Session.CreatedAtNs b =? Session.CreatedAtNs a) && String.leb (Session.IDHash a) (Session.IDHash b)))
    (sql_where (fun s => Session.UserID s ==s userID) (sessions db)).

(** ** The account service *)

Inductive AccountErr :=
| ErrPasswordTooShort
| ErrPasswordUnchanged
| ErrCurrentPasswordWrong
| ErrTOTPAlreadyEnrolled
| ErrTOTPNotEnrolled
| ErrTOTPCodeInvalid
| ErrNoPepper
| ErrLastAdmin
| ErrUsernameRequired
| ErrUnknownRole
| ErrUnknownStatus
| ErrAccountNotFound
| ErrHash
| ErrSeal
| AccountState (e : StateErr).

Abbreviation Acct := (Proc StateDB AccountErr).

Definition engine_call {A} (m : Method A) : Acct A := fun db =>
  match m db with
  | (Ok a, db') => (Ok a, db')
  | (Err e, db') => (Err (AccountState e), db')
  end.

Definition MinPasswordLength : nat := 12.

Definition checkPasswordPolicy (password : string) : Acct unit :=
  check (negb (String.length password <? MinPasswordLength)%nat) ErrPasswordTooShort.

(** [if err != nil || user == nil { return ErrAccountNotFound }] *)
Definition account (id : string) : Acct User := fun db =>
  match GetUser id db with Ok u => (Ok u, db) | Err _ => (Err ErrAccountNotFound, db) end.

Record Account := mkAccount {
  acc_ID : string;
  acc_Username : string;
  acc_Role : string;
  acc_Status : string;
  acc_HasTOTP : bool;
  acc_CreatedAtNs : Z;
  acc_UpdatedAtNs : Z;
  acc_LastLoginNs : Z
}.

Definition has_totp (u : User) : bool :=
  match User.TOTPSecretEnc u with Some v => negb (v ==s "") | None => false end.

Definition accountFromModel (u : User) : Account :=
  mkAccount (User.ID u) (User.Username u) (User.Role u) (User.Status u) (has_totp u) (User.CreatedAtNs u)
    (User.UpdatedAtNs u) (User.LastLoginNs u).

Definition GetAccount (id : string) : Acct Account := user ← account id; mret (accountFromModel user).

Definition ListAccounts : Acct (list Account) := db ← proc_get; mret (map accountFromModel (ListUsers db)).

Definition active_admin (u : User) : bool :=
  (User.Role u ==s UserRoleAdmin) && (User.Status u ==s UserStatusActive).

Definition refuseIfLastAdmin (user : User) : Acct unit :=
  if (User.Role user <>s UserRoleAdmin) || (User.Status user <>s UserStatusActive) then mret tt
  else
    db ← proc_get;
    let others := length (List.filter (fun c => (User.ID c <>s User.ID user) && active_admin c) (ListUsers db)) in
    check (negb (others =? 0)%nat) ErrLastAdmin.

Definition role_known (role : string) : bool := (role ==s UserRoleAdmin) || (role ==s UserRoleUser).
Definition status_known (status : string) : bool := (status ==s UserStatusActive) || (status ==s UserStatusDisabled).

Definition setAccountStatusLocked (id status : string) (nowNs : Z) : Acct unit :=
  user ← account id;
  if User.Status user ==s status then mret tt
  else
    _ ← (if status ==s UserStatusDisabled then refuseIfLastAdmin user else mret tt);
    engine_call (UpdateUserStatus id status nowNs).

Definition SetAccountStatus (id status : string) (nowNs : Z) : Acct unit :=
  _ ← check (status_known status) ErrUnknownStatus;
  setAccountStatusLocked id status nowNs.

Definition setAccountRoleLocked (id role : string) (nowNs : Z) : Acct unit :=
  user ← account id;
  if User.Role user ==s role then mret tt
  else
    _ ← (if (User.Role user ==s UserRoleAdmin) && (role ==s UserRoleUser) then refuseIfLastAdmin user
         else mret tt);
    engine_call (UpdateUserRole id role nowNs).

Definition SetAccountRole (id role : string) (nowNs : Z) : Acct unit :=
  _ ← check (role_known role) ErrUnknownRole;
  setAccountRoleLocked id role nowNs.

Definition new_user (id username hash role : string) (nowNs : Z) : User :=
  User.mkUser id username hash role UserStatusActive None nowNs nowNs 0 0.

Section Secrets.
Context (hashPassword : string -> option string).
Context (VerifyPassword : string -> string -> bool).
Context (has_pepper : bool) (EncryptTOTPSecret : string -> option string).

(** [id] is the one [newAccountID] drew. *)
Definition CreateAccount (username password role : string) (nowNs : Z) (id : string) : Acct Account :=
  let username := TrimSpace username in
  _ ← check (username <>s "") ErrUsernameRequired;
  _ ← check (role_known role) ErrUnknownRole;
  _ ← checkPasswordPolicy password;
  hash ← or_fail (hashPassword password) ErrHash;
  let user := new_user id username hash role nowNs in
  _ ← engine_call (InsertUser user);
  mret (accountFromModel user).

Definition verifyPasswordLocked (user : User) (password : string) : Acct unit :=
  check (VerifyPassword (User.PasswordHash user) password) ErrCurrentPasswordWrong.

Definition setPassword (user : User) (newPassword : string) (nowNs : Z) : Acct unit :=
  hash ← or_fail (hashPassword newPassword) ErrHash;
  engine_call (UpdateUserPassword (User.ID user) hash nowNs).

Definition ChangeAccountPassword (userID currentPassword newPassword : string) (nowNs : Z) : Acct unit :=
  _ ← checkPasswordPolicy newPassword;
  _ ← check (currentPassword <>s newPassword) ErrPasswordUnchanged;
  user ← account userID;
  _ ← verifyPasswordLocked user currentPassword;
  setPassword user newPassword nowNs.

Definition VerifyAccountPassword (userID password : string) : Acct unit :=
  user ← account userID; verifyPasswordLocked user password.

Definition SetAccountPassword (userID newPassword : string) (nowNs : Z) : Acct unit :=
  _ ← checkPasswordPolicy newPassword;
  user ← account userID;
  setPassword user newPassword nowNs.

(** [buf] are the bytes drawn for the secret. *)
Definition StartTOTPEnrolment (id : string) (buf : list Z) : Acct string :=
  user ← account id;
  _ ← check (negb (has_totp user)) ErrTOTPAlreadyEnrolled;
  mret (GenerateTOTPSecret buf).

Definition ConfirmTOTPEnrolment (id secret code : string) (nowNs : Z) : Acct unit :=
  _ ← check has_pepper ErrNoPepper;
  user ← account id;
  _ ← check (negb (has_totp user)) ErrTOTPAlreadyEnrolled;
  _ ← check (VerifyTOTP secret code nowNs) ErrTOTPCodeInvalid;
  sealed ← or_fail (EncryptTOTPSecret secret) ErrSeal;
  _ ← engine_call (UpdateUserTOTPSecret id (Some sealed) nowNs);
  engine_call (ResetTOTPLastUsed id).

Definition DisableTOTP (id : string) (nowNs : Z) : Acct unit :=
  user ← account id;
  _ ← check (has_totp user) ErrTOTPNotEnrolled;
  _ ← engine_call (UpdateUserTOTPSecret id None nowNs);
  engine_call (ResetTOTPLastUsed id).
End Secrets.

(** ** An active administrator remains *)

Definition users_wf (db : StateDB) : Prop := NoDup (map User.ID (users db)).
Definition has_admin (db : StateDB) : Prop := exists u, In u (users db) /\ active_admin u = true.

Lemma account_ok (id : string) (db db' : StateDB) (u : User) :
  account id db = (Ok u, db') -> db' = db /\ In u (users db) /\ User.ID u = id.
Proof.
  unfold account. destruct (GetUser id db) eqn:E; [|done]. intros [= <- <-].
  apply GetUser_Some in E as [? ?]. auto.
Qed.

Lemma engine_call_ok {A} (m : Method A) (db db' : StateDB) (a : A) :
  engine_call m db = (Ok a, db') <-> m db = (Ok a, db').
Proof. unfold engine_call. destruct (m db) as [[x|e] d]; split; intros H; simplify_eq; done. Qed.

Lemma engine_call_atomic {A} (P : StateDB -> Prop) (m : DbTx A) : Atomic P (engine_call (transact m)).
Proof.
  intros db e db' _ H. unfold engine_call in H. destruct (transact m db) as [[a|x] d] eqn:E; [done|].
  apply transact_err in E as [-> _]. congruence.
Qed.

Ltac acct_step :=
  match goal with
  | H : account _ _ = (Ok _, _) |- _ => apply account_ok in H as (-> & ? & ?)
  | H : engine_call _ _ = (Ok _, _) |- _ => apply engine_call_ok in H
  | _ => proc_step
  end.
Ltac acct_invert := repeat (acct_step; cbv beta in *).

(** What a single-column write leaves. *)
Lemma updateUserColumn_ok (id : string) (set : User -> User) (atNs : Z) (x : unit) (db db' : StateDB) :
  updateUserColumn id set atNs db = (Ok x, db') ->
  db' = set_users (sql_update (fun u => User.ID u ==s id) (fun u => with_UpdatedAt atNs (set u)) (users db)) db /\
  forall u, In u (users db) -> User.ID u = id -> user_check_ok (set u) = true.
Proof.
  unfold updateUserColumn, userNotFoundIfAbsent. intros H. apply transact_ok in H. cbv zeta in H.
  match type of H with (if ?b then _ else _) = _ => destruct b eqn:Eb end; [done|].
  split; [tx_invert; done|]. intros u Hu Hid. rewrite existsb_false in Eb. specialize (Eb u Hu).
  apply eqb_s_true in Hid. rewrite Hid in Eb. simpl in Eb. apply negb_false_iff in Eb. exact Eb.
Qed.

Lemma updateUserColumn_wf (id : string) (set : User -> User) (atNs : Z) (db : StateDB) :
  (forall u, User.ID (set u) = User.ID u) -> users_wf db -> users_wf (snd (updateUserColumn id set atNs db)).
Proof.
  intros Hs W. destruct (updateUserColumn id set atNs db) as [[x|e] db'] eqn:E; simpl.
  - apply updateUserColumn_ok in E as [-> _]. unfold users_wf. simpl. rewrite sql_update_map; [done|].
    intros u. simpl. apply Hs.
  - unfold updateUserColumn in E. apply transact_err in E as [-> _]. done.
Qed.

(** A row that keeps its place keeps the property. *)
Lemma has_admin_other (id : string) (f : User -> User) (db : StateDB) (w : User) :
  In w (users db) -> User.ID w <> id -> active_admin w = true ->
  has_admin (set_users (sql_update (fun u => User.ID u ==s id) f (users db)) db).
Proof.
  intros Hw Hne Ha. exists w. split; [|done]. apply sql_update_In. exists w. split; [done|].
  apply eqb_s_false in Hne. by rewrite Hne.
Qed.

Lemma has_admin_kept (id : string) (f : User -> User) (db : StateDB) :
  (forall u, active_admin u = true -> active_admin (f u) = true) -> has_admin db ->
  has_admin (set_users (sql_update (fun u => User.ID u ==s id) f (users db)) db).
Proof.
  intros Hf (w & Hw & Ha). exists (if User.ID w ==s id then f w else w). split.
  - apply sql_update_In. eauto.
  - destruct (User.ID w ==s id); auto.
Qed.

Lemma refuseIfLastAdmin_ok (user : User) (db db' : StateDB) (x : unit) :
  refuseIfLastAdmin user db = (Ok x, db') ->
  db' = db /\ (active_admin user = true ->
    exists w, In w (users db) /\ User.ID w <> User.ID user /\ active_admin w = true).
Proof.
  unfold refuseIfLastAdmin, active_admin at 2. intros H.
  destruct (User.Role user ==s UserRoleAdmin), (User.Status user ==s UserStatusActive);
    simpl in H; acct_invert; (split; [done|]); try done.
  intros _. match goal with H : negb _ = true |- _ => apply negb_true_iff, Nat.eqb_neq in H; rename H into Hn end.
  destruct (List.filter _ _) as [|w r] eqn:E; [done|].
  assert (In w (w :: r)) as Hw by (left; done). rewrite <- E in Hw. apply List.filter_In in Hw as [Hw Hc].
  apply andb_true_iff in Hc as [Hne Ha]. exists w. split; [|split; [|done]].
  - unfold ListUsers in Hw. by apply sort_by_In in Hw.
  - apply negb_true_iff, eqb_s_false in Hne. done.
Qed.

(** Writing a column of an account the check let through. *)
Lemma guarded_write_keeps_admin (id : string) (user : User) (f : User -> User) (db : StateDB) :
  users_wf db -> has_admin db -> In user (users db) -> User.ID user = id ->
  (active_admin user = true -> exists w, In w (users db) /\ User.ID w <> User.ID user /\ active_admin w = true) ->
  has_admin (set_users (sql_update (fun u => User.ID u ==s id) f (users db)) db).
Proof.
  intros W (a & Ha & Haa) Hu Hid Hother. destruct (active_admin user) eqn:E.
  - destruct (Hother eq_refl) as (w & Hw & Hne & Hwa). apply (has_admin_other id f db w); congruence.
  - apply (has_admin_other id f db a); [done| |done]. intros Heq.
    assert (a = user) as -> by (eapply NoDup_map_inj; [exact W|done|done|congruence]). congruence.
Qed.

Lemma column_write_ok (id : string) (set : User -> User) (atNs : Z) (x : unit) (db db' : StateDB) (user : User) :
  users_wf db -> has_admin db -> In user (users db) -> User.ID user = id ->
  (forall u, User.ID (set u) = User.ID u) ->
  (active_admin user = true -> active_admin (set user) = true \/
     exists w, In w (users db) /\ User.ID w <> User.ID user /\ active_admin w = true) ->
  updateUserColumn id set atNs db = (Ok x, db') -> users_wf db' /\ has_admin db'.
Proof.
  intros W Ha Hu Hid Hs Hkeep H. pose proof (updateUserColumn_wf id set atNs db Hs W) as W'.
  rewrite H in W'. split; [exact W'|]. apply updateUserColumn_ok in H as [-> _].
  destruct (active_admin user) eqn:Ea.
  - destruct (Hkeep eq_refl) as [Hset|Hother].
    + assert ((User.ID user ==s id) = true) as Hit by (by apply eqb_s_true).
      assert (forall r, (User.ID r ==s id) = true -> User.ID r = User.ID user) as Hkey.
      { intros r Hr. apply eqb_s_true in Hr. congruence. }
      destruct (sql_update_one User.ID (fun u => User.ID u ==s id) (fun u => with_UpdatedAt atNs (set u))
        (users db) user W Hu Hit Hkey) as (pre & post & _ & E).
      exists (with_UpdatedAt atNs (set user)). split; [|exact Hset]. simpl. rewrite E. apply in_elt.
    + by apply (guarded_write_keeps_admin id user).
  - apply (guarded_write_keeps_admin id user); [done..|]. congruence.
Qed.

Definition admin_ok (db : StateDB) : Prop := users_wf db /\ has_admin db.

Lemma setAccountStatusLocked_admin (id status : string) (nowNs : Z) (db db' : StateDB) (x : unit) :
  admin_ok db -> setAccountStatusLocked id status nowNs db = (Ok x, db') -> admin_ok db'.
Proof.
  intros [W Ha] H. unfold setAccountStatusLocked, UpdateUserStatus in H. acct_invert; [done| |].
  - match goal with H : refuseIfLastAdmin _ _ = _ |- _ => apply refuseIfLastAdmin_ok in H as [-> Hr] end.
    eapply (column_write_ok id (with_UserStatus status) nowNs); [exact W|exact Ha|eassumption|eassumption|done| |eassumption]. auto.
  - rename Heqb0 into Ed. match goal with H : updateUserColumn _ _ _ _ = _ |- _ =>
      pose proof (proj2 (updateUserColumn_ok _ _ _ _ _ _ H)) as Hchk end.
    eapply (column_write_ok id (with_UserStatus status) nowNs); [exact W|exact Ha|eassumption|eassumption|done| |eassumption].
    intros Hadm. left. match goal with Hu : In _ (users db), Hi : User.ID _ = id |- _ => specialize (Hchk _ Hu Hi) end.
    unfold user_check_ok in Hchk. simpl in Hchk. rewrite Ed, orb_false_r in Hchk.
    unfold active_admin in *. simpl. apply andb_true_iff in Hadm as [-> _], Hchk as [_ ->]. done.
Qed.

Lemma setAccountRoleLocked_admin (id role : string) (nowNs : Z) (db db' : StateDB) (x : unit) :
  admin_ok db -> setAccountRoleLocked id role nowNs db = (Ok x, db') -> admin_ok db'.
Proof.
  intros [W Ha] H. unfold setAccountRoleLocked, UpdateUserRole in H. acct_invert; [done| |].
  - match goal with H : refuseIfLastAdmin _ _ = _ |- _ => apply refuseIfLastAdmin_ok in H as [-> Hr] end.
    eapply (column_write_ok id (with_Role role) nowNs); [exact W|exact Ha|eassumption|eassumption|done| |eassumption]. auto.
  - match goal with H : updateUserColumn _ _ _ _ = _ |- _ =>
      pose proof (proj2 (updateUserColumn_ok _ _ _ _ _ _ H)) as Hchk end.
    eapply (column_write_ok id (with_Role role) nowNs); [exact W|exact Ha|eassumption|eassumption|done| |eassumption].
    intros Hadm. left. match goal with Hu : In _ (users db), Hi : User.ID _ = id |- _ => specialize (Hchk _ Hu Hi) end.
    unfold user_check_ok in Hchk. unfold active_admin in *. simpl in *. apply andb_true_iff in Hadm as [Hr Hs].
    rewrite Hr in *. simpl in *. match goal with H : (role ==s UserRoleUser) = false |- _ => rewrite H in Hchk end.
    rewrite orb_false_r in Hchk. apply andb_true_iff in Hchk as [-> _]. done.
Qed.

(** An operation that touches neither roles nor statuses. *)
Lemma neutral_column_admin (id : string) (set : User -> User) (atNs : Z) (db : StateDB) :
  (forall u, User.ID (set u) = User.ID u /\ User.Role (set u) = User.Role u /\ User.Status (set u) = User.Status u) ->
  admin_ok db -> admin_ok (snd (updateUserColumn id set atNs db)).
Proof.
  intros Hs [W Ha]. split; [apply updateUserColumn_wf; [apply Hs|done]|].
  destruct (updateUserColumn id set atNs db) as [[x|e] db'] eqn:E; simpl.
  - apply updateUserColumn_ok in E as [-> _]. apply has_admin_kept; [|done]. intros u. unfold active_admin. simpl.
    destruct (Hs u) as (_ & -> & ->). done.
  - unfold updateUserColumn in E. apply transact_err in E as [-> _]. done.
Qed.
