(* ===== verification/Money.v ===== *)
(** * The store as one system

    The methods of the account, key, session, ledger and deposit repositories as
    one step relation, and the invariant of every reachable store.  Each step is one
    call, with any arguments; the side conditions are what the callers
    guarantee: amounts are int64 values, user ids are fresh ([newID] draws 128
    random bits), new codes and invites start unused, payable amounts are
    positive, and a deposit does not push a balance past the int64 range (the
    one place where the code itself has no guard, see
    [deposit_credit_can_wrap]). *)

From stdpp Require Import base gmap strings list relations.
From S2P Require Import Prelude Model Store Ledger Deposits Keys Totp Accounts.

Definition fresh_user (id : string) (db : StateDB) : Prop :=
  forall e, In e (balance_ledger db) -> BalanceEntry.UserID e <> id.

Inductive money_step : StateDB -> StateDB -> Prop :=
| ms_insert_user u db :
    fresh_user (User.ID u) db -> money_step db (snd (InsertUser u db))
| ms_register code nowNs u db :
    fresh_user (User.ID u) db -> money_step db (snd (RedeemInviteAndInsertUser code nowNs u db))
| ms_delete_user id db : money_step db (snd (DeleteUser id db))
| ms_totp userID stepNs db : money_step db (snd (AdvanceTOTPLastUsed userID stepNs db))
| ms_upsert_plan p db : money_step db (snd (UpsertPlan p db))
| ms_delete_plan id db : money_step db (snd (DeletePlan id db))
| ms_upsert_sub s db : money_step db (snd (UpsertUserSubscription s db))
| ms_terms s db : money_step db (snd (UpdateUserSubscriptionTerms s db))
| ms_used id delta db : money_step db (snd (AddSubscriptionUsedBytes id delta db))
| ms_reset id from to db : money_step db (snd (ResetSubscriptionPeriod id from to db))
| ms_revoke id db : money_step db (snd (RevokeUserSubscription id db))
| ms_expire nowNs db : money_step db (snd (ExpireStaleSubscriptions nowNs db))
| ms_auto_renew id b db : money_step db (snd (SetSubscriptionAutoRenew id b db))
| ms_apply entry db :
    in_int64 (BalanceEntry.DeltaMicro entry) -> money_step db (snd (ApplyBalanceDelta entry db))
| ms_insert_code c db :
    RedeemCode.UsedCount c = 0 -> 0 <= RedeemCode.MaxUses c ->
    money_step db (snd (InsertRedeemCode c db))
| ms_delete_code id db : money_step db (snd (DeleteRedeemCode id db))
| ms_redeem codeHash entry nowNs db :
    in_int64 (BalanceEntry.DeltaMicro entry) ->
    money_step db (snd (RedeemCodeAndCredit codeHash entry nowNs db))
| ms_purchase sub entry nowNs db :
    in_int64 (BalanceEntry.DeltaMicro entry) ->
    money_step db (snd (PurchasePlanWithBalance sub entry nowNs db))
| ms_renew sub idx entry db :
    in_int64 (BalanceEntry.DeltaMicro entry) ->
    money_step db (snd (RenewSubscriptionWithBalance sub idx entry db))
| ms_insert_invite i db : money_step db (snd (InsertInvite i db))
| ms_delete_invite id db : money_step db (snd (DeleteInvite id db))
| ms_open intent candidates nowNs db :
    (forall a, In a candidates -> 0 < a) ->
    money_step db (snd (InsertDepositIntent intent candidates nowNs db))
| ms_sweep nowNs db : money_step db (snd (SweepDeposits nowNs db))
| ms_credit txID amountMicro blockTSNs nowNs cursorName watermarkMs entry db :
    (forall i, In i (deposit_intents db) ->
       balance_of (DepositIntent.UserID i) db + DepositIntent.AmountMicro i <= int64_max) ->
    money_step db
      (snd (CreditDeposit txID amountMicro blockTSNs nowNs cursorName watermarkMs entry db))
| ms_cursor name watermarkMs nowNs db :
    money_step db (snd (AdvanceChainCursor name watermarkMs nowNs db))
| ms_insert_key k db : money_step db (snd (InsertAccessKey k db))
| ms_update_key k db : money_step db (snd (UpdateAccessKeyRow k db))
| ms_delete_key id db : money_step db (snd (DeleteAccessKeyRow id db))
| ms_column id set atNs db :
    (forall u, User.ID (set u) = User.ID u) -> money_step db (snd (updateUserColumn id set atNs db))
| ms_totp_reset id db : money_step db (snd (ResetTOTPLastUsed id db))
| ms_login id atNs db : money_step db (snd (MarkUserLogin id atNs db))
| ms_insert_session s db : money_step db (snd (InsertSession s db))
| ms_delete_session id db : money_step db (snd (DeleteSession id db))
| ms_delete_sessions hit db : money_step db (snd (delete_sessions hit db))
| ms_touch_session id expiresAtNs db : money_step db (snd (TouchSession id expiresAtNs db)).

(** The invariant of the whole store. *)
Record store_wf (db : StateDB) : Prop := {
  st_money : money_wf db;
  st_subs : subs_wf db;
  st_codes : codes_wf db;
  st_amounts : forall i, In i (deposit_intents db) -> 0 < DepositIntent.AmountMicro i
}.

(** The tables the invariant reads. *)
Lemma store_wf_frame (db db' : StateDB) :
  store_wf db -> users db' = users db -> plans db' = plans db ->
  user_balance db' = user_balance db ->
  balance_ledger db' = balance_ledger db -> user_subscriptions db' = user_subscriptions db ->
  redeem_codes db' = redeem_codes db -> deposit_intents db' = deposit_intents db -> store_wf db'.
Proof.
  intros [M S [Ch Cc] A] E1 E0 E2 E3 E4 E5 E6. split.
  - eapply money_wf_frame; eauto.
  - eapply subs_wf_frame; eauto.
  - split; rewrite E5; done.
  - rewrite E6. done.
Qed.

(** The subscription table alone changed, and keeps its own invariant. *)
Lemma store_wf_subs (db db' : StateDB) :
  store_wf db -> subs_wf db' -> users db' = users db -> user_balance db' = user_balance db ->
  balance_ledger db' = balance_ledger db ->
  redeem_codes db' = redeem_codes db -> deposit_intents db' = deposit_intents db -> store_wf db'.
Proof.
  intros [M S [Ch Cc] A] S' E1 E2 E3 E5 E6. split; auto.
  - eapply money_wf_frame; eauto.
  - split; rewrite E5; done.
  - rewrite E6. done.
Qed.

(** Everything but the subscriptions is as before an update of one. *)
Lemma update_subscription_frame (id : string) (p : UserSubscription -> bool)
    (f : UserSubscription -> UserSubscription) (n : nat) (db db' : StateDB) :
  update_subscription id p f db = Ok (n, db') ->
  (forall r, UserSubscription.ID r = id -> UserSubscription.ID (f r) = id) ->
  store_wf db -> store_wf db'.
Proof.
  intros H Hk W. pose proof (update_subscription_wf _ _ _ _ _ _ Hk (st_subs db W) H) as S.
  apply update_subscription_ok in H as (_ & -> & _). eapply store_wf_subs; eauto.
Qed.

Lemma emptyDB_store_wf : store_wf emptyDB.
Proof.
  split; [apply emptyDB_money_wf|apply emptyDB_subs_wf| |done].
  split; simpl; [apply NoDup_nil_2|done].
Qed.

Lemma insert_user_store_wf (u : User) (x : unit) (db db' : StateDB) :
  fresh_user (User.ID u) db -> insert_user_tx u db = Ok (x, db') -> store_wf db -> store_wf db'.
Proof.
  intros Hf H [M S C A].
  pose proof (insert_user_money_wf u x db db' M Hf H) as M'.
  pose proof (insert_user_wf u x db db' S H) as S'.
  unfold insert_user_tx in H. tx_invert. destruct C. split; auto. split; done.
Qed.

Lemma charge_store_wf (entry e : BalanceEntry) (db db' : StateDB) :
  in_int64 (BalanceEntry.DeltaMicro entry) -> chargeInTx entry db = Ok (e, db') ->
  store_wf db -> store_wf db'.
Proof.
  intros Hd H [M S [Ch Cc] A]. pose proof (chargeInTx_wf entry e db db' M Hd H) as M'.
  apply chargeInTx_ok in H as (_ & _ & _ & _ & ->). split; auto.
  - eapply subs_wf_frame; eauto.
  - split; done.
Qed.

Lemma DeleteUser_store_wf (id : string) (db : StateDB) :
  store_wf db -> store_wf (snd (DeleteUser id db)).
Proof.
  intros [M S [Ch Cc] A]. split; auto using DeleteUser_money_wf, DeleteUser_subs_wf;
  unfold DeleteUser, transact; destruct (user_exists id db); simpl; auto; split; done.
Qed.

Lemma DeletePlan_store_wf (id : string) (db : StateDB) :
  store_wf db -> store_wf (snd (DeletePlan id db)).
Proof.
  intros W. eapply store_wf_subs; [exact W|apply DeletePlan_subs_wf; apply W|..];
  unfold DeletePlan, transact; destruct (plan_exists id db); done.
Qed.

Lemma UpsertUserSubscription_store_wf (s : UserSubscription) (db : StateDB) :
  store_wf db -> store_wf (snd (UpsertUserSubscription s db)).
Proof.
  intros W. by_commit.
  - eapply update_subscription_frame; [eassumption|done|done].
  - match goal with H : insert_subscription _ _ = _ |- _ =>
      pose proof (insert_subscription_wf _ _ _ _ (st_subs db W) H);
      apply insert_subscription_ok in H as (-> & _) end.
    eapply store_wf_subs; eauto.
Qed.

(** Methods that end in an update by id. *)
Ltac update_by_id :=
  by_commit;
  try match goal with H : not_found_if_absent _ _ _ = _ |- _ =>
    apply not_found_if_absent_ok in H as -> end;
  (eapply update_subscription_frame; [eassumption|done|done]).

Lemma subscription_methods_store_wf (db : StateDB) :
  store_wf db ->
  (forall s, store_wf (snd (UpdateUserSubscriptionTerms s db))) /\
  (forall id delta, store_wf (snd (AddSubscriptionUsedBytes id delta db))) /\
  (forall id from to, store_wf (snd (ResetSubscriptionPeriod id from to db))) /\
  (forall id, store_wf (snd (RevokeUserSubscription id db))) /\
  (forall id b, store_wf (snd (SetSubscriptionAutoRenew id b db))).
Proof. intros W. split_and!; intros; update_by_id. Qed.

Lemma RedeemCodeAndCredit_store_wf (codeHash : string) (entry : BalanceEntry) (nowNs : Z)
    (db : StateDB) :
  in_int64 (BalanceEntry.DeltaMicro entry) -> store_wf db ->
  store_wf (snd (RedeemCodeAndCredit codeHash entry nowNs db)).
Proof.
  intros Hd W. destruct (RedeemCodeAndCredit _ _ _ db) as [[e|err] db'] eqn:E; simpl.
  - apply RedeemCodeAndCredit_ok in E as (_ & db1 & -> & H).
    eapply charge_store_wf; [exact Hd|exact H|]. destruct W as [M S C A]. split; auto.
    + eapply money_wf_frame; eauto.
    + eapply subs_wf_frame; eauto.
    + apply claim_codes_wf. done.
  - apply transact_err in E as [-> _]. done.
Qed.

Lemma PurchasePlanWithBalance_store_wf (sub : UserSubscription) (entry : BalanceEntry) (nowNs : Z)
    (db : StateDB) :
  in_int64 (BalanceEntry.DeltaMicro entry) -> store_wf db ->
  store_wf (snd (PurchasePlanWithBalance sub entry nowNs db)).
Proof.
  intros Hd W. destruct (PurchasePlanWithBalance_wf sub entry nowNs db Hd) as [_ S]; [apply W..|].
  destruct (PurchasePlanWithBalance _ _ _ db) as [[r|err] db'] eqn:E; simpl in *.
  2: { apply transact_err in E as [-> _]. done. }
  apply PurchasePlanWithBalance_ok in E
    as [(_ & -> & _)|(_ & _ & db1 & x & row & _ & Hc & Hi)]; [done|].
  pose proof (charge_store_wf _ _ _ _ Hd Hc W) as W1.
  apply insert_subscription_ok in Hi as (-> & _). eapply store_wf_subs; eauto.
Qed.

Lemma RenewSubscriptionWithBalance_store_wf (sub : UserSubscription) (idx : Z)
    (entry : BalanceEntry) (db : StateDB) :
  in_int64 (BalanceEntry.DeltaMicro entry) -> store_wf db ->
  store_wf (snd (RenewSubscriptionWithBalance sub idx entry db)).
Proof.
  intros Hd W. destruct (RenewSubscriptionWithBalance _ _ _ db) as [[r|err] db'] eqn:E; simpl in *.
  2: { apply transact_err in E as [-> _]. done. }
  apply RenewSubscriptionWithBalance_ok in E
    as [(_ & -> & _)|(_ & _ & db1 & n & Hc & _ & Hu)]; [done|].
  pose proof (charge_store_wf _ _ _ _ Hd Hc W) as W1.
  eapply update_subscription_frame; [exact Hu|done|done].
Qed.

Lemma CreditDeposit_store_wf (txID : string) (amountMicro blockTSNs nowNs : Z)
    (cursorName : string) (watermarkMs : Z) (entry : BalanceEntry) (db : StateDB) :
  (forall i, In i (deposit_intents db) ->
     balance_of (DepositIntent.UserID i) db + DepositIntent.AmountMicro i <= int64_max) ->
  store_wf db ->
  store_wf (snd (CreditDeposit txID amountMicro blockTSNs nowNs cursorName watermarkMs entry db)).
Proof.
  intros Hmax W. destruct (CreditDeposit _ _ _ _ _ _ _ db) as [[paid|err] db'] eqn:E; simpl.
  2: { apply transact_err in E as [-> _]. done. }
  apply CreditDeposit_ok in E as (intent & e & _ & Hin & _ & _ & He & Hu & Hun & ->).
  destruct W as [M S [Ch Cc] A]. specialize (Hmax intent Hin). specialize (A intent Hin) as Hpos.
  destruct (balance_of_movements db _ M Hu) as [_ Hb].
  assert (add64 (balance_of (DepositIntent.UserID intent) db) (DepositIntent.AmountMicro intent) =
          balance_of (DepositIntent.UserID intent) db + DepositIntent.AmountMicro intent) as Hex.
  { apply wrap64_id. int64_unfold. lia. }
  split.
  - eapply money_wf_frame; [apply (posted_wf db e nowNs)|done|done|done]; auto; subst e; simpl; auto; lia.
  - eapply subs_wf_frame; eauto.
  - split; done.
  - simpl. intros i' Hi'. apply sql_update_In in Hi' as (i & Hi & ->). destruct (_ ==s _); simpl; auto.
Qed.

Lemma deposit_table_store_wf (db db' : StateDB) :
  store_wf db -> users db' = users db -> plans db' = plans db ->
  user_balance db' = user_balance db ->
  balance_ledger db' = balance_ledger db -> user_subscriptions db' = user_subscriptions db ->
  redeem_codes db' = redeem_codes db ->
  (forall i', In i' (deposit_intents db') -> 0 < DepositIntent.AmountMicro i') -> store_wf db'.
Proof.
  intros [M S [Ch Cc] A] E1 E0 E2 E3 E4 E5 A'. split; auto.
  - eapply money_wf_frame; eauto.
  - eapply subs_wf_frame; eauto.
  - split; rewrite E5; done.
Qed.

Lemma InsertDepositIntent_store_wf (intent : DepositIntent) (candidates : list Z) (nowNs : Z)
    (db : StateDB) :
  (forall a, In a candidates -> 0 < a) -> store_wf db ->
  store_wf (snd (InsertDepositIntent intent candidates nowNs db)).
Proof.
  intros Hpos W. destruct (InsertDepositIntent _ _ _ db) as [[row|err] db'] eqn:E; simpl.
  2: { apply transact_err in E as [-> _]. done. }
  apply InsertDepositIntent_ok in E as (amount & Hin & -> & _ & ->).
  eapply deposit_table_store_wf; try done. simpl. intros i' Hi'.
  apply in_app_iff in Hi' as [Hi'|[<-|[]]]; [|auto].
  apply sql_update_In in Hi' as (i & Hi & ->). apply (st_amounts db W) in Hi.
  destruct (release_due nowNs i); done.
Qed.

Lemma SweepDeposits_store_wf (nowNs : Z) (db : StateDB) :
  store_wf db -> store_wf (snd (SweepDeposits nowNs db)).
Proof.
  intros W. eapply deposit_table_store_wf; try done. simpl. intros i' Hi'.
  apply sql_update_In in Hi' as (i1 & Hi1 & ->). apply sql_update_In in Hi1 as (i & Hi & ->).
  apply (st_amounts db W) in Hi. destruct (unpaid_due nowNs i); destruct (release_due nowNs _); done.
Qed.

Lemma users_updated_store_wf (db : StateDB) (p : User -> bool) (f : User -> User) :
  (forall u, User.ID (f u) = User.ID u) -> store_wf db ->
  store_wf (set_users (sql_update p f (users db)) db).
Proof.
  intros Hid [M S [Ch Cc] A].
  assert (forall v, user_exists v (set_users (sql_update p f (users db)) db) = user_exists v db) as Hx.
  { intros v. unfold user_exists, sql_update. simpl. induction (users db) as [|u l IH]; [done|].
    simpl. rewrite IH. destruct (p u); rewrite ?Hid; done. }
  split; auto.
  - destruct M as [M1 M2 M3 M4]. split; auto.
    + intros v row. rewrite Hx. apply M1.
    + intros v. rewrite Hx. apply M2.
  - apply (subs_wf_mono db); [done|done| |done]. intros v. rewrite Hx. done.
  - split; done.
Qed.

Lemma store_wf_codes (db : StateDB) (t : list RedeemCode) :
  codes_wf (set_redeem_codes t db) -> store_wf db -> store_wf (set_redeem_codes t db).
Proof.
  intros C [M S _ A]. split; auto.
  - eapply money_wf_frame; eauto.
  - eapply subs_wf_frame; eauto.
Qed.

Lemma money_step_wf (db db' : StateDB) : money_step db db' -> store_wf db -> store_wf db'.
Proof.
  intros H W. pose proof (subscription_methods_store_wf db W) as (H1 & H2 & H3 & H4 & H5).
  destruct H; auto using DeleteUser_store_wf, DeletePlan_store_wf, UpsertUserSubscription_store_wf,
    RedeemCodeAndCredit_store_wf, PurchasePlanWithBalance_store_wf,
    RenewSubscriptionWithBalance_store_wf, InsertDepositIntent_store_wf, SweepDeposits_store_wf,
    CreditDeposit_store_wf;
  try (by_commit; eapply store_wf_frame; done).
  - by_commit. eapply insert_user_store_wf; eauto.
  - destruct (RedeemInviteAndInsertUser code nowNs u db) as [[i|err] db'] eqn:E; simpl.
    + apply transact_ok in E. apply tx_bind_ok in E as (n & db1 & [= <- <-] & E). tx_invert.
      match goal with H : as_sql_error _ _ = _ |- _ => apply as_sql_error_ok in H end.
      unfold getInviteByCodeLocked in *. case_match; simplify_eq.
      eapply insert_user_store_wf; [|eassumption|]; [done|]. eapply store_wf_frame; done.
    + apply transact_err in E as [-> _]. done.
  - by_commit; try done. apply users_updated_store_wf; done.
  - apply (store_wf_subs db); [done|apply UpsertPlan_subs_wf; apply W|by_commit; done..].
  - apply (store_wf_subs db); try done. apply ExpireStaleSubscriptions_subs_wf. apply W.
  - rewrite ApplyBalanceDelta_charge. eapply transact_preserves; [reflexivity|exact W|].
    intros e db' Hc. eapply charge_store_wf; eauto.
  - pose proof (InsertRedeemCode_codes_wf c db H H0 (st_codes db W)) as C.
    revert C. by_commit. intros C. apply store_wf_codes; done.
  - pose proof (DeleteRedeemCode_codes_wf id db (st_codes db W)) as C.
    revert C. by_commit. intros C. apply store_wf_codes; done.
  - apply (store_wf_frame db); done.
  - by_commit; unfold userNotFoundIfAbsent in *; tx_invert; apply users_updated_store_wf; done.
  - by_commit; try done; apply users_updated_store_wf; done.
  - by_commit. apply users_updated_store_wf; done.
Qed.

(** Two rows of the ledger at different places do not settle the same thing. *)
Lemma ledger_rows_distinct (db : StateDB) (i j : nat) (e r : BalanceEntry) :
  money_wf db -> balance_ledger db !! i = Some r -> balance_ledger db !! j = Some e -> (i < j)%nat ->
  same_request e r = false /\ same_deposit e r = false.
Proof.
  intros M Hi Hj Hlt.
  destruct (mw_once db M (take j (balance_ledger db)) e (drop (S j) (balance_ledger db))) with r
    as (_ & H); [symmetry; apply take_drop_middle; done| |exact H].
  apply list_elem_of_In, list_elem_of_lookup. exists i. rewrite lookup_take_lt; done.
Qed.

Lemma money_steps_wf (db db' : StateDB) : rtc money_step db db' -> store_wf db -> store_wf db'.
Proof. induction 1; eauto using money_step_wf. Qed.


(** C8: In every reachable store a user has at most one active subscription,
    every subscription belongs to an existing user, no request id is settled
    twice for a user, no chain transaction is credited twice, and no redeem
    code is used beyond its cap. *)
Theorem reachable_store_is_consistent (db : StateDB) :
  rtc money_step emptyDB db ->
  (forall a b, In a (user_subscriptions db) -> In b (user_subscriptions db) ->
     is_active a = true -> is_active b = true ->
     UserSubscription.UserID a = UserSubscription.UserID b -> a = b) /\
  (forall s, In s (user_subscriptions db) -> user_exists (UserSubscription.UserID s) db = true) /\
  (forall i j e r, balance_ledger db !! i = Some e -> balance_ledger db !! j = Some r -> i <> j ->
     (BalanceEntry.RequestID e <> "" -> BalanceEntry.UserID e = BalanceEntry.UserID r ->
      BalanceEntry.RequestID e <> BalanceEntry.RequestID r) /\
     (BalanceEntry.Reason e = BalanceReasonDeposit -> BalanceEntry.Reason r = BalanceReasonDeposit ->
      BalanceEntry.RefID e <> "" -> BalanceEntry.RefID e <> BalanceEntry.RefID r)) /\
  (forall c, In c (redeem_codes db) -> RedeemCode.MaxUses c <> 0 ->
     RedeemCode.UsedCount c <= RedeemCode.MaxUses c).
Proof.
  intros H. pose proof (money_steps_wf _ _ H emptyDB_store_wf) as [M S [C1 C2] A].
  split_and!; auto; [apply (sw_active db S)|intros s; apply sw_user; done|]. intros i j e r Hi Hj Hne.
  assert ((same_request e r = false /\ same_deposit e r = false) \/
          (same_request r e = false /\ same_deposit r e = false)) as Hd.
  { destruct (decide (i < j)%nat); [right|left]; eapply ledger_rows_distinct; eauto; lia. }
  split.
  - intros Hq Hu Heq. apply eqb_s_false in Hq.
    unfold same_request in Hd. rewrite Hu, <- Heq, Hq, !eqb_s_refl in Hd. simpl in Hd.
    destruct Hd as [[? ?]|[? ?]]; done.
  - intros He Hr Hq Heq. apply eqb_s_false in Hq.
    unfold same_deposit in Hd. rewrite He, Hr, <- Heq, Hq, !eqb_s_refl in Hd. simpl in Hd.
    destruct Hd as [[? ?]|[? ?]]; done.
Qed.

(** ** A concrete history *)
Module MoneyDemo.
Definition alice : User := User.mkUser "u1" "alice" "hash" "user" "active" None 0 0 0 0.
Definition credit (delta : Z) : BalanceEntry :=
  BalanceEntry.mkBalanceEntry "b1" "u1" delta 0 BalanceReasonAdminAdjust "" "" "" "admin" 1.
Definition registered : StateDB := Eval vm_compute in snd (InsertUser alice emptyDB).
Definition credited : StateDB := Eval vm_compute in snd (ApplyBalanceDelta (credit 5000000) registered).

(** An account at the top of the int64 range, with an open deposit of 5 USDT. *)
Definition full : StateDB := Eval vm_compute in snd (ApplyBalanceDelta (credit int64_max) registered).
Definition intent : DepositIntent :=
  DepositIntent.mkDepositIntent "d1" "u1" 0 "" "" 1000 2000 3000 0.
Definition full_open : StateDB := Eval vm_compute in
  snd (InsertDepositIntent intent (depositCandidates 5000000) 1000 full).

Lemma registered_reachable : rtc money_step emptyDB registered.
Proof.
  eapply rtc_l; [|apply rtc_refl].
  assert (registered = snd (InsertUser alice emptyDB)) as -> by (vm_compute; reflexivity).
  apply ms_insert_user. intros e [].
Qed.

Lemma credited_reachable : rtc money_step emptyDB credited.
Proof.
  eapply rtc_r; [apply registered_reachable|].
  assert (credited = snd (ApplyBalanceDelta (credit 5000000) registered)) as ->
    by (vm_compute; reflexivity).
  apply ms_apply. split; vm_compute; discriminate.
Qed.

Lemma full_open_reachable : rtc money_step emptyDB full_open.
Proof.
  eapply rtc_r; [eapply rtc_r; [apply registered_reachable|]|].
  - apply (ms_apply (credit int64_max)). split; vm_compute; discriminate.
  - assert (full_open = snd (InsertDepositIntent intent (depositCandidates 5000000) 1000
              (snd (ApplyBalanceDelta (credit int64_max) registered)))) as ->
      by (vm_compute; reflexivity).
    apply ms_open. intros a Ha. apply depositCandidates_spec in Ha; [lia|].
    vm_compute. split; discriminate.
Qed.
End MoneyDemo.


Lemma reachable_store_is_consistent_witness :
  length (balance_ledger MoneyDemo.credited) = 1%nat /\
  (forall s, In s (user_subscriptions MoneyDemo.credited) ->
     user_exists (UserSubscription.UserID s) MoneyDemo.credited = true).
Proof.
  split; [reflexivity|].
  apply (reachable_store_is_consistent MoneyDemo.credited MoneyDemo.credited_reachable).
Defined.

(** Crediting a deposit has no guard on the sum it stores: from a
    reachable store whose account is near the end of the int64 range, the
    credit goes through and stores a negative balance, while the same movement
    as an adjustment is refused. *)
Theorem deposit_credit_can_wrap :
  exists db paid db' entry,
    rtc money_step emptyDB db /\
    CreditDeposit "tx1" 5000001 1500 4000 depositCursorName 1 entry db = (Ok paid, db') /\
    balance_of (DepositIntent.UserID paid) db' < 0 /\
    ApplyBalanceDelta (BalanceEntry.mkBalanceEntry "b2" (DepositIntent.UserID paid) 5000001 0
      BalanceReasonDeposit "tx1" "" "" "" 4000) db = (Err ErrInsufficientBalance, db).
Proof.
  exists MoneyDemo.full_open. do 2 eexists. exists (scan_entry "b2" (mkTransfer "tx1" 5000001 1)).
  split; [exact MoneyDemo.full_open_reachable|]. split; [vm_compute; reflexivity|].
  split; vm_compute; reflexivity.
Qed.
