(* ===== verification/Sync.v ===== *)
(** * The live key store against the database

    What ties the snapshot the data plane reads to the tables: every console
    operation that changes a user, a subscription or a key ends by publishing,
    so that the store answers as it would after a restart.  The invariant allows
    for users whose publication is still due ([in_step_but]); the sweep that
    closes subscriptions publishes nothing, and needs not to: a key it touches
    is refused before and after ([agree]). *)

From Stdlib Require Import Ascii String.
From stdpp Require Import base gmap list strings.
From S2P Require Import Prelude Hoare Counters Model Store Keys Service Totp Accounts.

(** ** What a restart loads for one key *)

(** The columns of a subscription a snapshot is made of. *)
Definition shape (s : UserSubscription) : UserSubscription :=
  UserSubscription.mkUserSubscription (UserSubscription.ID s) (UserSubscription.UserID s) ""
    (UserSubscription.PlanSnapshotJSON s) (UserSubscription.StartsAtNs s) (UserSubscription.ExpiresAtNs s)
    0 0 false 0 (UserSubscription.Status s).

Definition of_user (u : string) (s : UserSubscription) : bool := UserSubscription.UserID s ==s u.

Definition rows_of (u : string) (db : StateDB) : list UserSubscription :=
  map shape (List.filter (of_user u) (user_subscriptions db)).

Definition standing (u : string) (db : StateDB) : option (string * string) :=
  match GetUser u db with Ok user => Some (User.Status user, User.Role user) | Err _ => None end.

Definition plan_of (rows : list UserSubscription) : PlanSnapshot :=
  match DecidingSubscription rows with
  | Some s => SnapshotForPlan (Some s) (decode_snapshot (UserSubscription.PlanSnapshotJSON s))
  | None => PlanSnapshot.zero
  end.

Definition entry (k : AccessKey) (st : string * string) (plan : PlanSnapshot) : KeyState :=
  KeyState.mkKeyState (AccessKey.ID k) (AccessKey.UserID k) (AccessKey.SecretHash k)
    (AccessKey.Scope k) (AccessKey.Status k) (AccessKey.ExpiresAtNs k) (AccessKey.Platforms k)
    (negb (length (AccessKey.IPAllowlist k) =? 0)%nat) (parseAllowlist (AccessKey.IPAllowlist k))
    (fst st) (snd st) plan.

Definition entry_of (db : StateDB) (k : AccessKey) : option KeyState :=
  if AccessKey.Status k ==s KeyStatusActive
  then (fun st => entry k st (plan_of (rows_of (AccessKey.UserID k) db))) <$> standing (AccessKey.UserID k) db
  else None.

Lemma DecidingSubscription_shape (l : list UserSubscription) :
  DecidingSubscription (map shape l) = shape <$> DecidingSubscription l.
Proof.
  unfold DecidingSubscription. change (@None UserSubscription) with (shape <$> @None UserSubscription) at 1.
  generalize (@None UserSubscription). induction l as [|x l IH]; intros b; simpl; [done|].
  rewrite <- IH. f_equal. destruct b as [b|]; [|done]. simpl.
  unfold is_active, newerSubscription. simpl. repeat case_match; simpl in *; congruence.
Qed.

Lemma plan_of_shape (l : list UserSubscription) :
  plan_of (map shape l) = plan_of l.
Proof. unfold plan_of. rewrite DecidingSubscription_shape. by destruct (DecidingSubscription l). Qed.

Lemma loaded_snapshot_rows (u : string) (db : StateDB) :
  subs_wf db -> user_readable u db -> loaded_snapshot u db = plan_of (rows_of u db).
Proof.
  intros W Hr. unfold loaded_snapshot, rows_of. rewrite planSnapshots_lookup, readable_rows_all, plan_of_shape by done.
  rewrite (DecidingSubscription_perm _ (List.filter (of_user u) (user_subscriptions db))).
  - unfold plan_of. by destruct (DecidingSubscription _).
  - apply NoDup_map_filter. unfold ListUserSubscriptions.
    match goal with |- NoDup (map _ (sort_by ?le ?t)) =>
      change (NoDup (UserSubscription.ID <$> sort_by le t)); rewrite (sort_by_perm le t) end. apply (sw_ids db W).
  - apply filter_perm, sort_by_perm.
Qed.

Lemma standing_In (db : StateDB) (user : User) :
  users_wf db -> In user (users db) -> standing (User.ID user) db = Some (User.Status user, User.Role user).
Proof. intros W Hu. unfold standing. by rewrite (GetUser_In db user W Hu). Qed.

Lemma entry_new (k : AccessKey) (user : User) (plan : PlanSnapshot) :
  newKeyState k user plan = entry k (User.Status user, User.Role user) plan.
Proof. done. Qed.

Lemma load_entry (db : StateDB) (k : AccessKey) :
  keys_wf db -> subs_wf db -> user_readable (AccessKey.UserID k) db -> In k (access_keys db) ->
  LoadFromState db !! AccessKey.ID k = entry_of db k.
Proof.
  intros W Ws Hr Hk. destruct (proj1 (user_exists_spec _ _) (kw_owner db W k Hk)) as (user & Hu & Hid).
  rewrite (loaded_key db k user W Hk Hu Hid). unfold entry_of.
  rewrite <- Hid, (standing_In db user (kw_users db W) Hu), Hid, loaded_snapshot_rows by done. done.
Qed.

(** ** Agreement and the invariant *)

(** Two entries are the same, or no request is served by either from [T] on. *)
Definition agree (T : Z) (a b : option KeyState) : Prop :=
  a = b \/ forall t, T <= t -> Usable a t = false /\ Usable b t = false.

#[global] Instance agree_equivalence (T : Z) : Equivalence (agree T).
Proof.
  split.
  - intros a. by left.
  - intros a b [->|H]; [by left|]. right. intros t Ht. destruct (H t Ht). done.
  - intros a b c [->|H] [->|H']; [by left|by right|by right|]. right. intros t Ht.
    destruct (H t Ht), (H' t Ht). done.
Qed.

(** The constraints of the tables, snapshots that can be read and an
    administrator who can sign in. *)
Record sound (db : StateDB) : Prop := {
  so_checks : forall u, In u (users db) -> user_check_ok u = true;
  so_keys : keys_wf db;
  so_subs : subs_wf db;
  so_read : forall u, user_readable u db;
  so_admin : has_admin db
}.

Record in_step_but (T : Z) (B : string -> Prop) (s : Service) : Prop := {
  is_sound : sound (engine s);
  is_gone : forall id, (forall k, In k (access_keys (engine s)) -> AccessKey.ID k <> id) -> live s !! id = None;
  is_live : forall k, In k (access_keys (engine s)) -> ~ B (AccessKey.UserID k) ->
    agree T (live s !! AccessKey.ID k) (entry_of (engine s) k)
}.

Definition in_step_at (T : Z) (s : Service) : Prop := in_step_but T (fun _ => False) s.

(** What the invariant says of every key id. *)
Lemma in_step_load (T : Z) (s : Service) (id : string) :
  in_step_at T s -> agree T (live s !! id) (LoadFromState (engine s) !! id).
Proof.
  intros [[_ W Ws Hr _] Hg Hl].
  destruct (decide (Exists (fun k => AccessKey.ID k = id) (access_keys (engine s)))) as [H|H].
  - apply Exists_exists in H as (k & Hk & <-). apply list_elem_of_In in Hk.
    rewrite load_entry by auto. apply Hl; tauto.
  - assert (forall k, In k (access_keys (engine s)) -> AccessKey.ID k <> id) as Hno.
    { intros k Hk E. apply H, Exists_exists. exists k. split; [by apply list_elem_of_In|done]. }
    rewrite (Hg id Hno), no_key_loaded by done. reflexivity.
Qed.

(** ** Writes and publications *)

(** A write to the tables that leaves the keys alone and everything the
    snapshot of a user outside [U] is made of. *)
Record touches (U : string -> Prop) (db db' : StateDB) : Prop := {
  to_sound : sound db';
  to_keys : access_keys db' = access_keys db;
  to_rest : forall v, ~ U v -> standing v db' = standing v db /\ rows_of v db' = rows_of v db
}.

Lemma entry_of_eq (db db' : StateDB) (k : AccessKey) :
  standing (AccessKey.UserID k) db' = standing (AccessKey.UserID k) db ->
  rows_of (AccessKey.UserID k) db' = rows_of (AccessKey.UserID k) db -> entry_of db' k = entry_of db k.
Proof. unfold entry_of. by intros -> ->. Qed.

Lemma in_step_write (T : Z) (B U : string -> Prop) (s : Service) (db' : StateDB) :
  in_step_but T B s -> touches U (engine s) db' ->
  in_step_but T (fun v => B v \/ U v) (set_engine db' s).
Proof.
  intros [Hs Hg Hl] [Hs' Hk Hr]. split; simpl; [done|rewrite Hk; done|]. rewrite Hk. intros k Hin HB.
  rewrite (entry_of_eq (engine s) db') by (apply Hr; tauto). apply Hl; tauto.
Qed.

Lemma in_step_weaken (T : Z) (B B' : string -> Prop) (s : Service) :
  in_step_but T B s -> (forall k, In k (access_keys (engine s)) -> B (AccessKey.UserID k) -> B' (AccessKey.UserID k)) ->
  in_step_but T B' s.
Proof. intros [Hs Hg Hl] HB. split; [done..|]. intros k Hk Hn. apply Hl; auto. Qed.

Lemma in_step_usage (T : Z) (B : string -> Prop) (c : Counters) (s : Service) :
  in_step_but T B s -> in_step_but T B (set_usage c s).
Proof. intros [Hs Hg Hl]. by split. Qed.

Lemma fold_publish_lookup (user : User) (snap : PlanSnapshot) (rows : list AccessKey) (m : KeyStore) (id : string) :
  NoDup (map AccessKey.ID rows) ->
  fold_left (publish_row user snap) rows m !! id =
    match List.find (fun k => AccessKey.ID k ==s id) rows with
    | Some k => if AccessKey.Status k ==s KeyStatusActive then Some (newKeyState k user snap) else None
    | None => m !! id
    end.
Proof.
  revert m. induction rows as [|k rows IH]; intros m Hn; simpl; [done|].
  apply list.NoDup_cons in Hn as [Hnew Hn]. rewrite IH by done. unfold publish_row.
  destruct (AccessKey.ID k ==s id) eqn:E.
  - apply eqb_s_true in E as <-. rewrite (proj2 (find_none_all _ rows)).
    + destruct (AccessKey.Status k ==s KeyStatusActive); simpl; [apply lookup_insert_eq|apply lookup_delete_eq].
    + intros r Hr. apply eqb_s_false. intros Ei. apply Hnew. rewrite <- Ei. apply list_elem_of_In, in_map_iff. eauto.
  - apply eqb_s_false in E. destruct (List.find _ rows); [done|].
    destruct (AccessKey.Status k ==s KeyStatusActive); simpl; [by apply lookup_insert_ne|by apply lookup_delete_ne].
Qed.

Lemma NoDup_sort_map {R K} (col : R -> K) (le : R -> R -> bool) (l : list R) :
  NoDup (map col l) -> NoDup (map col (sort_by le l)).
Proof.
  intros H. change (NoDup (col <$> sort_by le l)). rewrite (sort_by_perm le l). exact H.
Qed.

Lemma keys_by_user_In (u : string) (db : StateDB) (k : AccessKey) :
  In k (ListAccessKeysByUser u db) <-> In k (access_keys db) /\ AccessKey.UserID k = u.
Proof. unfold ListAccessKeysByUser. rewrite sort_by_In, sql_where_In, eqb_s_true. done. Qed.

(** The live store once every key of [u] was published with [snap]. *)
Lemma published_lookup (u : string) (user : User) (snap : PlanSnapshot) (db : StateDB) (m : KeyStore) (k : AccessKey) :
  keys_wf db -> In k (access_keys db) ->
  fold_left (publish_row user snap) (ListAccessKeysByUser u db) m !! AccessKey.ID k =
    if AccessKey.UserID k ==s u
    then if AccessKey.Status k ==s KeyStatusActive then Some (newKeyState k user snap) else None
    else m !! AccessKey.ID k.
Proof.
  intros W Hk. rewrite fold_publish_lookup by (apply NoDup_sort_map, NoDup_map_filter, (kw_keys db W)).
  destruct (AccessKey.UserID k ==s u) eqn:E.
  - apply eqb_s_true in E. destruct (List.find _ _) as [k'|] eqn:F.
    + apply find_some_In in F as [Hin Hid]. apply keys_by_user_In in Hin as [Hin _]. apply eqb_s_true in Hid.
      assert (k' = k) as -> by (eapply NoDup_map_inj; [apply (kw_keys db W)|done..]). done.
    + pose proof (proj1 (find_none_all _ _) F k) as H.
      cbv beta in H. rewrite eqb_s_refl in H. discriminate H. by apply keys_by_user_In.
  - apply eqb_s_false in E. rewrite (proj2 (find_none_all _ _)); [done|]. intros r Hr. apply eqb_s_false. intros Hid.
    apply keys_by_user_In in Hr as [Hr Hu]. apply E. rewrite <- Hu. f_equal.
    eapply NoDup_map_inj; [apply (kw_keys db W)|done..].
Qed.

Lemma published_gone (u : string) (user : User) (snap : PlanSnapshot) (db : StateDB) (m : KeyStore) (id : string) :
  keys_wf db -> (forall k, In k (access_keys db) -> AccessKey.ID k <> id) ->
  fold_left (publish_row user snap) (ListAccessKeysByUser u db) m !! id = m !! id.
Proof.
  intros W Hno. rewrite fold_publish_lookup by (apply NoDup_sort_map, NoDup_map_filter, (kw_keys db W)).
  rewrite (proj2 (find_none_all _ _)); [done|]. intros r Hr. apply eqb_s_false, Hno.
  apply keys_by_user_In in Hr. tauto.
Qed.

Lemma userPlanSnapshot_run (u : string) (s : Service) :
  user_readable u (engine s) -> userPlanSnapshot u s = (Ok (loaded_snapshot u (engine s)), s).
Proof.
  intros Hr. pose proof (userPlanSnapshot_succeeds u s Hr) as H.
  destruct (userPlanSnapshot u s) as [[snap|e] s'] eqn:E; [|done].
  destruct (userPlanSnapshot_ok u s s' snap Hr E) as [-> ->]. done.
Qed.

(** Republishing a user cannot fail and brings the user's keys back in step. *)
Lemma wp_republish (T : Z) (B : string -> Prop) (u : string) (Q : unit -> Service -> Prop) (X : Service -> Prop)
    (s : Service) :
  in_step_but T B s -> user_exists u (engine s) = true ->
  (forall s', engine s' = engine s -> in_step_but T (fun v => B v /\ v <> u) s' -> Q tt s') ->
  wp (republishUserKeys u) Q X s.
Proof.
  intros [So Hg Hl] Hu HQ. destruct So as [Hc W Ws Hr Ha].
  apply user_exists_spec in Hu as (user & Hu & <-). unfold wp, republishUserKeys, mbind, proc_bind, read.
  rewrite (GetUser_In _ user (kw_users _ W) Hu). simpl. rewrite userPlanSnapshot_run by done. simpl.
  apply HQ; [done|]. split; simpl; [done| |].
  - intros id Hno. rewrite published_gone by done. by apply Hg.
  - intros k Hk HB. rewrite published_lookup by done. destruct (AccessKey.UserID k ==s User.ID user) eqn:E.
    + apply eqb_s_true in E. unfold entry_of. rewrite E, standing_In, <- loaded_snapshot_rows by (done || apply W).
      by destruct (AccessKey.Status k ==s KeyStatusActive).
    + apply eqb_s_false in E. apply Hl; tauto.
Qed.

(** The rest of a handler that wrote for one user and publishes for it. *)
Lemma wp_publish_user (T : Z) (u : string) (Q : unit -> Service -> Prop) (X : Service -> Prop) (s : Service) :
  in_step_but T (fun v => v = u) s -> user_exists u (engine s) = true ->
  (forall s', engine s' = engine s -> in_step_at T s' -> Q tt s') -> wp (republishUserKeys u) Q X s.
Proof.
  intros Hs Hu HQ. eapply wp_republish; [exact Hs|done|]. intros s' E H. apply HQ; [done|].
  eapply in_step_weaken; [exact H|]. simpl. tauto.
Qed.

(** ** Rules for the calls of a handler *)

Lemma wp_call {A} (m : DbTx A) (h : StateErr -> SvcErr) (Q : A -> Service -> Prop) (X : Service -> Prop) (s : Service) :
  (forall a db', transact m (engine s) = (Ok a, db') -> Q a (set_engine db' s)) -> X s ->
  wp (call (transact m) h) Q X s.
Proof.
  intros HQ HX. unfold wp, call. destruct (transact m (engine s)) as [[a|e] db'] eqn:E; [by apply HQ|].
  apply transact_err in E as [-> _]. by rewrite set_engine_id.
Qed.

Lemma wp_read {A} (f : StateDB -> res StateErr A) (h : StateErr -> SvcErr) (Q : A -> Service -> Prop)
    (X : Service -> Prop) (s : Service) :
  (forall a, f (engine s) = Ok a -> Q a s) -> X s -> wp (read f h) Q X s.
Proof. intros HQ HX. unfold wp, read. destruct (f (engine s)) eqn:E; auto. Qed.

Lemma wp_count (f : Counters -> Counters) (Q : unit -> Service -> Prop) (X : Service -> Prop) (s : Service) :
  Q tt (set_usage (f (usage s)) s) -> wp (count f) Q X s.
Proof. done. Qed.

Lemma wp_get (Q : Service -> Service -> Prop) (X : Service -> Prop) (s : Service) : Q s s -> wp svc_get Q X s.
Proof. done. Qed.

Ltac svc_wp :=
  repeat (lazymatch goal with
          | |- wp (read _ _) _ _ _ => apply wp_read; [intros ? ?|try done]
          | |- wp svc_get _ _ _ => apply wp_get
          | |- wp (count _) _ _ _ => apply wp_count
          | _ => wp_step
          end).

(** A write that concerns no user's keys. *)
Lemma in_step_quiet (T : Z) (s : Service) (db' : StateDB) :
  in_step_at T s -> touches (fun _ => False) (engine s) db' -> in_step_at T (set_engine db' s).
Proof.
  intros Hs Ht. eapply in_step_weaken; [by eapply in_step_write|]. simpl. tauto.
Qed.

(** ** What the writes touch *)

Lemma keys_wf_frame (db db' : StateDB) :
  keys_wf db -> users db' = users db -> access_keys db' = access_keys db -> keys_wf db'.
Proof. intros [H1 H2 H3 H4] Eu Ek. split; unfold user_exists in *; rewrite ?Eu, ?Ek; done. Qed.

Lemma touches_frame (U : string -> Prop) (db db' : StateDB) :
  sound db -> users db' = users db -> access_keys db' = access_keys db ->
  user_subscriptions db' = user_subscriptions db ->
  (forall p, plan_exists p db = true -> plan_exists p db' = true) -> touches U db db'.
Proof.
  intros [Hc W Ws Hr Ha] Eu Ek Es Ep. split; [split|done|].
  - by rewrite Eu.
  - by apply (keys_wf_frame db).
  - apply (subs_wf_mono db); [done..| |done]. intros u. unfold user_exists. by rewrite Eu.
  - unfold user_readable. rewrite Es. exact Hr.
  - unfold has_admin. by rewrite Eu.
  - intros v _. unfold standing, GetUser, rows_of. by rewrite Eu, Es.
Qed.

Lemma rows_of_update (v : string) (hit : UserSubscription -> bool) (f : UserSubscription -> UserSubscription)
    (db : StateDB) :
  (forall r, In r (user_subscriptions db) -> hit r = true ->
     shape (f r) = shape r \/ (UserSubscription.UserID r <> v /\ UserSubscription.UserID (f r) <> v)) ->
  rows_of v (set_user_subscriptions (sql_update hit f (user_subscriptions db)) db) = rows_of v db.
Proof.
  unfold rows_of, sql_update. simpl. induction (user_subscriptions db) as [|r l IH]; intros H; simpl; [done|].
  specialize (IH (fun x Hx => H x (or_intror Hx))).
  destruct (hit r) eqn:Eh; [|destruct (of_user v r); simpl; by rewrite IH].
  destruct (H r (or_introl eq_refl) Eh) as [E|[Hn Hn']].
  - assert (of_user v (f r) = of_user v r) as ->.
    { unfold of_user. by rewrite (f_equal UserSubscription.UserID E : UserSubscription.UserID (f r) = _). }
    destruct (of_user v r); simpl; rewrite IH; congruence.
  - assert (of_user v (f r) = false) as -> by (by apply eqb_s_false).
    assert (of_user v r = false) as -> by (by apply eqb_s_false). exact IH.
Qed.

Lemma touches_subscriptions (U : string -> Prop) (l : list UserSubscription) (db : StateDB) :
  sound db -> subs_wf (set_user_subscriptions l db) -> (forall s, In s l -> readable s = true) ->
  (forall v, ~ U v -> rows_of v (set_user_subscriptions l db) = rows_of v db) ->
  touches U db (set_user_subscriptions l db).
Proof.
  intros [Hc W Ws Hr Ha] Ws' Hr' Hv. split; [split|done|]; try done.
  - by apply (keys_wf_frame db).
  - intros u s Hs _. by apply Hr'.
  - intros v Hn. split; [done|by apply Hv].
Qed.

Lemma all_rows_readable (db : StateDB) (s : UserSubscription) :
  sound db -> In s (user_subscriptions db) -> readable s = true.
Proof. intros So Hs. by apply (so_read db So (UserSubscription.UserID s)). Qed.

(** UPDATE by id of a row of [u] to another row of [u]. *)
Lemma touches_update (U : string -> Prop) (id : string) (p : UserSubscription -> bool)
    (f : UserSubscription -> UserSubscription) (n : nat) (db db' : StateDB) :
  sound db -> update_subscription id p f db = Ok (n, db') ->
  (forall r, UserSubscription.ID r = id -> UserSubscription.ID (f r) = id) ->
  (forall r, In r (user_subscriptions db) -> UserSubscription.ID r = id -> readable (f r) = true /\
     (shape (f r) = shape r \/ (U (UserSubscription.UserID r) /\ U (UserSubscription.UserID (f r))))) ->
  touches U db db'.
Proof.
  intros So H Hid Hrow. pose proof (update_subscription_wf id p f n db db' Hid (so_subs db So) H) as Ws'.
  apply update_subscription_ok in H as (_ & -> & _).
  apply touches_subscriptions; [done|exact Ws'|..].
  - intros s Hs. apply sql_update_In in Hs as (r & Hr & ->).
    destruct (_ && _) eqn:E; [|by apply (all_rows_readable db)]. bool_prop. by apply Hrow.
  - intros v Hv. apply rows_of_update. intros r Hr E. bool_prop.
    destruct (Hrow r Hr) as [_ [?|[H1 H2]]]; [done|by left|]. right. split; intros <-; done.
Qed.

Lemma touches_insert (U : string -> Prop) (s : UserSubscription) (x : unit) (db db' : StateDB) :
  sound db -> insert_subscription s db = Ok (x, db') -> readable s = true -> U (UserSubscription.UserID s) ->
  touches U db db'.
Proof.
  intros So H Hr HU. pose proof (insert_subscription_wf s x db db' (so_subs db So) H) as Ws'.
  apply insert_subscription_ok in H as (-> & _). apply touches_subscriptions; [done|exact Ws'|..].
  - intros r Hin. apply in_app_iff in Hin as [Hin|[<-|[]]]; [by apply (all_rows_readable db)|done].
  - intros v Hv. unfold rows_of. simpl. rewrite List.filter_app. simpl. unfold of_user at 2.
    destruct (_ ==s v) eqn:E; [|by rewrite app_nil_r]. apply eqb_s_true in E. subst v. done.
Qed.

Lemma touches_trans (U : string -> Prop) (a b c : StateDB) : touches U a b -> touches U b c -> touches U a c.
Proof.
  intros [_ K1 R1] [S2 K2 R2]. split; [done|congruence|]. intros v Hv. destruct (R1 v Hv), (R2 v Hv).
  split; congruence.
Qed.

(** ** Users *)

Lemma GetUser_update (v id : string) (f : User -> User) (db : StateDB) :
  (forall u, User.ID (f u) = User.ID u) ->
  GetUser v (set_users (sql_update (fun u => User.ID u ==s id) f (users db)) db) =
    match GetUser v db with Ok u => Ok (if User.ID u ==s id then f u else u) | Err e => Err e end.
Proof.
  intros Hid. unfold GetUser, sql_first. simpl. induction (users db) as [|x l IH]; simpl; [done|].
  assert (User.ID (if User.ID x ==s id then f x else x) = User.ID x) as -> by (destruct (_ ==s id); auto).
  destruct (User.ID x ==s v) eqn:E; [|exact IH]. done.
Qed.

Lemma touches_users (U : string -> Prop) (id : string) (f : User -> User) (db : StateDB) :
  let db' := set_users (sql_update (fun u => User.ID u ==s id) f (users db)) db in
  sound db -> (forall u, User.ID (f u) = User.ID u) -> has_admin db' ->
  (forall u, In u (users db) -> User.ID u = id -> user_check_ok (f u) = true) ->
  (U id \/ forall u, User.Status (f u) = User.Status u /\ User.Role (f u) = User.Role u) -> touches U db db'.
Proof.
  intros db' [Hc W Ws Hr Ha] Hid Ha' Hc' HU.
  assert (forall u, user_exists u db = true -> user_exists u db' = true) as Hex.
  { intros u Hu. apply user_exists_spec in Hu as (x & Hx & <-). apply user_exists_spec.
    exists (if User.ID x ==s id then f x else x). split; [apply sql_update_In; eauto|]. destruct (_ ==s id); auto. }
  split; [split|done|]; try done.
  - intros u Hu. apply sql_update_In in Hu as (r & Hin & ->). destruct (User.ID r ==s id) eqn:E; [|auto].
    apply Hc'; [done|by apply eqb_s_true].
  - destruct W as [H1 H2 H3 H4]. split; simpl; auto. by rewrite sql_update_map.
  - by apply (subs_wf_mono db).
  - intros v Hv. split; [|done]. unfold standing, db'. rewrite GetUser_update by done.
    destruct (GetUser v db) as [u|e] eqn:E; [|done]. apply GetUser_Some in E as [_ <-].
    destruct (User.ID u ==s id) eqn:Ei; [|done]. apply eqb_s_true in Ei.
    destruct HU as [HU|HU]; [by rewrite Ei in Hv|]. by destruct (HU u) as [-> ->].
Qed.

(** A change to one key row, followed by the matching change to the live
    store. *)
Lemma in_step_key (T : Z) (s s' : Service) (kid : string) :
  in_step_at T s -> keys_wf (engine s') ->
  users (engine s') = users (engine s) -> plans (engine s') = plans (engine s) ->
  user_subscriptions (engine s') = user_subscriptions (engine s) ->
  (forall k, AccessKey.ID k <> kid -> In k (access_keys (engine s')) <-> In k (access_keys (engine s))) ->
  (forall id, id <> kid -> live s' !! id = live s !! id) ->
  live s' !! kid = LoadFromState (engine s') !! kid -> in_step_at T s'.
Proof.
  intros [[Hc W Ws Hr Ha] Hg Hl] W' Eu Ep Es Hk Hlive Hkid.
  assert (sound (engine s')) as So'.
  { split; [by rewrite Eu|done|by apply (subs_wf_frame (engine s))|unfold user_readable; by rewrite Es|unfold has_admin; by rewrite Eu]. }
  split; [done|..].
  - intros id Hno. destruct (decide (id = kid)) as [->|Hne]; [by rewrite Hkid, no_key_loaded|].
    rewrite Hlive by done. apply Hg. intros k Hin E. subst id. by apply (Hno k); [apply Hk|].
  - intros k Hin _. destruct (decide (AccessKey.ID k = kid)) as [<-|Hne].
    + rewrite Hkid, load_entry; [done|done|apply So'..|done].
    + rewrite Hlive, (entry_of_eq (engine s)) by (done || (unfold standing, GetUser, rows_of; by rewrite ?Eu, ?Es)).
      apply Hl; [by apply Hk|tauto].
Qed.
