(* ===== verification/Patch.v ===== *)
(** * Patch bodies

    [src/internal/service/patch_helpers.go]: the JSON object a PATCH request
    carries, from the decoded value on, with the readers of its fields.  A JSON
    number decodes to a double, so a field that must be an integer is read
    through one. *)

From Stdlib Require Import Ascii String SpecFloat.
From stdpp Require Import base gmap list strings.
From S2P Require Import Prelude Counters Model Store GoStrings Keys Service.

#[local] Set Warnings "-register-all".

Inductive Json :=
| JNull
| JBool (b : bool)
| JNumber (f : spec_float)
| JString (s : string)
| JArray (l : list Json)
| JObject (l : list (string * Json)).

Abbreviation mergePatch := (list (string * Json)).

(** Decoding into a Go map: of a repeated key the last value stays. *)
Fixpoint last_wins (l : mergePatch) : mergePatch :=
  match l with
  | [] => []
  | kv :: rest => if existsb (fun x => fst x ==s fst kv) rest then last_wins rest else kv :: last_wins rest
  end.

Definition patch_field (field : string) (p : mergePatch) : option Json :=
  match List.find (fun kv => fst kv ==s field) p with Some (_, v) => Some v | None => None end.

Definition is_null (v : Json) : bool := match v with JNull => true | _ => false end.

(** [parseMergePatch] on the decoded body, and [validateFields]. *)
Definition parseMergePatch (body : Json) : option mergePatch :=
  match body with
  | JObject (kv :: rest) => Some (last_wins (kv :: rest))
  | _ => None
  end.

Definition validateFields (allowed : list string) (p : mergePatch) : bool :=
  forallb (fun kv => existsb (String.eqb (fst kv)) allowed && negb (is_null (snd kv))) p.

(** The optional fields: [Ok None] is absent, [Err] a field of the wrong shape. *)
Definition optionalString (field : string) (p : mergePatch) : res SvcErr (option string) :=
  match patch_field field p with
  | None => Ok None
  | Some (JString v) => Ok (Some v)
  | Some _ => Err InvalidArg
  end.

Definition optionalNonEmptyString (field : string) (p : mergePatch) : res SvcErr (option string) :=
  match patch_field field p with
  | None => Ok None
  | Some (JString v) => if TrimSpace v ==s "" then Err InvalidArg else Ok (Some (TrimSpace v))
  | Some _ => Err InvalidArg
  end.

Definition optionalBool (field : string) (p : mergePatch) : res SvcErr (option bool) :=
  match patch_field field p with
  | None => Ok None
  | Some (JBool v) => Ok (Some v)
  | Some _ => Err InvalidArg
  end.

(** The integer a double stands for, where it stands for one. *)
Definition float_int (f : spec_float) : option Z :=
  match f with
  | S754_zero _ => Some 0
  | S754_finite neg m e =>
      let v := if 0 <=? e then Some (Zpos m * 2 ^ e)
               else if Zpos m mod 2 ^ (- e) =? 0 then Some (Zpos m / 2 ^ (- e)) else None in
      (if neg then Z.opp else id) <$> v
  | _ => None
  end.

(** [float64(math.MaxInt)] is 2^63, which passes the guard; the conversion of
    that one double is the lowest integer on amd64. *)
Definition optionalInt (field : string) (p : mergePatch) : res SvcErr (option Z) :=
  match patch_field field p with
  | None => Ok None
  | Some (JNumber f) =>
      match float_int f with
      | Some v => if (2 ^ 63 <? v) || (v <? - 2 ^ 63) then Err InvalidArg else Ok (Some (wrap64 v))
      | None => Err InvalidArg
      end
  | Some _ => Err InvalidArg
  end.

Fixpoint string_items (l : list Json) : option (list string) :=
  match l with
  | [] => Some []
  | JString s :: rest => match string_items rest with Some r => Some (s :: r) | None => None end
  | _ :: _ => None
  end.

Definition optionalStringSlice (field : string) (p : mergePatch) : res SvcErr (option (list string)) :=
  match patch_field field p with
  | None => Ok None
  | Some (JArray l) => match string_items l with Some v => Ok (Some v) | None => Err InvalidArg end
  | Some _ => Err InvalidArg
  end.

(** ** Normalizing lists *)

Fixpoint dedup (seen l : list string) : list string :=
  match l with
  | [] => []
  | x :: rest => if (x ==s "") || existsb (String.eqb x) seen then dedup seen rest else x :: dedup (x :: seen) rest
  end.

Definition normalizeStringList (values : list string) : list string := dedup [] (map TrimSpace values).
