(* ===== verification/Criteria.v ===== *)
(** * Node criteria: vocabularies and validation

    [src/internal/platform/model_codec.go]: what an operator may write into the
    criteria of a platform, and into the IP tiers of a plan. *)

From Stdlib Require Import Ascii String.
From stdpp Require Import base list strings.
From S2P Require Import Prelude GoStrings.

Definition in_words (words : list string) (v : string) : bool := existsb (String.eqb v) words.

Definition nodeIPTypes : list string :=
  ["unknown"; "residential"; "mobile"; "business"; "wireless"; "datacenter"; "non_residential"; "conflicting"]%string.

Definition nodePurityBands : list string :=
  ["unknown"; "excellent"; "clean"; "fair"; "mixed"; "poor"; "review"]%string.

Definition between (lo hi : ascii) (c : ascii) : bool :=
  ((nat_of_ascii lo <=? nat_of_ascii c) && (nat_of_ascii c <=? nat_of_ascii hi))%nat.

Definition isLowerAlpha2 (s : string) : bool :=
  match s with
  | String a (String b EmptyString) => between "a" "z" a && between "a" "z" b
  | _ => false
  end.

Definition region_code (r : string) : string :=
  match r with String "!"%char rest => rest | _ => r end.

Definition ValidateRegionFilters (filters : list string) : bool :=
  forallb (fun r => isLowerAlpha2 (region_code r)) filters.

Definition isProtocolName (value : string) : bool :=
  negb (value ==s "") && (String.length value <=? 32)%nat
  && forallb (fun c => between "a" "z" c || between "0" "9" c || Ascii.eqb c "-") (list_ascii_of_string value).

Definition ValidateNodeCriteria (ipTypes purityBands subscriptionIDs protocols : list string) : bool :=
  forallb (fun v => in_words nodeIPTypes (ToLower (TrimSpace v))) ipTypes
  && forallb (fun v => in_words nodePurityBands (ToLower (TrimSpace v))) purityBands
  && forallb (fun v => negb (TrimSpace v ==s "")) subscriptionIDs
  && forallb isProtocolName protocols.
