(* ===== verification/Access.v ===== *)
(** * Access-key handlers

    [src/internal/service/control_plane_accesskey.go]: minting, patching and
    deleting keys, with the plan's key limit.

    The credential generator and the hash with the pepper are inputs: the
    handler is modelled from the id, the secret and the hash on. *)

From Stdlib Require Import Ascii String.
From stdpp Require Import base gmap list strings.
From S2P Require Import Prelude Counters Model Store GoStrings Netip Keys Service Totp Accounts Sync Patch.

(** ** Allowlists *)

(** One entry of an allowlist in canonical form; [None] if it is neither a
    prefix nor an address. *)
Definition canonical_entry (trimmed : string) : option string :=
  match ParsePrefix trimmed with
  | Some p => Some (prefix_string (Masked p))
  | None => match ParseAddr trimmed with Some a => Some (addr_string a) | None => None end
  end.

Fixpoint canonical_entries (l : list string) : option (list string) :=
  match l with
  | [] => Some []
  | x :: rest =>
      if x ==s "" then canonical_entries rest
      else match canonical_entry x, canonical_entries rest with
           | Some c, Some r => Some (c :: r)
           | _, _ => None
           end
  end.

Definition normalizeIPAllowlist (values : list string) : res SvcErr (list string) :=
  match canonical_entries (map TrimSpace values) with
  | Some l => Ok (dedup [] l)
  | None => Err InvalidArg
  end.

(** ** The handlers *)

Record AccessKeyInput := mkAccessKeyInput {
  in_Name : string;
  in_Platforms : list string;
  in_IPAllowlist : list string;
  in_ExpiresInDays : Z
}.

(** The key limit of the deciding subscription's plan, which must be active. *)
Definition maxKeysForPlan (userID : string) : Svc Z :=
  s ← svc_get;
  match currentSubscription userID (engine s) with
  | None => svc_fail Conflict
  | Some sub =>
      if UserSubscription.Status sub <>s SubscriptionStatusActive then svc_fail Conflict
      else plan ← or_fail (planFromSnapshotJSON (UserSubscription.PlanSnapshotJSON sub)) Internal;
           mret (Plan.MaxKeys plan)
  end.

Definition active_keys (userID : string) (db : StateDB) : Z :=
  Z.of_nat (length (List.filter (fun row => AccessKey.Status row ==s KeyStatusActive)
    (ListAccessKeysByUser userID db))).

Definition checkKeyAllowance (user : User) : Svc unit :=
  limit ← maxKeysForPlan (User.ID user);
  if limit <=? 0 then mret tt
  else s ← svc_get;
       check (active_keys (User.ID user) (engine s) <? limit) Conflict.

Definition insertAccessKeyWithinAllowance (user : User) (row : AccessKey) : Svc unit :=
  _ ← checkKeyAllowance user;
  call (InsertAccessKey row) internal_error.

Definition new_row (userID id hash name : string) (platforms allowlist : list string) (expires nowNs : Z)
    : AccessKey :=
  AccessKey.mkAccessKey id userID name hash platforms allowlist KeyScopeProxy KeyStatusActive expires 0 nowNs.

(** The credential is generated as ([id], [secret]); [hash] is the peppered
    hash of the secret. *)
Definition CreateAccessKey (userID : string) (input : AccessKeyInput) (nowNs : Z) (id secret hash : string)
    : Svc (AccessKey * string) :=
  user ← read (GetUser userID) mapUserLookupError;
  let name := TrimSpace (in_Name input) in
  _ ← check (name <>s "") InvalidArg;
  allowlist ← lift_res (normalizeIPAllowlist (in_IPAllowlist input));
  _ ← check (0 <=? in_ExpiresInDays input) InvalidArg;
  let row := new_row userID id hash name (normalizeStringList (in_Platforms input)) allowlist
               (if 0 <? in_ExpiresInDays input then expiryFromDays (in_ExpiresInDays input) nowNs else 0) nowNs in
  _ ← insertAccessKeyWithinAllowance user row;
  _ ← publishKey row user;
  mret (row, FormatCredential id secret).

Definition lookupUserKey (userID keyID : string) : Svc AccessKey :=
  row ← read (GetAccessKey keyID) (fun e => match e with ErrNotFound => NotFound | _ => Internal end);
  if AccessKey.UserID row <>s userID then svc_fail NotFound else mret row.

Definition accessKeyPatchAllowedFields : list string := ["name"; "platforms"; "ip_allowlist"; "status"]%string.

Definition patched_key (row : AccessKey) (name : option string) (platforms allowlist : option (list string))
    (status : option string) : AccessKey :=
  AccessKey.mkAccessKey (AccessKey.ID row) (AccessKey.UserID row) (default (AccessKey.Name row) name)
    (AccessKey.SecretHash row) (default (AccessKey.Platforms row) platforms)
    (default (AccessKey.IPAllowlist row) allowlist) (AccessKey.Scope row)
    (default (AccessKey.Status row) status) (AccessKey.ExpiresAtNs row) (AccessKey.LastUsedNs row)
    (AccessKey.CreatedAtNs row).

Definition status_allowed (status : option string) : bool :=
  match status with
  | Some v => (v ==s KeyStatusActive) || (v ==s KeyStatusDisabled)
  | None => true
  end.

Definition UpdateAccessKey (userID keyID : string) (body : Json) : Svc AccessKey :=
  patch ← or_fail (parseMergePatch body) InvalidArg;
  _ ← check (validateFields accessKeyPatchAllowedFields patch) InvalidArg;
  row ← lookupUserKey userID keyID;
  user ← read (GetUser userID) mapUserLookupError;
  name ← lift_res (optionalNonEmptyString "name" patch);
  platforms ← lift_res (optionalStringSlice "platforms" patch);
  raw ← lift_res (optionalStringSlice "ip_allowlist" patch);
  allowlist ← match raw with
              | None => mret None
              | Some l => x ← lift_res (normalizeIPAllowlist l); mret (Some x)
              end;
  status ← lift_res (optionalString "status" patch);
  _ ← check (status_allowed status) InvalidArg;
  let row' := patched_key row name (normalizeStringList <$> platforms) allowlist status in
  _ ← call (UpdateAccessKeyRow row') internal_error;
  _ ← publishKey row' user;
  mret row'.

Definition DeleteAccessKey (userID keyID : string) : Svc unit :=
  _ ← lookupUserKey userID keyID;
  _ ← call (DeleteAccessKeyRow keyID) internal_error;
  publish (Delete keyID).

(** ** Console and restart agree *)

Lemma lookupUserKey_ok (userID keyID : string) (s s' : Service) (row : AccessKey) :
  lookupUserKey userID keyID s = (Ok row, s') ->
  s' = s /\ In row (access_keys (engine s)) /\ AccessKey.ID row = keyID /\ AccessKey.UserID row = userID.
Proof.
  unfold lookupUserKey. intros H. svc_invert. bool_prop. split; [done|].
  unfold GetAccessKey, sql_first in *. destruct (List.find _ _) as [k0|] eqn:E; simplify_eq.
  apply find_some in E as [Hin E]. apply eqb_s_true in E. auto.
Qed.

Lemma publishKey_ok (row : AccessKey) (user : User) (s s' : Service) (x : unit) :
  user_readable (AccessKey.UserID row) (engine s) -> publishKey row user s = (Ok x, s') ->
  engine s' = engine s /\
  live s' = (if AccessKey.Status row ==s KeyStatusActive
             then <[AccessKey.ID row := newKeyState row user (loaded_snapshot (AccessKey.UserID row) (engine s))]> (live s)
             else base.delete (AccessKey.ID row) (live s)).
Proof.
  intros Hr H. unfold publishKey in H.
  destruct (AccessKey.Status row ==s KeyStatusActive); simpl in H; svc_invert; simpl; [|done].
  match goal with H : userPlanSnapshot _ _ = _ |- _ => apply userPlanSnapshot_ok in H as [-> ->]; [|done] end.
  done.
Qed.

(** The row just written is published as a restart would load it. *)
Lemma publish_matches_load (s s' : Service) (row : AccessKey) (user : User) (x : unit) :
  keys_wf (engine s) -> user_readable (AccessKey.UserID row) (engine s) ->
  In row (access_keys (engine s)) -> In user (users (engine s)) -> User.ID user = AccessKey.UserID row ->
  publishKey row user s = (Ok x, s') ->
  engine s' = engine s /\ live s' !! AccessKey.ID row = LoadFromState (engine s') !! AccessKey.ID row /\
  forall id, id <> AccessKey.ID row -> live s' !! id = live s !! id.
Proof.
  intros W Hr Hrow Hu Hid H. apply publishKey_ok in H as [E Hl]; [|done].
  split; [done|]. rewrite E, (loaded_key (engine s) row user), Hl by done.
  destruct (AccessKey.Status row ==s KeyStatusActive).
  - rewrite lookup_insert_eq. split; [done|]. intros id Hne. rewrite lookup_insert_ne; done.
  - rewrite lookup_delete_eq. split; [done|]. intros id Hne. rewrite lookup_delete_ne; done.
Qed.

(** The allowance check changes nothing, and leaves room for one key. *)
Lemma checkKeyAllowance_ok (user : User) (s s' : Service) (x : unit) :
  checkKeyAllowance user s = (Ok x, s') ->
  s' = s /\ exists sub plan, currentSubscription (User.ID user) (engine s) = Some sub /\
    UserSubscription.Status sub = SubscriptionStatusActive /\
    planFromSnapshotJSON (UserSubscription.PlanSnapshotJSON sub) = Some plan /\
    (0 < Plan.MaxKeys plan -> active_keys (User.ID user) (engine s) < Plan.MaxKeys plan).
Proof.
  unfold checkKeyAllowance, maxKeysForPlan. intros H. apply proc_bind_ok in H as (limit & s1 & H1 & H2).
  apply proc_bind_ok in H1 as (s0 & s2 & [= <- <-] & H1).
  destruct (currentSubscription (User.ID user) (engine s)) as [sub|]; [|done].
  destruct (UserSubscription.Status sub <>s _) eqn:Est; [done|]. svc_invert; bool_prop;
  (split; [done|]); exists sub; eexists; split_and!; eauto; lia.
Qed.

Lemma create_steps (userID : string) (input : AccessKeyInput) (nowNs : Z) (id secret hash : string)
    (s s' : Service) (r : AccessKey * string) :
  CreateAccessKey userID input nowNs id secret hash s = (Ok r, s') ->
  exists user row db1 x y,
    GetUser userID (engine s) = Ok user /\ checkKeyAllowance user s = (Ok x, s) /\
    normalizeAccessKey row = row /\ AccessKey.ID row = id /\ AccessKey.UserID row = userID /\
    AccessKey.Status row = KeyStatusActive /\ r = (row, FormatCredential id secret) /\
    InsertAccessKey row (engine s) = (Ok x, db1) /\ publishKey row user (set_engine db1 s) = (Ok y, s').
Proof.
  unfold CreateAccessKey, insertAccessKeyWithinAllowance. intros H.
  apply proc_bind_ok in H as (user & s1 & Hu & H). apply read_ok in Hu as [Hu ->]. cbv zeta in H.
  apply proc_bind_ok in H as (? & ? & Hc & H). apply check_ok in Hc as [_ ->].
  apply proc_bind_ok in H as (al & ? & Hc & H). apply lift_res_ok in Hc as [_ ->].
  apply proc_bind_ok in H as (? & ? & Hc & H). apply check_ok in Hc as [_ ->].
  match type of H with context [publishKey ?row user] => set (nrow := row) in H end.
  apply proc_bind_ok in H as (? & s2 & Hi & H). apply proc_bind_ok in Hi as ([] & s3 & Ha & Hi).
  destruct (checkKeyAllowance_ok user s s3 tt Ha) as [-> _]. apply call_ok in Hi as (db1 & Hi & ->).
  apply proc_bind_ok in H as ([] & s4 & Hp & H). injection H as <- <-.
  destruct x1. exists user, nrow, db1, tt, tt. split_and!; done.
Qed.

Lemma create_in_step (T : Z) (userID : string) (input : AccessKeyInput) (nowNs : Z) (id secret hash : string)
    (s s' : Service) (r : AccessKey * string) :
  in_step_at T s -> CreateAccessKey userID input nowNs id secret hash s = (Ok r, s') -> in_step_at T s'.
Proof.
  intros Hs H. pose proof (is_sound _ _ _ Hs) as [_ W _ Hr _].
  apply create_steps in H as (user & row & db1 & x & y & Hu & _ & Hn & Hid & Howner & _ & _ & Hi & Hp).
  pose proof (InsertAccessKey_wf _ _ _ _ Hi W) as W'. apply InsertAccessKey_ok in Hi as (_ & _ & _ & ->).
  apply GetUser_Some in Hu as [Hu Huid]. rewrite Hn in *.
  match type of Hp with publishKey _ _ ?st = _ =>
    destruct (publish_matches_load st s' row user y) as (E & Hk & Ho); [exact W'|..|exact Hp|] end.
  { apply Hr. }
  { simpl. apply in_app_iff. right. left. done. }
  { exact Hu. }
  { congruence. }
  rewrite E in Hk.
  apply (in_step_key T s s' (AccessKey.ID row)); rewrite ?E; try done.
  intros k Hne. simpl. rewrite in_app_iff. split; [|auto].
  intros [?|[<-|[]]]; [done|]. done.
Qed.

Lemma update_steps (userID keyID : string) (body : Json) (s s' : Service) (r : AccessKey) :
  UpdateAccessKey userID keyID body s = (Ok r, s') ->
  exists user old name platforms allowlist status db1 x y,
    In old (access_keys (engine s)) /\ AccessKey.ID old = keyID /\ AccessKey.UserID old = userID /\
    GetUser userID (engine s) = Ok user /\ status_allowed status = true /\
    r = patched_key old name platforms allowlist status /\
    UpdateAccessKeyRow r (engine s) = (Ok x, db1) /\ publishKey r user (set_engine db1 s) = (Ok y, s').
Proof.
  unfold UpdateAccessKey. intros H.
  apply proc_bind_ok in H as (patch & ? & Hc & H). apply or_fail_ok in Hc as [_ ->].
  apply proc_bind_ok in H as (? & ? & Hc & H). apply check_ok in Hc as [_ ->].
  apply proc_bind_ok in H as (old & ? & Hc & H). apply lookupUserKey_ok in Hc as (-> & Hin & Hid & Ho).
  apply proc_bind_ok in H as (user & ? & Hc & H). apply read_ok in Hc as [Hu ->].
  apply proc_bind_ok in H as (name & ? & Hc & H). apply lift_res_ok in Hc as [_ ->].
  apply proc_bind_ok in H as (platforms & ? & Hc & H). apply lift_res_ok in Hc as [_ ->].
  apply proc_bind_ok in H as (raw & ? & Hc & H). apply lift_res_ok in Hc as [_ ->].
  apply proc_bind_ok in H as (allowlist & s1 & Hc & H).
  assert (s1 = s) as ->.
  { destruct raw; [apply proc_bind_ok in Hc as (? & ? & Hc & Hm); apply lift_res_ok in Hc as [_ ->]|rename Hc into Hm];
    injection Hm as _ <-; done. }
  apply proc_bind_ok in H as (status & ? & Hs & H). apply lift_res_ok in Hs as [_ ->].
  apply proc_bind_ok in H as (? & ? & Hs & H). apply check_ok in Hs as [Hst ->]. cbv zeta in H.
  apply proc_bind_ok in H as (ux & ? & Hi & H). apply call_ok in Hi as (db1 & Hi & ->).
  apply proc_bind_ok in H as (uy & s4 & Hp & H). injection H as <- <-.
  exists user, old, name, (normalizeStringList <$> platforms), allowlist, status, db1, ux, uy.
  split_and!; done.
Qed.

(** A patched row is stored as it is: its scope and status are never empty. *)
Lemma patched_key_stored (old : AccessKey) (name : option string) (platforms allowlist : option (list string))
    (status : option string) :
  access_key_valid old = true -> status_allowed status = true ->
  let r := patched_key old name platforms allowlist status in
  normalizeAccessKey r = r /\ updated_key r old = r.
Proof.
  intros Hv Hs r. unfold access_key_valid in Hv. apply andb_true_iff in Hv as [Hsc Hst]. split; [|done].
  unfold normalizeAccessKey. subst r. unfold patched_key. simpl.
  assert ((AccessKey.Scope old ==s "") = false) as ->.
  { apply orb_true_iff in Hsc as [E|E]; apply eqb_s_true in E; rewrite E; done. }
  assert ((default (AccessKey.Status old) status ==s "") = false) as ->; [|done].
  destruct status as [v|]; simpl in *; [apply orb_true_iff in Hs as [E|E]|apply orb_true_iff in Hst as [E|E]];
  apply eqb_s_true in E; rewrite E; done.
Qed.

Lemma update_in_step (T : Z) (userID keyID : string) (body : Json) (s s' : Service) (r : AccessKey) :
  in_step_at T s -> UpdateAccessKey userID keyID body s = (Ok r, s') -> in_step_at T s'.
Proof.
  intros Hs H. pose proof (is_sound _ _ _ Hs) as [_ W _ Hr _]. apply update_steps in H
    as (user & old & name & pl & al & st & db1 & x & y & Hin & Hid & Ho & Hu & Hst & -> & Hi & Hp).
  destruct (patched_key_stored old name pl al st (kw_valid _ W old Hin) Hst) as [Hn Hup].
  set (row := patched_key old name pl al st) in *.
  pose proof (UpdateAccessKeyRow_wf _ _ _ _ Hi W) as W'. apply UpdateAccessKeyRow_ok in Hi as [_ ->].
  rewrite Hn in *. apply GetUser_Some in Hu as [Hu Huid].
  assert (AccessKey.ID row = AccessKey.ID old /\ AccessKey.UserID row = AccessKey.UserID old) as [E1 E2] by done.
  match type of Hp with publishKey _ _ ?t = _ =>
    destruct (publish_matches_load t s' row user y) as (E & Hk & Hother); [exact W'|..|exact Hp|] end.
  { apply Hr. }
  { apply sql_update_In. exists old. split; [done|].
    change (row = if AccessKey.ID old ==s AccessKey.ID old then updated_key row old else old).
    rewrite eqb_s_refl. symmetry. exact Hup. }
  { exact Hu. }
  { congruence. }
  rewrite E in Hk.
  apply (in_step_key T s s' (AccessKey.ID row)); rewrite ?E; try done.
  intros k Hne. simpl. rewrite sql_update_In. split.
  - intros (k0 & Hk0 & ->). revert Hne. destruct (AccessKey.ID k0 ==s AccessKey.ID old) eqn:Ek; [|done].
    intros Hne. exfalso. apply Hne. apply eqb_s_true in Ek. exact Ek.
  - intros Hkin. exists k. split; [done|].
    assert ((AccessKey.ID k ==s AccessKey.ID old) = false) as -> by (apply eqb_s_false; done). done.
Qed.

Lemma delete_in_step (T : Z) (userID keyID : string) (s s' : Service) (x : unit) :
  in_step_at T s -> DeleteAccessKey userID keyID s = (Ok x, s') -> in_step_at T s'.
Proof.
  intros Hs H. pose proof (is_sound _ _ _ Hs) as [_ W _ _ _]. unfold DeleteAccessKey in H. apply proc_bind_ok in H as (row & ? & Hc & H).
  apply lookupUserKey_ok in Hc as (-> & Hin & Hid & Ho).
  apply proc_bind_ok in H as (y & ? & Hi & H). apply call_ok in Hi as (db1 & Hi & ->). injection H as _ <-.
  pose proof (DeleteAccessKeyRow_wf _ _ _ _ Hi W) as W'. apply DeleteAccessKeyRow_ok in Hi as ->.
  apply (in_step_key T s _ keyID); try done.
  - intros k Hne. simpl. rewrite sql_where_In. apply eqb_s_false in Hne. rewrite Hne. tauto.
  - intros id Hne. simpl. unfold Delete. rewrite lookup_delete_ne; done.
  - simpl. unfold Delete. rewrite lookup_delete_eq. symmetry. apply no_key_loaded; [exact W'|].
    intros k Hk E. apply sql_where_In in Hk as [_ Hk]. rewrite E, eqb_s_refl in Hk. done.
Qed.

(** ** All or nothing *)

#[global] Instance pure_maxKeys (userID : string) : Pure (maxKeysForPlan userID).
Proof.
  unfold maxKeysForPlan. apply pure_bind; [apply _|]. intros s.
  destruct (currentSubscription userID (engine s)) as [sub|]; [|apply _]. apply _.
Qed.

#[global] Instance pure_allowance (user : User) : Pure (checkKeyAllowance user).
Proof. unfold checkKeyAllowance. apply _. Qed.

#[global] Instance pure_lookupUserKey (userID keyID : string) : Pure (lookupUserKey userID keyID).
Proof. unfold lookupUserKey. apply _. Qed.

(** Key rows are no concern of the subscriptions. *)
Lemma key_call_readable (m : Method unit) (s s1 : Service) (x : unit) :
  (forall db db', m db = (Ok x, db') -> user_subscriptions db' = user_subscriptions db) ->
  all_readable s -> call m internal_error s = (Ok x, s1) -> all_readable s1.
Proof.
  intros Hm Hr H u sub. apply call_ok in H as (db & H & ->). apply Hm in H. simpl. rewrite H. apply Hr.
Qed.

Lemma create_atomic (userID : string) (input : AccessKeyInput) (nowNs : Z) (id secret hash : string) :
  Atomic all_readable (CreateAccessKey userID input nowNs id secret hash).
Proof.
  unfold CreateAccessKey. do 4 (apply atomic_bind; [apply _|]; intros ?; cbv zeta).
  apply atomic_last.
  - apply atomic_bind; [apply _|]. intros _. apply atomic_call.
  - intros [] s s1 Hr H. apply proc_bind_ok in H as ([] & s2 & Ha & H).
    apply checkKeyAllowance_ok in Ha as [-> _].
    assert (all_readable s1) as Hr1.
    { eapply (key_call_readable (InsertAccessKey _) s s1 tt); [|done|exact H].
      intros db db' Hi. apply InsertAccessKey_ok in Hi as (_ & _ & _ & ->). done. }
    match goal with |- context [publishKey ?row ?user] => pose proof (publishKey_succeeds row user s1 (Hr1 _)) as Hp end.
    unfold mbind, proc_bind. destruct (publishKey _ _ s1) as [[y|e] s2]; done.
Qed.

Lemma update_atomic (userID keyID : string) (body : Json) :
  Atomic all_readable (UpdateAccessKey userID keyID body).
Proof.
  unfold UpdateAccessKey. do 7 (apply atomic_bind; [apply _|]; intros ?).
  apply atomic_bind; [case_match; apply _|]. intros ?.
  do 2 (apply atomic_bind; [apply _|]; intros ?; cbv zeta).
  apply atomic_last; [apply atomic_call|]. intros [] s s1 Hr H.
  assert (all_readable s1) as Hr1.
  { eapply (key_call_readable (UpdateAccessKeyRow _) s s1 tt); [|done|exact H].
    intros db db' Hi. apply UpdateAccessKeyRow_ok in Hi as (_ & ->). done. }
  match goal with |- context [publishKey ?row ?user] => pose proof (publishKey_succeeds row user s1 (Hr1 _)) as Hp end.
  unfold mbind, proc_bind. destruct (publishKey _ _ s1) as [[y|e] s2]; done.
Qed.

Lemma delete_atomic (userID keyID : string) : Atomic all_readable (DeleteAccessKey userID keyID).
Proof.
  unfold DeleteAccessKey. apply atomic_bind; [apply _|]. intros _.
  apply atomic_last; [apply atomic_call|]. done.
Qed.

(** ** Histories of key commands *)

Inductive KeyCommand :=
| CmdCreate (userID : string) (input : AccessKeyInput) (nowNs : Z) (id secret hash : string)
| CmdUpdate (userID keyID : string) (body : Json)
| CmdDelete (userID keyID : string).

(** The state after a command, whether it succeeded or not. *)
Definition run_command (s : Service) (c : KeyCommand) : Service :=
  match c with
  | CmdCreate userID input nowNs id secret hash => snd (CreateAccessKey userID input nowNs id secret hash s)
  | CmdUpdate userID keyID body => snd (UpdateAccessKey userID keyID body s)
  | CmdDelete userID keyID => snd (DeleteAccessKey userID keyID s)
  end.

Lemma run_command_in_step (T : Z) (s : Service) (c : KeyCommand) : in_step_at T s -> in_step_at T (run_command s c).
Proof.
  intros Hs. pose proof (so_read _ (is_sound _ _ _ Hs)) as Hr.
  destruct c as [u input now id secret hash|u k body|u k]; simpl.
  - destruct (CreateAccessKey u input now id secret hash s) as [[r|e] s'] eqn:E; simpl.
    + by apply (create_in_step T) in E.
    + by rewrite (create_atomic _ _ _ _ _ _ s e s' Hr E).
  - destruct (UpdateAccessKey u k body s) as [[r|e] s'] eqn:E; simpl.
    + by apply (update_in_step T) in E.
    + by rewrite (update_atomic _ _ _ s e s' Hr E).
  - destruct (DeleteAccessKey u k s) as [[r|e] s'] eqn:E; simpl.
    + by apply (delete_in_step T) in E.
    + by rewrite (delete_atomic _ _ s e s' Hr E).
Qed.

(** ** The key limit of the plan *)

Lemma publishKey_engine (row : AccessKey) (user : User) (s : Service) :
  engine (snd (publishKey row user s)) = engine s.
Proof.
  unfold publishKey. destruct (_ <>s _); [done|]. unfold userPlanSnapshot, mbind, proc_bind, svc_get, proc_get, or_fail.
  destruct (SnapshotFromSubscription _); done.
Qed.

Lemma active_keys_snoc (u : string) (row : AccessKey) (db : StateDB) :
  AccessKey.UserID row = u -> AccessKey.Status row = KeyStatusActive ->
  active_keys u (set_access_keys (access_keys db ++ [row]) db) = active_keys u db + 1.
Proof.
  intros Hu Hs. unfold active_keys, ListAccessKeysByUser.
  assert (forall t : list AccessKey,
    length (List.filter (fun r => AccessKey.Status r ==s KeyStatusActive)
      (sort_by oldest_key (sql_where (fun k => AccessKey.UserID k ==s u) t))) =
    sql_affected (fun k => (AccessKey.UserID k ==s u) && (AccessKey.Status k ==s KeyStatusActive)) t) as Hc.
  { intros t. change (List.filter (fun r => AccessKey.Status r ==s KeyStatusActive))
      with (sql_where (fun r => AccessKey.Status r ==s KeyStatusActive)).
    rewrite (Permutation_length (filter_perm _ _ _ (sort_by_perm oldest_key _))).
    unfold sql_affected, sql_where. induction t as [|k t IH]; simpl; [done|].
    destruct (AccessKey.UserID k ==s u); simpl; [|exact IH].
    destruct (AccessKey.Status k ==s KeyStatusActive); simpl; rewrite IH; done. }
  rewrite !Hc. unfold sql_affected. simpl. rewrite List.filter_app, length_app. simpl.
  apply eqb_s_true in Hu, Hs. rewrite Hu, Hs. simpl. lia.
Qed.


(** A row that cannot be decoded. *)
Lemma readable_rows_none (u : string) (db : StateDB) :
  (forall sub, In sub (user_subscriptions db) -> UserSubscription.UserID sub = u -> readable sub = false) ->
  readable_rows u (ListUserSubscriptions db) = [].
Proof.
  intros H. unfold readable_rows. destruct (List.filter _ _) as [|a l] eqn:E; [done|]. exfalso.
  assert (In a (a :: l)) as Hin by (left; done). rewrite <- E in Hin. apply List.filter_In in Hin as [Hin Ha].
  apply sort_by_In in Hin. apply andb_true_iff in Ha as [Hr Hu]. apply eqb_s_true in Hu.
  rewrite (H a Hin Hu) in Hr. done.
Qed.

(** A restart publishes the keys of a user whose only subscriptions are
    unreadable with the zero snapshot: no platform restriction, no quota, no
    expiry.  The console refuses to publish the same keys. *)
Theorem unreadable_snapshot_loads_as_unlimited (s : Service) (key : AccessKey) (user : User)
    (sub : UserSubscription) :
  let db := engine s in
  let u := AccessKey.UserID key in
  keys_wf db -> In key (access_keys db) -> AccessKey.Status key = KeyStatusActive ->
  In user (users db) -> User.ID user = u ->
  In sub (user_subscriptions db) -> UserSubscription.UserID sub = u ->
  (forall row, In row (user_subscriptions db) -> UserSubscription.UserID row = u -> readable row = false) ->
  LoadFromState db !! AccessKey.ID key = Some (newKeyState key user PlanSnapshot.zero) /\
  fst (publishKey key user s) = Err Internal.
Proof.
  intros db u W Hk Hst Hu Huid Hsub Hsu Hno. split.
  - rewrite (loaded_key db key user) by done. apply eqb_s_true in Hst. rewrite Hst.
    unfold loaded_snapshot. rewrite planSnapshots_lookup.
    change (AccessKey.UserID key) with u. rewrite readable_rows_none by done. done.
  - unfold publishKey. apply eqb_s_true in Hst. rewrite Hst. simpl.
    unfold mbind, proc_bind, userPlanSnapshot. unfold mbind, proc_bind, svc_get, proc_get, or_fail. fold u db.
    assert (exists m, currentSubscription u db = Some m /\ In m (user_subscriptions db) /\
              UserSubscription.UserID m = u) as (m & Hm & Hmin & Hmu).
    { unfold currentSubscription. set (rows := List.filter _ _).
      assert (In sub rows) as Hin.
      { apply List.filter_In. split; [apply sort_by_In; done|]. apply eqb_s_true. done. }
      destruct (DecidingSubscription rows) as [m|] eqn:Em.
      - exists m. split; [done|]. apply DecidingSubscription_In, List.filter_In in Em as [Em Eu].
        apply sort_by_In in Em. apply eqb_s_true in Eu. done.
      - apply DecidingSubscription_None in Em. rewrite Em in Hin. done. }
    rewrite Hm. specialize (Hno m Hmin Hmu). unfold readable in Hno. simpl.
    destruct (UserSubscription.PlanSnapshotJSON m); done.
Qed.

(** One user on a plan of one key. *)
Module AccessDemo.
Definition ann : User := User.mkUser "u1" "ann" "hash" "user" "active" None 0 0 0 0.
Definition plan : Plan := Plan.mkPlan "p1" "Basic" ["web"%string] [] 1000 "month" 0 0 0 1 30 0 "active" 0 0.
Definition sub : UserSubscription :=
  UserSubscription.mkUserSubscription "s1" "u1" "" (SnapPlan plan) 5 1000 5 0 false 0 SubscriptionStatusActive.
Definition broken : UserSubscription := UserSubscription.with_Snapshot (SnapInvalid "{") sub.
Definition db : StateDB := Eval vm_compute in
  snd (UpsertUserSubscription sub (snd (InsertUser ann emptyDB))).
Definition start : Service := mkService db ∅ NewCounters.
Definition input : AccessKeyInput := mkAccessKeyInput " laptop " [] ["10.1.2.3/8"%string] 0.
Definition create (id : string) : KeyCommand := CmdCreate "u1" input 7 id "secret" "hash".
Definition set_status (id status : string) : KeyCommand :=
  CmdUpdate "u1" id (JObject [("status"%string, JString status)]).
Definition rotate : list KeyCommand :=
  [create "k1"; set_status "k1" KeyStatusDisabled; create "k2"; set_status "k1" KeyStatusActive].
Definition after_rotate : Service := Eval vm_compute in fold_left run_command rotate start.
Definition minted : res SvcErr (AccessKey * string) * Service := Eval vm_compute in
  CreateAccessKey "u1" input 7 "k1" "secret" "hash" start.
Definition row : AccessKey := Eval vm_compute in
  match fst minted with Ok (r, _) => r | Err _ => new_row "" "" "" "" [] [] 0 0 end.

Lemma minted_eq : CreateAccessKey "u1" input 7 "k1" "secret" "hash" start = minted.
Proof. vm_compute. reflexivity. Qed.

Lemma after_rotate_eq : fold_left run_command rotate start = after_rotate.
Proof. vm_compute. reflexivity. Qed.

(** The same user with a snapshot nobody can read, and a key. *)
Definition corrupt : Service := mkService
  (set_access_keys [row] (set_user_subscriptions [broken] db)) ∅ NewCounters.

Lemma corrupt_wf : keys_wf (engine corrupt).
Proof.
  split; simpl; try apply NoDup_singleton; intros k [<-|[]]; reflexivity.
Qed.
End AccessDemo.



Lemma unreadable_snapshot_loads_as_unlimited_witness :
  LoadFromState (engine AccessDemo.corrupt) !! "k1" =
    Some (newKeyState AccessDemo.row AccessDemo.ann PlanSnapshot.zero) /\
  Usable (Some (newKeyState AccessDemo.row AccessDemo.ann PlanSnapshot.zero)) 999999 = true.
Proof.
  split; [|vm_compute; reflexivity].
  apply (unreadable_snapshot_loads_as_unlimited AccessDemo.corrupt AccessDemo.row AccessDemo.ann
    AccessDemo.broken AccessDemo.corrupt_wf); try reflexivity; try (left; reflexivity).
  intros r [<-|[]] _. reflexivity.
Defined.
