(* ===== verification/Auth.v ===== *)
(** * Logging in

    [src/internal/api/rate_limiter.go], the failure limiter, and
    [src/internal/auth/service.go] and [session.go]: logging in with a password
    and a second factor, resolving a session, logging out.

    The limiter is what the session service asks for through the interface
    [Blocklist]; here a class of operations, with the laws the service relies on
    proved for the limiter.  Verifying a password (argon2) and opening a sealed
    second factor (AES-GCM under the pepper) are parameters, and so are the
    random session id and token.  A call reads the clock as one instant. *)

From Stdlib Require Import Ascii String Sorted.
From stdpp Require Import base gmap list strings.
From S2P Require Import Prelude Model Store GoStrings Netip Digests Totp Accounts.

(** ** The failure limiter *)

Definition Minute : Z := 60 * Second.

Definition authFailuresPerWindow : Z := 10.
Definition authFailureWindow : Z := Minute.
Definition authFailureBlock : Z := 5 * Minute.
Definition authFailureMaxEntries : Z := 65536.

(** The zero [blockedUntil] is before every instant. *)
Record authFailureEntry := mkEntry { failures : Z; windowStart : Z; blockedUntil : option Z }.

(** [order] is the list of keys, oldest first. *)
Record AuthFailureLimiter := mkAuthFailureLimiter {
  maxFailures : Z;
  window : Z;
  blockFor : Z;
  maxEntries : Z;
  entries : gmap string authFailureEntry;
  order : list string
}.

Definition NewAuthFailureLimiter (max win block : Z) : AuthFailureLimiter :=
  mkAuthFailureLimiter max (if win <=? 0 then authFailureWindow else win)
    (if block <=? 0 then authFailureBlock else block) authFailureMaxEntries ∅ [].

Definition NewLoginBlocklist : AuthFailureLimiter :=
  NewAuthFailureLimiter authFailuresPerWindow authFailureWindow authFailureBlock.

Definition Enabled (l : AuthFailureLimiter) : bool := 0 <? maxFailures l.

Definition set_entries (m : gmap string authFailureEntry) (o : list string) (l : AuthFailureLimiter)
    : AuthFailureLimiter :=
  mkAuthFailureLimiter (maxFailures l) (window l) (blockFor l) (maxEntries l) m o.

Definition remove_entry (ip : string) (l : AuthFailureLimiter) : AuthFailureLimiter :=
  set_entries (base.delete ip (entries l)) (List.filter (fun k => k <>s ip) (order l)) l.

(** [now.Before(blockedUntil)] and [now.After(blockedUntil)] *)
Definition before_block (now : Z) (e : authFailureEntry) : bool :=
  match blockedUntil e with Some t => now <? t | None => false end.
Definition after_block (now : Z) (e : authFailureEntry) : bool :=
  match blockedUntil e with Some t => t <? now | None => true end.

(** How long the key stays blocked, where it is. *)
Definition Blocked (ip : string) (now : Z) (l : AuthFailureLimiter) : option Z * AuthFailureLimiter :=
  if negb (Enabled l) || (ip ==s "") then (None, l)
  else
    match entries l !! ip with
    | None => (None, l)
    | Some e =>
        if before_block now e then (Some (default 0 (blockedUntil e) - now), l)
        else if window l <=? now - windowStart e then (None, remove_entry ip l)
        else (None, l)
    end.

(** The table is full: the oldest entry makes room. *)
Definition newEntry (ip : string) (now : Z) (l : AuthFailureLimiter) : AuthFailureLimiter :=
  let l := if (0 <? maxEntries l) && (maxEntries l <=? Z.of_nat (size (entries l)))
           then match order l with oldest :: _ => remove_entry oldest l | [] => l end
           else l in
  set_entries (<[ip := mkEntry 0 now None]> (entries l)) (order l ++ [ip]) l.

Definition RecordFailure (ip : string) (now : Z) (l : AuthFailureLimiter) : AuthFailureLimiter :=
  if negb (Enabled l) || (ip ==s "") then l
  else
    let '(e, l) :=
      match entries l !! ip with
      | None => (mkEntry 0 now None, newEntry ip now l)
      | Some e =>
          let l := set_entries (entries l) (List.filter (fun k => k <>s ip) (order l) ++ [ip]) l in
          (if (window l <=? now - windowStart e) && after_block now e then mkEntry 0 now (blockedUntil e) else e, l)
      end in
    let n := failures e + 1 in
    let e := mkEntry n (windowStart e) (if maxFailures l <=? n then Some (now + blockFor l) else blockedUntil e) in
    set_entries (<[ip := e]> (entries l)) (order l) l.

Definition Reset (key : string) (l : AuthFailureLimiter) : AuthFailureLimiter :=
  if key ==s "" then l
  else match entries l !! key with Some _ => remove_entry key l | None => l end.

(** ** The interface the session service asks for *)

Class Blocklist (B : Type) := {
  bl_Blocked : string -> Z -> B -> option Z * B;
  bl_RecordFailure : string -> Z -> B -> B;
  bl_Reset : option (string -> B -> B)
}.

#[global] Instance limiter_blocklist : Blocklist AuthFailureLimiter := {
  bl_Blocked := Blocked;
  bl_RecordFailure := RecordFailure;
  bl_Reset := Some Reset
}.

(** A service without a blocklist. *)
#[global] Instance no_blocklist : Blocklist unit := {
  bl_Blocked := fun _ _ b => (None, b);
  bl_RecordFailure := fun _ _ b => b;
  bl_Reset := None
}.

(** ** Sessions *)

Definition Hour : Z := 60 * Minute.
Definition SessionTTL : Z := 12 * Hour.
Definition SessionRefreshAfter : Z := SessionTTL / 2.
Definition maxUserAgentBytes : nat := 256.

Definition HashSessionID (id : string) : string := hex_text (sha256 (string_bytes id)).

Definition SessionExpiry (nowNs : Z) : Z := add64 nowNs SessionTTL.

Definition SessionNeedsRefresh (expiresAtNs nowNs : Z) : bool :=
  if expiresAtNs <=? nowNs then false
  else sub64 expiresAtNs (SessionTTL - SessionRefreshAfter) <=? nowNs.

(** [utf8.RuneStart] *)
Definition RuneStart (c : ascii) : bool := negb (Z.land (byte_of c) 192 =? 128).

(** Back off to the start of a rune. *)
Fixpoint rune_cut (l : bytes) (cut : nat) : nat :=
  match cut with
  | O => O
  | S cut' => match nth_error l cut with
              | Some c => if RuneStart c then cut else rune_cut l cut'
              | None => cut
              end
  end.

Definition truncateUserAgent (ua : string) : string :=
  let l := list_ascii_of_string ua in
  if (length l <=? maxUserAgentBytes)%nat then ua
  else string_of_list_ascii (take (rune_cut l maxUserAgentBytes) l).

Definition NewSession (id userID ip ua : string) (nowNs : Z) : option Session :=
  if (id ==s "") || (userID ==s "") then None
  else Some (Session.mkSession (HashSessionID id) userID nowNs (SessionExpiry nowNs) ip (truncateUserAgent ua)).

Definition VerifyCSRFToken (issued presented : string) : bool :=
  if (issued ==s "") || (presented ==s "") then false else issued ==s presented.

(** ** The session service *)

Inductive AuthErr :=
| ErrInvalidCredentials
| ErrTOTPRequired
| ErrTOTPInvalid
| ErrTOTPAlreadyUsed
| ErrTooManyAttempts
| ErrNoSession
| ErrAuthInternal.

#[global] Instance AuthErr_eq_dec : EqDecision AuthErr.
Proof. solve_decision. Defined.

Record LoginResult := mkLoginResult {
  SessionID : string;
  CSRFToken : string;
  LoginUser : User;
  LoginExpiresAtNs : Z
}.

Definition accountFailureKey (userID : string) : string := "user:" ++ userID.

Section Service.
Context {B : Type} `{Blocklist B}.
Context (VerifyPassword : string -> string -> bool).
Context (has_pepper : bool) (DecryptTOTPSecret : string -> option string).

(** The store and what the blocklist remembers. *)
Record AuthState := mkAuthState { store : StateDB; blocklist : B }.

Abbreviation Auth := (Proc AuthState AuthErr).

Definition set_store (db : StateDB) (s : AuthState) : AuthState := mkAuthState db (blocklist s).

Definition store_call {A} (m : Method A) : Auth A := fun s =>
  match m (store s) with
  | (Ok a, db) => (Ok a, set_store db s)
  | (Err _, db) => (Err ErrAuthInternal, set_store db s)
  end.

(** A call whose error is only logged. *)
Definition store_try {A} (m : Method A) : Auth unit := fun s => (Ok tt, set_store (snd (m (store s))) s).

Definition blocked (key : string) (now : Z) : Auth bool := fun s =>
  let '(wait, b) := bl_Blocked key now (blocklist s) in
  (Ok (match wait with Some _ => true | None => false end), mkAuthState (store s) b).

Definition record_failure (key : string) (now : Z) : Auth unit :=
  proc_modify (fun s => mkAuthState (store s) (bl_RecordFailure key now (blocklist s))).

Definition recordFailure (clientKey : string) (now : Z) : Auth unit :=
  if clientKey ==s "" then mret tt else record_failure clientKey now.

Definition recordAccountFailure (userID : string) (now : Z) : Auth unit :=
  if userID ==s "" then mret tt else record_failure (accountFailureKey userID) now.

Definition clearAccountFailures (userID : string) : Auth unit :=
  match bl_Reset with
  | None => mret tt
  | Some reset =>
      if userID ==s "" then mret tt
      else proc_modify (fun s => mkAuthState (store s) (reset (accountFailureKey userID) (blocklist s)))
  end.

Definition verifySecondFactor (user : User) (code : string) (now : Z) : Auth unit :=
  if negb (has_totp user) then mret tt
  else
    _ ← check has_pepper ErrAuthInternal;
    secret ← or_fail (DecryptTOTPSecret (default "" (User.TOTPSecretEnc user))) ErrAuthInternal;
    _ ← check (code <>s "") ErrTOTPRequired;
    stepNs ← or_fail (VerifyTOTPStep secret code now) ErrTOTPInvalid;
    spent ← store_call (AdvanceTOTPLastUsed (User.ID user) stepNs);
    check spent ErrTOTPAlreadyUsed.

(** Run the continuation on an error, then fail with it. *)
Definition on_error {A} (m : Auth A) (k : AuthErr -> Auth unit) : Auth A := fun s =>
  match m s with
  | (Ok a, s') => (Ok a, s')
  | (Err e, s') => (Err e, snd (k e s'))
  end.

(** The session once the credentials are checked; [sessionID] and [csrfToken]
    are the ones drawn. *)
Definition open_session (user : User) (sessionID csrfToken ip userAgent : string) (now : Z) : Auth LoginResult :=
  record ← or_fail (NewSession sessionID (User.ID user) ip userAgent now) ErrAuthInternal;
  _ ← store_call (InsertSession record);
  _ ← store_try (MarkUserLogin (User.ID user) now);
  _ ← clearAccountFailures (User.ID user);
  mret (mkLoginResult sessionID csrfToken user (Session.ExpiresAtNs record)).

Definition find_account (username clientKey : string) (now : Z) : Auth User := fun s =>
  match GetUserByName username (store s) with
  | Ok user => (Ok user, s)
  | Err _ => (Err ErrInvalidCredentials, snd (recordFailure clientKey now s))
  end.

Definition Login (username password totpCode clientKey ip userAgent sessionID csrfToken : string) (now : Z)
    : Auth LoginResult :=
  refused ← (if clientKey ==s "" then mret false else blocked clientKey now);
  _ ← check (negb refused) ErrTooManyAttempts;
  user ← find_account username clientKey now;
  refused ← blocked (accountFailureKey (User.ID user)) now;
  _ ← check (negb refused) ErrTooManyAttempts;
  _ ← on_error (check (VerifyPassword (User.PasswordHash user) password) ErrInvalidCredentials)
        (fun _ => _ ← recordFailure clientKey now; recordAccountFailure (User.ID user) now);
  _ ← check (User.Status user ==s UserStatusActive) ErrInvalidCredentials;
  _ ← on_error (verifySecondFactor user totpCode now)
        (fun e => _ ← recordFailure clientKey now;
                  if decide (e = ErrTOTPRequired) then mret tt else recordAccountFailure (User.ID user) now);
  open_session user sessionID csrfToken ip userAgent now.

Definition no_session {A} : Auth A := proc_fail ErrNoSession.

Definition Authenticate (sessionID : string) (now : Z) : Auth (User * Session) := fun s =>
  if sessionID ==s "" then (Err ErrNoSession, s)
  else
    match GetSession (HashSessionID sessionID) (store s) with
    | Err _ => (Err ErrNoSession, s)
    | Ok session =>
        if Session.ExpiresAtNs session <=? now
        then (_ ← store_try (DeleteSession (Session.IDHash session)); no_session) s
        else
          match GetUser (Session.UserID session) (store s) with
          | Err _ => (Err ErrNoSession, s)
          | Ok user =>
              if User.Status user <>s UserStatusActive
              then (_ ← store_try (DeleteSessionsByUser (User.ID user)); no_session) s
              else if SessionNeedsRefresh (Session.ExpiresAtNs session) now
              then
                match TouchSession (Session.IDHash session) (SessionExpiry now) (store s) with
                | (Ok _, db) => (Ok (user, Session.with_Expiry (SessionExpiry now) session), set_store db s)
                | (Err _, db) => (Ok (user, session), set_store db s)
                end
              else (Ok (user, session), s)
          end
    end.

Definition Logout (sessionID : string) : Auth unit :=
  if sessionID ==s "" then mret tt else store_call (DeleteSession (HashSessionID sessionID)).

Definition RevokeUserSessions (userID : string) : Auth Z :=
  if userID ==s "" then mret 0 else store_call (DeleteSessionsByUser userID).
End Service.

(** ** What a login establishes *)

Lemma InsertSession_ok (s : Session) (x : unit) (db db' : StateDB) :
  InsertSession s db = (Ok x, db') ->
  (forall r, In r (sessions db) -> Session.IDHash r <> Session.IDHash s) /\
  db' = set_sessions (sessions db ++ [s]) db.
Proof.
  unfold InsertSession. intros H. apply transact_ok in H. tx_invert. split; [|done].
  apply orb_false_iff in Heqb as [He _]. intros r Hr. rewrite existsb_false in He. apply eqb_s_false. auto.
Qed.

Lemma InsertSession_accepts (s : Session) (db : StateDB) :
  (forall r, In r (sessions db) -> Session.IDHash r <> Session.IDHash s) -> user_exists (Session.UserID s) db = true ->
  InsertSession s db = (Ok tt, set_sessions (sessions db ++ [s]) db).
Proof.
  intros Hf Hu. unfold InsertSession, transact. rewrite Hu. rewrite (proj2 (existsb_false _ _)); [done|].
  intros r Hr. apply eqb_s_false. auto.
Qed.

Lemma user_exists_In (u : User) (db : StateDB) : In u (users db) -> user_exists (User.ID u) db = true.
Proof. intros Hin. apply existsb_exists. exists u. split; [done|]. by apply eqb_s_true. Qed.

Lemma GetSession_snoc (s : Session) (l : list Session) (db : StateDB) :
  (forall r, In r l -> Session.IDHash r <> Session.IDHash s) ->
  sessions db = l ++ [s] -> GetSession (Session.IDHash s) db = Ok s.
Proof.
  intros Hno Hs. unfold GetSession. rewrite Hs, find_app. unfold sql_first. 
  destruct (List.find _ l) as [r|] eqn:E.
  - apply find_some in E as [Hr E]. apply eqb_s_true in E. by apply Hno in Hr.
  - cbn [List.find]. by rewrite eqb_s_refl.
Qed.

(** A login only touches the clock columns of the accounts. *)
Definition same_account (u v : User) : Prop :=
  User.ID u = User.ID v /\ User.Username u = User.Username v /\ User.PasswordHash u = User.PasswordHash v /\
  User.Role u = User.Role v /\ User.Status u = User.Status v /\ User.TOTPSecretEnc u = User.TOTPSecretEnc v.

Definition same_accounts (l l' : list User) : Prop := Forall2 same_account l l'.

Lemma same_account_refl (u : User) : same_account u u.
Proof. by split_and!. Qed.

Lemma same_account_trans (u v w : User) : same_account u v -> same_account v w -> same_account u w.
Proof. unfold same_account. intros. destruct_and?. split_and!; congruence. Qed.

Lemma same_accounts_trans (l k m : list User) : same_accounts l k -> same_accounts k m -> same_accounts l m.
Proof.
  intros H. revert m. induction H as [|u v l k Huv _ IH]; intros m Hm; inversion_clear Hm; constructor; [|by apply IH].
  by eapply same_account_trans.
Qed.

Lemma same_accounts_refl (l : list User) : same_accounts l l.
Proof. induction l; constructor; [apply same_account_refl|done]. Qed.

Lemma same_accounts_update (p : User -> bool) (f : User -> User) (l : list User) :
  (forall v, same_account (f v) v) -> same_accounts (sql_update p f l) l.
Proof.
  intros Hf. induction l as [|u l IH]; [constructor|]. constructor; [|exact IH].
  destruct (p u); [apply Hf|apply same_account_refl].
Qed.

Lemma same_accounts_ids (l k : list User) : same_accounts l k -> map User.ID l = map User.ID k.
Proof. induction 1 as [|u v l k Huv _ IH]; simpl; [done|]. f_equal; [apply Huv|exact IH]. Qed.

Lemma same_accounts_In (l k : list User) (u : User) :
  same_accounts l k -> In u k -> exists u', In u' l /\ same_account u' u.
Proof.
  induction 1 as [|a b l k Hab _ IH]; intros Hin; [done|]. destruct Hin as [<-|Hin].
  - exists a. split; [left|]; done.
  - destruct (IH Hin) as (u' & ? & ?). exists u'. split; [right|]; done.
Qed.

Lemma AdvanceTOTPLastUsed_ok (id : string) (step : Z) (spent : bool) (db db' : StateDB) :
  AdvanceTOTPLastUsed id step db = (Ok spent, db') ->
  let hit u := (User.ID u ==s id) && (User.TOTPLastUsedNs u <? step) in
  if spent then db' = set_users (sql_update hit (with_TOTPLastUsed step) (users db)) db /\
                exists u, In u (users db) /\ hit u = true
  else db' = db.
Proof.
  unfold AdvanceTOTPLastUsed. intros H. apply transact_ok in H. cbv zeta in *. tx_invert; [|done].
  split; [done|]. apply Nat.ltb_lt in Heqb0. apply sql_affected_pos. lia.
Qed.

Lemma MarkUserLogin_users (id : string) (atNs : Z) (db : StateDB) :
  let db' := snd (MarkUserLogin id atNs db) in
  sessions db' = sessions db /\ same_accounts (users db') (users db).
Proof.
  unfold MarkUserLogin, transact. cbv zeta. destruct (_ =? 0)%nat; simpl; (split; [done|]).
  - apply same_accounts_refl.
  - apply same_accounts_update. intros v. by split_and!.
Qed.

Lemma MarkUserLogin_row (id : string) (atNs : Z) (db : StateDB) (u : User) :
  In u (users db) -> exists u', In u' (users (snd (MarkUserLogin id atNs db))) /\
    User.ID u' = User.ID u /\ User.TOTPLastUsedNs u' = User.TOTPLastUsedNs u.
Proof.
  intros Hu. unfold MarkUserLogin, transact. cbv zeta. destruct (_ =? 0)%nat; simpl; [by exists u|].
  exists (if User.ID u ==s id then with_LastLogin atNs u else u). split; [apply sql_update_In; eauto|].
  by destruct (_ ==s _).
Qed.

Section LoginFacts.
Context {B : Type} `{Blocklist B}.
Context (VerifyPassword : string -> string -> bool).
Context (has_pepper : bool) (DecryptTOTPSecret : string -> option string).
Implicit Types (s : AuthState (B := B)).

Lemma store_call_ok {A} (m : Method A) s s' (a : A) :
  store_call m s = (Ok a, s') <-> exists db, m (store s) = (Ok a, db) /\ s' = set_store db s.
Proof.
  unfold store_call. destruct (m (store s)) as [[x|e] db]; split; intros Hx; simplify_eq; [eauto| |];
    destruct Hx as (? & ? & ->); simplify_eq; done.
Qed.

Lemma blocked_ok (key : string) (now : Z) s s' (b : bool) :
  blocked key now s = (Ok b, s') -> store s' = store s.
Proof. unfold blocked. destruct (bl_Blocked _ _ _). by intros [= <- <-]. Qed.

Lemma on_error_ok {A} (m : Proc AuthState AuthErr A) k s s' (a : A) :
  on_error m k s = (Ok a, s') <-> m s = (Ok a, s').
Proof. unfold on_error. destruct (m s) as [[x|e] s1]; split; intros Hx; simplify_eq; done. Qed.

Lemma find_account_ok (username key : string) (now : Z) s s' (u : User) :
  find_account username key now s = (Ok u, s') -> s' = s /\ GetUserByName username (store s) = Ok u.
Proof. unfold find_account. destruct (GetUserByName username (store s)); [by intros [= <- <-]|done]. Qed.

Lemma second_factor_ok (user : User) (code : string) (now : Z) s s' (x : unit) :
  verifySecondFactor has_pepper DecryptTOTPSecret user code now s = (Ok x, s') ->
  if has_totp user
  then exists secret step db, DecryptTOTPSecret (default "" (User.TOTPSecretEnc user)) = Some secret /\
         VerifyTOTPStep secret code now = Some step /\
         AdvanceTOTPLastUsed (User.ID user) step (store s) = (Ok true, db) /\ s' = set_store db s
  else s' = s.
Proof.
  unfold verifySecondFactor. intros Hx. destruct (has_totp user); simpl in Hx; proc_invert; [|done].
  match goal with Hc : store_call _ _ = _ |- _ => apply store_call_ok in Hc as (db & Hc & ->) end.
  subst. do 3 eexists. split_and!; eauto.
Qed.

(** The steps of a login that succeeds. *)
Lemma Login_ok (username password code key ip ua sid csrf : string) (now : Z) s s' (r : LoginResult) :
  Login VerifyPassword has_pepper DecryptTOTPSecret username password code key ip ua sid csrf now s = (Ok r, s') ->
  exists user s1 s2 x, GetUserByName username (store s) = Ok user /\ store s1 = store s /\
    VerifyPassword (User.PasswordHash user) password = true /\ User.Status user = UserStatusActive /\
    verifySecondFactor has_pepper DecryptTOTPSecret user code now s1 = (Ok x, s2) /\
    open_session user sid csrf ip ua now s2 = (Ok r, s').
Proof.
  unfold Login. intros Hx.
  apply proc_bind_ok in Hx as (b1 & s1 & Hb1 & Hx). apply proc_bind_ok in Hx as (x1 & s2 & Hc & Hx).
  apply check_ok in Hc as [_ ->]. apply proc_bind_ok in Hx as (user & s2 & Hf & Hx).
  apply find_account_ok in Hf as [-> Hf]. apply proc_bind_ok in Hx as (b2 & s3 & Hb2 & Hx).
  apply proc_bind_ok in Hx as (x2 & s4 & Hc & Hx). apply check_ok in Hc as [_ ->].
  apply proc_bind_ok in Hx as (x3 & s4 & Hp & Hx). apply on_error_ok, check_ok in Hp as [Hp ->].
  apply proc_bind_ok in Hx as (x4 & s4 & Hst & Hx). apply check_ok in Hst as [Hst ->].
  apply proc_bind_ok in Hx as (x5 & s4 & H2 & Hx). apply on_error_ok in H2.
  assert (store s1 = store s) as E1.
  { destruct (key ==s ""); [by injection Hb1 as _ <-|by apply blocked_ok in Hb1]. }
  apply blocked_ok in Hb2. exists user, s3, s4, x5. rewrite <- E1. split_and!; auto. by apply eqb_s_true.
Qed.

Lemma open_session_ok (user : User) (sid csrf ip ua : string) (now : Z) s s' (r : LoginResult) :
  open_session user sid csrf ip ua now s = (Ok r, s') ->
  exists row x db, NewSession sid (User.ID user) ip ua now = Some row /\
    InsertSession row (store s) = (Ok x, db) /\ r = mkLoginResult sid csrf user (Session.ExpiresAtNs row) /\
    store s' = snd (MarkUserLogin (User.ID user) now db).
Proof.
  unfold open_session. intros Hx.
  apply proc_bind_ok in Hx as (row & s1 & Hr & Hx). apply or_fail_ok in Hr as [Hr ->].
  apply proc_bind_ok in Hx as (x & s2 & Hi & Hx). apply store_call_ok in Hi as (db & Hi & ->).
  apply proc_bind_ok in Hx as (x2 & s3 & Hm & Hx). injection Hm as _ <-.
  apply proc_bind_ok in Hx as (x3 & s4 & Hc & Hx). injection Hx as <- <-.
  exists row, x, db. split_and!; auto. unfold clearAccountFailures in Hc.
  destruct bl_Reset; [destruct (_ ==s _)|]; injection Hc as _ <-; done.
Qed.
End LoginFacts.

Section LoginTheorems.
Context {B : Type} `{Blocklist B}.
Context (VerifyPassword : string -> string -> bool).
Context (has_pepper : bool) (DecryptTOTPSecret : string -> option string).
Implicit Types (s : AuthState (B := B)).

Abbreviation login := (Login VerifyPassword has_pepper DecryptTOTPSecret).

(** The second factor of an account was checked at [now] and its step spent. *)
Definition factor_spent (user : User) (code : string) (now : Z) (before after : StateDB) : Prop :=
  if has_totp user
  then exists secret step,
         DecryptTOTPSecret (default "" (User.TOTPSecretEnc user)) = Some secret /\
         VerifyTOTPStep secret code now = Some step /\ User.TOTPLastUsedNs user < step /\
         exists user', In user' (users after) /\ User.ID user' = User.ID user /\ User.TOTPLastUsedNs user' = step
  else True.

Lemma factor_accounts (user : User) (code : string) (now : Z) s s' (x : unit) :
  verifySecondFactor has_pepper DecryptTOTPSecret user code now s = (Ok x, s') ->
  same_accounts (users (store s')) (users (store s)) /\ sessions (store s') = sessions (store s).
Proof.
  intros Hx. apply second_factor_ok in Hx. destruct (has_totp user).
  - destruct Hx as (secret & step & db & _ & _ & Ha & ->). apply AdvanceTOTPLastUsed_ok in Ha as [-> _]. simpl.
    split; [|done]. apply same_accounts_update. intros v. by split_and!.
  - subst. split; [apply same_accounts_refl|done].
Qed.

(** The row the compare-and-set moved. *)
Lemma spend_row (id : string) (step : Z) (db db' : StateDB) (user : User) :
  users_wf db -> In user (users db) -> User.ID user = id ->
  AdvanceTOTPLastUsed id step db = (Ok true, db') ->
  User.TOTPLastUsedNs user < step /\ In (with_TOTPLastUsed step user) (users db').
Proof.
  intros W Hu Hid Ha. apply AdvanceTOTPLastUsed_ok in Ha as [-> (u & Hin & Hhit)].
  apply andb_true_iff in Hhit as [Hi Hlt]. apply eqb_s_true in Hi.
  assert (u = user) as -> by (eapply NoDup_map_inj; [exact W|done|done|congruence]).
  split; [by apply Z.ltb_lt|]. simpl. apply sql_update_In. exists user. split; [done|].
  apply eqb_s_true in Hi. by rewrite Hi, Hlt.
Qed.

(** A stored session of an active account authenticates until it expires. *)
Lemma Authenticate_live (sid : string) (now : Z) s (row : Session) (user : User) :
  users_wf (store s) -> sid <> "" -> GetSession (HashSessionID sid) (store s) = Ok row ->
  now < Session.ExpiresAtNs row -> In user (users (store s)) -> User.ID user = Session.UserID row ->
  User.Status user = UserStatusActive ->
  exists sess, fst (Authenticate sid now s) = Ok (user, sess) /\ Session.UserID sess = User.ID user.
Proof.
  intros W Hne Hg Hlt Hu Hid Hst. unfold Authenticate. apply eqb_s_false in Hne. rewrite Hne, Hg.
  destruct (Session.ExpiresAtNs row <=? now) eqn:E; [apply Z.leb_le in E; lia|].
  rewrite <- Hid, (GetUser_In (store s) user) by done. apply eqb_s_true in Hst. rewrite Hst. simpl.
  destruct (SessionNeedsRefresh _ _); [|exists row; auto].
  destruct (TouchSession _ _ _) as [[x|e] db]; simpl; eexists; split; try done; simpl; auto.
Qed.

(** The store a login leaves, against the one it found. *)
Lemma login_store (username password code key ip ua sid csrf : string) (now : Z) s s' (r : LoginResult) :
  users_wf (store s) -> login username password code key ip ua sid csrf now s = (Ok r, s') ->
  exists user row, GetUserByName username (store s) = Ok user /\ LoginUser r = user /\ SessionID r = sid /\
    VerifyPassword (User.PasswordHash user) password = true /\ User.Status user = UserStatusActive /\
    factor_spent user code now (store s) (store s') /\
    same_accounts (users (store s')) (users (store s)) /\
    NewSession sid (User.ID user) ip ua now = Some row /\
    GetSession (Session.IDHash row) (store s') = Ok row.
Proof.
  intros W Hx. apply Login_ok in Hx as (user & s1 & s2 & x & Hn & Es & Hp & Hst & H2 & Ho).
  apply open_session_ok in Ho as (row & y & db & Hrow & Hi & -> & Es').
  exists user, row. apply GetUserByName_Some in Hn as Hu. destruct Hu as [Hu _].
  destruct (factor_accounts _ _ _ _ _ _ H2) as [Ha Hs]. rewrite Es in Ha, Hs.
  apply InsertSession_ok in Hi as [Hfresh ->].
  destruct (MarkUserLogin_users (User.ID user) now (set_sessions (sessions (store s2) ++ [row]) (store s2))) as [Hs' Ha'].
  rewrite <- Es' in Hs', Ha'. simpl in Hs', Ha'.
  split_and!; try done; [|by eapply same_accounts_trans|exact (GetSession_snoc _ _ _ Hfresh Hs')].
  unfold factor_spent. apply second_factor_ok in H2. destruct (has_totp user); [|done].
  destruct H2 as (secret & step & db & Hd & Hv & Hadv & ->). rewrite Es in Hadv.
  apply (spend_row _ _ _ _ user) in Hadv as [Hlt Hin]; [|done..].
  exists secret, step. split_and!; [done..|]. rewrite Es'.
  destruct (MarkUserLogin_row (User.ID user) now (set_sessions (sessions db ++ [row]) db) _ Hin)
    as (u' & Hin' & Hid & Hstep). exists u'. by split_and!.
Qed.

(** C33: what a login establishes.  A login only succeeds for an active account,
    with the right password and, where the account has a second factor, with a
    code of a step newer than every step it has spent, which is then spent.
    From that moment the session it hands out resolves to this account at every
    instant before the twelve hours are over. *)
Theorem login_opens_a_session (username password code key ip ua sid csrf : string) (now : Z) s s' (r : LoginResult) :
  users_wf (store s) -> 0 <= now -> now + SessionTTL <= int64_max ->
  login username password code key ip ua sid csrf now s = (Ok r, s') ->
  SessionID r = sid /\
  exists user, GetUserByName username (store s) = Ok user /\
    VerifyPassword (User.PasswordHash user) password = true /\ User.Status user = UserStatusActive /\
    factor_spent user code now (store s) (store s') /\
    forall now', now' < now + SessionTTL ->
      exists user' sess, fst (Authenticate sid now' s') = Ok (user', sess) /\ same_account user' user.
Proof.
  intros W H0 Hmax Hx.
  apply login_store in Hx as (user & row & Hn & _ & Hsid & Hp & Hst & Hf & Hall & Hrow & Hg); [|done].
  split; [done|]. exists user. split_and!; try done. intros now' Hlt.
  apply GetUserByName_Some in Hn as [Hu _]. unfold NewSession in Hrow.
  destruct ((sid ==s "") || _) eqn:Ene; [done|]. injection Hrow as <-.
  apply orb_false_iff in Ene as [Ene _]. apply eqb_s_false in Ene.
  destruct (same_accounts_In _ _ user Hall Hu) as (user' & Hu' & Hsame).
  edestruct (Authenticate_live sid now' s') as (sess & Hauth & _); [|exact Ene|exact Hg| |exact Hu'| | |eauto].
  - unfold users_wf. rewrite (same_accounts_ids _ _ Hall). exact W.
  - simpl. unfold SessionExpiry, add64. rewrite wrap64_id; [lia|].
    int64_unfold. unfold SessionTTL, Hour, Minute, Second in *. lia.
  - apply Hsame.
  - destruct Hsame as (_ & _ & _ & _ & -> & _). exact Hst.
Qed.
End LoginTheorems.

(** ** A code opens one session *)

(** The spent step of an account only moves forward. *)
Definition spent_forward (u v : User) : Prop := User.ID v = User.ID u /\ User.TOTPLastUsedNs u <= User.TOTPLastUsedNs v.
Definition accounts_forward (a b : StateDB) : Prop := Forall2 spent_forward (users a) (users b).

#[global] Instance accounts_forward_preorder : PreOrder accounts_forward.
Proof.
  split.
  - intros db. unfold accounts_forward. induction (users db); constructor; [split; [done|lia]|done].
  - intros a b c. unfold accounts_forward. generalize (users a) (users b) (users c). intros la lb lc Hab.
    revert lc. induction Hab as [|u v la lb Huv _ IH]; intros lc Hbc; inversion_clear Hbc; constructor; [|by apply IH].
    unfold spent_forward in *. destruct_and?. split; [congruence|lia].
Qed.

Lemma forward_users (a b : StateDB) : users b = users a -> accounts_forward a b.
Proof. intros E. unfold accounts_forward. rewrite E. change (accounts_forward a a). reflexivity. Qed.

Lemma forward_update (p : User -> bool) (f : User -> User) (db : StateDB) :
  (forall u, p u = true -> spent_forward u (f u)) -> accounts_forward db (set_users (sql_update p f (users db)) db).
Proof.
  intros Hf. unfold accounts_forward. simpl. induction (users db) as [|u l IH]; [constructor|]. constructor; [|exact IH].
  destruct (p u) eqn:E; [auto|split; [done|lia]].
Qed.

Lemma forward_wf (a b : StateDB) : accounts_forward a b -> users_wf a -> users_wf b.
Proof.
  unfold accounts_forward, users_wf. intros H. assert (map User.ID (users b) = map User.ID (users a)) as ->; [|done].
  induction H as [|u v l k Huv _ IH]; simpl; [done|]. f_equal; [apply Huv|exact IH].
Qed.

Lemma forward_row (a b : StateDB) (x : User) :
  accounts_forward a b -> In x (users a) -> exists y, In y (users b) /\ spent_forward x y.
Proof.
  unfold accounts_forward. induction 1 as [|u v l k Huv _ IH]; intros Hin; [done|]. destruct Hin as [<-|Hin].
  - exists v. split; [left|]; done.
  - destruct (IH Hin) as (y & ? & ?). exists y. split; [right|]; done.
Qed.

Class ForwardMethod {A} (m : Method A) : Prop := forward_method : forall db, accounts_forward db (snd (m db)).

Lemma forward_transact {A} (m : DbTx A) :
  (forall db a db', m db = Ok (a, db') -> accounts_forward db db') -> ForwardMethod (transact m).
Proof. intros Hm db. unfold transact. destruct (m db) as [[a db']|e] eqn:E; simpl; [eauto|reflexivity]. Qed.

#[global] Instance forward_advance (id : string) (step : Z) : ForwardMethod (AdvanceTOTPLastUsed id step).
Proof.
  apply forward_transact. intros db b db' Hm. cbv zeta in Hm. tx_invert; [|reflexivity]. apply forward_update.
  intros u Hu. apply andb_true_iff in Hu as [_ Hlt]. apply Z.ltb_lt in Hlt. split; [done|]. simpl. lia.
Qed.
#[global] Instance forward_login_mark (id : string) (at_ns : Z) : ForwardMethod (MarkUserLogin id at_ns).
Proof. apply forward_transact. intros db b db' Hm. cbv zeta in Hm. tx_invert. apply forward_update. intros u _. split; [done|simpl; lia]. Qed.
#[global] Instance forward_insert (row : Session) : ForwardMethod (InsertSession row).
Proof. apply forward_transact. intros db b db' Hm. cbv zeta in Hm. tx_invert. by apply forward_users. Qed.
#[global] Instance forward_delete (id : string) : ForwardMethod (DeleteSession id).
Proof. apply forward_transact. intros db b db' Hm. cbv zeta in Hm. tx_invert. by apply forward_users. Qed.
#[global] Instance forward_delete_by_user (id : string) : ForwardMethod (DeleteSessionsByUser id).
Proof. apply forward_transact. intros db b db' Hm. cbv zeta in Hm. tx_invert. by apply forward_users. Qed.
#[global] Instance forward_touch (id : string) (at_ns : Z) : ForwardMethod (TouchSession id at_ns).
Proof. apply forward_transact. intros db b db' Hm. cbv zeta in Hm. tx_invert. by apply forward_users. Qed.

Section SingleUse.
Context {B : Type} `{Blocklist B}.
Context (VerifyPassword : string -> string -> bool).
Context (has_pepper : bool) (DecryptTOTPSecret : string -> option string).
Implicit Types (s : AuthState (B := B)).

Definition state_forward s s' : Prop := accounts_forward (store s) (store s').

#[local] Instance state_forward_preorder : PreOrder state_forward.
Proof. split; [intros s; unfold state_forward; reflexivity|intros a b c; unfold state_forward; apply transitivity]. Qed.

#[local] Instance moves_store_call {A} (m : Method A) : ForwardMethod m -> Moves state_forward (store_call m).
Proof.
  intros Hm s. specialize (Hm (store s)). unfold store_call, state_forward. by destruct (m (store s)) as [[a|e] db].
Qed.
#[local] Instance moves_store_try {A} (m : Method A) : ForwardMethod m -> Moves state_forward (store_try m).
Proof. intros Hm s. apply Hm. Qed.
#[local] Instance moves_blocked (key : string) (now : Z) : Moves state_forward (blocked key now).
Proof. intros s. unfold blocked, state_forward. destruct (bl_Blocked _ _ _). reflexivity. Qed.
#[local] Instance moves_record (key : string) (now : Z) : Moves state_forward (record_failure key now).
Proof. intros s. unfold state_forward. simpl. reflexivity. Qed.
#[local] Instance moves_clear (id : string) : Moves state_forward (clearAccountFailures id).
Proof.
  intros s. unfold clearAccountFailures. destruct bl_Reset; [destruct (_ ==s _)|]; unfold state_forward; simpl; reflexivity.
Qed.
#[local] Instance moves_on_error {A} (m : Proc AuthState AuthErr A) k :
  Moves state_forward m -> (forall e, Moves state_forward (k e)) -> Moves state_forward (on_error m k).
Proof.
  intros Hm Hk s. specialize (Hm s). unfold on_error. destruct (m s) as [[a|e] s1]; simpl in *; [done|].
  etransitivity; [exact Hm|apply Hk].
Qed.
#[local] Instance moves_find (name key : string) (now : Z) : Moves state_forward (find_account name key now).
Proof.
  intros s. unfold find_account. destruct (GetUserByName _ _); simpl; [reflexivity|].
  unfold recordFailure. destruct (_ ==s _); [reflexivity|apply moves_record].
Qed.

Lemma Login_forward (name password code key ip ua sid csrf : string) (now : Z) :
  Moves state_forward (Login VerifyPassword has_pepper DecryptTOTPSecret name password code key ip ua sid csrf now).
Proof.
  unfold Login, open_session, verifySecondFactor, recordFailure, recordAccountFailure.
  repeat (apply _ || apply moves_bind || apply moves_if || apply moves_on_error || case_decide || intros ?).
Qed.

Lemma Authenticate_forward (sid : string) (now : Z) : Moves state_forward (Authenticate sid now).
Proof.
  intros s. unfold Authenticate. destruct (sid ==s ""); [reflexivity|]. destruct (GetSession _ _) as [row|]; [|reflexivity].
  destruct (_ <=? _); [apply moves_bind; apply _|]. destruct (GetUser _ _) as [u|]; [|reflexivity].
  destruct (_ <>s _); [apply moves_bind; apply _|]. destruct (SessionNeedsRefresh _ _); [|reflexivity].
  pose proof (forward_touch (Session.IDHash row) (SessionExpiry now) (store s)) as Ht.
  by destruct (TouchSession _ _ _) as [[x|e] db].
Qed.

Inductive AuthOp :=
| DoLogin (name password code key ip ua sid csrf : string) (now : Z)
| DoAuthenticate (sid : string) (now : Z)
| DoLogout (sid : string)
| DoRevoke (userID : string).

Definition auth_step (op : AuthOp) s : AuthState :=
  match op with
  | DoLogin name password code key ip ua sid csrf now =>
      snd (Login VerifyPassword has_pepper DecryptTOTPSecret name password code key ip ua sid csrf now s)
  | DoAuthenticate sid now => snd (Authenticate sid now s)
  | DoLogout sid => snd (Logout sid s)
  | DoRevoke userID => snd (RevokeUserSessions userID s)
  end.

(** The step of the code an operation was let in with as account [u]. *)
Definition accepted_step (u : string) (op : AuthOp) s : option Z :=
  match op with
  | DoLogin name password code key ip ua sid csrf now =>
      match fst (Login VerifyPassword has_pepper DecryptTOTPSecret name password code key ip ua sid csrf now s) with
      | Ok r =>
          if (User.ID (LoginUser r) ==s u) && has_totp (LoginUser r)
          then secret ← DecryptTOTPSecret (default "" (User.TOTPSecretEnc (LoginUser r)));
               VerifyTOTPStep secret code now
          else None
      | Err _ => None
      end
  | _ => None
  end.

Fixpoint accepted_steps (u : string) (ops : list AuthOp) s : list Z :=
  match ops with
  | [] => []
  | op :: ops => option_list (accepted_step u op s) ++ accepted_steps u ops (auth_step op s)
  end.

Lemma auth_step_forward (op : AuthOp) s : state_forward s (auth_step op s).
Proof.
  destruct op; simpl; [apply Login_forward|apply Authenticate_forward|..].
  - unfold Logout. destruct (_ ==s _); [reflexivity|apply moves_store_call, _].
  - unfold RevokeUserSessions. destruct (_ ==s _); [reflexivity|apply moves_store_call, _].
Qed.

Lemma accepted_spends (u : string) (op : AuthOp) s (x : User) (step : Z) :
  users_wf (store s) -> In x (users (store s)) -> User.ID x = u -> accepted_step u op s = Some step ->
  User.TOTPLastUsedNs x < step /\
  exists y, In y (users (store (auth_step op s))) /\ User.ID y = u /\ User.TOTPLastUsedNs y = step.
Proof.
  intros W Hx Hid Ha. destruct op as [name password code key ip ua sid csrf now| | | ]; try done. cbn in Ha |- *.
  destruct (Login _ _ _ _ _ _ _ _ _ _ _ _ s) as [[r|e] s'] eqn:E; [|done]. cbn [fst snd] in *.
  apply login_store in E as (user & row & Hn & Hu & _ & _ & _ & Hf & _); [|done]. rewrite Hu in Ha.
  destruct (User.ID user ==s u) eqn:Eu; [|done]. unfold factor_spent in Hf. destruct (has_totp user); [|done].
  cbn [andb] in Ha. destruct Hf as (secret & st & Hd & Hv & Hlt & y & Hy & Hyid & Hyst).
  rewrite Hd in Ha. cbn [mbind option_bind] in Ha. rewrite Hv in Ha. injection Ha as ->.
  apply GetUserByName_Some in Hn as [Hin _]. apply eqb_s_true in Eu.
  assert (x = user) as -> by (eapply NoDup_map_inj; [exact W|done|done|congruence]). split; [done|].
  exists y. split_and!; [done|congruence|done].
Qed.

(** C34: a second-factor code is a one-time password.  Over any history of
    logins, right or wrong, session checks and logouts, by anyone, the steps of
    the codes an account was let in with are strictly increasing, and newer than
    every step it had spent before: no code opens a second session, and no older
    code is accepted after a newer one. *)
Theorem spent_steps_increase (u : string) (ops : list AuthOp) s (x : User) :
  users_wf (store s) -> In x (users (store s)) -> User.ID x = u ->
  StronglySorted Z.lt (User.TOTPLastUsedNs x :: accepted_steps u ops s).
Proof.
  revert s x. induction ops as [|op ops IH]; intros s x W Hx Hid; [repeat constructor|]. cbn [accepted_steps].
  pose proof (auth_step_forward op s) as Hf. pose proof (forward_wf _ _ Hf W) as W'.
  destruct (accepted_step u op s) as [step|] eqn:Ea; cbn.
  - destruct (accepted_spends u op s x step W Hx Hid Ea) as (Hlt & y & Hy & Hyid & <-).
    pose proof (IH _ y W' Hy Hyid) as Hs. constructor; [exact Hs|]. apply StronglySorted_inv in Hs as [_ Hall].
    constructor; [done|]. eapply Forall_impl; [exact Hall|]. simpl. lia.
  - destruct (forward_row _ _ x Hf Hx) as (y & Hy & Hyid & Hle).
    pose proof (IH _ y W' Hy ltac:(congruence)) as Hs. apply StronglySorted_inv in Hs as [Hsort Hall].
    constructor; [done|]. eapply Forall_impl; [exact Hall|]. simpl. lia.
Qed.
End SingleUse.

(** ** Locking an account *)

(** What the limiter was built with. *)
Definition same_limits (a b : AuthFailureLimiter) : Prop :=
  maxFailures a = maxFailures b /\ window a = window b /\ blockFor a = blockFor b /\ maxEntries a = maxEntries b.

Definition entry_count (l : AuthFailureLimiter) : Z := Z.of_nat (size (entries l)).

Lemma size_insert_le (m : gmap string authFailureEntry) (k : string) (e : authFailureEntry) :
  Z.of_nat (size (<[k := e]> m)) <= Z.of_nat (size m) + 1.
Proof. destruct (m !! k) eqn:E; [rewrite map_size_insert_Some|rewrite map_size_insert_None]; eauto; lia. Qed.

Lemma size_delete_le (m : gmap string authFailureEntry) (k : string) : (size (base.delete k m) <= size m)%nat.
Proof. rewrite map_size_delete. destruct (m !! k); simpl; lia. Qed.

(** Asking about one key leaves the others alone. *)
Lemma Blocked_other (k ip : string) (now : Z) (l l' : AuthFailureLimiter) (w : option Z) :
  k <> ip -> Blocked ip now l = (w, l') ->
  same_limits l' l /\ entries l' !! k = entries l !! k /\ entry_count l' <= entry_count l.
Proof.
  intros Hne. unfold Blocked, entry_count. destruct (negb (Enabled l) || (ip ==s "")).
  { intros [= <- <-]. split_and!; [by split_and!|done|lia]. }
  destruct (entries l !! ip) as [e|]; [|intros [= <- <-]; split_and!; [by split_and!|done|lia]].
  destruct (before_block now e); [intros [= <- <-]; split_and!; [by split_and!|done|lia]|].
  destruct (window l <=? now - windowStart e); intros [= <- <-]; (split_and!; [by split_and!| |]); simpl;
    [by rewrite lookup_delete_ne| |done|lia].
  pose proof (size_delete_le (entries l) ip). lia.
Qed.

(** So does recording a failure, while the table is not full. *)
Lemma RecordFailure_other (k ip : string) (now : Z) (l : AuthFailureLimiter) :
  k <> ip -> entry_count l < maxEntries l ->
  let l' := RecordFailure ip now l in
  same_limits l' l /\ entries l' !! k = entries l !! k /\ entry_count l' <= entry_count l + 1.
Proof.
  intros Hne Hroom. unfold RecordFailure, entry_count in *. destruct (negb (Enabled l) || (ip ==s "")).
  { simpl. split_and!; [by split_and!|done|lia]. }
  destruct (entries l !! ip) as [e|] eqn:E; simpl.
  - split_and!; [by split_and!|by rewrite lookup_insert_ne|apply size_insert_le].
  - unfold newEntry. destruct (_ && _) eqn:Ef; [apply andb_true_iff in Ef as [_ Ef]; apply Z.leb_le in Ef; lia|]. simpl.
    split_and!; [by split_and!|by rewrite !lookup_insert_ne|]. rewrite insert_insert_eq. apply size_insert_le.
Qed.

(** The entry of a key after [n] failures of a window that began at [t1], the
    last of them at [t]. *)
Definition counted (l : AuthFailureLimiter) (n t1 t : Z) : authFailureEntry :=
  mkEntry n t1 (if maxFailures l <=? n then Some (t + blockFor l) else None).

Lemma RecordFailure_own (k : string) (now n t1 t : Z) (l : AuthFailureLimiter) :
  k <> "" -> 0 < maxFailures l -> entry_count l < maxEntries l -> now - t1 < window l ->
  entries l !! k = (if n =? 0 then None else Some (counted l n t1 t)) ->
  0 <= n < maxFailures l -> (n = 0 -> now = t1) ->
  let l' := RecordFailure k now l in
  same_limits l' l /\ entries l' !! k = Some (counted l (n + 1) t1 now) /\ entry_count l' <= entry_count l + 1.
Proof.
  intros Hk Hm Hroom Hwin He Hn H0. unfold RecordFailure, Enabled, entry_count in *.
  apply eqb_s_false in Hk. rewrite Hk. assert ((0 <? maxFailures l) = true) as -> by lia. cbn [negb orb].
  rewrite He. destruct (n =? 0) eqn:En.
  - apply Z.eqb_eq in En as ->. rewrite (H0 eq_refl) in *. unfold newEntry.
    destruct (_ && _) eqn:Ef; [apply andb_true_iff in Ef as [_ Ef]; apply Z.leb_le in Ef; lia|]. simpl.
    split_and!; [by split_and!|by rewrite lookup_insert_eq|]. rewrite insert_insert_eq. apply size_insert_le.
  - simpl. assert ((window l <=? now - t1) = false) as -> by lia. simpl. split_and!; [by split_and!| |].
    + rewrite lookup_insert_eq. unfold counted. f_equal. f_equal.
      assert ((maxFailures l <=? n) = false) as -> by lia. done.
    + apply size_insert_le.
Qed.

(** One try at a password, from a client, at an instant. *)
Record Attempt := mkAttempt { at_password : string; at_code : string; at_key : string; at_now : Z }.

Section Lockout.
Context (VerifyPassword : string -> string -> bool).
Context (has_pepper : bool) (DecryptTOTPSecret : string -> option string).
Implicit Types (s : AuthState (B := AuthFailureLimiter)).

Local Abbreviation login := (Login (B := AuthFailureLimiter) VerifyPassword has_pepper DecryptTOTPSecret).

(** A login after the two questions to the blocklist. *)
Definition asked (key id : string) (now : Z) s : bool * AuthState (B := AuthFailureLimiter) :=
  match Blocked key now (blocklist s) with
  | (Some _, b) => (true, mkAuthState (store s) b)
  | (None, b) =>
      let '(wait, b) := Blocked (accountFailureKey id) now b in
      (match wait with Some _ => true | None => false end, mkAuthState (store s) b)
  end.

Lemma client_gate (key : string) (now : Z) s :
  (if key ==s "" then mret false else blocked key now) s =
  (Ok (match fst (Blocked key now (blocklist s)) with Some _ => true | None => false end),
   mkAuthState (store s) (snd (Blocked key now (blocklist s)))).
Proof.
  destruct (key ==s "") eqn:E.
  - unfold Blocked. rewrite E, orb_true_r. by destruct s.
  - unfold blocked. simpl. by destruct (Blocked key now (blocklist s)).
Qed.

(** The login of an account that exists. *)
Lemma Login_known (name password code key ip ua sid csrf : string) (now : Z) s (user : User) :
  GetUserByName name (store s) = Ok user ->
  login name password code key ip ua sid csrf now s =
  (let '(refused, s1) := asked key (User.ID user) now s in
   if refused then (Err ErrTooManyAttempts, s1)
   else (_ ← on_error (check (VerifyPassword (User.PasswordHash user) password) ErrInvalidCredentials)
              (fun _ => _ ← recordFailure key now; recordAccountFailure (User.ID user) now);
         _ ← check (User.Status user ==s UserStatusActive) ErrInvalidCredentials;
         _ ← on_error (verifySecondFactor has_pepper DecryptTOTPSecret user code now)
              (fun e => _ ← recordFailure key now;
                        if decide (e = ErrTOTPRequired) then mret tt else recordAccountFailure (User.ID user) now);
         open_session user sid csrf ip ua now) s1).
Proof.
  intros Hu. unfold Login, mbind at 1, proc_bind at 1. rewrite client_gate. unfold asked.
  destruct (Blocked key now (blocklist s)) as [[w|] b]; [done|]. cbn [fst snd].
  unfold mbind at 1, proc_bind at 1. cbn [check negb mret proc_ret].
  unfold mbind at 1, proc_bind at 1, find_account. cbn [store]. rewrite Hu.
  unfold mbind at 1, proc_bind at 1, blocked. cbn [blocklist store bl_Blocked limiter_blocklist].
  by destruct (Blocked (accountFailureKey (User.ID user)) now b) as [[w|] b'].
Qed.

(** A wrong password, when nothing blocks the try. *)
Lemma wrong_password (name password code key ip ua sid csrf : string) (now : Z) s s' (user : User) :
  GetUserByName name (store s) = Ok user -> User.ID user <> "" ->
  VerifyPassword (User.PasswordHash user) password = false ->
  login name password code key ip ua sid csrf now s = (Err ErrInvalidCredentials, s') ->
  exists b b', Blocked key now (blocklist s) = (None, b) /\ Blocked (accountFailureKey (User.ID user)) now b = (None, b') /\
    s' = mkAuthState (store s) (RecordFailure (accountFailureKey (User.ID user)) now (RecordFailure key now b')).
Proof.
  intros Hu Hid Hp. rewrite (Login_known _ _ _ _ _ _ _ _ _ _ _ Hu). unfold asked.
  destruct (Blocked key now (blocklist s)) as [[w|] b]; [done|].
  destruct (Blocked (accountFailureKey (User.ID user)) now b) as [[w|] b'] eqn:Eb; [done|]. rewrite Hp.
  apply eqb_s_false in Hid. intros [= <-]. exists b, b'. split_and!; [done..|].
  unfold recordAccountFailure, recordFailure. rewrite Hid. destruct (key ==s "") eqn:Ek; [|done].
  apply eqb_s_true in Ek as ->. simpl. f_equal. f_equal. unfold RecordFailure. by rewrite orb_true_r.
Qed.

(** The state of the account's entry after [n] failures. *)
Definition account_count (u : string) (n t1 t : Z) (l : AuthFailureLimiter) : Prop :=
  entries l !! accountFailureKey u = (if n =? 0 then None else Some (counted l n t1 t)).

(** The account's entry does not stop the first [maxFailures] tries. *)
Lemma Blocked_counting (u : string) (n t1 t now : Z) (l l' : AuthFailureLimiter) (w : option Z) :
  account_count u n t1 t l -> n < maxFailures l -> now - t1 < window l ->
  Blocked (accountFailureKey u) now l = (w, l') -> l' = l.
Proof.
  intros He Hn Hw. unfold Blocked. destruct (negb (Enabled l) || _); [by intros [= _ <-]|].
  rewrite He. destruct (n =? 0); [by intros [= _ <-]|].
  unfold counted, before_block. cbn [blockedUntil windowStart].
  assert ((maxFailures l <=? n) = false) as -> by lia.
  assert ((window l <=? now - t1) = false) as -> by lia. by intros [= _ <-].
Qed.

Lemma same_limits_trans (a b c : AuthFailureLimiter) : same_limits a b -> same_limits b c -> same_limits a c.
Proof. unfold same_limits. intuition congruence. Qed.

Lemma account_count_same (u : string) (n t1 t : Z) (l l' : AuthFailureLimiter) :
  same_limits l' l -> entries l' !! accountFailureKey u = entries l !! accountFailureKey u ->
  account_count u n t1 t l -> account_count u n t1 t l'.
Proof. unfold account_count, counted. intros (-> & _ & -> & _) ->. done. Qed.

Lemma guess_counts (name password code key ip ua sid csrf : string) (now n t1 t : Z) s s' (user : User) :
  GetUserByName name (store s) = Ok user -> User.ID user <> "" ->
  VerifyPassword (User.PasswordHash user) password = false -> key <> accountFailureKey (User.ID user) ->
  0 <= n < maxFailures (blocklist s) -> (n = 0 -> now = t1) -> now - t1 < window (blocklist s) ->
  entry_count (blocklist s) + 2 <= maxEntries (blocklist s) -> account_count (User.ID user) n t1 t (blocklist s) ->
  login name password code key ip ua sid csrf now s = (Err ErrInvalidCredentials, s') ->
  store s' = store s /\ same_limits (blocklist s') (blocklist s) /\
  account_count (User.ID user) (n + 1) t1 now (blocklist s') /\
  entry_count (blocklist s') <= entry_count (blocklist s) + 2.
Proof.
  intros Hu Hid Hp Hk Hn H0 Hw Hroom He Hx. set (k := accountFailureKey (User.ID user)) in *.
  destruct (wrong_password _ _ _ _ _ _ _ _ _ _ _ _ Hu Hid Hp Hx) as (b & b' & Hb & Hb' & ->). cbn [store blocklist].
  destruct (Blocked_other k key now _ _ _ (not_eq_sym Hk) Hb) as (L1 & E1 & C1).
  pose proof (account_count_same _ _ _ _ _ _ L1 E1 He) as He1.
  pose proof L1 as (M1 & M2 & _ & M3).
  assert (b' = b) as -> by (eapply Blocked_counting; [exact He1| | |exact Hb']; lia).
  destruct (RecordFailure_other k key now b (not_eq_sym Hk)) as (L2 & E2 & C2); [lia|].
  pose proof (account_count_same _ _ _ _ _ _ L2 E2 He1) as He2.
  set (b2 := RecordFailure key now b) in *. destruct L2 as (F1 & F2 & F3 & F4).
  destruct (RecordFailure_own k now n t1 t b2) as (L3 & E3 & C3); [done|lia..|exact He2|lia|done|].
  fold k. refine (conj eq_refl (conj _ (conj _ _))); [|unfold account_count; fold k; rewrite E3|lia].
  - eapply same_limits_trans; [exact L3|]. eapply same_limits_trans; [|exact L1]. by split_and!.
  - assert ((n + 1 =? 0) = false) as -> by lia. unfold counted. destruct L3 as (-> & _ & -> & _). done.
Qed.

(** The tries in their order: what each answered, and the state they leave. *)
Fixpoint tries (name : string) (l : list Attempt) s : list (res AuthErr LoginResult) * AuthState (B := AuthFailureLimiter) :=
  match l with
  | [] => ([], s)
  | a :: rest =>
      let '(r, s1) := login name (at_password a) (at_code a) (at_key a) "" "" "" "" (at_now a) s in
      let '(rs, s2) := tries name rest s1 in
      (r :: rs, s2)
  end.

(** A try at the wrong password of [user] that falls in the window of [t1]. *)
Definition wrong_try (user : User) (l : AuthFailureLimiter) (t1 : Z) (a : Attempt) : Prop :=
  VerifyPassword (User.PasswordHash user) (at_password a) = false /\
  at_key a <> accountFailureKey (User.ID user) /\ at_now a - t1 < window l.

Lemma last_shift (l : list Z) (x d : Z) : List.last (x :: l) d = List.last l x.
Proof.
  revert x d. induction l as [|y l IH]; intros x d; [done|]. change (List.last (y :: l) d = List.last (y :: l) x).
  by rewrite (IH y d), (IH y x).
Qed.

Lemma tries_count (name : string) (user : User) (l : list Attempt) (t1 : Z) :
  forall (n t : Z) s s', GetUserByName name (store s) = Ok user -> User.ID user <> "" -> 0 < n ->
  n + Z.of_nat (length l) <= maxFailures (blocklist s) ->
  entry_count (blocklist s) + 2 * Z.of_nat (length l) <= maxEntries (blocklist s) ->
  Forall (wrong_try user (blocklist s) t1) l -> account_count (User.ID user) n t1 t (blocklist s) ->
  tries name l s = (repeat (Err ErrInvalidCredentials) (length l), s') ->
  store s' = store s /\ same_limits (blocklist s') (blocklist s) /\
  account_count (User.ID user) (n + Z.of_nat (length l)) t1 (List.last (map at_now l) t) (blocklist s').
Proof.
  induction l as [|a l IH]; intros n t s s' Hu Hid Hn Hmax Hroom Hall He Hx.
  { injection Hx as <-. rewrite Z.add_0_r. refine (conj eq_refl (conj _ He)). by split_and!. }
  simpl length in *. apply Forall_cons in Hall as [(Hp & Hk & Hw) Hall].
  cbn [tries repeat] in Hx. destruct (login _ _ _ _ _ _ _ _ _ s) as [r s1] eqn:E1.
  destruct (tries name l s1) as [rs s2] eqn:E2. injection Hx as -> -> ->.
  destruct (guess_counts _ _ _ _ _ _ _ _ _ n t1 t _ _ user Hu Hid Hp Hk ltac:(lia) ltac:(lia) Hw ltac:(lia) He E1)
    as (Hs & L & Hc & Hcnt). pose proof L as (M1 & M2 & M3 & M4).
  destruct (IH (n + 1) (at_now a) s1 s') as (Hs2 & L2 & Hc2); [by rewrite Hs|done|lia..| |done|done|].
  - eapply Forall_impl; [exact Hall|]. unfold wrong_try. by rewrite M2.
  - rewrite Hs2, Hs. refine (conj eq_refl (conj (same_limits_trans _ _ _ L2 L) _)).
    replace (n + Z.of_nat (S (length l))) with (n + 1 + Z.of_nat (length l)) by lia.
    cbn [map]. rewrite last_shift. exact Hc2.
Qed.

(** A locked account is refused whatever is presented. *)
Lemma locked_login (name password code key ip ua sid csrf : string) (now n t1 t : Z) s (user : User) :
  GetUserByName name (store s) = Ok user -> 0 < maxFailures (blocklist s) -> maxFailures (blocklist s) <= n ->
  key <> accountFailureKey (User.ID user) -> account_count (User.ID user) n t1 t (blocklist s) -> now < t + blockFor (blocklist s) ->
  fst (login name password code key ip ua sid csrf now s) = Err ErrTooManyAttempts.
Proof.
  intros Hu Hm Hn Hk He Hlt. rewrite (Login_known _ _ _ _ _ _ _ _ _ _ _ Hu). unfold asked.
  destruct (Blocked key now (blocklist s)) as [[w|] b] eqn:Eb; [done|].
  destruct (Blocked_other _ key now _ _ _ (not_eq_sym Hk) Eb) as (L & E & _).
  pose proof (account_count_same _ _ _ _ _ _ L E He) as He'. destruct L as (M1 & _ & M2 & _).
  unfold Blocked, Enabled. rewrite He'. unfold counted, before_block. cbn [blockedUntil].
  assert ((0 <? maxFailures b) = true) as -> by lia. assert ((n =? 0) = false) as -> by lia.
  assert ((maxFailures b <=? n) = true) as -> by lia. cbn. assert ((now <? t + blockFor b) = true) as -> by lia. done.
Qed.

Lemma open_session_accepts (user : User) (sid csrf ip ua : string) (now : Z) s :
  sid <> "" -> User.ID user <> "" -> In user (users (store s)) ->
  (forall r, In r (sessions (store s)) -> Session.IDHash r <> HashSessionID sid) ->
  fst (open_session user sid csrf ip ua now s) = Ok (mkLoginResult sid csrf user (SessionExpiry now)).
Proof.
  intros Hsid Hid Hin Hfresh. unfold open_session, NewSession.
  apply eqb_s_false in Hsid as ->. apply eqb_s_false in Hid as Hid'. rewrite Hid'. cbn [orb or_fail].
  unfold mbind, proc_bind, store_call. cbn [mret proc_ret or_fail].
  rewrite InsertSession_accepts; [|done|by apply (user_exists_In user)].
  unfold store_try, clearAccountFailures. cbn [bl_Reset limiter_blocklist]. by rewrite Hid'.
Qed.

(** Past the block the account's entry refuses nothing. *)
Lemma released_login (name password code ip ua sid csrf : string) (now n t1 t : Z) s (user : User) :
  GetUserByName name (store s) = Ok user -> User.ID user <> "" -> maxFailures (blocklist s) <= n ->
  account_count (User.ID user) n t1 t (blocklist s) -> t + blockFor (blocklist s) <= now ->
  VerifyPassword (User.PasswordHash user) password = true -> User.Status user = UserStatusActive ->
  has_totp user = false -> sid <> "" -> (forall r, In r (sessions (store s)) -> Session.IDHash r <> HashSessionID sid) ->
  fst (login name password code "" ip ua sid csrf now s) = Ok (mkLoginResult sid csrf user (SessionExpiry now)).
Proof.
  intros Hu Hid Hn He Hle Hp Hst Ht Hsid Hfresh. rewrite (Login_known _ _ _ _ _ _ _ _ _ _ _ Hu). unfold asked.
  assert (Blocked "" now (blocklist s) = (None, blocklist s)) as -> by (unfold Blocked; by rewrite orb_true_r).
  assert (exists b, Blocked (accountFailureKey (User.ID user)) now (blocklist s) = (None, b)) as (b & ->).
  { unfold Blocked. destruct (negb (Enabled (blocklist s)) || _); [eauto|]. rewrite He. destruct (n =? 0); [eauto|].
    unfold counted, before_block. cbn [blockedUntil]. assert ((maxFailures (blocklist s) <=? n) = true) as -> by lia.
    assert ((now <? t + blockFor (blocklist s)) = false) as -> by lia. destruct (_ <=? _); eauto. }
  rewrite Hp, Hst. unfold verifySecondFactor. rewrite Ht. apply GetUserByName_Some in Hu as [Hin _].
  by apply open_session_accepts.
Qed.

(** The last of the tries that fill the account's bucket. *)
Lemma bucket_filled (name : string) (user : User) (a : Attempt) (l : list Attempt) s s' :
  GetUserByName name (store s) = Ok user -> User.ID user <> "" ->
  entries (blocklist s) !! accountFailureKey (User.ID user) = None ->
  Z.of_nat (S (length l)) <= maxFailures (blocklist s) ->
  entry_count (blocklist s) + 2 * Z.of_nat (S (length l)) <= maxEntries (blocklist s) ->
  Forall (wrong_try user (blocklist s) (at_now a)) (a :: l) ->
  tries name (a :: l) s = (repeat (Err ErrInvalidCredentials) (S (length l)), s') ->
  store s' = store s /\ same_limits (blocklist s') (blocklist s) /\
  account_count (User.ID user) (Z.of_nat (S (length l))) (at_now a) (List.last (map at_now l) (at_now a)) (blocklist s').
Proof.
  intros Hu Hid He Hmax Hroom Hall Hx. apply Forall_cons in Hall as [(Hp & Hk & Hw) Hall].
  cbn [tries repeat] in Hx. destruct (login _ _ _ _ _ _ _ _ _ s) as [r s1] eqn:E1.
  destruct (tries name l s1) as [rs s2] eqn:E2. injection Hx as -> -> ->.
  destruct (guess_counts _ _ _ _ _ _ _ _ _ 0 (at_now a) 0 _ _ user Hu Hid Hp Hk ltac:(lia) (fun _ => eq_refl) Hw ltac:(lia) He E1)
    as (Hs & L & Hc & Hcnt). pose proof L as (M1 & M2 & M3 & M4).
  destruct (tries_count name user l (at_now a) 1 (at_now a) s1 s') as (Hs2 & L2 & Hc2);
    [by rewrite Hs|done|lia..| |exact Hc|exact E2|].
  - eapply Forall_impl; [exact Hall|]. unfold wrong_try. by rewrite M2.
  - rewrite Hs2, Hs. refine (conj eq_refl (conj (same_limits_trans _ _ _ L2 L) _)).
    replace (Z.of_nat (S (length l))) with (1 + Z.of_nat (length l)) by lia. exact Hc2.
Qed.

End Lockout.

Module AuthDemo.
Definition ann : User :=
  User.mkUser "u1" "ann" "correct horse" "user" "active" (Some "GEZDGNBVGY3TQOJQGEZDGNBVGY3TQOJQ") 0 0 0 0.
Definition bob : User := User.mkUser "u2" "bob" "battery staple" "user" "active" None 0 0 0 0.
Definition db : StateDB := Eval vm_compute in snd (InsertUser bob (snd (InsertUser ann emptyDB))).
Definition t0 : Z := 1111111109 * Second.
Definition start : AuthState := mkAuthState db (NewAuthFailureLimiter 3 Minute (5 * Minute)).

(** Stored in the clear, which is enough to run the flow. *)
Definition verify (hash password : string) : bool := hash ==s password.
Definition demo_login := Login (B := AuthFailureLimiter) verify true Some.

Definition opened : AuthState (B := AuthFailureLimiter) := Eval vm_compute in
  snd (demo_login "ann" "correct horse" "081804" "10.0.0.1" "10.0.0.1" "ua" "sid-1" "csrf" t0 start).
Definition result : LoginResult := mkLoginResult "sid-1" "csrf" ann (t0 + SessionTTL).

Lemma opened_eq :
  demo_login "ann" "correct horse" "081804" "10.0.0.1" "10.0.0.1" "ua" "sid-1" "csrf" t0 start = (Ok result, opened).
Proof. vm_compute. reflexivity. Qed.

Lemma auth_db_wf : users_wf db.
Proof. unfold users_wf. simpl. by repeat constructor; set_solver. Qed.

Definition history : list AuthOp :=
  [DoLogin "ann" "correct horse" "081804" "" "" "" "sid-1" "csrf" t0;
   DoLogin "ann" "correct horse" "081804" "" "" "" "sid-2" "csrf" (t0 + Second);
   DoLogin "ann" "correct horse" "050471" "" "" "" "sid-3" "csrf" (t0 + 2 * Second);
   DoLogout "sid-1"].

(** The replay of the first code is refused. *)
Lemma history_steps :
  accepted_steps verify true Some "u1" history start = [1111111080 * Second; 1111111110 * Second].
Proof. vm_compute. reflexivity. Qed.

Definition guesses : list Attempt :=
  [mkAttempt "b" "" "10.0.0.2" (t0 + Second); mkAttempt "c" "" "10.0.0.3" (t0 + 2 * Second)].
Definition guess1 : Attempt := mkAttempt "a" "" "10.0.0.1" t0.
Definition locked : AuthState (B := AuthFailureLimiter) := Eval vm_compute in
  snd (tries verify true Some "bob" (guess1 :: guesses) start).

Lemma locked_eq :
  tries verify true Some "bob" (guess1 :: guesses) start = (repeat (Err ErrInvalidCredentials) 3, locked).
Proof. vm_compute. reflexivity. Qed.
End AuthDemo.

Lemma login_opens_a_session_witness :
  exists user', fst (Authenticate (B := AuthFailureLimiter) "sid-1" (AuthDemo.t0 + Hour) AuthDemo.opened) = Ok user'.
Proof.
  destruct (login_opens_a_session AuthDemo.verify true Some "ann" "correct horse" "081804" "10.0.0.1" "10.0.0.1" "ua"
    "sid-1" "csrf" AuthDemo.t0 AuthDemo.start AuthDemo.opened AuthDemo.result AuthDemo.auth_db_wf) as (_ & user & _ & _ & _ & _ & Hall).
  - vm_compute. discriminate.
  - vm_compute. discriminate.
  - exact AuthDemo.opened_eq.
  - destruct (Hall (AuthDemo.t0 + Hour)) as (user' & sess & He & _); [vm_compute; reflexivity|]. exists (user', sess). exact He.
Defined.

Lemma spent_steps_increase_witness :
  StronglySorted Z.lt (0 :: accepted_steps AuthDemo.verify true Some "u1" AuthDemo.history AuthDemo.start).
Proof.
  apply (spent_steps_increase AuthDemo.verify true Some "u1" AuthDemo.history AuthDemo.start AuthDemo.ann AuthDemo.auth_db_wf);
    [by left|done].
Defined.

