(* ===== verification/Limiter.v ===== *)
(** * Quotas, rates and live sessions

    [src/internal/usage/limiter.go] (the admission check and the per-key
    request schedule), [connregistry.go] (who holds which connections),
    [enforcer.go] (ending sessions of keys that lost their entitlement) and the
    adapters of [sink.go]. *)

From stdpp Require Import base gmap list strings.
From S2P Require Import Prelude Model Counters Keys.

(** ** The request schedule *)

Definition maxRateEntries : nat := N.to_nat 65536.

Abbreviation rateTable := (gmap string Z).

(** [prune]: drop what has caught up with the clock; if that is not enough,
    drop everything. *)
Definition prune (nowNs : Z) (t : rateTable) : rateTable :=
  let kept := filter (fun kv => nowNs < snd kv) t in
  if (maxRateEntries <? size kept)%nat then ∅ else kept.

Definition allow (name : string) (intervalNs burstNs nowNs : Z) (t : rateTable) : bool * rateTable :=
  if intervalNs <=? 0 then (true, t)
  else
    let due := match t !! name with
               | Some d => if d <? nowNs then nowNs else d
               | None => nowNs
               end in
    let next := add64 due intervalNs in
    if burstNs <? sub64 next nowNs then (false, t)
    else
      let t' := <[name := next]> t in
      (true, if (maxRateEntries <? size t')%nat then prune nowNs t' else t').

(** ** The limiter *)

Inductive Reason := ReasonTraffic | ReasonConcurrency | ReasonRate | ReasonDisabled.

Inductive Decision := Allowed | Refused (r : Reason).

Record Limiter := mkLimiter { counters : Counters; rates : rateTable }.

Definition rateKey (key : KeyState) : string :=
  if KeyState.KeyID key <>s "" then KeyState.KeyID key else KeyState.UserID key.

Definition secondNs : Z := 1000000000.

Definition usedBytes (key : KeyState) (c : Counters) : Z :=
  match (if KeyState.UserID key <>s "" then UserBytesPresent (KeyState.UserID key) c else None) with
  | Some total => total
  | None => KeyTotal (KeyState.KeyID key) c
  end.

(** The rate step of [Check]. *)
Definition check_rate (key : KeyState) (nowNs : Z) (t : rateTable) : bool * rateTable :=
  let limit := PlanSnapshot.MaxRPS (KeyState.Plan key) in
  if (0 <? limit) && (rateKey key <>s "")
  then allow (rateKey key) (Z.quot secondNs limit) secondNs nowNs t
  else (true, t).

Definition Check (key : option KeyState) (concurrent nowNs : Z) (l : Limiter) : Decision * Limiter :=
  match key with
  | None => (Allowed, l)
  | Some k =>
      let plan := KeyState.Plan k in
      if negb (Usable key nowNs) then (Refused ReasonDisabled, l)
      else if (0 <? PlanSnapshot.MaxConcurrent plan) && (PlanSnapshot.MaxConcurrent plan <=? concurrent)
      then (Refused ReasonConcurrency, l)
      else
        match check_rate k nowNs (rates l) with
        | (false, t) => (Refused ReasonRate, mkLimiter (counters l) t)
        | (true, t) =>
            let l' := mkLimiter (counters l) t in
            if (0 <? PlanSnapshot.TrafficBytes plan) && (PlanSnapshot.TrafficBytes plan <=? usedBytes k (counters l))
            then (Refused ReasonTraffic, l')
            else (Allowed, l')
        end
  end.

Definition DefaultGracePercent : Z := 1.

Definition Exceeded (key : option KeyState) (gracePercent : Z) (l : Limiter) : bool :=
  match key with
  | None => false
  | Some k =>
      let limit := PlanSnapshot.TrafficBytes (KeyState.Plan k) in
      if limit <=? 0 then false
      else
        let grace := mul64 (Z.quot limit 100) gracePercent in
        let used := usedBytes k (counters l) in
        if used <? limit then false else add64 limit grace <=? used
  end.

(** ** Recording traffic *)

Definition OnKeyTrafficDelta (keyID userID platformID : string) (ingress egress : Z) (c : Counters) : Counters :=
  if keyID ==s "" then c else Add (mkCounterKey keyID userID platformID) (mkDelta ingress egress 0 0) c.

Definition OnKeyRequest (keyID userID platformID : string) (failed : bool) (c : Counters) : Counters :=
  if keyID ==s "" then c
  else Add (mkCounterKey keyID userID platformID) (mkDelta 0 0 1 (if failed then 1 else 0)) c.

(** ** Live connections.  A connection is its identity. *)

Abbreviation Conn := positive.
Abbreviation ConnRegistry := (gmap string (gset Conn)).

Definition Track (keyID : string) (conn : Conn) (r : ConnRegistry) : ConnRegistry :=
  if keyID ==s "" then r else <[keyID := {[conn]} ∪ default ∅ (r !! keyID)]> r.

Definition Untrack (keyID : string) (conn : Conn) (r : ConnRegistry) : ConnRegistry :=
  if keyID ==s "" then r
  else match r !! keyID with
       | None => r
       | Some conns =>
           let conns' := conns ∖ {[conn]} in
           if (size conns' =? 0)%nat then base.delete keyID r else <[keyID := conns']> r
       end.

Definition Count (keyID : string) (r : ConnRegistry) : Z :=
  if keyID ==s "" then 0 else Z.of_nat (size (default ∅ (r !! keyID))).

(** The connections that are closed, and the registry without the key. *)
Definition CloseKey (keyID : string) (r : ConnRegistry) : gset Conn * ConnRegistry :=
  if keyID ==s "" then (∅, r)
  else match r !! keyID with
       | None => (∅, r)
       | Some conns => (conns, base.delete keyID r)
       end.

Definition ConnKeys (r : ConnRegistry) : list string := (map_to_list r).*1.

Fixpoint close_keys (keys : list string) (r : ConnRegistry) : Z * ConnRegistry :=
  match keys with
  | [] => (0, r)
  | k :: rest =>
      let (closed, r1) := CloseKey k r in
      let (n, r2) := close_keys rest r1 in
      (Z.of_nat (size closed) + n, r2)
  end.

Definition CloseAll (r : ConnRegistry) : Z * ConnRegistry := close_keys (ConnKeys r) r.

(** ** The enforcer *)

Record SweepResult := mkSweepResult { Checked : Z; ClosedSessions : Z }.

(** A key that may keep its sessions. *)
Definition entitled (key : option KeyState) (gracePercent nowNs : Z) (l : Limiter) : bool :=
  match key with
  | None => false
  | Some _ => Usable key nowNs && negb (Exceeded key gracePercent l)
  end.

Fixpoint sweep_keys (keys : list string) (lookup : string -> option KeyState) (gracePercent nowNs : Z)
    (l : Limiter) (res : SweepResult) (r : ConnRegistry) : SweepResult * ConnRegistry :=
  match keys with
  | [] => (res, r)
  | keyID :: rest =>
      let key := lookup keyID in
      let checked := match key with Some _ => Checked res + 1 | None => Checked res end in
      if entitled key gracePercent nowNs l
      then sweep_keys rest lookup gracePercent nowNs l (mkSweepResult checked (ClosedSessions res)) r
      else
        let (closed, r') := CloseKey keyID r in
        sweep_keys rest lookup gracePercent nowNs l
          (mkSweepResult checked (ClosedSessions res + Z.of_nat (size closed))) r'
  end.

Definition SweepOnce (lookup : string -> option KeyState) (gracePercent nowNs : Z) (l : Limiter)
    (r : ConnRegistry) : SweepResult * ConnRegistry :=
  sweep_keys (ConnKeys r) lookup gracePercent nowNs l (mkSweepResult 0 0) r.

(** ** The request rate *)

Section Rate.
Context (iv : string -> Z) (burst : Z).

(** Requests are pairs of a key and a time. *)
Fixpoint table_after (h : list (string * Z)) (t : rateTable) : rateTable :=
  match h with
  | [] => t
  | (n, now) :: rest => table_after rest (snd (allow n (iv n) burst now t))
  end.

(** How many requests of [k] are admitted. *)
Fixpoint admitted (k : string) (h : list (string * Z)) (t : rateTable) : Z :=
  match h with
  | [] => 0
  | (n, now) :: rest =>
      (if (n ==s k) && fst (allow n (iv n) burst now t) then 1 else 0)
      + admitted k rest (snd (allow n (iv n) burst now t))
  end.

(** At no request are more than [maxRateEntries] schedules ahead of the clock,
    so the table is never emptied. *)
Fixpoint never_cleared (h : list (string * Z)) (t : rateTable) : Prop :=
  match h with
  | [] => True
  | (n, now) :: rest =>
      let t' := snd (allow n (iv n) burst now t) in
      (forall next, (size (filter (fun kv => (now < snd kv)%Z) (<[n := next]> t)) <= maxRateEntries)%nat) /\
      never_cleared rest t'
  end.

(** Times do not go backwards from [now], and stay at most [last]. *)
Fixpoint in_order (now last : Z) (h : list (string * Z)) : Prop :=
  match h with
  | [] => now <= last
  | (_, t) :: rest => now <= t /\ in_order t last rest
  end.

Definition ahead_at_most (now : Z) (t : rateTable) : Prop :=
  forall n d, t !! n = Some d -> 0 <= d <= now + burst.

Hypothesis iv_pos : forall n, 0 < iv n <= burst.

(** One request, without the wrap-around. *)
Lemma allow_spec (n : string) (now : Z) (t : rateTable) :
  0 <= now -> now + 2 * burst <= int64_max -> ahead_at_most now t ->
  (forall next, (size (filter (fun kv => (now < snd kv)%Z) (<[n := next]> t)) <= maxRateEntries)%nat) ->
  let due := Z.max now (default now (t !! n)) in
  fst (allow n (iv n) burst now t) = (due + iv n - now <=? burst) /\
  forall k, match snd (allow n (iv n) burst now t) !! k with
            | Some d => if (n ==s k) && (due + iv n - now <=? burst) then d = due + iv n
                        else t !! k = Some d
            | None => ((n ==s k) && (due + iv n - now <=? burst) = true -> due + iv n <= now) /\
                      forall d, t !! k = Some d -> (n ==s k) && (due + iv n - now <=? burst) = false -> d <= now
            end.
Proof.
  intros Hnow Hmax Hah Hclr due. pose proof (iv_pos n) as Hiv. unfold allow.
  rewrite (proj2 (Z.leb_gt _ _)) by lia.
  assert (match t !! n with Some d => if d <? now then now else d | None => now end = due) as ->.
  { subst due. destruct (t !! n) as [d|]; simpl; [|lia]. destruct (d <? now) eqn:E; bool_prop; lia. }
  assert (now <= due <= now + burst) as Hdue.
  { subst due. destruct (t !! n) as [d|] eqn:E; simpl; [|lia]. specialize (Hah n d E). lia. }
  unfold sub64, add64. rewrite (wrap64_id (due + iv n)) by (int64_unfold; lia).
  rewrite wrap64_id by (int64_unfold; lia).
  destruct (burst <? due + iv n - now) eqn:Eb; bool_prop; simpl.
  - rewrite (proj2 (Z.leb_gt _ _)) by lia. split; [done|]. intros k. rewrite andb_false_r.
    destruct (t !! k) eqn:E; [done|]. split; [done|]. intros d. congruence.
  - rewrite (proj2 (Z.leb_le _ _)) by lia. split; [done|]. intros k. rewrite andb_true_r.
    set (t' := <[n := due + iv n]> t).
    assert (forall k, t' !! k = if n ==s k then Some (due + iv n) else t !! k) as Ht'.
    { intros j. subst t'. destruct (n ==s j) eqn:E; bool_prop; [subst; apply lookup_insert_eq|].
      apply lookup_insert_ne. done. }
    destruct (maxRateEntries <? size t')%nat.
    + unfold prune. specialize (Hclr (due + iv n)). fold t' in Hclr.
      rewrite (proj2 (Nat.ltb_ge _ _)) by exact Hclr.
      destruct (filter (fun kv => now < snd kv) t' !! k) as [d|] eqn:E.
      * apply map_lookup_filter_Some in E as [E _]. rewrite Ht' in E. destruct (n ==s k); congruence.
      * rewrite map_lookup_filter_None in E. rewrite Ht' in E. destruct (n ==s k).
        -- split; [|done]. intros _. destruct E as [|E]; [done|]. specialize (E _ eq_refl). simpl in E. lia.
        -- split; [done|]. intros d Ed _. destruct E as [E|E]; [congruence|]. specialize (E d Ed). simpl in E. lia.
    + rewrite Ht'. destruct (n ==s k); [done|]. destruct (t !! k) eqn:E; [done|]. split; [done|]. congruence.
Qed.

Lemma allow_ahead (n : string) (now : Z) (t : rateTable) :
  0 <= now -> now + 2 * burst <= int64_max -> ahead_at_most now t ->
  (forall next, (size (filter (fun kv => (now < snd kv)%Z) (<[n := next]> t)) <= maxRateEntries)%nat) ->
  ahead_at_most now (snd (allow n (iv n) burst now t)).
Proof.
  intros Hnow Hmax Hah Hclr k d Hd. pose proof (iv_pos n).
  destruct (allow_spec n now t Hnow Hmax Hah Hclr) as [_ Hs]. specialize (Hs k). rewrite Hd in Hs.
  destruct ((n ==s k) && _) eqn:E; [|eapply Hah; exact Hs].
  apply andb_true_iff in E as [_ E]. apply Z.leb_le in E. lia.
Qed.

Lemma ahead_later (now now' : Z) (t : rateTable) : now <= now' -> ahead_at_most now t -> ahead_at_most now' t.
Proof. intros Hle H n d Hd. specialize (H n d Hd). lia. Qed.

(** The window argument: [count] requests of [k] have been admitted since
    [start]; they push the schedule of [k] that many intervals past it. *)
Lemma admitted_bound (k : string) (h : list (string * Z)) (t : rateTable) (start now last count : Z) :
  0 <= start <= now -> 0 <= count -> last + 2 * burst <= int64_max -> in_order now last h ->
  ahead_at_most now t -> never_cleared h t ->
  start + count * iv k <= now + burst ->
  (start + count * iv k <= now \/ exists d, t !! k = Some d /\ start + count * iv k <= d) ->
  (count + admitted k h t) * iv k <= last - start + burst.
Proof.
  revert t now count. induction h as [|[n ts] h IH]; intros t now count Hs Hc Hmax Ho Hah Hn Hb Hsched;
    simpl in *; [lia|].
  destruct Ho as [Hts Ho]. destruct Hn as [Hclr Hn].
  assert (ts <= last) as Hlast.
  { clear -Ho. revert ts Ho. induction h as [|[m u] h IH]; simpl; intros ts Ho; [done|].
    destruct Ho as [H1 H2]. apply IH in H2. lia. }
  assert (ahead_at_most ts t) as Hah' by (eapply ahead_later; eauto).
  destruct (allow_spec n ts t) as [Hf Hsnd]; [lia|lia|done|done|].
  pose proof (allow_ahead n ts t ltac:(lia) ltac:(lia) Hah' Hclr) as Hah''.
  pose proof (iv_pos k) as Hiv. specialize (Hsnd k). rewrite Hf.
  set (due := Z.max ts (default ts (t !! n))) in *.
  set (t' := snd (allow n (iv n) burst ts t)) in *.
  destruct ((n ==s k) && (due + iv n - ts <=? burst)) eqn:Ea.
  - apply andb_true_iff in Ea as [En Ead]. apply eqb_s_true in En. subst n. apply Z.leb_le in Ead.
    assert (start + count * iv k <= due) as Hdue.
    { subst due. destruct Hsched as [?|(d & Hd & ?)]; [lia|]. rewrite Hd. simpl. lia. }
    replace (count + (1 + admitted k h t')) with ((count + 1) + admitted k h t') by lia.
    apply (IH t' ts (count + 1)); [lia|lia|done|done|done|done|lia|].
    destruct (t' !! k) as [d|] eqn:Ek; [right; exists d; split; [done|lia]|].
    left. destruct Hsnd as [Hle _]. specialize (Hle eq_refl). lia.
  - replace (count + (0 + admitted k h t')) with (count + admitted k h t') by lia.
    apply (IH t' ts count); [lia|lia|done|done|done|done|lia|].
    destruct Hsched as [?|(d & Hd & Hle)]; [left; lia|].
    destruct (t' !! k) as [d'|] eqn:Ek; [right; exists d'; split; [done|]; congruence|].
    left. destruct Hsnd as [_ Hd']. specialize (Hd' d Hd eq_refl). lia.
Qed.

Lemma table_after_ahead (h : list (string * Z)) (t : rateTable) (now last : Z) :
  0 <= now -> last + 2 * burst <= int64_max -> in_order now last h -> never_cleared h t ->
  ahead_at_most now t -> ahead_at_most last (table_after h t).
Proof.
  revert t now. induction h as [|[n ts] h IH]; intros t now H0 Hmax Ho Hn Hah; simpl in *.
  { eapply ahead_later; eauto. }
  destruct Ho as [Hts Ho], Hn as [Hclr Hn].
  assert (ts <= last) as Hlast.
  { clear -Ho. revert ts Ho. induction h as [|[m u] h IH]; simpl; intros ts Ho; [done|].
    destruct Ho as [H1 H2]. apply IH in H2. lia. }
  apply (IH _ ts); try done; [lia|]. apply allow_ahead; try done; [lia|lia|]. eapply ahead_later; eauto.
Qed.
End Rate.


(** ** The quota *)

Lemma usedBytes_of_user (k : KeyState) (ops : list CounterOp) :
  loads_in_range ops -> KeyState.UserID k <> "" -> 0 < allowance_after (KeyState.UserID k) ops 0 <= int64_max ->
  usedBytes k (run_ops ops NewCounters) = allowance_after (KeyState.UserID k) ops 0.
Proof.
  intros Hl Hne Hr. set (c := run_ops ops NewCounters).
  assert (UserBytes (KeyState.UserID k) c ≡₆₄ allowance_after (KeyState.UserID k) ops 0) as Hq.
  { apply UserBytes_eqm; [done|]. unfold UserBytes. simpl. rewrite lookup_empty.
    destruct (KeyState.UserID k ==s ""); reflexivity. }
  assert (in_int64 (UserBytes (KeyState.UserID k) c)) as Hin.
  { assert (users_in_range c) as Hc.
    { apply run_ops_range; [done|]. intros u v. simpl. rewrite lookup_empty. done. }
    unfold UserBytes. destruct (_ ==s _); [int64_unfold; lia|].
    destruct (users c !! KeyState.UserID k) as [v|] eqn:E; simpl; [apply (Hc _ _ E)|int64_unfold; lia]. }
  assert (UserBytes (KeyState.UserID k) c = allowance_after (KeyState.UserID k) ops 0) as E.
  { apply eqm64_exact; [done|done|int64_unfold; lia]. }
  apply eqb_s_false in Hne as Hb. unfold usedBytes, UserBytesPresent, UserBytes in *. rewrite Hb in *. simpl.
  destruct (users c !! KeyState.UserID k) as [total|]; simpl in *; [done|]. lia.
Qed.

(** C10: The allowance belongs to the user: whatever was flushed, requeued or
    spread over several keys, once the user's traffic since the last reset
    reaches the plan's limit, no key of theirs is admitted; and once it passes
    the grace, every session of theirs counts as exceeded. *)
Theorem quota_binds_every_key_of_a_user (ops : list CounterOp) (k : KeyState) (t : rateTable)
    (concurrent nowNs grace : Z) :
  let limit := PlanSnapshot.TrafficBytes (KeyState.Plan k) in
  let moved := allowance_after (KeyState.UserID k) ops 0 in
  let l := mkLimiter (run_ops ops NewCounters) t in
  loads_in_range ops -> KeyState.UserID k <> "" -> 0 < limit <= moved -> moved <= int64_max ->
  fst (Check (Some k) concurrent nowNs l) <> Allowed /\
  (0 <= grace -> limit + limit / 100 * grace <= moved -> Exceeded (Some k) grace l = true).
Proof.
  intros limit moved l Hld Hne Hl Hm.
  pose proof (usedBytes_of_user k ops Hld Hne ltac:(lia)) as Hu. fold moved in Hu.
  split.
  - unfold Check. destruct (negb _); [done|]. destruct (_ && _); [done|].
    destruct (check_rate k nowNs (rates l)) as [[|] t']; [|done]. simpl. rewrite Hu. fold limit.
    rewrite (proj2 (Z.ltb_lt _ _)) by lia. rewrite (proj2 (Z.leb_le _ _)) by lia. done.
  - intros Hg Hx. unfold Exceeded. fold limit. simpl. rewrite Hu.
    rewrite (proj2 (Z.leb_gt _ _)), (proj2 (Z.ltb_ge _ _)) by lia.
    rewrite Z.quot_div_nonneg by lia. pose proof (Z.div_pos limit 100).
    assert (0 <= limit / 100 * grace) by nia. unfold mul64, add64.
    rewrite (wrap64_id (limit / 100 * grace)) by (int64_unfold; lia).
    rewrite wrap64_id by (int64_unfold; lia). apply Z.leb_le. lia.
Qed.

(** ** Ending sessions *)

Lemma sweep_keys_spec (lookup : string -> option KeyState) (grace nowNs : Z) (l : Limiter) (keys : list string)
    (res : SweepResult) (r : ConnRegistry) (k : string) :
  snd (sweep_keys keys lookup grace nowNs l res r) !! k =
    (if bool_decide (k ∈ keys) && negb (entitled (lookup k) grace nowNs l) && (k <>s "") then None else r !! k).
Proof.
  revert res r. induction keys as [|j keys IH]; intros res r; simpl; [done|].
  destruct (entitled (lookup j) grace nowNs l) eqn:Ee.
  - rewrite IH. destruct (decide (k = j)) as [->|Hne].
    + rewrite Ee, !andb_false_r. done.
    + repeat case_bool_decide; set_solver.
  - unfold CloseKey. destruct (j ==s "") eqn:Ej.
    { rewrite IH. apply eqb_s_true in Ej. subst j. destruct (decide (k = "")) as [->|Hne].
      - rewrite eqb_s_refl, !andb_false_r. done.
      - repeat case_bool_decide; set_solver. }
    destruct (r !! j) as [conns|] eqn:Er; simpl in *; rewrite IH.
    + destruct (decide (k = j)) as [->|Hne].
      * rewrite lookup_delete_eq, Ee, Ej. rewrite (bool_decide_true (j ∈ j :: keys)) by (left; done). simpl.
        destruct (bool_decide _); done.
      * rewrite lookup_delete_ne by done. repeat case_bool_decide; set_solver.
    + destruct (decide (k = j)) as [->|Hne].
      * rewrite Ee, Ej. rewrite (bool_decide_true (j ∈ j :: keys)) by (left; done). simpl.
        destruct (bool_decide _); simpl; done.
      * repeat case_bool_decide; set_solver.
Qed.


Module LimiterDemo.
Definition iv (n : string) : Z := 100.
Definition burst : Z := 300.
Definition before : list (string * Z) := [("a", 10); ("b", 20)]%string.
Definition window : list (string * Z) := [("a", 50); ("a", 50); ("b", 60); ("a", 70); ("a", 400)]%string.

Lemma small_table (h : list (string * Z)) (t : rateTable) :
  (size t + length h <= maxRateEntries)%nat -> never_cleared iv burst h t.
Proof.
  revert t. induction h as [|[n now] h IH]; intros t Hs; simpl in *; [done|].
  assert (forall m : rateTable, (size (filter (fun kv => (now < snd kv)%Z) m) <= size m)%nat) as Hf.
  { intros m. rewrite <- !size_dom. apply subseteq_size, dom_filter_subseteq. }
  assert (forall next : Z, (size (<[n := next]> t) <= S (size t))%nat) as Hi.
  { intros next. rewrite map_size_insert. case_match; unfold id; simpl; lia. }
  split; [intros next; specialize (Hf (<[n := next]> t)); specialize (Hi next); lia|].
  apply IH. unfold allow, iv, burst. destruct (_ <=? 0); simpl; [lia|].
  destruct (_ <? _); simpl; [lia|].
  match goal with |- context [<[n := ?x]> t] => specialize (Hi x) end.
  destruct (_ <? _)%nat; [|lia]. unfold prune. destruct (_ <? _)%nat; [rewrite map_size_empty; lia|].
  match goal with |- context [filter _ ?m] => specialize (Hf m) end. lia.
Qed.

Lemma table_large : (2 + 5 <= maxRateEntries)%nat.
Proof. unfold maxRateEntries. lia. Qed.

Lemma two_entries : (size (∅ : rateTable) + length before <= 2 + 5)%nat.
Proof. rewrite map_size_empty. simpl. lia. Qed.

Lemma before_size : size (table_after iv burst before ∅) = 2%nat.
Proof. vm_compute. reflexivity. Qed.

Definition plan : PlanSnapshot := PlanSnapshot.mkPlanSnapshot [] [] 1000 0 0 0 0 "active".
Definition key (id : string) : KeyState :=
  KeyState.mkKeyState id "ann" "h" "proxy" "active" 0 [] false [] "active" "user" plan.

(** Two keys of one user share the plan; a flush happens in between. *)
Definition history : list CounterOp :=
  [OpAdd (mkCounterKey "k1" "ann" "p") (mkDelta 300 300 1 0); OpDrain [mkCounterKey "k1" "ann" "p"];
   OpMark "ann" 600; OpAdd (mkCounterKey "k2" "ann" "p") (mkDelta 300 200 1 0)].
End LimiterDemo.


Lemma quota_binds_every_key_of_a_user_witness :
  fst (Check (Some (LimiterDemo.key "k1")) 0 9 (mkLimiter (run_ops LimiterDemo.history NewCounters) ∅)) <> Allowed /\
  Exceeded (Some (LimiterDemo.key "k2")) 1 (mkLimiter (run_ops LimiterDemo.history NewCounters) ∅) = true.
Proof.
  assert (loads_in_range LimiterDemo.history) as Hl.
  { intros u b Hin. simpl in Hin. destruct Hin as [H|[H|[H|[H|[]]]]]; discriminate. }
  split.
  - apply (quota_binds_every_key_of_a_user LimiterDemo.history (LimiterDemo.key "k1") ∅ 0 9 1 Hl);
      [discriminate|vm_compute; split; [reflexivity|discriminate]|vm_compute; discriminate].
  - apply (quota_binds_every_key_of_a_user LimiterDemo.history (LimiterDemo.key "k2") ∅ 0 9 1 Hl);
      [discriminate|vm_compute; split; [reflexivity|discriminate]|vm_compute; discriminate|lia|
       vm_compute; discriminate].
Defined.

