(* ===== verification/Calendar.v ===== *)
(** * The calendar of Go's time package

    What the period rollover uses of [time]: the year, month and day of an
    instant, [time.Date] on a valid date, and the last day of a month.  An
    instant is its Unix time in nanoseconds; the location is a fixed offset from
    UTC.  A month is counted from year zero: [12 * year + (month - 1)]. *)

From stdpp Require Import base list numbers.
From S2P Require Import Prelude.

Definition leap (y : Z) : bool := (y mod 4 =? 0) && (negb (y mod 100 =? 0) || (y mod 400 =? 0)).

(** Days from the first of January of year 1 to that of year [y]. *)
Definition days_before_year (y : Z) : Z :=
  365 * (y - 1) + (y - 1) / 4 - (y - 1) / 100 + (y - 1) / 400.

(** Days of a year before each month, January first. *)
Definition days_before_month (y m : Z) : Z :=
  nth (Z.to_nat (m - 1)) [0; 31; 59; 90; 120; 151; 181; 212; 243; 273; 304; 334] 365
  + (if leap y && (3 <=? m) then 1 else 0).

Definition month_length (y m : Z) : Z :=
  nth (Z.to_nat (m - 1)) [31; 28; 31; 30; 31; 30; 31; 31; 30; 31; 30; 31] 0
  + (if leap y && (m =? 2) then 1 else 0).

(** Days from the first of January of year 1 to the first of a month. *)
Definition month_start (i : Z) : Z :=
  let y := i / 12 in
  let m := i mod 12 + 1 in
  days_before_year y + days_before_month y m.

(** The year of a day, by cycles of 400, 100, 4 and 1 years. *)
Definition year_of (n : Z) : Z :=
  let n400 := n / 146097 in
  let r := n mod 146097 in
  let n100 := Z.min 3 (r / 36524) in
  let r2 := r - n100 * 36524 in
  let n4 := r2 / 1461 in
  let r3 := r2 mod 1461 in
  let n1 := Z.min 3 (r3 / 365) in
  400 * n400 + 100 * n100 + 4 * n4 + n1 + 1.

(** The last month whose first day is not after the day. *)
Fixpoint month_from (y yday : Z) (k : nat) : Z :=
  match k with
  | O => 1
  | S k' => if days_before_month y (Z.of_nat (S k)) <=? yday then Z.of_nat (S k) else month_from y yday k'
  end.

Definition month_of (n : Z) : Z := let y := year_of n in month_from y (n - days_before_year y) 11.

(** The month index, the day of the month and the time of day of an instant. *)
Definition epochDays : Z := 719162.
Definition nsPerDay : Z := 86400000000000.

Section Location.
Context (offset : Z).

Definition local_day (t : Z) : Z := (t + offset) / nsPerDay + epochDays.
Definition time_of_day (t : Z) : Z := (t + offset) mod nsPerDay.
Definition Year (t : Z) : Z := year_of (local_day t).
Definition Month (t : Z) : Z := month_of (local_day t).
Definition Day (t : Z) : Z := local_day t - month_start (12 * Year t + (Month t - 1)) + 1.

(** [time.Date] of a day that exists, as Unix nanoseconds. *)
Definition Date (year month day tod : Z) : Z :=
  (month_start (12 * year + (month - 1)) + (day - 1) - epochDays) * nsPerDay + tod - offset.
End Location.

(** ** Months are consecutive intervals of days *)

Lemma leap_spec (y : Z) :
  days_before_year (y + 1) = days_before_year y + (if leap y then 366 else 365).
Proof.
  unfold days_before_year, leap. replace (y + 1 - 1) with y by lia.
  assert (forall k, 0 < k -> y / k = (y - 1) / k + (if y mod k =? 0 then 1 else 0)) as Hd.
  { intros k Hk. pose proof (Z.div_mod y k). pose proof (Z.mod_pos_bound y k Hk).
    destruct (y mod k =? 0) eqn:E; bool_prop.
    - assert ((y - 1) / k = y / k - 1) as ->; [|lia].
      symmetry. apply (Z.div_unique _ _ _ (k - 1)); lia.
    - rewrite Z.add_0_r. apply (Z.div_unique _ _ _ (y mod k - 1)); lia. }
  rewrite (Hd 4), (Hd 100), (Hd 400) by lia.
  destruct (y mod 4 =? 0) eqn:E4, (y mod 100 =? 0) eqn:E100, (y mod 400 =? 0) eqn:E400; simpl; bool_prop; try lia;
  exfalso; Z.div_mod_to_equations; lia.
Qed.

Lemma mod_cases12 (i : Z) :
  exists y m, i = 12 * y + m /\ 0 <= m < 12 /\ i / 12 = y /\ i mod 12 = m.
Proof.
  exists (i / 12), (i mod 12). pose proof (Z.div_mod i 12). pose proof (Z.mod_pos_bound i 12). lia.
Qed.

Lemma month_start_of (y m : Z) : 0 <= m < 12 ->
  month_start (12 * y + m) = days_before_year y + days_before_month y (m + 1).
Proof.
  intros Hm. unfold month_start.
  assert ((12 * y + m) / 12 = y) as -> by (symmetry; apply (Z.div_unique _ _ _ m); lia).
  assert ((12 * y + m) mod 12 = m) as -> by (symmetry; apply (Z.mod_unique _ _ y); lia). done.
Qed.

(** A month ends where the next one starts. *)
Lemma month_start_next (i : Z) : month_start (i + 1) = month_start i + month_length (i / 12) (i mod 12 + 1).
Proof.
  destruct (mod_cases12 i) as (y & m & -> & Hm & -> & ->). rewrite (month_start_of y m Hm).
  destruct (Z.eq_dec m 11) as [->|Hne].
  - replace (12 * y + 11 + 1) with (12 * (y + 1) + 0) by lia. rewrite month_start_of, leap_spec by lia.
    unfold days_before_month, month_length. simpl. rewrite !andb_false_r, !andb_true_r. destruct (leap y); lia.
  - replace (12 * y + m + 1) with (12 * y + (m + 1)) by lia. rewrite month_start_of by lia.
    unfold days_before_month, month_length.
    assert (m = 0 \/ m = 1 \/ m = 2 \/ m = 3 \/ m = 4 \/ m = 5 \/ m = 6 \/ m = 7 \/ m = 8 \/ m = 9 \/ m = 10)
      as H by lia.
    destruct (leap y); destruct_or! H; subst m; simpl; lia.
Qed.

Lemma month_length_bounds (y m : Z) : 1 <= m <= 12 -> 28 <= month_length y m <= 31.
Proof.
  intros Hm. unfold month_length.
  assert (m = 1 \/ m = 2 \/ m = 3 \/ m = 4 \/ m = 5 \/ m = 6 \/ m = 7 \/ m = 8 \/ m = 9 \/ m = 10 \/ m = 11 \/ m = 12)
    as H by lia.
  destruct (leap y); destruct_or! H; subst m; simpl; lia.
Qed.

Lemma month_start_mono (i j : Z) : i <= j -> month_start i <= month_start j.
Proof.
  intros Hle. replace j with (i + Z.of_nat (Z.to_nat (j - i))) by lia.
  generalize (Z.to_nat (j - i)). intros n. induction n as [|n IH]; [rewrite Z.add_0_r; lia|].
  replace (i + Z.of_nat (S n)) with (i + Z.of_nat n + 1) by lia. rewrite month_start_next.
  pose proof (month_length_bounds ((i + Z.of_nat n) / 12) ((i + Z.of_nat n) mod 12 + 1)).
  pose proof (Z.mod_pos_bound (i + Z.of_nat n) 12). lia.
Qed.

(** The year found by the cycles is the year of the day. *)
Lemma year_of_spec (n : Z) : days_before_year (year_of n) <= n < days_before_year (year_of n + 1).
Proof.
  unfold year_of. set (a := n / 146097). set (r := n mod 146097).
  assert (n = 146097 * a + r /\ 0 <= r < 146097) as [Hn Hr].
  { subst a r. pose proof (Z.div_mod n 146097). pose proof (Z.mod_pos_bound n 146097). lia. }
  set (b := Z.min 3 (r / 36524)).
  assert (0 <= b <= 3 /\ 0 <= r - b * 36524 /\ (b < 3 -> r - b * 36524 < 36524) /\ r - b * 36524 <= 36524)
    as (Hb & Hr2 & Hr2' & Hr2'').
  { subst b. Z.div_mod_to_equations. lia. }
  set (r2 := r - b * 36524) in *. set (c := r2 / 1461). set (r3 := r2 mod 1461).
  assert (r2 = 1461 * c + r3 /\ 0 <= r3 < 1461 /\ 0 <= c <= 24 /\ (b < 3 -> c = 24 -> r3 < 1460)) as (Hr3 & Hr3' & Hc & Hc').
  { subst c r3. Z.div_mod_to_equations. lia. }
  set (d := Z.min 3 (r3 / 365)).
  assert (0 <= d <= 3 /\ 365 * d <= r3 /\ (d < 3 -> r3 < 365 * d + 365)) as (Hd & Hd' & Hd'').
  { subst d. Z.div_mod_to_equations. lia. }
  assert (forall e, 0 <= e <= 3 -> days_before_year (400 * a + 100 * b + 4 * c + e + 1) =
            146097 * a + 36524 * b + 1461 * c + 365 * e) as Hdby.
  { intros e He. unfold days_before_year. replace (400 * a + 100 * b + 4 * c + e + 1 - 1)
      with (400 * a + 100 * b + 4 * c + e) by lia.
    assert ((400 * a + 100 * b + 4 * c + e) / 4 = 100 * a + 25 * b + c) as -> by (symmetry; apply (Z.div_unique _ _ _ e); lia).
    assert ((400 * a + 100 * b + 4 * c + e) / 100 = 4 * a + b) as -> by (symmetry; apply (Z.div_unique _ _ _ (4 * c + e)); lia).
    assert ((400 * a + 100 * b + 4 * c + e) / 400 = a) as -> by (symmetry; apply (Z.div_unique _ _ _ (100 * b + 4 * c + e)); lia).
    lia. }
  pose proof (eq_refl : r2 = r - b * 36524) as Hr2e. clearbody r2 c r3 d b a r. rewrite Hdby by lia. split; [lia|].
  rewrite leap_spec, Hdby by lia.
  destruct (Z.eq_dec d 3) as [->|Hne]; [|specialize (Hd'' ltac:(lia)); destruct (leap _); lia].
  assert (r3 = 1460 -> leap (400 * a + 100 * b + 4 * c + 3 + 1) = true) as Hl.
  { intros E. unfold leap. rewrite andb_true_iff, orb_true_iff, negb_true_iff, !Z.eqb_eq, Z.eqb_neq.
    split; [Z.div_mod_to_equations; lia|].
    destruct (Z.eq_dec c 24) as [->|]; [right|left].
    - assert (b = 3) by lia. subst b. replace (400 * a + 100 * 3 + 4 * 24 + 3 + 1) with (400 * (a + 1)) by lia.
      Z.div_mod_to_equations. lia.
    - rewrite <- (Z.mod_unique _ 100 (4 * a + b) (4 * c + 4)); lia. }
  destruct (leap _) eqn:El; [lia|]. destruct (Z.eq_dec r3 1460) as [E|]; [specialize (Hl E); congruence|lia].
Qed.

(** ** The decomposition of an instant *)

Lemma days_before_month_range (y m : Z) : 1 <= m <= 12 ->
  0 <= days_before_month y m /\ days_before_month y 1 = 0.
Proof.
  intros Hm. unfold days_before_month. rewrite andb_false_r. split; [|done].
  assert (m = 1 \/ m = 2 \/ m = 3 \/ m = 4 \/ m = 5 \/ m = 6 \/ m = 7 \/ m = 8 \/ m = 9 \/ m = 10 \/ m = 11 \/ m = 12)
    as H by lia.
  destruct (leap y); destruct_or! H; subst m; simpl; lia.
Qed.

Lemma month_from_spec (y yday : Z) (k : nat) : (k <= 11)%nat -> 0 <= yday ->
  let m := month_from y yday k in
  1 <= m <= Z.of_nat k + 1 /\ days_before_month y m <= yday /\
  (m = Z.of_nat k + 1 \/ yday < days_before_month y (m + 1)).
Proof.
  intros Hk Hd. induction k as [|k IH]; cbn [month_from].
  - pose proof (days_before_month_range y 1). lia.
  - case_match eqn:E; bool_prop; [lia|]. destruct (IH ltac:(lia)) as (H1 & H2 & [H3|H3]).
    + repeat split; try lia. right. rewrite H3 in *. replace (Z.of_nat k + 1 + 1) with (Z.of_nat (S (S k))) by lia.
      replace (Z.of_nat k + 1 + 1) with (Z.of_nat (S (S k))) in E by lia. lia.
    + repeat split; try lia; auto.
Qed.

Definition month_index (n : Z) : Z := 12 * year_of n + (month_of n - 1).

Lemma month_of_range (n : Z) : 1 <= month_of n <= 12.
Proof.
  unfold month_of. pose proof (year_of_spec n) as [H1 H2].
  pose proof (month_from_spec (year_of n) (n - days_before_year (year_of n)) 11 ltac:(lia) ltac:(lia)) as H.
  cbv zeta in H. lia.
Qed.

(** A day lies in its month. *)
Lemma month_index_spec (n : Z) : month_start (month_index n) <= n < month_start (month_index n + 1).
Proof.
  unfold month_index. pose proof (month_of_range n) as Hr. pose proof (year_of_spec n) as [H1 H2].
  pose proof (month_from_spec (year_of n) (n - days_before_year (year_of n)) 11 ltac:(lia) ltac:(lia)) as H.
  cbv zeta in H. fold (month_of n) in H. destruct H as (_ & Hle & Hnext).
  rewrite month_start_of by lia. replace (month_of n - 1 + 1) with (month_of n) by lia. split; [lia|].
  destruct (Z.eq_dec (month_of n) 12) as [E|].
  - replace (12 * year_of n + (month_of n - 1) + 1) with (12 * (year_of n + 1) + 0) by lia.
    rewrite month_start_of by lia. change (0 + 1) with 1.
    pose proof (days_before_month_range (year_of n + 1) 1). lia.
  - replace (12 * year_of n + (month_of n - 1) + 1) with (12 * year_of n + month_of n) by lia.
    rewrite month_start_of by lia. lia.
Qed.

(** The month of a day is the only one it lies in. *)
Lemma month_index_unique (n i : Z) : month_start i <= n < month_start (i + 1) -> month_index n = i.
Proof.
  intros Hi. pose proof (month_index_spec n) as Hn.
  destruct (Z.lt_trichotomy (month_index n) i) as [Hlt|[?|Hlt]]; [exfalso|done|exfalso].
  - pose proof (month_start_mono (month_index n + 1) i). lia.
  - pose proof (month_start_mono (i + 1) (month_index n)). lia.
Qed.

Lemma month_index_mono (n n' : Z) : month_index n < month_index n' -> n < n'.
Proof.
  intros H. pose proof (month_index_spec n). pose proof (month_index_spec n').
  pose proof (month_start_mono (month_index n + 1) (month_index n')). lia.
Qed.

Section LocationFacts.
Context (offset : Z).

Definition month_at (t : Z) : Z := month_index (local_day offset t).

Lemma Day_range (t : Z) : 1 <= Day offset t <= month_length (Year offset t) (Month offset t).
Proof.
  unfold Day. pose proof (month_index_spec (local_day offset t)) as H. rewrite month_start_next in H.
  unfold month_index in H. fold (Year offset t) (Month offset t) in H.
  pose proof (month_of_range (local_day offset t)) as Hr. fold (Month offset t) in Hr.
  assert ((12 * Year offset t + (Month offset t - 1)) / 12 = Year offset t) as E1
    by (symmetry; apply (Z.div_unique _ _ _ (Month offset t - 1)); lia).
  assert ((12 * Year offset t + (Month offset t - 1)) mod 12 = Month offset t - 1) as E2
    by (symmetry; apply (Z.mod_unique _ _ (Year offset t)); lia).
  rewrite E1, E2 in H. replace (Month offset t - 1 + 1) with (Month offset t) in H by lia. lia.
Qed.

Lemma Day_month_at (t : Z) : Day offset t = local_day offset t - month_start (month_at t) + 1.
Proof. reflexivity. Qed.

Lemma local_day_Date (year month day tod : Z) : 0 <= tod < nsPerDay ->
  local_day offset (Date offset year month day tod) = month_start (12 * year + (month - 1)) + (day - 1).
Proof.
  intros Ht. unfold local_day, Date.
  replace (_ + tod - offset + offset) with
    (tod + (month_start (12 * year + (month - 1)) + (day - 1) - epochDays) * nsPerDay) by lia.
  rewrite Z.div_add, Z.div_small by (unfold nsPerDay in *; lia). lia.
Qed.

Lemma time_of_day_range (t : Z) : 0 <= time_of_day offset t < nsPerDay.
Proof. unfold time_of_day. apply Z.mod_pos_bound. done. Qed.

(** An instant in an earlier month is earlier. *)
Lemma month_at_mono (t t' : Z) : month_at t < month_at t' -> t < t'.
Proof.
  intros H%month_index_mono. unfold local_day in H. unfold nsPerDay in *. Z.div_mod_to_equations. lia.
Qed.

(** A date is in the month it names, and its parts give it back. *)
Lemma month_at_Date (year month day tod : Z) :
  1 <= month <= 12 -> 1 <= day <= month_length year month -> 0 <= tod < nsPerDay ->
  month_at (Date offset year month day tod) = 12 * year + (month - 1).
Proof.
  intros Hm Hd Ht. unfold month_at. apply month_index_unique. rewrite local_day_Date by done.
  rewrite month_start_next.
  assert ((12 * year + (month - 1)) / 12 = year) as -> by (symmetry; apply (Z.div_unique _ _ _ (month - 1)); lia).
  assert ((12 * year + (month - 1)) mod 12 = month - 1) as -> by (symmetry; apply (Z.mod_unique _ _ year); lia).
  replace (month - 1 + 1) with month by lia. lia.
Qed.

Lemma Date_parts (t : Z) : Date offset (Year offset t) (Month offset t) (Day offset t) (time_of_day offset t) = t.
Proof.
  unfold Date, Day, local_day, time_of_day. unfold nsPerDay. Z.div_mod_to_equations. lia.
Qed.
End LocationFacts.
