(* ===== verification/Period.v ===== *)
(** * Period rollover

    [src/internal/usage/period.go]: the grammar of a plan period, the start of
    the window an instant lies in, and the pass that starts a new period for
    every active subscription whose window has closed.

    Times are Unix nanoseconds.  [time.Unix] reads them in the process's
    location, which is a parameter: a constant offset from UTC. *)

From Stdlib Require Import Ascii String.
From stdpp Require Import base gmap list strings.
From S2P Require Import Prelude Calendar Counters Model Store UsageTables Flush GoStrings Keys.

(** ** Period names *)

Definition PeriodOnce : string := "once".
Definition PeriodDay : string := "day".
Definition PeriodWeek : string := "week".
Definition PeriodMonth : string := "month".
Definition DefaultPeriod : string := "30d".
Definition maxPeriodDays : Z := 36500.

Definition Hour : Z := 3600000000000.

Definition normalizePeriod (period : string) : string := ToLower (TrimSpace period).

Definition TrimSuffix_d (l : bytes) : bytes :=
  match rev l with
  | c :: l' => if Ascii.eqb c "d" then rev l' else l
  | [] => []
  end.

Fixpoint count_days (l : bytes) (days : Z) : option Z :=
  match l with
  | [] => Some days
  | c :: l' =>
      if negb (is_digit c) then None
      else
        let days := days * 10 + (Z.of_nat (nat_of_ascii c) - 48) in
        if maxPeriodDays <? days then None else count_days l' days
  end.

Definition periodLength (period : string) : option Z :=
  let normalized := normalizePeriod period in
  if (normalized ==s PeriodDay) || (normalized ==s "1d") then Some (24 * Hour)
  else if (normalized ==s PeriodWeek) || (normalized ==s "7d") then Some (7 * 24 * Hour)
  else if normalized ==s "" then None
  else
    let trimmed := TrimSuffix_d (list_ascii_of_string normalized) in
    match trimmed with
    | [] => None
    | _ =>
        match count_days trimmed 0 with
        | None => None
        | Some days => if days <=? 0 then None else Some (mul64 (mul64 days 24) Hour)
        end
    end.

Definition periodRecognized (period : string) : bool :=
  if normalizePeriod period ==s PeriodMonth then true
  else match periodLength period with Some length => 0 <? length | None => false end.

Definition periodFromSnapshot (raw : Snapshot) : string :=
  match decode_snapshot raw with
  | Some plan => TrimSpace (Plan.Period plan)
  | None => ""
  end.

Definition periodFor (sub : UserSubscription) (db : StateDB) : string :=
  let period := periodFromSnapshot (UserSubscription.PlanSnapshotJSON sub) in
  if negb (period ==s "") then normalizePeriod period
  else if UserSubscription.PlanID sub ==s "" then DefaultPeriod
  else match GetPlan (UserSubscription.PlanID sub) db with
       | Err _ => DefaultPeriod
       | Ok plan => if Plan.Period plan ==s "" then DefaultPeriod else normalizePeriod (Plan.Period plan)
       end.

(** ** The window an instant lies in *)

Section Windows.
Context (offset : Z).

(** Day 0 of the following month is the last day of this one. *)
Definition addMonthsClamped (t : Z) (months : Z) : Z :=
  let monthIndex := Month offset t - 1 + months in
  let year := Year offset t + monthIndex ÷ 12 in
  let month := Z.rem monthIndex 12 + 1 in
  let lastDay := Day offset (Date offset year (month + 1) 0 0) in
  let day := if lastDay <? Day offset t then lastDay else Day offset t in
  Date offset year month day (time_of_day offset t).

Definition advanceByCalendarMonth (start now : Z) : Z * bool :=
  let months := (Year offset now - Year offset start) * 12 + Month offset now - Month offset start in
  if months <=? 0 then (start, false)
  else
    let candidate := addMonthsClamped start months in
    if now <? candidate then
      let months := months - 1 in
      if months <=? 0 then (start, false)
      else (wrap64 (addMonthsClamped start months), true)
    else (wrap64 candidate, true).

Definition advancePeriod (currentStartNs nowNs : Z) (period : string) : Z * bool :=
  if nowNs <? currentStartNs then (currentStartNs, false)
  else if normalizePeriod period ==s PeriodMonth then advanceByCalendarMonth currentStartNs nowNs
  else match periodLength period with
       | None => (currentStartNs, false)
       | Some length =>
           if length <=? 0 then (currentStartNs, false)
           else
             let elapsed := sub64 nowNs currentStartNs in
             let periods := elapsed ÷ length in
             if periods =? 0 then (currentStartNs, false)
             else (add64 currentStartNs (mul64 periods length), true)
       end.

(** ** The pass *)

Record PeriodResetResult := mkPeriodResetResult { Checked : Z; Rolled : Z }.

(** What the pass works on: the store, the running totals, the warnings already
    given per subscription, and the warnings logged. *)
Record PeriodReset := mkPeriodReset {
  Store : StateDB;
  Totals : Counters;
  warned : gmap string string;
  warnings : list (string * string)
}.

Definition warnUnknownPeriod (subID period : string) (p : PeriodReset) : PeriodReset :=
  if match warned p !! subID with Some last => last ==s period | None => false end then p
  else mkPeriodReset (Store p) (Totals p) (<[subID := period]> (warned p)) (warnings p ++ [(subID, period)]).

Definition roll (nowNs : Z) (sub : UserSubscription) (acc : PeriodResetResult * PeriodReset)
    : PeriodResetResult * PeriodReset :=
  let '(result, p) := acc in
  if negb (is_active sub) then (result, p)
  else
    let result := mkPeriodResetResult (Checked result + 1) (Rolled result) in
    if UserSubscription.PeriodStartNs sub <=? 0 then (result, p)
    else
      let period := periodFor sub (Store p) in
      if normalizePeriod period ==s PeriodOnce then (result, p)
      else
        let '(next, rolled) := advancePeriod (UserSubscription.PeriodStartNs sub) nowNs period in
        if negb rolled then
          (result, if negb (periodRecognized period) then warnUnknownPeriod (UserSubscription.ID sub) period p else p)
        else
          match ResetSubscriptionPeriod (UserSubscription.ID sub) (UserSubscription.PeriodStartNs sub) next (Store p) with
          | (Err _, db) => (result, mkPeriodReset db (Totals p) (warned p) (warnings p))
          | (Ok _, db) =>
              (mkPeriodResetResult (Checked result) (Rolled result + 1),
               mkPeriodReset db (ResetUser (UserSubscription.UserID sub) (Totals p)) (warned p) (warnings p))
          end.

Definition forget_unlisted (subs : list UserSubscription) (p : PeriodReset) : PeriodReset :=
  mkPeriodReset (Store p) (Totals p)
    (filter (fun kv => fst kv ∈ map UserSubscription.ID subs) (warned p)) (warnings p).

(** [clock] is [time.Now]. *)
Definition RunOnce (clock nowNs : Z) (p : PeriodReset) : PeriodResetResult * PeriodReset :=
  let nowNs := if nowNs <=? 0 then clock else nowNs in
  let subs := ListUserSubscriptions (Store p) in
  let '(result, p') := fold_left (fun acc sub => roll nowNs sub acc) subs (mkPeriodResetResult 0 0, p) in
  (result, forget_unlisted subs p').

End Windows.

(** ** The window of an instant *)

Section WindowFacts.
Context (offset : Z).

Lemma lastDay_is_month_length (year month : Z) : 1 <= month <= 12 ->
  Day offset (Date offset year (month + 1) 0 0) = month_length year month.
Proof.
  intros Hm. pose proof (month_length_bounds year month Hm) as Hb.
  pose proof (month_start_next (12 * year + (month - 1))) as Hn.
  assert ((12 * year + (month - 1)) / 12 = year) as E1 by (symmetry; apply (Z.div_unique _ _ _ (month - 1)); lia).
  assert ((12 * year + (month - 1)) mod 12 = month - 1) as E2 by (symmetry; apply (Z.mod_unique _ _ year); lia).
  rewrite E1, E2 in Hn. replace (month - 1 + 1) with month in Hn by lia.
  replace (12 * year + (month - 1) + 1) with (12 * year + (month + 1 - 1)) in Hn by lia.
  assert (Date offset year (month + 1) 0 0 = Date offset year month (month_length year month) 0) as E
    by (unfold Date; lia).
  pose proof (month_at_Date offset year month (month_length year month) 0 Hm ltac:(lia) ltac:(done)) as Hi.
  rewrite E, Day_month_at, Hi, local_day_Date by done. lia.
Qed.

(** The boundary [k] months on, for [k >= 0]: the month is the [k]-th after the
    start's, the time of day is kept, and so is the day where the month has it. *)
Lemma addMonthsClamped_spec (t k : Z) : 0 <= k ->
  let i := month_at offset t + k in
  addMonthsClamped offset t k =
    Date offset (i / 12) (i mod 12 + 1)
      (Z.min (Day offset t) (month_length (i / 12) (i mod 12 + 1))) (time_of_day offset t).
Proof.
  intros Hk i. pose proof (month_of_range (local_day offset t)) as Hr. fold (Month offset t) in Hr.
  unfold addMonthsClamped. rewrite Z.quot_div_nonneg, Z.rem_mod_nonneg by lia.
  assert (i = 12 * Year offset t + (Month offset t - 1 + k)) as Hi by (unfold i, month_at, month_index, Year, Month; lia).
  assert (i / 12 = Year offset t + (Month offset t - 1 + k) / 12) as ->
    by (rewrite Hi, Z.add_comm, Z.mul_comm, Z.div_add by lia; lia).
  assert (i mod 12 = (Month offset t - 1 + k) mod 12) as ->
    by (rewrite Hi, Z.add_comm, Z.mul_comm, Z.mod_add by lia; done).
  pose proof (Z.mod_pos_bound (Month offset t - 1 + k) 12 ltac:(lia)) as Hmod.
  rewrite lastDay_is_month_length by lia. f_equal. case_match eqn:E; bool_prop; lia.
Qed.

Lemma month_at_addMonths (t k : Z) : 0 <= k ->
  month_at offset (addMonthsClamped offset t k) = month_at offset t + k.
Proof.
  intros Hk. rewrite addMonthsClamped_spec by done. set (i := month_at offset t + k).
  pose proof (Z.mod_pos_bound i 12 ltac:(lia)) as Hm.
  pose proof (month_length_bounds (i / 12) (i mod 12 + 1) ltac:(lia)) as Hb.
  pose proof (Day_range offset t) as Hd.
  rewrite month_at_Date by (try apply time_of_day_range; lia).
  pose proof (Z.div_mod i 12). lia.
Qed.

Lemma addMonths_0 (t : Z) : addMonthsClamped offset t 0 = t.
Proof.
  rewrite addMonthsClamped_spec by lia. rewrite Z.add_0_r.
  pose proof (month_of_range (local_day offset t)) as Hr. fold (Month offset t) in Hr.
  assert (month_at offset t = 12 * Year offset t + (Month offset t - 1)) as -> by done.
  assert ((12 * Year offset t + (Month offset t - 1)) / 12 = Year offset t) as ->
    by (symmetry; apply (Z.div_unique _ _ _ (Month offset t - 1)); lia).
  assert ((12 * Year offset t + (Month offset t - 1)) mod 12 = Month offset t - 1) as ->
    by (symmetry; apply (Z.mod_unique _ _ (Year offset t)); lia).
  replace (Month offset t - 1 + 1) with (Month offset t) by lia.
  rewrite Z.min_l by apply Day_range. apply Date_parts.
Qed.

(** Where the [k]-th window after the one starting at [start] starts. *)
Definition boundary (period : string) (start k : Z) : Z :=
  if normalizePeriod period ==s PeriodMonth then addMonthsClamped offset start k
  else start + k * default 0 (periodLength period).

(** The result is the start of the window [now] lies in. *)
Definition window_found (period : string) (start now : Z) (r : Z * bool) : Prop :=
  exists k, 0 <= k /\ fst r = boundary period start k /\ snd r = (0 <? k) /\
    boundary period start k <= now < boundary period start (k + 1).

Lemma calendar_window (start now : Z) : 0 <= start <= now -> now <= int64_max ->
  let r := advanceByCalendarMonth offset start now in
  exists k, 0 <= k /\ fst r = addMonthsClamped offset start k /\ snd r = (0 <? k) /\
    addMonthsClamped offset start k <= now < addMonthsClamped offset start (k + 1).
Proof.
  intros Hs Hn. unfold advanceByCalendarMonth.
  assert ((Year offset now - Year offset start) * 12 + Month offset now - Month offset start =
          month_at offset now - month_at offset start) as ->
    by (unfold month_at, month_index, Year, Month; lia).
  set (m := month_at offset now - month_at offset start).
  assert (forall k, 0 <= k -> k < m -> addMonthsClamped offset start k < now) as Hbefore.
  { intros k Hk Hkm. apply (month_at_mono offset). rewrite month_at_addMonths by done. lia. }
  assert (forall k, 0 <= k -> m < k -> now < addMonthsClamped offset start k) as Hafter.
  { intros k Hk Hkm. apply (month_at_mono offset). rewrite month_at_addMonths by done. lia. }
  assert (forall k, 0 < k -> addMonthsClamped offset start k <= now ->
            wrap64 (addMonthsClamped offset start k) = addMonthsClamped offset start k) as Hwrap.
  { intros k Hk Hle. apply wrap64_id. assert (start < addMonthsClamped offset start k).
    { apply (month_at_mono offset). rewrite month_at_addMonths; lia. }
    int64_unfold. lia. }
  assert (0 <= m) as Hm0.
  { destruct (Z_lt_le_dec m 0) as [Hlt|]; [|done]. assert (now < start); [|lia].
    apply (month_at_mono offset). lia. }
  destruct (m <=? 0) eqn:Em; bool_prop.
  { exists 0. rewrite addMonths_0. simpl. repeat split; try lia. apply Hafter; lia. }
  destruct (now <? addMonthsClamped offset start m) eqn:Ec; bool_prop.
  - destruct (m - 1 <=? 0) eqn:Em1; bool_prop.
    + exists 0. rewrite addMonths_0. simpl. repeat split; try lia. replace (0 + 1) with m by lia. done.
    + exists (m - 1). simpl. pose proof (Hbefore (m - 1) ltac:(lia) ltac:(lia)).
      rewrite Hwrap by lia. replace (m - 1 + 1) with m by lia. repeat split; lia.
  - exists m. simpl. rewrite Hwrap by lia. repeat split; try lia. apply Hafter; lia.
Qed.

Lemma count_days_bound (l : bytes) (d n : Z) : 0 <= d <= maxPeriodDays ->
  count_days l d = Some n -> 0 <= n <= maxPeriodDays.
Proof.
  revert d. induction l as [|c l IH]; simpl; intros d Hd H; [by simplify_eq|].
  destruct (negb (is_digit c)) eqn:Ed; [done|]. destruct (maxPeriodDays <? _) eqn:Em in H; [done|].
  unfold is_digit in Ed. rewrite negb_false_iff, andb_true_iff, !Nat.leb_le in Ed. bool_prop.
  eapply IH; [|exact H]. lia.
Qed.

(** A length is a whole number of days between a day and a hundred years, so
    the multiplication never wraps. *)
Lemma periodLength_days (period : string) (length : Z) : periodLength period = Some length ->
  exists days, 1 <= days <= maxPeriodDays /\ length = days * (24 * Hour).
Proof.
  unfold periodLength. set (n := normalizePeriod period). intros H.
  destruct ((n ==s PeriodDay) || (n ==s "1d")); [simplify_eq; exists 1; done|].
  destruct ((n ==s PeriodWeek) || (n ==s "7d")); [simplify_eq; exists 7; done|].
  destruct (n ==s ""); [done|]. destruct (TrimSuffix_d _) as [|c l] eqn:Et; [done|].
  destruct (count_days (c :: l) 0) as [days|] eqn:Ec; [|done].
  apply count_days_bound in Ec; [|done]. destruct (days <=? 0) eqn:Ed; [done|]. simplify_eq. bool_prop.
  exists days. split; [lia|]. unfold mul64, Hour, maxPeriodDays in *.
  rewrite (wrap64_id (days * 24)) by (int64_unfold; lia). rewrite wrap64_id; int64_unfold; lia.
Qed.

(** [advancePeriod] finds the window an instant lies in.  For every period
    the rollover recognises and any start not after the instant, the result is
    the start of the [k]-th window after the stored one, the instant lies in
    that window, and a move is reported exactly when [k] is not zero.  Nothing
    wraps on the way. *)
Theorem advance_period_finds_the_window (period : string) (start now : Z) :
  periodRecognized period = true -> 0 <= start <= now -> now <= int64_max ->
  window_found period start now (advancePeriod offset start now period).
Proof.
  unfold periodRecognized, window_found, advancePeriod, boundary. intros Hr Hs Hn.
  destruct (now <? start) eqn:E; bool_prop; [lia|]. clear E.
  destruct (normalizePeriod period ==s PeriodMonth); [by apply calendar_window|].
  destruct (periodLength period) as [length|] eqn:El; [|done]. bool_prop. simpl.
  destruct (length <=? 0) eqn:E; bool_prop; [lia|]. clear E.
  unfold sub64. rewrite (wrap64_id (now - start)) by (int64_unfold; lia).
  rewrite Z.quot_div_nonneg by lia. pose proof (Z.div_mod (now - start) length ltac:(lia)) as Hd.
  pose proof (Z.mod_pos_bound (now - start) length ltac:(lia)) as Hm.
  pose proof (Z.div_pos (now - start) length ltac:(lia) ltac:(lia)) as Hp.
  exists ((now - start) / length). set (k := (now - start) / length) in *.
  destruct (k =? 0) eqn:Ek; bool_prop; simpl.
  - rewrite Ek in *. repeat split; lia.
  - unfold add64, mul64. assert (0 <= k * length <= now - start) as Hkl by nia.
    rewrite (wrap64_id (k * length)) by (int64_unfold; lia). rewrite wrap64_id by (int64_unfold; lia).
    repeat split; lia.
Qed.

Lemma advancePeriod_unrecognized (period : string) (start now : Z) :
  periodRecognized period = false -> advancePeriod offset start now period = (start, false).
Proof.
  unfold periodRecognized, advancePeriod. intros H. destruct (now <? start); [done|].
  destruct (normalizePeriod period ==s PeriodMonth); [done|].
  destruct (periodLength period) as [length|]; [|done]. bool_prop.
  destruct (length <=? 0) eqn:E; [done|]. bool_prop. lia.
Qed.
End WindowFacts.

(** ** What a pass does *)

Section Pass.
Context (offset : Z).

(** Where a subscription's window moves to, if it moves. *)
Definition rolled_to (nowNs : Z) (db : StateDB) (sub : UserSubscription) : option Z :=
  if is_active sub && (0 <? UserSubscription.PeriodStartNs sub)
     && negb (normalizePeriod (periodFor sub db) ==s PeriodOnce)
  then match advancePeriod offset (UserSubscription.PeriodStartNs sub) nowNs (periodFor sub db) with
       | (next, true) => Some next
       | (_, false) => None
       end
  else None.

Definition after_roll (nowNs : Z) (db : StateDB) (sub : UserSubscription) : UserSubscription :=
  match rolled_to nowNs db sub with
  | Some next => UserSubscription.with_Period next 0 sub
  | None => sub
  end.

Definition rolls (nowNs : Z) (db : StateDB) (sub : UserSubscription) : bool :=
  match rolled_to nowNs db sub with Some _ => true | None => false end.

(** The store when the subscriptions with the given ids have been looked at. *)
Definition rolled_db (nowNs : Z) (db : StateDB) (ids : list string) : StateDB :=
  set_user_subscriptions
    (map (fun r => if bool_decide (UserSubscription.ID r ∈ ids) then after_roll nowNs db r else r)
       (user_subscriptions db)) db.

Lemma after_roll_ID (nowNs : Z) (db : StateDB) (sub : UserSubscription) :
  UserSubscription.ID (after_roll nowNs db sub) = UserSubscription.ID sub.
Proof. unfold after_roll. by destruct (rolled_to _ _ _). Qed.

Lemma periodFor_rolled (nowNs : Z) (db : StateDB) (ids : list string) (sub : UserSubscription) :
  periodFor sub (rolled_db nowNs db ids) = periodFor sub db.
Proof. done. Qed.

(** Looking at a subscription that stays put changes nothing. *)
Lemma rolled_db_none (nowNs : Z) (db : StateDB) (ids : list string) (sub : UserSubscription) :
  subs_wf db -> In sub (user_subscriptions db) -> rolled_to nowNs db sub = None ->
  rolled_db nowNs db (UserSubscription.ID sub :: ids) = rolled_db nowNs db ids.
Proof.
  intros W Hin Hn. unfold rolled_db. f_equal. apply map_ext_in. intros r Hr.
  destruct (decide (UserSubscription.ID r = UserSubscription.ID sub)) as [E|Hne].
  - assert (r = sub) as -> by (eapply (NoDup_map_inj UserSubscription.ID); [apply W|done|done|done]).
    rewrite bool_decide_eq_true_2 by set_solver. unfold after_roll. rewrite Hn. by case_match.
  - apply (f_equal (fun b : bool => if b then _ else _)). apply bool_decide_ext. set_solver.
Qed.

(** The guarded write moves the one row it names. *)
Lemma rolled_db_some (nowNs next : Z) (db : StateDB) (ids : list string) (sub : UserSubscription) :
  subs_wf db -> subs_wf (rolled_db nowNs db ids) -> In sub (user_subscriptions db) ->
  UserSubscription.ID sub ∉ ids -> rolled_to nowNs db sub = Some next ->
  ResetSubscriptionPeriod (UserSubscription.ID sub) (UserSubscription.PeriodStartNs sub) next
    (rolled_db nowNs db ids) = (Ok tt, rolled_db nowNs db (UserSubscription.ID sub :: ids)).
Proof.
  intros W W' Hin Hids Hn. unfold ResetSubscriptionPeriod, transact, mbind, tx_bind.
  rewrite (update_period_ok _ _ (fun _ => next) (fun _ => 0)) by done.
  assert (In sub (user_subscriptions (rolled_db nowNs db ids))) as Hin'.
  { apply in_map_iff. exists sub. by rewrite bool_decide_eq_false_2. }
  pose proof (affected_id sub (fun r => UserSubscription.PeriodStartNs r =? UserSubscription.PeriodStartNs sub)
    _ Hin' (Z.eqb_refl _)) as Ha.
  destruct (sql_affected _ _) as [|n]; [done|]. simpl. do 2 f_equal. unfold rolled_db, sql_update. simpl.
  match goal with |- set_user_subscriptions ?x (set_user_subscriptions _ ?d) = _ =>
    change (set_user_subscriptions x d = rolled_db nowNs db (UserSubscription.ID sub :: ids)) end.
  unfold rolled_db. f_equal. rewrite map_map. apply map_ext_in. intros r Hr.
  destruct (decide (UserSubscription.ID r = UserSubscription.ID sub)) as [E|Hne].
  - assert (r = sub) as -> by (eapply (NoDup_map_inj UserSubscription.ID); [apply W|done|done|done]).
    rewrite bool_decide_eq_false_2, bool_decide_eq_true_2 by set_solver.
    rewrite eqb_s_refl, Z.eqb_refl. unfold after_roll. by rewrite Hn.
  - assert (forall b : bool, (UserSubscription.ID (if b then after_roll nowNs db r else r) ==s UserSubscription.ID sub) = false)
      as Hf by (intros [|]; rewrite ?after_roll_ID; by apply eqb_s_false).
    rewrite Hf. simpl. apply (f_equal (fun b : bool => if b then _ else _)). apply bool_decide_ext. set_solver.
Qed.
(** The state a pass is in when it has looked at some of the subscriptions. *)
Record pass_at (nowNs : Z) (p0 : PeriodReset) (seen : list UserSubscription)
    (acc : PeriodResetResult * PeriodReset) : Prop := {
  pa_store : Store (snd acc) = rolled_db nowNs (Store p0) (map UserSubscription.ID seen);
  pa_wf : subs_wf (Store (snd acc));
  pa_checked : Checked (fst acc) = Z.of_nat (length (List.filter is_active seen));
  pa_rolled : Rolled (fst acc) = Z.of_nat (length (List.filter (rolls nowNs (Store p0)) seen));
  pa_entries : entries (Totals (snd acc)) = entries (Totals p0);
  pa_users : forall u, UserBytes u (Totals (snd acc)) =
    if existsb (fun sub => rolls nowNs (Store p0) sub && (UserSubscription.UserID sub ==s u)) seen
    then 0 else UserBytes u (Totals p0)
}.

Lemma UserBytes_ResetUser (u v : string) (c : Counters) :
  UserBytes u (ResetUser v c) = if v ==s u then 0 else UserBytes u c.
Proof.
  unfold UserBytes, ResetUser. destruct (v ==s "") eqn:Ev; bool_prop; subst.
  - destruct ("" ==s u) eqn:E; bool_prop; subst; done.
  - destruct (u ==s "") eqn:Eu; bool_prop; subst; [by destruct (v ==s "")|].
    simpl. unfold atomic_store. destruct (v ==s u) eqn:E; bool_prop; subst.
    + destruct (Counters.users c !! u) eqn:El; simpl; [by rewrite lookup_insert_eq|by rewrite El].
    + destruct (Counters.users c !! v); simpl; [by rewrite lookup_insert_ne|done].
Qed.

Lemma existsb_snoc {A} (f : A -> bool) (l : list A) (x : A) : existsb f (l ++ [x]) = f x || existsb f l.
Proof. rewrite existsb_app. simpl. rewrite orb_false_r. apply orb_comm. Qed.

Lemma rolled_db_app_comm (nowNs : Z) (db : StateDB) (l : list string) (x : string) :
  rolled_db nowNs db (l ++ [x]) = rolled_db nowNs db (x :: l).
Proof.
  unfold rolled_db. f_equal. apply map_ext. intros r.
  rewrite (bool_decide_ext _ (UserSubscription.ID r ∈ x :: l)) by set_solver. done.
Qed.
Lemma warnUnknownPeriod_frame (id period : string) (p : PeriodReset) :
  Store (warnUnknownPeriod id period p) = Store p /\ Totals (warnUnknownPeriod id period p) = Totals p.
Proof. unfold warnUnknownPeriod. by case_match. Qed.

Lemma roll_none (nowNs : Z) (sub : UserSubscription) (res : PeriodResetResult) (p : PeriodReset) :
  rolled_to nowNs (Store p) sub = None ->
  let '(res', p') := roll offset nowNs sub (res, p) in
  Store p' = Store p /\ Totals p' = Totals p /\ Rolled res' = Rolled res /\
  Checked res' = Checked res + (if is_active sub then 1 else 0).
Proof.
  unfold rolled_to, roll. intros H. destruct (is_active sub); simpl in *; [|repeat split; lia].
  destruct (UserSubscription.PeriodStartNs sub <=? 0) eqn:Es; bool_prop; [done|].
  destruct (0 <? UserSubscription.PeriodStartNs sub) eqn:Es'; bool_prop; [|lia].
  destruct (normalizePeriod (periodFor sub (Store p)) ==s PeriodOnce); [done|]. simpl in *.
  destruct (advancePeriod _ _ _ _) as [next []]; [done|]. simpl.
  pose proof (warnUnknownPeriod_frame (UserSubscription.ID sub) (periodFor sub (Store p)) p) as [E1 E2].
  destruct (negb _); by rewrite ?E1, ?E2.
Qed.

Lemma roll_some (nowNs next : Z) (sub : UserSubscription) (res : PeriodResetResult) (p : PeriodReset) (db : StateDB) :
  rolled_to nowNs (Store p) sub = Some next ->
  ResetSubscriptionPeriod (UserSubscription.ID sub) (UserSubscription.PeriodStartNs sub) next (Store p) = (Ok tt, db) ->
  is_active sub = true /\
  roll offset nowNs sub (res, p) =
    (mkPeriodResetResult (Checked res + 1) (Rolled res + 1),
     mkPeriodReset db (ResetUser (UserSubscription.UserID sub) (Totals p)) (warned p) (warnings p)).
Proof.
  unfold rolled_to, roll. intros H Hr. destruct (is_active sub); [|done]. simpl in *. split; [done|].
  destruct (0 <? UserSubscription.PeriodStartNs sub) eqn:Es'; [|done].
  destruct (UserSubscription.PeriodStartNs sub <=? 0) eqn:Es; bool_prop; [lia|].
  destruct (normalizePeriod (periodFor sub (Store p)) ==s PeriodOnce); [done|]. simpl in *.
  destruct (advancePeriod _ _ _ _) as [n []]; [|done]. injection H as ->. simpl. by rewrite Hr.
Qed.

Lemma roll_step (nowNs : Z) (p0 : PeriodReset) (seen : list UserSubscription) (sub : UserSubscription)
    (acc : PeriodResetResult * PeriodReset) :
  subs_wf (Store p0) -> In sub (user_subscriptions (Store p0)) ->
  UserSubscription.ID sub ∉ map UserSubscription.ID seen ->
  pass_at nowNs p0 seen acc -> pass_at nowNs p0 (seen ++ [sub]) (roll offset nowNs sub acc).
Proof.
  intros W Hin Hids [Hst Hwf Hc Hr He Hu]. destruct acc as [res p]. cbn [fst snd] in *.
  assert (rolled_to nowNs (Store p) sub = rolled_to nowNs (Store p0) sub) as Hsame by (rewrite Hst; done).
  destruct (rolled_to nowNs (Store p0) sub) as [next|] eqn:En.
  - pose proof (rolled_db_some nowNs next _ _ sub W ltac:(by rewrite <- Hst) Hin Hids En) as Hreset.
    rewrite <- Hst in Hreset.
    destruct (roll_some nowNs next sub res p _ Hsame Hreset) as [Ha ->].
    pose proof (ResetSubscriptionPeriod_subs_wf (UserSubscription.ID sub) (UserSubscription.PeriodStartNs sub)
      next _ Hwf) as Hwf'. rewrite Hreset in Hwf'.
    split; cbn [fst snd Store Totals Checked Rolled]; unfold rolls in *; rewrite ?map_app, ?List.filter_app, ?length_app;
      cbn [map List.filter]; rewrite ?rolled_db_app_comm, ?Ha, ?En; simpl; try done; try lia.
    + unfold ResetUser. by destruct (_ ==s _).
    + intros u. rewrite UserBytes_ResetUser, existsb_snoc, Hu, En. simpl. by destruct (_ ==s _).
  - pose proof (roll_none nowNs sub res p Hsame) as Hn. destruct (roll _ _ _ _) as [res' p'].
    destruct Hn as (E1 & E2 & E3 & E4).
    split; cbn [fst snd]; unfold rolls in *; rewrite ?map_app, ?List.filter_app, ?length_app;
      cbn [map List.filter]; rewrite ?rolled_db_app_comm, ?En, ?E1, ?E2, ?E3, ?E4; simpl; try done; try lia.
    + by rewrite rolled_db_none.
    + destruct (is_active sub); simpl; lia.
    + intros u. by rewrite existsb_snoc, En, Hu.
Qed.
Lemma pass_fold (nowNs : Z) (p0 : PeriodReset) (l seen : list UserSubscription)
    (acc : PeriodResetResult * PeriodReset) :
  subs_wf (Store p0) -> (forall sub, In sub l -> In sub (user_subscriptions (Store p0))) ->
  NoDup (map UserSubscription.ID (seen ++ l)) -> pass_at nowNs p0 seen acc ->
  pass_at nowNs p0 (seen ++ l) (fold_left (fun acc sub => roll offset nowNs sub acc) l acc).
Proof.
  intros W. revert seen acc. induction l as [|sub l IH]; intros seen acc Hin Hnd Hp; simpl.
  { by rewrite app_nil_r. }
  rewrite cons_middle, app_assoc in *. apply IH; [simpl in *; auto|done|].
  apply roll_step; [done|by apply Hin; left| |done].
  rewrite !map_app in Hnd. apply list.NoDup_app in Hnd as (Hnd & _). apply list.NoDup_app in Hnd as (_ & Hd & _).
  intros Hc. apply (Hd _ Hc). simpl. set_solver.
Qed.

Lemma existsb_perm {A} (f : A -> bool) (l k : list A) : l ≡ₚ k -> existsb f l = existsb f k.
Proof. induction 1; simpl; [done|congruence|destruct (f x), (f y); done|congruence]. Qed.

Lemma rolled_db_all (nowNs : Z) (db : StateDB) (l : list UserSubscription) :
  l ≡ₚ user_subscriptions db ->
  rolled_db nowNs db (map UserSubscription.ID l) =
    set_user_subscriptions (map (after_roll nowNs db) (user_subscriptions db)) db.
Proof.
  intros Hp. unfold rolled_db. f_equal. apply map_ext_in. intros r Hr. rewrite bool_decide_eq_true_2; [done|].
  apply list_elem_of_In, in_map. by rewrite Hp.
Qed.

(** What a pass leaves behind and reports. *)
Definition rolled_over (nowNs : Z) (p : PeriodReset) (out : PeriodResetResult * PeriodReset) : Prop :=
  let '(result, p') := out in
  let subs := user_subscriptions (Store p) in
  Store p' = set_user_subscriptions (map (after_roll nowNs (Store p)) subs) (Store p) /\
  subs_wf (Store p') /\
  Checked result = Z.of_nat (length (List.filter is_active subs)) /\
  Rolled result = Z.of_nat (length (List.filter (rolls nowNs (Store p)) subs)) /\
  entries (Totals p') = entries (Totals p) /\
  forall u, UserBytes u (Totals p') =
    if existsb (fun sub => rolls nowNs (Store p) sub && (UserSubscription.UserID sub ==s u)) subs
    then 0 else UserBytes u (Totals p).


End Pass.

(** ** A worked pass *)

Module PeriodDemo.
Definition day (y m d : Z) : Z := Date 0 y m d 0.
Definition jan31 : Z := Eval vm_compute in day 2025 1 31.
Definition feb28 : Z := Eval vm_compute in day 2025 2 28.
Definition mar01 : Z := Eval vm_compute in day 2025 3 1.
Definition mar28 : Z := Eval vm_compute in day 2025 3 28.
Definition mar30 : Z := Eval vm_compute in day 2025 3 30.
Definition mar31 : Z := Eval vm_compute in day 2025 3 31.

Definition monthly : Plan := Plan.mkPlan "p" "P" [] [] 1000 " Month " 0 0 0 0 0 0 "active" 0 0.
Definition sub (id user : string) (start : Z) : UserSubscription :=
  UserSubscription.mkUserSubscription id user "" (SnapPlan monthly) 1 0 start 400 false 0 "active".

Definition user (id : string) : User := User.mkUser id id "h" "user" "active" None 0 0 0 0.
Definition db : StateDB := Eval vm_compute in
  snd (UpsertUserSubscription (sub "s2" "u2" mar01)
    (snd (UpsertUserSubscription (sub "s1" "u1" jan31)
      (snd (InsertUser (user "u2") (snd (InsertUser (user "u1") emptyDB))))))).
Definition totals : Counters := LoadUser "u2" 400 (LoadUser "u1" 400 (mkCounters ∅ ∅ ∅ ∅)).
Definition start : PeriodReset := mkPeriodReset db totals ∅ [].
End PeriodDemo.

Import PeriodDemo.

Lemma PeriodDemo_wf : subs_wf (Store start).
Proof.
  split; simpl.
  - apply (bool_decide_unpack _). vm_compute. done.
  - intros a b Ha Hb. destruct_or! Ha; destruct_or! Hb; subst; try done; vm_compute; intros; done.
  - intros s Hs. destruct_or! Hs; subst; done.
Qed.


Lemma advance_period_witness :
  window_found 0 " Month " jan31 mar01 (advancePeriod 0 jan31 mar01 " Month ") /\
  advancePeriod 0 jan31 mar01 " Month " = (feb28, true) /\ advancePeriod 0 jan31 mar01 "14D" = (jan31 + 28 * nsPerDay, true).
Proof.
  split; [|vm_compute; repeat split].
  apply (advance_period_finds_the_window 0 " Month " jan31 mar01); vm_compute; [reflexivity|split; discriminate|discriminate].
Defined.

(** A monthly boundary drifts.  A subscription that started on the 31st of
    January is moved to the 28th of February, and from there to the 28th of
    March: the window that ran to the 31st of March by the original start is
    closed three days early, because the clamped start is what the next pass
    counts from. *)
Theorem monthly_boundary_drifts :
  boundary 0 "month" jan31 1 = feb28 /\ boundary 0 "month" jan31 2 = mar31 /\
  advancePeriod 0 jan31 mar30 "month" = (feb28, true) /\
  advancePeriod 0 feb28 mar30 "month" = (mar28, true).
Proof. vm_compute. repeat split. Qed.
