(* ===== verification/Plans.v ===== *)
(** * Plans

    [src/internal/service/control_plane_plan.go]: the templates access is sold
    under.  Editing a plan reaches the subscriptions already sold from it only
    when the operator asks for it, except for the emergency stop: a plan that is
    left disabled stops every subscription on it.

    The id of a new plan is an argument. *)

From Stdlib Require Import Ascii String.
From stdpp Require Import base gmap list strings.
From S2P Require Import Prelude Counters Model Store GoStrings Keys Service Patch Criteria Calendar Period.

Definition planStatusActive : string := "active".
Definition planStatusDisabled : string := "disabled".
Definition maxExpiryDays : Z := 36500.
Definition microPerUnit : Z := 1000000.
Definition maxBalanceMicro : Z := 1000000 * microPerUnit.

Record PlanInput := mkPlanInput {
  pi_Name : string;
  pi_Platforms : list string;
  pi_IPTiers : list string;
  pi_TrafficBytes : Z;
  pi_Period : string;
  pi_MaxConcurrent : Z;
  pi_MaxRPS : Z;
  pi_MaxBandwidthBps : Z;
  pi_MaxKeys : Z;
  pi_DurationDays : Z;
  pi_PriceMicro : Z;
  pi_Status : string
}.

Record PlanView := mkPlanView { pv_Plan : Plan; pv_ActiveUserCount : Z }.

Definition planSnapshotJSON (plan : Plan) : Snapshot := SnapPlan plan.

(** ** Validation *)

Definition normalizePlanPeriod (period : string) : string := ToLower (TrimSpace period).

Definition defaultPlanPeriod (period : string) : string :=
  let normalized := normalizePlanPeriod period in if normalized ==s "" then "30d" else normalized.

Definition defaultPlanStatus (status : string) : string := if status ==s "" then planStatusActive else status.

(** [strconv.Atoi]: an optional sign, decimal digits, and a value that fits. *)
Definition Atoi (l : bytes) : option Z :=
  let '(neg, ds) := match l with
                    | c :: r => if Ascii.eqb c "-" then (true, r) else if Ascii.eqb c "+" then (false, r) else (false, l)
                    | [] => (false, l)
                    end in
  if (length ds =? 0)%nat || negb (forallb is_digit ds) then None
  else
    let v := if neg then - value_of ds else value_of ds in
    if (int64_min <=? v) && (v <=? int64_max) then Some v else None.

Definition validPlanPeriod (period : string) : bool :=
  let normalized := normalizePlanPeriod period in
  if in_words [""; "month"; "day"; "week"; "once"]%string normalized then true
  else
    let all := list_ascii_of_string normalized in
    let digits := TrimSuffix_d all in
    if (length digits =? 0)%nat || (length digits =? length all)%nat then false
    else match Atoi digits with
         | Some days => (0 <? days) && (days <=? maxExpiryDays)
         | None => false
         end.

(** One entry of [ip_tiers]: an IP type and a purity band around a colon. *)
Definition valid_tier (tier : string) : bool :=
  match cut_byte ":"%char (list_ascii_of_string tier) with
  | None => false
  | Some (ipType, band) =>
      ValidateNodeCriteria [string_of_list_ascii ipType] [string_of_list_ascii band] [] []
  end.

Definition validatePlan (plan : Plan) : bool :=
  negb (TrimSpace (Plan.Name plan) ==s "")
  && (0 <? Plan.DurationDays plan) && (Plan.DurationDays plan <=? maxExpiryDays)
  && in_words [""; planStatusActive; planStatusDisabled]%string (Plan.Status plan)
  && (0 <=? Plan.TrafficBytes plan) && (0 <=? Plan.MaxBandwidthBps plan)
  && (0 <=? Plan.MaxConcurrent plan) && (0 <=? Plan.MaxRPS plan) && (0 <=? Plan.MaxKeys plan)
  && (0 <=? Plan.PriceMicro plan) && (Plan.PriceMicro plan <=? maxBalanceMicro)
  && validPlanPeriod (Plan.Period plan)
  && forallb valid_tier (Plan.IPTiers plan).

(** The row of a create body, as validated, and then with its defaults. *)
Definition input_plan (id : string) (i : PlanInput) (nowNs : Z) : Plan :=
  Plan.mkPlan id (TrimSpace (pi_Name i)) (normalizeStringList (pi_Platforms i)) (normalizeStringList (pi_IPTiers i))
    (pi_TrafficBytes i) (normalizePlanPeriod (pi_Period i)) (pi_MaxConcurrent i) (pi_MaxRPS i)
    (pi_MaxBandwidthBps i) (pi_MaxKeys i) (pi_DurationDays i) (pi_PriceMicro i) (TrimSpace (pi_Status i)) nowNs nowNs.

Definition with_defaults (p : Plan) : Plan :=
  Plan.mkPlan (Plan.ID p) (Plan.Name p) (Plan.Platforms p) (Plan.IPTiers p) (Plan.TrafficBytes p)
    (defaultPlanPeriod (Plan.Period p)) (Plan.MaxConcurrent p) (Plan.MaxRPS p) (Plan.MaxBandwidthBps p)
    (Plan.MaxKeys p) (Plan.DurationDays p) (Plan.PriceMicro p) (defaultPlanStatus (Plan.Status p))
    (Plan.CreatedAtNs p) (Plan.UpdatedAtNs p).

Definition planFromInput (id : string) (i : PlanInput) (nowNs : Z) : option Plan :=
  let plan := input_plan id i nowNs in
  if validatePlan plan then Some (with_defaults plan) else None.

Definition mapPlanWriteError (e : StateErr) : SvcErr :=
  match e with ErrConflict => Conflict | _ => Internal end.

(** ** Subscriptions on a plan *)

Definition with_PlanStatus (status : string) (p : Plan) : Plan :=
  Plan.mkPlan (Plan.ID p) (Plan.Name p) (Plan.Platforms p) (Plan.IPTiers p) (Plan.TrafficBytes p)
    (Plan.Period p) (Plan.MaxConcurrent p) (Plan.MaxRPS p) (Plan.MaxBandwidthBps p)
    (Plan.MaxKeys p) (Plan.DurationDays p) (Plan.PriceMicro p) status (Plan.CreatedAtNs p) (Plan.UpdatedAtNs p).

Definition activeUserCounts (db : StateDB) : gmap string Z :=
  fold_left (fun counts sub =>
    if UserSubscription.PlanID sub ==s "" then counts
    else <[UserSubscription.PlanID sub := default 0 (counts !! UserSubscription.PlanID sub) + 1]> counts)
    (ListActiveUserSubscriptions db) ∅.

Definition active_count (id : string) (db : StateDB) : Z := default 0 (activeUserCounts db !! id).

(** Write one row back and republish the keys of its user. *)
Definition rewrite_subscription (sub : UserSubscription) : Svc unit :=
  _ ← call (UpdateUserSubscriptionTerms sub) mapSubscriptionWriteError;
  republishUserKeys (UserSubscription.UserID sub).

Definition on_plan (plan : Plan) (db : StateDB) : list UserSubscription :=
  List.filter (fun sub => UserSubscription.PlanID sub ==s Plan.ID plan) (ListActiveUserSubscriptions db).

Definition applyPlanToExisting (plan : Plan) : Svc Z :=
  s ← svc_get;
  let subs := on_plan plan (engine s) in
  _ ← proc_for (fun sub => rewrite_subscription (UserSubscription.with_Snapshot (planSnapshotJSON plan) sub)) subs;
  mret (Z.of_nat (length subs)).

Definition disabledPlanSnapshot (raw : Snapshot) (plan : Plan) : Snapshot :=
  let plan := match planFromSnapshotJSON raw with Some stored => stored | None => plan end in
  planSnapshotJSON (with_PlanStatus planStatusDisabled plan).

Definition stopSubscriptionsOnPlan (plan : Plan) : Svc Z :=
  s ← svc_get;
  let subs := on_plan plan (engine s) in
  _ ← proc_for (fun sub => rewrite_subscription
        (UserSubscription.with_Snapshot (disabledPlanSnapshot (UserSubscription.PlanSnapshotJSON sub) plan) sub)) subs;
  mret (Z.of_nat (length subs)).

(** ** The handlers *)

Definition ListPlans : Svc (list PlanView) :=
  s ← svc_get;
  mret (map (fun plan => mkPlanView plan (active_count (Plan.ID plan) (engine s))) (Store.ListPlans (engine s))).

Definition GetPlan (id : string) : Svc PlanView :=
  plan ← read (Store.GetPlan id) mapPlanLookupError;
  s ← svc_get;
  mret (mkPlanView plan (active_count (Plan.ID plan) (engine s))).

Definition CreatePlan (i : PlanInput) (nowNs : Z) (id : string) : Svc PlanView :=
  plan ← or_fail (planFromInput id i nowNs) InvalidArg;
  _ ← call (UpsertPlan plan) mapPlanWriteError;
  mret (mkPlanView plan 0).

Definition planPatchAllowedFields : list string :=
  ["name"; "platforms"; "ip_tiers"; "traffic_bytes"; "period"; "max_concurrent"; "max_rps"; "max_bandwidth_bps";
   "max_keys"; "duration_days"; "price_micro"; "status"; "apply_to_existing"]%string.

(** The plan a patch describes, before it is validated, and whether it is to
    reach the subscriptions already sold. *)
Definition patched_plan (existing : Plan) (patch : mergePatch) (nowNs : Z) : Svc (Plan * bool) :=
  name ← lift_res (optionalNonEmptyString "name" patch);
  platforms ← lift_res (optionalStringSlice "platforms" patch);
  tiers ← lift_res (optionalStringSlice "ip_tiers" patch);
  traffic ← lift_res (optionalInt "traffic_bytes" patch);
  period ← lift_res (optionalString "period" patch);
  concurrent ← lift_res (optionalInt "max_concurrent" patch);
  rps ← lift_res (optionalInt "max_rps" patch);
  bandwidth ← lift_res (optionalInt "max_bandwidth_bps" patch);
  keys ← lift_res (optionalInt "max_keys" patch);
  days ← lift_res (optionalInt "duration_days" patch);
  price ← lift_res (optionalInt "price_micro" patch);
  status ← lift_res (optionalString "status" patch);
  apply ← lift_res (optionalBool "apply_to_existing" patch);
  mret (Plan.mkPlan (Plan.ID existing) (default (Plan.Name existing) name) (default (Plan.Platforms existing) platforms)
    (default (Plan.IPTiers existing) tiers) (default (Plan.TrafficBytes existing) traffic)
    (default (Plan.Period existing) (normalizePlanPeriod <$> period)) (default (Plan.MaxConcurrent existing) concurrent)
    (default (Plan.MaxRPS existing) rps) (default (Plan.MaxBandwidthBps existing) bandwidth)
    (default (Plan.MaxKeys existing) keys) (default (Plan.DurationDays existing) days)
    (default (Plan.PriceMicro existing) price) (default (Plan.Status existing) status)
    (Plan.CreatedAtNs existing) nowNs, default false apply).

(** The second half of [UpdatePlan], from the validation on. *)
Definition store_plan (updated : Plan) (applyToExisting : bool) : Svc PlanView :=
  _ ← check (validatePlan updated) InvalidArg;
  _ ← call (UpsertPlan updated) mapPlanWriteError;
  s ← svc_get;
  let count := active_count (Plan.ID updated) (engine s) in
  _ ← (if Plan.Status updated ==s planStatusDisabled then _ ← stopSubscriptionsOnPlan updated; mret tt else mret tt);
  if applyToExisting
  then touched ← applyPlanToExisting updated; mret (mkPlanView updated touched)
  else mret (mkPlanView updated count).

Definition UpdatePlan (id : string) (body : Json) (nowNs : Z) : Svc PlanView :=
  patch ← or_fail (parseMergePatch body) InvalidArg;
  _ ← check (validateFields planPatchAllowedFields patch) InvalidArg;
  existing ← read (Store.GetPlan id) mapPlanLookupError;
  target ← patched_plan existing patch nowNs;
  store_plan (fst target) (snd target).

Definition DeletePlan (id : string) : Svc unit :=
  _ ← read (Store.GetPlan id) mapPlanLookupError;
  call (Store.DeletePlan id) mapPlanLookupError.

(** ** What may be sold is what the rollover understands *)

Definition period_byte (c : ascii) : bool := is_digit c || Ascii.eqb c "+" || Ascii.eqb c "d".

Lemma period_byte_range (c : ascii) : period_byte c = true -> (nat_of_ascii c < 65)%nat \/ (90 < nat_of_ascii c < 128)%nat.
Proof.
  unfold period_byte, is_digit. intros H. apply orb_true_iff in H as [H|H]; [apply orb_true_iff in H as [H|H]|].
  - apply andb_true_iff in H as [_ H]. apply Nat.leb_le in H. lia.
  - apply Ascii.eqb_eq in H as ->. vm_compute. lia.
  - apply Ascii.eqb_eq in H as ->. vm_compute. lia.
Qed.

Lemma normalize_period_plain (s : string) :
  (forall c, In c (list_ascii_of_string s) -> period_byte c = true) -> normalizePeriod s = s.
Proof.
  intros H. unfold normalizePeriod. rewrite (TrimSpace_plain period_byte); [|vm_compute; reflexivity..|done].
  unfold ToLower. rewrite lower_bytes_plain; [apply string_of_list_ascii_of_string|done|].
  intros c Hc. by apply period_byte_range, H.
Qed.

Lemma TrimSuffix_d_app (l : bytes) : TrimSuffix_d l <> l -> l = TrimSuffix_d l ++ ["d"%char].
Proof.
  unfold TrimSuffix_d. destruct (rev l) as [|c r] eqn:E.
  - intros H. apply (f_equal (@rev ascii)) in E. rewrite rev_involutive in E. subst l. done.
  - destruct (Ascii.eqb c "d") eqn:Ec; [|done]. intros _. apply Ascii.eqb_eq in Ec as ->.
    apply (f_equal (@rev ascii)) in E. rewrite rev_involutive in E. exact E.
Qed.

Lemma count_days_value (l : bytes) (d : Z) :
  forallb is_digit l = true -> 0 <= d ->
  let v := fold_left (fun v c => 10 * v + (Z.of_nat (nat_of_ascii c) - 48)) l d in
  d <= v /\ (v <= maxPeriodDays -> count_days l d = Some v).
Proof.
  revert d. induction l as [|c l IH]; intros d Hl Hd; cbn [fold_left count_days forallb] in *; [done|].
  apply andb_true_iff in Hl as [Hc Hl]. rewrite Hc. simpl negb. cbv iota zeta.
  unfold is_digit in Hc. apply andb_true_iff in Hc as [H1 H2]. apply Nat.leb_le in H1, H2.
  replace (d * 10 + (Z.of_nat (nat_of_ascii c) - 48)) with (10 * d + (Z.of_nat (nat_of_ascii c) - 48)) by lia.
  destruct (IH (10 * d + (Z.of_nat (nat_of_ascii c) - 48)) Hl) as [Hle Hv]; [lia|]. split; [lia|]. intros Hm.
  assert ((maxPeriodDays <? 10 * d + (Z.of_nat (nat_of_ascii c) - 48)) = false) as -> by (apply Z.ltb_ge; lia).
  by apply Hv.
Qed.

Lemma TrimSuffix_d_snoc (ds : bytes) : TrimSuffix_d (ds ++ ["d"%char]) = ds.
Proof. unfold TrimSuffix_d. rewrite rev_app_distr. simpl. apply rev_involutive. Qed.

(** Digits and a "d" name a length; with a sign before them they do not. *)
Lemma days_recognized (s : string) (ds : bytes) :
  list_ascii_of_string s = ds ++ ["d"%char] -> ds <> [] -> forallb is_digit ds = true ->
  0 < value_of ds <= maxPeriodDays -> periodRecognized s = true.
Proof.
  intros Hs Hne Hds Hv. destruct (count_days_value ds 0 Hds ltac:(lia)) as [_ Hc].
  assert (normalizePeriod s = s) as En.
  { apply normalize_period_plain. rewrite Hs. intros c Hc'. apply in_app_iff in Hc' as [Hc'|[<-|[]]]; [|done].
    unfold period_byte. rewrite forallb_forall in Hds. by rewrite (Hds c Hc'). }
  unfold periodRecognized, periodLength. rewrite En. destruct (s ==s PeriodMonth); [done|].
  destruct (_ || _); [done|]. destruct (_ || _); [done|]. destruct (s ==s "") eqn:E0.
  { apply eqb_s_true in E0 as ->. destruct ds; done. }
  cbv zeta. rewrite Hs, TrimSuffix_d_snoc. destruct ds as [|c ds']; [done|]. rewrite Hc by apply Hv.
  fold (value_of (c :: ds')). unfold maxPeriodDays in Hv. destruct (_ <=? 0) eqn:E1; [apply Z.leb_le in E1; lia|].
  apply Z.ltb_lt. unfold mul64, Hour. rewrite (wrap64_id (_ * 24)) by (int64_unfold; lia).
  rewrite wrap64_id by (int64_unfold; lia). lia.
Qed.

Lemma signed_days_unrecognized (s : string) (ds : bytes) :
  list_ascii_of_string s = "+"%char :: ds ++ ["d"%char] -> forallb is_digit ds = true -> periodRecognized s = false.
Proof.
  intros Hs Hds.
  assert (normalizePeriod s = s) as En.
  { apply normalize_period_plain. rewrite Hs. intros c [<-|Hc]; [done|]. apply in_app_iff in Hc as [Hc|[<-|[]]]; [|done].
    unfold period_byte. rewrite forallb_forall in Hds. by rewrite (Hds c Hc). }
  assert (forall w, match list_ascii_of_string w with a :: _ => Ascii.eqb a "+" = false | [] => True end -> (s ==s w) = false) as Hw.
  { intros w H. apply eqb_s_false. intros ->. by rewrite Hs in H. }
  unfold periodRecognized, periodLength. rewrite En, !Hw by (vm_compute; done). cbv zeta beta iota.
  change ("+"%char :: ds ++ ["d"%char])%list with (("+"%char :: ds) ++ ["d"%char])%list in Hs.
  rewrite Hs, TrimSuffix_d_snoc. done.
Qed.

Lemma Atoi_cases (c : ascii) (ds : bytes) (v : Z) :
  Atoi (c :: ds) = Some v -> 0 < v ->
  if Ascii.eqb c "+" then forallb is_digit ds = true
  else forallb is_digit (c :: ds) = true /\ v = value_of (c :: ds).
Proof.
  unfold Atoi. intros H Hv. destruct (Ascii.eqb c "-") eqn:Em.
  - exfalso. destruct (_ || _) eqn:Eb; [done|]. destruct (_ && _); [|done]. injection H as <-.
    apply orb_false_iff in Eb as [_ Eb]. apply negb_false_iff in Eb.
    pose proof (count_days_value ds 0 Eb ltac:(lia)) as [Hp _]. unfold value_of in Hv. lia.
  - destruct (Ascii.eqb c "+").
    + destruct (forallb is_digit ds); [done|]. by rewrite orb_true_r in H.
    + destruct (_ || _) eqn:Eb; [done|]. apply orb_false_iff in Eb as [_ Eb]. apply negb_false_iff in Eb.
      split; [exact Eb|]. destruct (_ && _); [|done]. by injection H.
Qed.

Lemma plus_prefix (s : string) (c : ascii) (l : bytes) :
  list_ascii_of_string s = c :: l -> HasPrefix s "+" = Ascii.eqb c "+".
Proof.
  destruct s as [|a s]; [done|]. intros [= -> _]. unfold HasPrefix. apply eq_true_iff_eq.
  rewrite prefix_spec, Ascii.eqb_eq. split; [intros [r [= -> _]]; done|intros ->; by exists s].
Qed.

(** Every period the plan form accepts is one the rollover worker
    understands, or the one-off period, except that the form also takes a plus
    sign, which the worker does not: such a plan is sold and its quota is never
    reset. *)
Theorem sold_periods_roll_over (p : string) :
  validPlanPeriod p = true ->
  let stored := defaultPlanPeriod p in
  stored = PeriodOnce \/ periodRecognized stored = negb (HasPrefix stored "+").
Proof.
  unfold validPlanPeriod, defaultPlanPeriod. set (n := normalizePlanPeriod p). cbv zeta.
  destruct (in_words _ n) eqn:Ew.
  - intros _. unfold in_words in Ew. simpl in Ew. rewrite !orb_true_iff in Ew.
    destruct Ew as [E|[E|[E|[E|[E|E]]]]]; try (apply String.eqb_eq in E; rewrite E; vm_compute; auto; fail). done.
  - set (all := list_ascii_of_string n). set (digits := TrimSuffix_d all). destruct (_ || _) eqn:El; [done|].
    apply orb_false_iff in El as [E0 E1]. apply Nat.eqb_neq in E0, E1.
    assert (all = digits ++ ["d"%char])%list as Hall by (apply TrimSuffix_d_app; intros E; apply E1; unfold digits; by rewrite E).
    destruct (Atoi digits) as [days|] eqn:Ea; [|done]. intros Hd. apply andb_true_iff in Hd as [Hd1 Hd2].
    apply Z.ltb_lt in Hd1. apply Z.leb_le in Hd2. right. clearbody digits. destruct digits as [|c ds]; [done|].
    assert ((n ==s "") = false) as -> by (apply eqb_s_false; intros E; unfold all in Hall; by rewrite E in Hall).
    apply Atoi_cases in Ea; [|done]. rewrite (plus_prefix n c (ds ++ ["d"%char])%list Hall).
    destruct (Ascii.eqb c "+") eqn:Ec.
    + apply Ascii.eqb_eq in Ec as ->. by apply (signed_days_unrecognized _ ds Hall).
    + destruct Ea as [Hds ->]. by apply (days_recognized _ (c :: ds) Hall).
Qed.

Lemma sold_periods_roll_over_witness :
  (validPlanPeriod " 45D ", validPlanPeriod "+30d", advancePeriod 0 1 (400 * 24 * Hour) "+30d") = (true, true, (1, false)) /\
  periodRecognized (defaultPlanPeriod " 45D ") = true.
Proof.
  split; [vm_compute; reflexivity|].
  destruct (sold_periods_roll_over " 45D ") as [E|E]; [vm_compute; reflexivity|vm_compute in E; discriminate|].
  rewrite E. vm_compute. reflexivity.
Defined.
