(* ===== verification/Tenants.v ===== *)
(** * Tenants: subscriptions and accounts of the console

    [src/internal/service/control_plane_tenant_subscription.go] and
    [control_plane_tenant_user.go]: putting a user on a plan, patching and
    revoking a subscription, and creating, patching and deleting accounts.  Every
    write ends by republishing the keys of the user concerned.

    Drawn ids are arguments. *)

From Stdlib Require Import Ascii String.
From stdpp Require Import base gmap list strings.
From S2P Require Import Prelude Counters Model Store UsageTables GoStrings Keys Service Patch Access Totp Accounts Plans.

(** ** Subscriptions *)

(** End whatever the user has running: each row is written back as it was
    listed, with the status changed. *)
Definition expireActiveSubscriptions (userID : string) : Svc unit :=
  s ← svc_get;
  proc_for (fun row =>
      call (UpdateUserSubscriptionTerms (UserSubscription.with_Status SubscriptionStatusExpired row))
        mapSubscriptionWriteError)
    (List.filter (fun row => (UserSubscription.UserID row ==s userID)
                             && (UserSubscription.Status row ==s SubscriptionStatusActive))
       (ListUserSubscriptions (engine s))).

Definition one_view (row : UserSubscription) : Svc SubscriptionView :=
  views ← subscriptionViews [row];
  or_fail (head views) Internal.

(** The row [AssignSubscription] writes. *)
Definition assigned_row (id userID : string) (plan : Plan) (days nowNs : Z) : UserSubscription :=
  UserSubscription.mkUserSubscription id userID (Plan.ID plan) (planSnapshotJSON plan) nowNs
    (expiryFromDays days nowNs) nowNs 0 false 0 SubscriptionStatusActive.

Definition AssignSubscription (userID planID : string) (durationDays nowNs : Z) (id : string) : Svc SubscriptionView :=
  _ ← check (0 <=? durationDays) InvalidArg;
  let planID := TrimSpace planID in
  _ ← check (planID <>s "") InvalidArg;
  _ ← read (GetUser userID) mapUserLookupError;
  plan ← read (Store.GetPlan planID) mapPlanLookupError;
  _ ← check (Plan.Status plan <>s planStatusDisabled) InvalidArg;
  let days := if durationDays =? 0 then Plan.DurationDays plan else durationDays in
  _ ← check (0 <? days) InvalidArg;
  _ ← expireActiveSubscriptions userID;
  let row := assigned_row id userID plan days nowNs in
  _ ← call (UpsertUserSubscription row) mapSubscriptionWriteError;
  _ ← count (ResetUser userID);
  _ ← republishUserKeys userID;
  one_view row.

Record TenantSubscriptionFilter := mkTenantSubscriptionFilter {
  tf_UserID : string;
  tf_Status : string;
  tf_Limit : Z;
  tf_Offset : Z
}.

Definition ListTenantSubscriptions (f : TenantSubscriptionFilter) : Svc (list SubscriptionView * Z) :=
  s ← svc_get;
  views ← subscriptionViews
    (List.filter (fun row => ((tf_UserID f ==s "") || (UserSubscription.UserID row ==s tf_UserID f))
                             && ((tf_Status f ==s "") || (UserSubscription.Status row ==s tf_Status f)))
       (ListUserSubscriptions (engine s)));
  mret (pageSlice views (tf_Limit f) (tf_Offset f), Z.of_nat (length views)).

Definition GetTenantSubscription (id : string) : Svc SubscriptionView :=
  row ← read (GetUserSubscription id) mapSubscriptionLookupError;
  one_view row.

Definition tenantSubscriptionPatchAllowedFields : list string := ["status"; "extend_days"; "expires_at_ns"]%string.

(** The status and the expiry a patch leaves. *)
Definition patched_status (row : UserSubscription) (patch : mergePatch) : Svc string :=
  v ← lift_res (optionalString "status" patch);
  match v with
  | None => mret (UserSubscription.Status row)
  | Some v => _ ← check (subscription_status_valid v) InvalidArg; mret v
  end.

Definition patched_expiry (row : UserSubscription) (patch : mergePatch) (nowNs : Z) : Svc Z :=
  extend ← lift_res (optionalInt "extend_days" patch);
  expiry ← match extend with
           | None => mret (UserSubscription.ExpiresAtNs row)
           | Some days =>
               _ ← check (0 <? days) InvalidArg;
               mret (expiryFromDays days (Z.max nowNs (UserSubscription.ExpiresAtNs row)))
           end;
  explicit ← lift_res (optionalInt "expires_at_ns" patch);
  match explicit with
  | None => mret expiry
  | Some v => _ ← check (0 <=? v) InvalidArg; mret v
  end.

Definition with_terms (status : string) (expiry : Z) (s : UserSubscription) : UserSubscription :=
  UserSubscription.mkUserSubscription (UserSubscription.ID s) (UserSubscription.UserID s) (UserSubscription.PlanID s)
    (UserSubscription.PlanSnapshotJSON s) (UserSubscription.StartsAtNs s) expiry (UserSubscription.PeriodStartNs s)
    (UserSubscription.PeriodUsedBytes s) (UserSubscription.AutoRenew s) (UserSubscription.PeriodIndex s) status.

(** From the decision on: end what runs when the row comes back to active, write
    the terms, publish. *)
Definition store_terms (row updated : UserSubscription) : Svc SubscriptionView :=
  _ ← (if (UserSubscription.Status updated ==s SubscriptionStatusActive)
          && (UserSubscription.Status row <>s SubscriptionStatusActive)
       then expireActiveSubscriptions (UserSubscription.UserID updated) else mret tt);
  _ ← call (UpdateUserSubscriptionTerms updated) mapSubscriptionWriteError;
  _ ← republishUserKeys (UserSubscription.UserID updated);
  one_view updated.

Definition UpdateTenantSubscription (id : string) (body : Json) (nowNs : Z) : Svc SubscriptionView :=
  patch ← or_fail (parseMergePatch body) InvalidArg;
  _ ← check (validateFields tenantSubscriptionPatchAllowedFields patch) InvalidArg;
  row ← read (GetUserSubscription id) mapSubscriptionLookupError;
  status ← patched_status row patch;
  expiry ← patched_expiry row patch nowNs;
  store_terms row (with_terms status expiry row).

Definition DeleteTenantSubscription (id : string) : Svc unit :=
  row ← read (GetUserSubscription id) mapSubscriptionLookupError;
  _ ← call (RevokeUserSubscription (UserSubscription.ID row)) mapSubscriptionWriteError;
  republishUserKeys (UserSubscription.UserID row).

(** ** Usage charts *)

Definition nsPerDay : Z := 86400000000000.
Definition defaultUsageDays : Z := 30.
Definition maxUsageDays : Z := 365.

Record UsageDay := mkUsageDay { ud_DayNs : Z; ud_Ingress : Z; ud_Egress : Z; ud_Total : Z }.

Definition usageWindow (days nowNs : Z) : Z * Z :=
  let days := if days <=? 0 then defaultUsageDays else days in
  let days := if maxUsageDays <? days then maxUsageDays else days in
  let todayStart := mul64 (nowNs ÷ nsPerDay) nsPerDay in
  let to := add64 todayStart nsPerDay in
  (sub64 to (mul64 days nsPerDay), to).

Definition day_of (ts : Z) : Z := mul64 (ts ÷ nsPerDay) nsPerDay.

Definition add_usage (buckets : gmap Z (Z * Z)) (row : UsageRow) : gmap Z (Z * Z) :=
  let day := day_of (UsageRow.TSNs row) in
  let '(i, e) := default (0, 0) (buckets !! day) in
  <[day := (add64 i (UsageRow.IngressBytes row), add64 e (UsageRow.EgressBytes row))]> buckets.

Definition usage_day (buckets : gmap Z (Z * Z)) (day : Z) : UsageDay :=
  match buckets !! day with
  | Some (i, e) => mkUsageDay day i e (add64 i e)
  | None => mkUsageDay day 0 0 0
  end.

(** [for day := from; day < from + days*nsPerDay; day += nsPerDay]; the days come
    out in order, so the sort that follows changes nothing. *)
Definition day_starts (fromNs days : Z) : list Z := map (fun k => fromNs + Z.of_nat k * nsPerDay) (seq 0 (Z.to_nat days)).

Definition foldUsageDays (rows : list UsageRow) (days nowNs : Z) : list UsageDay :=
  map (usage_day (fold_left add_usage rows ∅)) (day_starts (fst (usageWindow days nowNs)) days).

Definition userUsageDaily (userID : string) (days nowNs : Z) (tb : UsageTables) : list UsageDay :=
  let '(fromNs, toNs) := usageWindow days nowNs in
  foldUsageDays (ListUsageByUser userID fromNs toNs tb) days nowNs.

Definition clampUsageDays (days : Z) : Z :=
  if days <=? 0 then defaultUsageDays else if maxUsageDays <? days then maxUsageDays else days.

(** ** Accounts *)

Definition mapAccountWriteError (e : AccountErr) : SvcErr :=
  match e with
  | AccountState ErrConflict => Conflict
  | AccountState ErrNotFound | ErrAccountNotFound => NotFound
  | ErrPasswordTooShort | ErrUsernameRequired | ErrUnknownRole | ErrUnknownStatus => InvalidArg
  | ErrLastAdmin => Forbidden
  | _ => Internal
  end.

(** A call into the account service, which works on the same store. *)
Definition account_call {A} (m : Acct A) : Svc A := fun s =>
  match m (engine s) with
  | (Ok a, db) => (Ok a, set_engine db s)
  | (Err e, db) => (Err (mapAccountWriteError e), set_engine db s)
  end.

Record AdminUserView := mkAdminUserView {
  av_ID : string;
  av_Username : string;
  av_Role : string;
  av_Status : string;
  av_HasTOTP : bool;
  av_CreatedAtNs : Z;
  av_UpdatedAtNs : Z;
  av_LastLoginNs : Z;
  av_KeyCount : Z;
  av_Subscription : option SubscriptionView
}.

Record AccessKeyView := mkAccessKeyView {
  kv_ID : string;
  kv_UserID : string;
  kv_Name : string;
  kv_Scope : string;
  kv_Status : string;
  kv_Platforms : list string;
  kv_IPAllowlist : list string;
  kv_ExpiresAtNs : Z;
  kv_LastUsedNs : Z;
  kv_CreatedAtNs : Z;
  kv_CredentialHint : string
}.

(** The hint ends in an ellipsis, three bytes in UTF-8. *)
Definition ellipsis : string := string_of_list_ascii (of_codes [226; 128; 166]%nat).

Definition accessKeyView (key : AccessKey) : AccessKeyView :=
  mkAccessKeyView (AccessKey.ID key) (AccessKey.UserID key) (AccessKey.Name key) (AccessKey.Scope key)
    (AccessKey.Status key) (AccessKey.Platforms key) (AccessKey.IPAllowlist key) (AccessKey.ExpiresAtNs key)
    (AccessKey.LastUsedNs key) (AccessKey.CreatedAtNs key) (CredentialPrefix ++ AccessKey.ID key ++ "_" ++ ellipsis).

Definition ListAccessKeys (userID : string) : Svc (list AccessKeyView) :=
  _ ← read (GetUser userID) mapUserLookupError;
  s ← svc_get;
  mret (map accessKeyView (ListAccessKeysByUser userID (engine s))).

Record AdminUserDetail := mkAdminUserDetail {
  ad_View : AdminUserView;
  ad_Keys : list AccessKeyView;
  ad_UsageDaily : list UsageDay
}.

(** The active subscription of each user; of two, the one that started later. *)
Definition latest_active (db : StateDB) : gmap string UserSubscription :=
  fold_left (fun m row =>
    match m !! UserSubscription.UserID row with
    | Some existing => if UserSubscription.StartsAtNs existing <? UserSubscription.StartsAtNs row
                       then <[UserSubscription.UserID row := row]> m else m
    | None => <[UserSubscription.UserID row := row]> m
    end) (ListActiveUserSubscriptions db) ∅.

Definition key_counts (db : StateDB) : gmap string Z :=
  fold_left (fun m row => <[AccessKey.UserID row := default 0 (m !! AccessKey.UserID row) + 1]> m)
    (ListActiveAccessKeys db) ∅.

Definition adminUserViews (users : list User) : Svc (list AdminUserView) :=
  s ← svc_get;
  views ← subscriptionViews (map snd (map_to_list (latest_active (engine s))));
  let subViews : gmap string SubscriptionView := fold_left (fun m v => <[sv_UserID v := v]> m) views ∅ in
  mret (map (fun user =>
    mkAdminUserView (User.ID user) (User.Username user) (User.Role user) (User.Status user) (has_totp user)
      (User.CreatedAtNs user) (User.UpdatedAtNs user) (User.LastLoginNs user)
      (default 0 (key_counts (engine s) !! User.ID user)) (subViews !! User.ID user)) users).

Definition tenantUserView (id : string) : Svc AdminUserView :=
  user ← read (GetUser id) mapUserLookupError;
  views ← adminUserViews [user];
  or_fail (head views) Internal.

Record TenantUserFilter := mkTenantUserFilter {
  uf_Query : string;
  uf_Status : string;
  uf_Role : string;
  uf_Limit : Z;
  uf_Offset : Z
}.

(** [strings.Contains] *)
Fixpoint contains_bytes (p l : bytes) : bool :=
  match strip_prefix p l with
  | Some _ => true
  | None => match l with [] => false | _ :: l' => contains_bytes p l' end
  end.
Definition Contains (s sub : string) : bool := contains_bytes (list_ascii_of_string sub) (list_ascii_of_string s).

(** [lower] is [strings.ToLower] with its Unicode tables: names and queries need
    not be ASCII. *)
Definition user_matches (lower : string -> string) (f : TenantUserFilter) (view : AdminUserView) : bool :=
  let query := lower (TrimSpace (uf_Query f)) in
  ((query ==s "") || Contains (lower (av_Username view)) query)
  && ((uf_Status f ==s "") || (av_Status view ==s uf_Status f))
  && ((uf_Role f ==s "") || (av_Role view ==s uf_Role f)).

Definition ListTenantUsers (lower : string -> string) (f : TenantUserFilter) : Svc (list AdminUserView * Z) :=
  s ← svc_get;
  views ← adminUserViews (ListUsers (engine s));
  let matched := List.filter (user_matches lower f) views in
  mret (pageSlice matched (uf_Limit f) (uf_Offset f), Z.of_nat (length matched)).

Definition GetTenantUser (id : string) (nowNs : Z) (tb : UsageTables) : Svc AdminUserDetail :=
  user ← read (GetUser id) mapUserLookupError;
  views ← adminUserViews [user];
  view ← or_fail (head views) Internal;
  s ← svc_get;
  mret (mkAdminUserDetail view (map accessKeyView (ListAccessKeysByUser id (engine s)))
          (userUsageDaily id defaultUsageDays nowNs tb)).

Definition TenantUserUsage (id : string) (days nowNs : Z) (tb : UsageTables) : Svc (list UsageDay) :=
  _ ← read (GetUser id) mapUserLookupError;
  mret (userUsageDaily id (clampUsageDays days) nowNs tb).

Definition tenantUserRole (role : string) : string :=
  let trimmed := TrimSpace role in if trimmed ==s "" then UserRoleUser else trimmed.

Record TenantUserInput := mkTenantUserInput {
  ti_Username : string;
  ti_Password : string;
  ti_Role : string;
  ti_PlanID : string;
  ti_DurationDays : Z
}.

Record TenantUserPatch := mkTenantUserPatch {
  tp_Status : option string;
  tp_Role : option string;
  tp_Password : option string
}.

Definition end_sessions (id : string) : Svc unit :=
  _ ← call (DeleteSessionsByUser id) internal_error; mret tt.

Definition SetTenantUserStatus (id status : string) (nowNs : Z) : Svc AdminUserView :=
  _ ← check (status_known status) InvalidArg;
  _ ← account_call (SetAccountStatus id status nowNs);
  _ ← (if status ==s UserStatusDisabled then end_sessions id else mret tt);
  _ ← republishUserKeys id;
  tenantUserView id.

Definition SetTenantUserRole (id role : string) (nowNs : Z) : Svc AdminUserView :=
  _ ← account_call (SetAccountRole id role nowNs);
  _ ← republishUserKeys id;
  tenantUserView id.

Definition DeleteTenantUser (id : string) : Svc unit :=
  user ← read (GetUser id) mapUserLookupError;
  _ ← account_call (refuseIfLastAdmin user);
  s ← svc_get;
  _ ← publish (fun k => fold_left (fun k row => Delete (AccessKey.ID row) k) (ListAccessKeysByUser id (engine s)) k);
  call (DeleteUser id) mapUserLookupError.

Definition validateTenantUserPatch (user : User) (patch : TenantUserPatch) : Svc unit :=
  let status := default (User.Status user) (tp_Status patch) in
  _ ← check (match tp_Status patch with Some v => status_known v | None => true end) InvalidArg;
  let role := default (User.Role user) (tp_Role patch) in
  _ ← check (match tp_Role patch with Some v => role_known v | None => true end) InvalidArg;
  _ ← match tp_Password patch with Some p => account_call (checkPasswordPolicy p) | None => mret tt end;
  if active_admin user && ((status <>s UserStatusActive) || (role <>s UserRoleAdmin))
  then account_call (refuseIfLastAdmin user) else mret tt.

Definition on_some {A} (o : option A) (f : A -> Svc unit) : Svc unit :=
  match o with Some a => f a | None => mret tt end.

Section TenantSecrets.
Context (hashPassword : string -> option string).

Definition CreateTenantUser (input : TenantUserInput) (nowNs : Z) (id subID : string) (tb : UsageTables)
    : Svc AdminUserDetail :=
  account ← account_call (CreateAccount hashPassword (ti_Username input) (ti_Password input)
                            (tenantUserRole (ti_Role input)) nowNs id);
  let planID := TrimSpace (ti_PlanID input) in
  _ ← (if planID <>s ""
       then _ ← AssignSubscription (acc_ID account) planID (ti_DurationDays input) nowNs subID; mret tt else mret tt);
  GetTenantUser (acc_ID account) nowNs tb.

Definition SetTenantUserPassword (id password : string) (nowNs : Z) : Svc unit :=
  _ ← account_call (SetAccountPassword hashPassword id password nowNs);
  end_sessions id.

(** The writes of [UpdateTenantUser], once the patch is validated and the
    password hashed. *)
Definition write_patch (id : string) (patch : TenantUserPatch) (hash : option string) (nowNs : Z) : Svc unit :=
  _ ← on_some (tp_Status patch) (fun status => account_call (setAccountStatusLocked id status nowNs));
  _ ← on_some (tp_Role patch) (fun role => account_call (setAccountRoleLocked id role nowNs));
  on_some hash (fun h => account_call (engine_call (UpdateUserPassword id h nowNs))).

Definition UpdateTenantUser (id : string) (patch : TenantUserPatch) (nowNs : Z) : Svc AdminUserView :=
  _ ← check (match patch with mkTenantUserPatch None None None => false | _ => true end) InvalidArg;
  user ← read (GetUser id) mapUserLookupError;
  _ ← validateTenantUserPatch user patch;
  hash ← match tp_Password patch with
         | None => mret None
         | Some p => h ← or_fail (hashPassword p) Internal; mret (Some h)
         end;
  _ ← write_patch id patch hash nowNs;
  _ ← (if (match tp_Status patch with Some v => v ==s UserStatusDisabled | None => false end)
          || (match tp_Password patch with Some _ => true | None => false end)
       then end_sessions id else mret tt);
  _ ← republishUserKeys id;
  tenantUserView id.
End TenantSecrets.
