(* ===== verification/Invites.v ===== *)
(** * Invitations and registration

    [src/internal/service/control_plane_invite.go]: minting and withdrawing
    invite codes, and creating an account for oneself.  Drawn ids and codes are
    arguments; so are the hash of a password and the Unicode tables behind
    [unicode.IsLetter] and [unicode.IsDigit] above Latin-1. *)

From Stdlib Require Import Ascii String.
From stdpp Require Import base gmap list strings.
From S2P Require Import Prelude Counters Model Store Ledger GoStrings Utf8 Keys Service Accounts Codes Plans Tenants.

(** ** Invitations *)

Record InviteInput := mkInviteInput {
  ii_PlanID : string;
  ii_MaxUses : Z;
  ii_ExpiresInDays : Z;
  ii_Note : string
}.

Record InviteView := mkInviteView {
  iv_ID : string;
  iv_Code : string;
  iv_PlanID : string;
  iv_PlanName : string;
  iv_MaxUses : Z;
  iv_UsedCount : Z;
  iv_Status : string;
  iv_ExpiresAtNs : Z;
  iv_Note : string;
  iv_CreatedAtNs : Z
}.

Definition mapInviteLookupError (e : StateErr) : SvcErr :=
  match e with ErrNotFound => NotFound | _ => Internal end.

Definition inviteUsable (row : Invite) (nowNs : Z) : bool :=
  if Invite.Status row <>s InviteStatusActive then false
  else if (0 <? Invite.ExpiresAtNs row) && (Invite.ExpiresAtNs row <=? nowNs) then false
  else (Invite.MaxUses row =? 0) || (Invite.UsedCount row <? Invite.MaxUses row).

Definition inviteView (row : Invite) (planName : string) (nowNs : Z) : InviteView :=
  mkInviteView (Invite.ID row) (Invite.Code row) (Invite.PlanID row) planName (Invite.MaxUses row)
    (Invite.UsedCount row)
    (if (Invite.Status row ==s InviteStatusActive) && negb (inviteUsable row nowNs)
     then InviteStatusDisabled else Invite.Status row)
    (Invite.ExpiresAtNs row) (Invite.Note row) (Invite.CreatedAtNs row).

Definition granted_plan_name (planID : string) : Svc string :=
  if planID ==s "" then mret ""
  else plan ← read (Store.GetPlan planID) mapPlanLookupError;
       _ ← check (Plan.Status plan ==s planStatusActive) InvalidArg;
       mret (Plan.Name plan).

Definition CreateInvite (input : InviteInput) (createdBy : string) (nowNs : Z) (id : string) (buf : list Z)
    : Svc InviteView :=
  _ ← check (0 <=? ii_MaxUses input) InvalidArg;
  _ ← check (0 <=? ii_ExpiresInDays input) InvalidArg;
  _ ← check (ii_ExpiresInDays input <=? maxExpiryDays) InvalidArg;
  planName ← granted_plan_name (TrimSpace (ii_PlanID input));
  let row := Invite.mkInvite id (newInviteCode buf) (TrimSpace (ii_PlanID input)) (ii_MaxUses input) 0
               (expiryFromDays (ii_ExpiresInDays input) nowNs) (TrimSpace (ii_Note input)) InviteStatusActive
               createdBy nowNs nowNs in
  _ ← call (InsertInvite row) (fun e => match e with ErrConflict => Conflict | _ => Internal end);
  mret (inviteView row planName nowNs).

Definition ListInvites (limit offset nowNs : Z) : Svc (list InviteView * Z) :=
  s ← svc_get;
  let views := map (fun row =>
    inviteView row (match planDirectory (engine s) !! Invite.PlanID row with Some p => Plan.Name p | None => "" end) nowNs)
    (Ledger.ListInvites (engine s)) in
  mret (pageSlice views limit offset, Z.of_nat (length views)).

Definition DeleteInvite (id : string) : Svc unit :=
  _ ← read (GetInvite id) mapInviteLookupError;
  call (Ledger.DeleteInvite id) mapInviteLookupError.

Definition RedeemInvite (code : string) (nowNs : Z) : Svc Invite :=
  call (RedeemInviteByCode (TrimSpace code) nowNs) (fun e => match e with ErrNotFound => InvalidArg | _ => Internal end).

Definition checkInvitePlan (code : string) (nowNs : Z) : Svc unit :=
  _ ← check (validInviteCodeShape code) InvalidArg;
  invite ← read (GetInviteByCode code) (fun e => match e with ErrNotFound => InvalidArg | _ => Internal end);
  _ ← check (inviteUsable invite nowNs) InvalidArg;
  if Invite.PlanID invite ==s "" then mret tt
  else plan ← read (Store.GetPlan (Invite.PlanID invite)) (fun e => match e with ErrNotFound => InvalidArg | _ => Internal end);
       check (Plan.Status plan ==s planStatusActive) InvalidArg.

(** ** Registration *)

Inductive RegistrationMode := RegistrationOff | RegistrationInvite | RegistrationOpen.

Definition AllowsRegistration (m : RegistrationMode) : bool :=
  match m with RegistrationOff => false | _ => true end.

Definition minUsernameLength : nat := 3.
Definition maxUsernameLength : nat := 64.

Section Registration.
Context (letter_above digit_above : Z -> bool).
Context (hashPassword : string -> option string).

(** [unicode.IsLetter] and [unicode.IsDigit]: Latin-1 from its table. *)
Definition IsLetter (r : Z) : bool :=
  if r <=? 255 then
    ((65 <=? r) && (r <=? 90)) || ((97 <=? r) && (r <=? 122)) || (r =? 170) || (r =? 181) || (r =? 186)
    || ((192 <=? r) && negb (r =? 215) && negb (r =? 247))
  else letter_above r.

Definition IsDigit (r : Z) : bool := if r <=? 255 then (48 <=? r) && (r <=? 57) else digit_above r.

Definition username_rune (r : Z) : bool :=
  IsLetter r || IsDigit r || existsb (Z.eqb r) [45; 95; 46; 64; 43].

Definition validateTenantUsername (username : string) : bool :=
  negb (username ==s "")
  && (minUsernameLength <=? String.length username)%nat && (String.length username <=? maxUsernameLength)%nat
  && forallb username_rune (runes username).

Definition mapUserWriteError (e : StateErr) : SvcErr :=
  match e with ErrConflict => Conflict | ErrNotFound => NotFound | _ => Internal end.

(** The check of the code, where one is asked for. *)
Definition invitation (mode : RegistrationMode) (inviteCode : string) (nowNs : Z) : Svc string :=
  match mode with
  | RegistrationInvite =>
      let code := TrimSpace inviteCode in
      _ ← check (code <>s "") InvalidArg;
      _ ← checkInvitePlan code nowNs;
      mret code
  | _ => mret ""
  end.

(** The plan the code grants; a failure is only logged. *)
Definition grant (userID planID : string) (nowNs : Z) (subID : string) : Svc unit := fun s =>
  (Ok tt, snd (AssignSubscription userID planID 0 nowNs subID s)).

Definition RegisterTenantUser (mode : RegistrationMode) (inviteCode username password : string) (nowNs : Z)
    (id subID : string) : Svc User :=
  _ ← check (AllowsRegistration mode) RegistrationClosed;
  let username := TrimSpace username in
  _ ← check (validateTenantUsername username) InvalidArg;
  _ ← account_call (checkPasswordPolicy password);
  code ← invitation mode inviteCode nowNs;
  hash ← or_fail (hashPassword password) Internal;
  let user := new_user id username hash UserRoleUser nowNs in
  match mode with
  | RegistrationInvite =>
      invite ← call (RedeemInviteAndInsertUser code nowNs user)
                 (fun e => match e with ErrNotFound => InvalidArg | ErrConflict => Conflict | _ => Internal end);
      _ ← (if Invite.PlanID invite <>s "" then grant id (Invite.PlanID invite) nowNs subID else mret tt);
      mret user
  | _ => _ ← call (InsertUser user) mapUserWriteError; mret user
  end.
End Registration.
