(* ===== verification/Billing.v ===== *)
(** * Buying, renewing and topping up

    [src/internal/service/control_plane_purchase.go],
    [control_plane_balance.go] and the sweep of
    [control_plane_subscription_sweep.go]: the service around the repository's
    money transactions.  Drawn ids are arguments; of the renewal sweep, a
    function from the subscription to the ledger id drawn for it. *)

From Stdlib Require Import Ascii String.
From stdpp Require Import base gmap list strings.
From S2P Require Import Prelude Hoare Counters Model Store Ledger GoStrings Keys Service Codes Plans Tenants.

(** ** Buying *)

Definition renewalLeadTimeNs : Z := 7 * 24 * 60 * 60 * 1000000000.
Definition maxPurchaseRequestID : nat := 128.

Record PurchasablePlan := mkPurchasablePlan {
  pp_ID : string;
  pp_Name : string;
  pp_Platforms : list string;
  pp_IPTiers : list string;
  pp_TrafficBytes : Z;
  pp_Period : string;
  pp_DurationDays : Z;
  pp_PriceMicro : Z
}.

Record PurchaseResultView := mkPurchaseResultView {
  pr_Subscription : SubscriptionView;
  pr_BalanceMicro : Z;
  pr_ChargedMicro : Z;
  pr_Replayed : bool
}.

Record RenewalView := mkRenewalView { rv_Renewed : Z; rv_ShortOfFunds : Z; rv_Failed : Z }.

Definition SelfPlans : Svc (list PurchasablePlan) :=
  s ← svc_get;
  mret (map (fun p => mkPurchasablePlan (Plan.ID p) (Plan.Name p) (Plan.Platforms p) (Plan.IPTiers p)
               (Plan.TrafficBytes p) (Plan.Period p) (Plan.DurationDays p) (Plan.PriceMicro p))
    (List.filter (fun p => (Plan.Status p ==s planStatusActive) && (0 <? Plan.PriceMicro p)) (Store.ListPlans (engine s)))).

(** A publish whose failure is only logged. *)
Definition try_republish (userID : string) : Svc unit := fun s => (Ok tt, snd (republishUserKeys userID s)).

Definition request_ok (requestID : string) : bool :=
  (requestID <>s "") && (String.length requestID <=? maxPurchaseRequestID)%nat.

Definition charge_entry (id userID : string) (price : Z) (reason refID requestID : string) (nowNs : Z) : BalanceEntry :=
  BalanceEntry.mkBalanceEntry id userID (neg64 price) 0 reason refID requestID "" "" nowNs.

Definition result_view (sub : SubscriptionView) (r : PurchaseResult) : PurchaseResultView :=
  mkPurchaseResultView sub (BalanceEntry.BalanceAfterMicro (Entry r))
    (if Replayed r then 0 else neg64 (BalanceEntry.DeltaMicro (Entry r))) (Replayed r).

Definition mapChargeError (e : StateErr) : SvcErr :=
  match e with ErrInsufficientBalance => InvalidArg | ErrConflict => Conflict | _ => Internal end.

Definition purchased_row (id userID : string) (plan : Plan) (nowNs : Z) : UserSubscription :=
  UserSubscription.mkUserSubscription id userID (Plan.ID plan) (planSnapshotJSON plan) nowNs
    (expiryFromDays (Plan.DurationDays plan) nowNs) nowNs 0 false 0 SubscriptionStatusActive.

Definition SelfPurchase (userID planID requestID : string) (nowNs : Z) (subID entryID : string)
    : Svc PurchaseResultView :=
  _ ← read (GetUser userID) mapUserLookupError;
  let planID := TrimSpace planID in
  _ ← check (planID <>s "") InvalidArg;
  let requestID := TrimSpace requestID in
  _ ← check (request_ok requestID) InvalidArg;
  plan ← read (Store.GetPlan planID) mapPlanLookupError;
  _ ← check (Plan.Status plan ==s planStatusActive) InvalidArg;
  _ ← check (0 <? Plan.PriceMicro plan) InvalidArg;
  _ ← check (0 <? Plan.DurationDays plan) InvalidArg;
  result ← call (PurchasePlanWithBalance (purchased_row subID userID plan nowNs)
                   (charge_entry entryID userID (Plan.PriceMicro plan) BalanceReasonPurchase (Plan.ID plan) requestID nowNs)
                   nowNs) mapChargeError;
  _ ← (if Replayed result then mret tt else count (ResetUser userID));
  _ ← try_republish userID;
  view ← one_view (Subscription result);
  mret (result_view view result).

(** ** Renewing *)

(** The errors of a renewal are the repository's, which the callers look into,
    or answers for the client. *)
Inductive RenewErr := RenewState (e : StateErr) | RenewSvc (e : SvcErr).

Abbreviation Renew := (Proc Service RenewErr).

Definition renewalPrice (sub : UserSubscription) (db : StateDB) : res SvcErr (Plan * Z) :=
  match planFromSnapshotJSON (UserSubscription.PlanSnapshotJSON sub) with
  | None => Err Internal
  | Some plan =>
      if 0 <? Plan.PriceMicro plan then Ok (plan, Plan.PriceMicro plan)
      else if UserSubscription.PlanID sub ==s "" then Err InvalidArg
      else match Store.GetPlan (UserSubscription.PlanID sub) db with
           | Err e => Err (mapPlanLookupError e)
           | Ok live => if Plan.PriceMicro live <=? 0 then Err InvalidArg else Ok (live, 0)
           end
  end.

Definition renewalRequestID (sub : UserSubscription) : string :=
  "renew:" ++ UserSubscription.ID sub ++ ":" ++ Itoa (UserSubscription.PeriodIndex sub).

Definition maxInt64 (a b : Z) : Z := if b <? a then a else b.

Definition renewalWindowNs (leadNs durationDays : Z) : Z :=
  if durationDays <=? 0 then leadNs
  else
    let period := expiryFromDays durationDays 0 in
    if (period <=? 0) || (period <? leadNs) then period else leadNs.

Definition renewalDue (sub : UserSubscription) (plan : Plan) (nowNs : Z) : bool :=
  if UserSubscription.ExpiresAtNs sub <=? 0 then false
  else sub64 (UserSubscription.ExpiresAtNs sub) nowNs <=? renewalWindowNs renewalLeadTimeNs (Plan.DurationDays plan).

(** The row a renewal writes: the next period starts where this one ends, or
    now. *)
Definition next_period (sub : UserSubscription) (plan : Plan) (snapshotPrice nowNs : Z) : UserSubscription :=
  let base := maxInt64 (UserSubscription.ExpiresAtNs sub) nowNs in
  UserSubscription.mkUserSubscription (UserSubscription.ID sub) (UserSubscription.UserID sub)
    (UserSubscription.PlanID sub)
    (if snapshotPrice <=? 0 then planSnapshotJSON plan else UserSubscription.PlanSnapshotJSON sub)
    (UserSubscription.StartsAtNs sub) (expiryFromDays (Plan.DurationDays plan) base) base
    (UserSubscription.PeriodUsedBytes sub) (UserSubscription.AutoRenew sub)
    (add64 (UserSubscription.PeriodIndex sub) 1) (UserSubscription.Status sub).

(** [None] is a plan without a duration. *)
Definition renewOneWithPlan (sub : UserSubscription) (plan : Plan) (snapshotPrice nowNs : Z)
    (requestID entryID : string) : Renew (option PurchaseResult) := fun s =>
  if Plan.DurationDays plan <=? 0 then (Ok None, s)
  else
    match RenewSubscriptionWithBalance (next_period sub plan snapshotPrice nowNs) (UserSubscription.PeriodIndex sub)
            (charge_entry entryID (UserSubscription.UserID sub) (Plan.PriceMicro plan) BalanceReasonRenew
               (UserSubscription.ID sub) requestID nowNs) (engine s) with
    | (Err e, db) => (Err (RenewState e), set_engine db s)
    | (Ok result, db) =>
        let s := set_engine db s in
        let s := if Replayed result then s else set_usage (ResetUser (UserSubscription.UserID sub) (usage s)) s in
        (Ok (Some result), snd (republishUserKeys (UserSubscription.UserID sub) s))
    end.

Definition renewOne (sub : UserSubscription) (nowNs : Z) (requestID entryID : string) : Renew (option PurchaseResult) :=
  fun s =>
    match renewalPrice sub (engine s) with
    | Err e => (Err (RenewSvc e), s)
    | Ok (plan, price) => renewOneWithPlan sub plan price nowNs requestID entryID s
    end.

Definition mapRenewError (e : RenewErr) : SvcErr :=
  match e with
  | RenewState e => mapChargeError e
  | RenewSvc e => e
  end.

Definition renew_call {A} (m : Renew A) : Svc A := fun s =>
  match m s with
  | (Ok a, s') => (Ok a, s')
  | (Err e, s') => (Err (mapRenewError e), s')
  end.

Definition SelfRenew (userID subscriptionID requestID : string) (nowNs : Z) (entryID : string)
    : Svc PurchaseResultView :=
  _ ← check (0 <? nowNs) InvalidArg;
  let subscriptionID := TrimSpace subscriptionID in
  _ ← check (subscriptionID <>s "") InvalidArg;
  let requestID := TrimSpace requestID in
  _ ← check (request_ok requestID) InvalidArg;
  sub ← read (GetUserSubscription subscriptionID) mapSubscriptionLookupError;
  _ ← check (UserSubscription.UserID sub ==s userID) NotFound;
  _ ← check (UserSubscription.Status sub ==s SubscriptionStatusActive) InvalidArg;
  renewed ← renew_call (renewOne sub nowNs requestID entryID);
  result ← or_fail renewed InvalidArg;
  current ← read (GetUserSubscription subscriptionID) mapSubscriptionLookupError;
  view ← one_view current;
  mret (result_view view result).

Definition SetAutoRenew (userID subscriptionID : string) (autoRenew : bool) : Svc SubscriptionView :=
  let subscriptionID := TrimSpace subscriptionID in
  _ ← check (subscriptionID <>s "") InvalidArg;
  row ← read (GetUserSubscription subscriptionID) mapSubscriptionLookupError;
  _ ← check (UserSubscription.UserID row ==s userID) NotFound;
  _ ← check (negb (autoRenew && ((UserSubscription.Status row <>s SubscriptionStatusActive)
                                 || (UserSubscription.ExpiresAtNs row <=? 0)))) InvalidArg;
  _ ← call (SetSubscriptionAutoRenew (UserSubscription.ID row) autoRenew) mapSubscriptionLookupError;
  one_view (UserSubscription.with_AutoRenew autoRenew row).

Definition tally (r : res RenewErr (option PurchaseResult)) (v : RenewalView) : RenewalView :=
  match r with
  | Ok (Some _) => mkRenewalView (rv_Renewed v + 1) (rv_ShortOfFunds v) (rv_Failed v)
  | Err (RenewState ErrInsufficientBalance) => mkRenewalView (rv_Renewed v) (rv_ShortOfFunds v + 1) (rv_Failed v)
  | _ => mkRenewalView (rv_Renewed v) (rv_ShortOfFunds v) (rv_Failed v + 1)
  end.

(** One round of the sweep. *)
Definition renew_due (draw : UserSubscription -> string) (nowNs : Z) (acc : RenewalView * Service) (sub : UserSubscription)
    : RenewalView * Service :=
  let '(v, s) := acc in
  match renewalPrice sub (engine s) with
  | Err _ => (mkRenewalView (rv_Renewed v) (rv_ShortOfFunds v) (rv_Failed v + 1), s)
  | Ok (plan, price) =>
      if negb (renewalDue sub plan nowNs) then (v, s)
      else
        let '(r, s') := renewOneWithPlan sub plan price nowNs (renewalRequestID sub) (draw sub) s in
        (tally r v, s')
  end.

Definition renew_all (draw : UserSubscription -> string) (nowNs : Z) : Svc RenewalView := fun s =>
  let '(v, s') := fold_left (renew_due draw nowNs) (ListRenewableSubscriptions nowNs renewalLeadTimeNs (engine s))
                    (mkRenewalView 0 0 0, s) in
  (Ok v, s').

Definition RenewDueSubscriptions (draw : UserSubscription -> string) (nowNs : Z) : Svc RenewalView :=
  _ ← check (0 <? nowNs) InvalidArg;
  renew_all draw nowNs.

Definition SweepExpiredSubscriptions (nowNs : Z) : Svc Z :=
  _ ← check (0 <? nowNs) InvalidArg;
  call (ExpireStaleSubscriptions nowNs) internal_error.

(** ** The balance and redemption codes *)

Definition defaultLedgerLimit : Z := 50.
Definition maxLedgerLimit : Z := 200.

Record BalanceView := mkBalanceView { bv_BalanceMicro : Z; bv_Ledger : list BalanceEntry }.

Record RedeemCodeInput := mkRedeemCodeInput {
  ri_AmountMicro : Z;
  ri_MaxUses : Z;
  ri_ExpiresInDays : Z;
  ri_Note : string;
  ri_Count : Z
}.

Record RedeemCodeView := mkRedeemCodeView {
  cv_ID : string;
  cv_CodeHint : string;
  cv_AmountMicro : Z;
  cv_MaxUses : Z;
  cv_UsedCount : Z;
  cv_Status : string;
  cv_ExpiresAtNs : Z;
  cv_Note : string;
  cv_CreatedAtNs : Z
}.

Record CreatedRedeemCode := mkCreatedRedeemCode { cc_View : RedeemCodeView; cc_Code : string }.

Definition ledger_limit (limit : Z) : Z :=
  let limit := if limit <=? 0 then defaultLedgerLimit else limit in
  if maxLedgerLimit <? limit then maxLedgerLimit else limit.

Definition SelfBalance (userID : string) (limit : Z) : Svc BalanceView :=
  _ ← check (TrimSpace userID <>s "") InvalidArg;
  s ← svc_get;
  mret (mkBalanceView (GetBalance userID (engine s)) (ListBalanceLedger userID (ledger_limit limit) (engine s))).

Definition redeemCodeUsable (row : RedeemCode) (nowNs : Z) : bool :=
  if RedeemCode.Status row <>s RedeemCodeStatusActive then false
  else if (0 <? RedeemCode.ExpiresAtNs row) && (RedeemCode.ExpiresAtNs row <=? nowNs) then false
  else (RedeemCode.MaxUses row =? 0) || (RedeemCode.UsedCount row <? RedeemCode.MaxUses row).

Definition redeemCodeView (row : RedeemCode) (nowNs : Z) : RedeemCodeView :=
  mkRedeemCodeView (RedeemCode.ID row) (RedeemCode.CodeHint row) (RedeemCode.AmountMicro row)
    (RedeemCode.MaxUses row) (RedeemCode.UsedCount row)
    (if (RedeemCode.Status row ==s RedeemCodeStatusActive) && negb (redeemCodeUsable row nowNs)
     then RedeemCodeStatusDisabled else RedeemCode.Status row)
    (RedeemCode.ExpiresAtNs row) (RedeemCode.Note row) (RedeemCode.CreatedAtNs row).

Definition mapRedeemError (e : StateErr) : SvcErr :=
  match e with ErrNotFound => InvalidArg | ErrConflict => Conflict | _ => Internal end.

Definition redeemCodeAmount (hash : string) : Svc Z :=
  code ← read (GetRedeemCodeByHash hash) (fun e => match e with ErrNotFound => InvalidArg | _ => Internal end);
  mret (RedeemCode.AmountMicro code).

Definition Redeem (pepper : option Pepper) (userID code : string) (nowNs : Z) (id : string) : Svc BalanceView :=
  _ ← or_fail pepper Internal;
  _ ← check (TrimSpace userID <>s "") InvalidArg;
  let normalized := normalizeRedeemCode code in
  _ ← check (validRedeemCodeShape normalized) InvalidArg;
  let hash := HashSecret pepper normalized in
  amount ← redeemCodeAmount hash;
  entry ← call (RedeemCodeAndCredit hash
                  (BalanceEntry.mkBalanceEntry id userID amount 0 BalanceReasonRedeem (TrimSpace hash) "" "" "" nowNs)
                  nowNs) mapRedeemError;
  mret (mkBalanceView (BalanceEntry.BalanceAfterMicro entry) []).

Definition AdminBalance (userID : string) (limit : Z) : Svc BalanceView :=
  _ ← read (GetUser userID) mapUserLookupError;
  SelfBalance userID limit.

Definition AdjustBalance (userID : string) (deltaMicro : Z) (note actor : string) (nowNs : Z) (id : string)
    : Svc BalanceView :=
  _ ← read (GetUser userID) mapUserLookupError;
  _ ← check (negb (deltaMicro =? 0)) InvalidArg;
  _ ← check (negb ((maxBalanceMicro <? deltaMicro) || (deltaMicro <? - maxBalanceMicro))) InvalidArg;
  let note := TrimSpace note in
  _ ← check (note <>s "") InvalidArg;
  _ ← call (ApplyBalanceDelta (BalanceEntry.mkBalanceEntry id userID deltaMicro 0 BalanceReasonAdminAdjust "" ""
                                 note actor nowNs))
        (fun e => match e with ErrInsufficientBalance => InvalidArg | _ => Internal end);
  AdminBalance userID 0.

Definition minted_row (pepper : option Pepper) (input : RedeemCodeInput) (createdBy : string) (nowNs : Z)
    (id code : string) : RedeemCode :=
  RedeemCode.mkRedeemCode id (HashSecret pepper code) (codeHint code) (ri_AmountMicro input) (ri_MaxUses input) 0
    (expiryFromDays (ri_ExpiresInDays input) nowNs) (TrimSpace (ri_Note input)) RedeemCodeStatusActive
    createdBy nowNs nowNs.

(** The loop of the batch; [draw i] is the id and the random bytes drawn for the
    [i]-th code.  What was inserted before a failure stays. *)
Fixpoint mint_codes (pepper : option Pepper) (input : RedeemCodeInput) (createdBy : string) (nowNs : Z)
    (draw : nat -> string * list Z) (i n : nat) : Svc (list CreatedRedeemCode) :=
  match n with
  | O => mret []
  | S n' =>
      let code := newRedeemCode (snd (draw i)) in
      let row := minted_row pepper input createdBy nowNs (fst (draw i)) code in
      _ ← call (InsertRedeemCode row) (fun e => match e with ErrConflict => Conflict | _ => Internal end);
      rest ← mint_codes pepper input createdBy nowNs draw (S i) n';
      mret (mkCreatedRedeemCode (redeemCodeView row nowNs) code :: rest)
  end.

Definition CreateRedeemCodes (pepper : option Pepper) (input : RedeemCodeInput) (createdBy : string) (nowNs : Z)
    (draw : nat -> string * list Z) : Svc (list CreatedRedeemCode) :=
  _ ← or_fail pepper Internal;
  _ ← check (0 <? ri_AmountMicro input) InvalidArg;
  _ ← check (ri_AmountMicro input <=? maxBalanceMicro) InvalidArg;
  _ ← check (0 <=? ri_MaxUses input) InvalidArg;
  _ ← check (0 <=? ri_ExpiresInDays input) InvalidArg;
  _ ← check (ri_ExpiresInDays input <=? maxExpiryDays) InvalidArg;
  let count := if ri_Count input <=? 0 then 1 else ri_Count input in
  _ ← check (count <=? maxRedeemCodeBatch) InvalidArg;
  mint_codes pepper input createdBy nowNs draw 0 (Z.to_nat count).

Definition ListRedeemCodes (limit offset nowNs : Z) : Svc (list RedeemCodeView * Z) :=
  s ← svc_get;
  let views := map (fun row => redeemCodeView row nowNs) (Ledger.ListRedeemCodes (engine s)) in
  mret (pageSlice views limit offset, Z.of_nat (length views)).

Definition DeleteRedeemCode (id : string) : Svc unit :=
  call (Ledger.DeleteRedeemCode id) (fun e => match e with ErrNotFound => NotFound | _ => Internal end).

(** ** What the console lists is what redeeming does *)

Lemma usable_claimable (c : RedeemCode) (nowNs : Z) :
  0 <= RedeemCode.ExpiresAtNs c -> redeemCodeUsable c nowNs = code_claimable (RedeemCode.CodeHash c) nowNs c.
Proof.
  intros He. unfold redeemCodeUsable, code_claimable. rewrite eqb_s_refl. simpl.
  destruct (RedeemCode.Status c ==s RedeemCodeStatusActive); [|done]. simpl.
  destruct (0 <? RedeemCode.ExpiresAtNs c) eqn:E1.
  - apply Z.ltb_lt in E1. assert ((RedeemCode.ExpiresAtNs c =? 0) = false) as -> by (apply Z.eqb_neq; lia). simpl.
    destruct (Z.leb_spec (RedeemCode.ExpiresAtNs c) nowNs); destruct (Z.ltb_spec nowNs (RedeemCode.ExpiresAtNs c));
      try lia; done.
  - apply Z.ltb_ge in E1. assert ((RedeemCode.ExpiresAtNs c =? 0) = true) as -> by (apply Z.eqb_eq; lia). done.
Qed.

(** A code is listed as active exactly when redeeming it would be let
    through: when it is not, the repository finds no code to claim and the
    customer gets the answer an unknown code gets. *)
Theorem listed_code_is_redeemable (pepper : Pepper) (userID code : string) (nowNs : Z) (id : string) (s : Service)
    (c : RedeemCode) :
  let typed := normalizeRedeemCode code in
  TrimSpace userID <> "" -> validRedeemCodeShape typed = true ->
  GetRedeemCodeByHash (HashSecret (Some pepper) typed) (engine s) = Ok c ->
  NoDup (map RedeemCode.CodeHash (redeem_codes (engine s))) -> 0 <= RedeemCode.ExpiresAtNs c ->
  (cv_Status (redeemCodeView c nowNs) = RedeemCodeStatusActive <->
   code_claimable (HashSecret (Some pepper) typed) nowNs c = true) /\
  (cv_Status (redeemCodeView c nowNs) <> RedeemCodeStatusActive ->
   Redeem (Some pepper) userID code nowNs id s = (Err InvalidArg, s)).
Proof.
  intros typed Hu Hshape Hg Hn He. set (h := HashSecret _ _) in *. pose proof Hg as Hg'. unfold GetRedeemCodeByHash in Hg'.
  destruct (sql_first _ _) as [c'|] eqn:Ef; [|done]. injection Hg' as ->.
  apply find_some_In in Ef as [Hin Hh]. apply eqb_s_true in Hh.
  assert (cv_Status (redeemCodeView c nowNs) = RedeemCodeStatusActive <-> code_claimable h nowNs c = true) as Hiff.
  { rewrite <- Hh, <- usable_claimable by done. unfold redeemCodeView. cbn [cv_Status].
    destruct (RedeemCode.Status c ==s RedeemCodeStatusActive) eqn:E; cbn [andb].
    - apply eqb_s_true in E. destruct (redeemCodeUsable c nowNs); simpl; split; done.
    - assert (redeemCodeUsable c nowNs = false) as -> by (unfold redeemCodeUsable; by rewrite E).
      apply eqb_s_false in E. split; done. }
  split; [exact Hiff|]. intros Hna. unfold Redeem.
  erewrite proc_bind_run by reflexivity.
  erewrite proc_bind_run by (by apply check_run, negb_true_iff, eqb_s_false). cbv zeta.
  erewrite proc_bind_run by (by apply check_run). fold typed h.
  erewrite proc_bind_run by (unfold redeemCodeAmount, mbind, proc_bind, read; rewrite Hg; reflexivity).
  apply proc_bind_stop. unfold call, RedeemCodeAndCredit, transact, mbind, tx_bind, claim_redeem_code.
  assert (sql_affected (code_claimable h nowNs) (redeem_codes (engine s)) = 0%nat) as ->.
  { apply sql_affected_zero. intros r Hr. destruct (code_claimable h nowNs r) eqn:E; [|done]. exfalso. apply Hna, Hiff.
    pose proof E as E'. unfold code_claimable in E'. bool_prop.
    assert (r = c) as -> by (eapply NoDup_map_inj; [exact Hn|done|done|congruence]). done. }
  simpl. by destruct s.
Qed.

Module BillingDemo.
Definition pepper : Pepper := mkPepper [] [1; 2; 3] [].
Definition buf : list Z := map Z.of_nat (seq 0 20).
Definition minted : Service := Eval vm_compute in
  snd (CreateRedeemCodes (Some pepper) (mkRedeemCodeInput 5000000 1 1 "" 1) "root" 7 (fun _ => ("c1"%string, buf))
         (mkService emptyDB ∅ NewCounters)).
Definition code : string := Eval vm_compute in newRedeemCode buf.
Definition row : RedeemCode := Eval vm_compute in
  match redeem_codes (engine minted) with c :: _ => c | [] => minted_row None (mkRedeemCodeInput 0 0 0 "" 0) "" 0 "" "" end.
End BillingDemo.

Lemma listed_code_is_redeemable_witness :
  cv_Status (redeemCodeView BillingDemo.row 8) = RedeemCodeStatusActive /\
  Redeem (Some BillingDemo.pepper) "u1" BillingDemo.code (2 * dayNs) "b1" BillingDemo.minted =
    (Err InvalidArg, BillingDemo.minted).
Proof.
  split; [vm_compute; reflexivity|].
  refine (proj2 (listed_code_is_redeemable BillingDemo.pepper "u1" BillingDemo.code (2 * dayNs) "b1" BillingDemo.minted
    BillingDemo.row _ _ _ _ _) _);
    [vm_compute; discriminate|vm_compute; reflexivity|vm_compute; reflexivity|apply NoDup_singleton|
     vm_compute; discriminate|vm_compute; discriminate].
Defined.
