(* ===== verification/SyncPlans.v ===== *)
(** * Plans and subscriptions keep the live store in step

    What the repository's writes touch, and the handlers of [Plans] and of the
    subscription half of [Tenants] against the invariant of [Sync]. *)

From Stdlib Require Import Ascii String.
From stdpp Require Import base gmap list strings.
From S2P Require Import Prelude Hoare Counters Model Store Ledger GoStrings Keys Service Totp Accounts Sync Patch Access Plans Tenants.

(** ** What the repository methods touch *)

Abbreviation nobody := (fun _ : string => False).

Ltac frame_touches := apply touches_frame; [done|done|done|done|auto].

Lemma UpsertPlan_touches (U : string -> Prop) (p : Plan) (x : unit) (db db' : StateDB) :
  sound db -> UpsertPlan p db = (Ok x, db') -> touches U db db'.
Proof.
  intros So H. unfold UpsertPlan in H. apply transact_ok in H. tx_invert; apply touches_frame; try done;
    intros q Hq; unfold plan_exists in *; simpl.
  - apply List.existsb_exists in Hq as (r & Hr & E). apply List.existsb_exists.
    exists (if Plan.ID r ==s Plan.ID p then with_CreatedAt (Plan.CreatedAtNs r) (plan_row p) else r).
    split; [apply sql_update_In; eauto|].
    destruct (Plan.ID r ==s Plan.ID p) eqn:Ei; [|done]. bool_prop. simpl. rewrite <- Ei. by apply eqb_s_true.
  - by rewrite existsb_app, Hq.
Qed.

Lemma DeletePlan_touches (id : string) (x : unit) (db db' : StateDB) :
  sound db -> Store.DeletePlan id db = (Ok x, db') -> touches nobody db db'.
Proof.
  intros So H. pose proof (DeletePlan_subs_wf id db (so_subs db So)) as Ws. rewrite H in Ws. simpl in Ws.
  unfold Store.DeletePlan in H. apply transact_ok in H. tx_invert. destruct So as [Hc W _ Hr Ha]. split; [split|done|]; try done.
  - by apply (keys_wf_frame db).
  - intros u s Hs. simpl in Hs. apply sql_update_In in Hs as (r & Hin & ->).
    destruct (_ ==s id); intros E; apply (Hr u r Hin E).
  - intros v _. split; [done|].
    apply (rows_of_update v (fun s => UserSubscription.PlanID s ==s id) (UserSubscription.with_PlanID "") db).
    intros r _ _. by left.
Qed.

Lemma InsertUser_touches (u : User) (x : unit) (db db' : StateDB) :
  sound db -> insert_user_tx u db = Ok (x, db') ->
  touches (fun v => v = User.ID u) db db' /\ user_exists (User.ID u) db = false /\ user_exists (User.ID u) db' = true.
Proof.
  intros So H. pose proof (insert_user_wf u x db db' (so_subs db So) H) as Ws.
  unfold insert_user_tx in H. tx_invert. apply negb_false_iff in Heqb. rename Heqb0 into Hnew. split; [|split; [done|]].
  - destruct So as [Hc W _ Hr (a & Ha & Haa)]. split; [split|done|]; try done.
    + intros r Hin. simpl in Hin. apply in_app_iff in Hin as [Hin|[<-|[]]]; [auto|exact Heqb].
    + destruct W as [H1 H2 H3 H4]. split; simpl; auto.
      * apply NoDup_map_snoc; [done|]. intros r Hin E. unfold user_exists in Hnew. rewrite existsb_false in Hnew.
        specialize (Hnew r Hin). apply eqb_s_false in Hnew. done.
      * intros k Hk. specialize (H4 k Hk). unfold user_exists in *. simpl. by rewrite existsb_app, H4.
    + exists a. split; [simpl; apply in_app_iff; by left|done].
    + intros v Hv. split; [|done]. unfold standing, GetUser. simpl. rewrite find_app. simpl.
      destruct (sql_first _ _); [done|]. by rewrite (proj2 (eqb_s_false (User.ID u) v)).
  - unfold user_exists. simpl. rewrite existsb_app. simpl. by rewrite eqb_s_refl, orb_true_r.
Qed.

(** Money moves no key. *)
Lemma charge_touches (U : string -> Prop) (e r : BalanceEntry) (db db' : StateDB) :
  sound db -> chargeInTx e db = Ok (r, db') -> touches U db db' /\ BalanceEntry.UserID r = BalanceEntry.UserID e.
Proof.
  intros So H. unfold chargeInTx, upsert_user_balance, insert_balance_ledger, balanceForUpdate in H.
  tx_invert; (split; [frame_touches|done]).
Qed.

Lemma ApplyBalanceDelta_touches (e r : BalanceEntry) (db db' : StateDB) :
  sound db -> ApplyBalanceDelta e db = (Ok r, db') -> touches nobody db db'.
Proof.
  intros So H. apply transact_ok in H. unfold upsert_user_balance, insert_balance_ledger, balanceForUpdate in H.
  tx_invert; frame_touches.
Qed.

Lemma RedeemCode_touches (hash : string) (e r : BalanceEntry) (now : Z) (db db' : StateDB) :
  sound db -> RedeemCodeAndCredit hash e now db = (Ok r, db') -> touches nobody db db'.
Proof.
  intros So H. apply transact_ok in H.
  unfold claim_redeem_code, upsert_user_balance, insert_balance_ledger, balanceForUpdate in H.
  tx_invert; frame_touches.
Qed.

(** Which user a subscription belongs to, row by row. *)
Definition owners (db : StateDB) : list (string * string) :=
  map (fun r => (UserSubscription.ID r, UserSubscription.UserID r)) (user_subscriptions db).

Definition owned (db : StateDB) (s : UserSubscription) : Prop :=
  In (UserSubscription.ID s, UserSubscription.UserID s) (owners db).

Lemma owned_In (db : StateDB) (s : UserSubscription) : In s (user_subscriptions db) -> owned db s.
Proof. intros H. apply in_map_iff. eauto. Qed.

Lemma owned_row (db : StateDB) (s r : UserSubscription) :
  sound db -> owned db s -> In r (user_subscriptions db) -> UserSubscription.ID r = UserSubscription.ID s ->
  UserSubscription.UserID r = UserSubscription.UserID s.
Proof.
  intros So H Hr E. apply in_map_iff in H as (r' & [= H1 H2] & Hr').
  assert (r = r') as -> by (eapply NoDup_map_inj; [apply (sw_ids db (so_subs db So))|done|done|congruence]). done.
Qed.

Lemma owned_exists (db : StateDB) (s : UserSubscription) :
  sound db -> owned db s -> user_exists (UserSubscription.UserID s) db = true.
Proof.
  intros So H. apply in_map_iff in H as (r & [= _ <-] & Hr). apply sw_user; [apply (so_subs db So)|done].
Qed.

Lemma readable_row (s : UserSubscription) : readable s = true -> readable (subscription_row s) = true.
Proof.
  unfold readable, subscription_row, snapshot_or_braces. simpl. by destruct (UserSubscription.PlanSnapshotJSON s).
Qed.

Lemma update_owners (id : string) (p : UserSubscription -> bool) (f : UserSubscription -> UserSubscription) (n : nat)
    (db db' : StateDB) :
  update_subscription id p f db = Ok (n, db') ->
  (forall r, In r (user_subscriptions db) -> UserSubscription.ID r = id ->
     UserSubscription.ID (f r) = UserSubscription.ID r /\ UserSubscription.UserID (f r) = UserSubscription.UserID r) ->
  owners db' = owners db /\ users db' = users db.
Proof.
  intros H Hf. apply update_subscription_ok in H as (_ & -> & _). split; [|done]. unfold owners, sql_update. simpl.
  rewrite map_map. apply map_ext_in. intros r Hr. destruct (_ && _) eqn:E; [|done]. bool_prop.
  by destruct (Hf r Hr) as [-> ->].
Qed.

(** A row of its user, written for its user. *)
Lemma UpdateTerms_touches (s : UserSubscription) (x : unit) (db db' : StateDB) :
  sound db -> UpdateUserSubscriptionTerms s db = (Ok x, db') -> readable s = true -> owned db s ->
  touches (fun v => v = UserSubscription.UserID s) db db' /\ owners db' = owners db /\ users db' = users db.
Proof.
  intros So H Hr Ho. apply transact_ok in H. apply tx_bind_ok in H as (n & db1 & H & Hn).
  apply not_found_if_absent_ok in Hn as ->. split.
  - eapply touches_update; [done|exact H|done|]. intros r Hin Hid. split.
    + by apply (readable_row s).
    + right. split; [|done]. exact (owned_row db s r So Ho Hin Hid).
  - eapply update_owners; [exact H|]. intros r Hin Hid. split; [done|]. symmetry. exact (owned_row db s r So Ho Hin Hid).
Qed.

Lemma Revoke_touches (s : UserSubscription) (x : unit) (db db' : StateDB) :
  sound db -> In s (user_subscriptions db) -> RevokeUserSubscription (UserSubscription.ID s) db = (Ok x, db') ->
  touches (fun v => v = UserSubscription.UserID s) db db' /\ users db' = users db.
Proof.
  intros So Hs H. apply transact_ok in H. apply tx_bind_ok in H as (n & db1 & H & Hn).
  apply not_found_if_absent_ok in Hn as ->. split.
  - eapply touches_update; [done|exact H|done|]. intros r Hin Hid. split; [exact (all_rows_readable db r So Hin)|].
    right. assert (r = s) as -> by (eapply NoDup_map_inj; [apply (sw_ids db (so_subs db So))|done..]). done.
  - eapply update_owners; [exact H|]. done.
Qed.

Lemma SetAutoRenew_touches (id : string) (b : bool) (x : unit) (db db' : StateDB) :
  sound db -> SetSubscriptionAutoRenew id b db = (Ok x, db') -> touches nobody db db'.
Proof.
  intros So H. apply transact_ok in H. apply tx_bind_ok in H as (n & db1 & H & Hn).
  apply not_found_if_absent_ok in Hn as ->. eapply touches_update; [done|exact H|done|].
  intros r Hin Hid. split; [exact (all_rows_readable db r So Hin)|by left].
Qed.

Lemma settled_same (e : BalanceEntry) (o : option BalanceEntry) (db db' : StateDB) :
  settledRequest e db = Ok (o, db') -> db' = db.
Proof. unfold settledRequest, ledgerEntryByRequest. intros H. tx_invert; done. Qed.

Lemma expire_active_touches (u : string) (x : unit) (db db' : StateDB) :
  sound db -> expire_active u db = Ok (x, db') -> touches (fun v => v = u) db db' /\ users db' = users db.
Proof.
  intros So [= <- <-]. split; [|done]. apply touches_subscriptions; [done|..].
  - apply deactivate_wf; [done|done|apply So].
  - intros s Hs. apply sql_update_In in Hs as (r & Hr & ->). pose proof (all_rows_readable db r So Hr).
    by destruct (active_of u r).
  - intros v Hv. apply rows_of_update. intros r Hr E. unfold active_of in E. bool_prop.
    right. simpl. split; congruence.
Qed.

Lemma Purchase_touches (s : UserSubscription) (e : BalanceEntry) (now : Z) (r : PurchaseResult) (db db' : StateDB) :
  sound db -> PurchasePlanWithBalance s e now db = (Ok r, db') -> readable s = true ->
  UserSubscription.UserID s = BalanceEntry.UserID e ->
  touches (fun v => v = BalanceEntry.UserID e) db db' /\ users db' = users db.
Proof.
  intros So H Hr Hu. apply transact_ok in H. apply tx_bind_ok in H as (o & db0 & H0 & H). apply settled_same in H0 as ->.
  destruct o as [prior|].
  - unfold activeSubscriptionTx in H. tx_invert. split; [frame_touches|done].
  - apply tx_bind_ok in H as (e' & db1 & H1 & H). apply (charge_touches (fun v => v = BalanceEntry.UserID e)) in H1 as H1'; [|done].
    destruct H1' as [T1 E1]. rewrite E1 in H.
    apply tx_bind_ok in H as ([] & db2 & H2 & H). apply expire_active_touches in H2 as [T2 E2]; [|apply T1].
    cbv zeta in H. apply tx_bind_ok in H as ([] & db3 & H3 & H). injection H as <- <-. split.
    + eapply touches_trans; [exact T1|]. eapply touches_trans; [exact T2|].
      eapply touches_insert; [apply T2|exact H3|by apply (readable_row s)|done].
    + apply insert_subscription_ok in H3 as (-> & _). simpl. rewrite E2.
      unfold chargeInTx, upsert_user_balance, insert_balance_ledger, balanceForUpdate in H1. tx_invert; done.
Qed.

Lemma Renew_touches (s : UserSubscription) (i : Z) (e : BalanceEntry) (r : PurchaseResult) (db db' : StateDB) :
  sound db -> RenewSubscriptionWithBalance s i e db = (Ok r, db') -> readable s = true -> owned db s ->
  touches (fun v => v = UserSubscription.UserID s) db db' /\ owners db' = owners db /\ users db' = users db.
Proof.
  intros So H Hr Ho. apply transact_ok in H. apply tx_bind_ok in H as (o & db0 & H0 & H). apply settled_same in H0 as ->.
  destruct o as [prior|].
  - unfold activeSubscriptionTx in H. tx_invert. split; [frame_touches|done].
  - apply tx_bind_ok in H as (e' & db1 & H1 & H).
    apply (charge_touches (fun v => v = UserSubscription.UserID s)) in H1 as H1'; [|done]. destruct H1' as [T1 _].
    assert (user_subscriptions db1 = user_subscriptions db /\ users db1 = users db) as [Es Eu].
    { unfold chargeInTx, upsert_user_balance, insert_balance_ledger, balanceForUpdate in H1. tx_invert; done. }
    apply tx_bind_ok in H as (n & db2 & H2 & H).
    unfold as_sql_error in H2. destruct (update_subscription _ _ _ db1) as [[n' db2']|] eqn:E2; [|done].
    injection H2 as -> ->. assert (db' = db2) as -> by (tx_invert; done).
    assert (owned db1 s) as Ho1 by (unfold owned, owners; by rewrite Es). split.
    + eapply touches_trans; [exact T1|]. eapply touches_update; [apply T1|exact E2|done|].
      intros q Hin Hid. split.
      * unfold readable, renewed_row, snapshot_or_braces in *. simpl. by destruct (UserSubscription.PlanSnapshotJSON s).
      * right. simpl. split; apply (owned_row db1 s q (to_sound _ _ _ T1) Ho1 Hin Hid).
    + apply update_owners in E2 as [Eo Eu2]; [|done]. unfold owners in *. rewrite Eo, Eu2, Es. done.
Qed.

(** ** Handlers that keep the store in step *)

Definition keeps (T : Z) {A} (m : Svc A) : Prop :=
  forall s, in_step_at T s -> wp m (fun _ => in_step_at T) (in_step_at T) s.

Section Keeping.
Context (T : Z).

Lemma keeps_pure {A} (m : Svc A) : Pure m -> keeps T m.
Proof. intros P s Hs. by apply wp_pure. Qed.

Lemma keeps_bind {A B} (m : Svc A) (f : A -> Svc B) : keeps T m -> (forall a, keeps T (f a)) -> keeps T (m ≫= f).
Proof. intros Hm Hf s Hs. apply wp_bind. eapply wp_mono; [by apply Hm| |done]. intros a s' H. by apply Hf. Qed.

Lemma keeps_if {A} (b : bool) (m n : Svc A) : keeps T m -> keeps T n -> keeps T (if b then m else n).
Proof. by destruct b. Qed.

Lemma keeps_call {A} (m : DbTx A) (h : StateErr -> SvcErr) :
  (forall db a db', sound db -> transact m db = (Ok a, db') -> touches nobody db db') ->
  keeps T (call (transact m) h).
Proof.
  intros Hm s Hs. apply wp_call; [|done]. intros a db' H. apply in_step_quiet; [done|].
  eapply Hm; [apply Hs|exact H].
Qed.

Lemma keeps_snd {A} (m : Svc A) (s : Service) : keeps T m -> in_step_at T s -> in_step_at T (snd (m s)).
Proof. intros Hm Hs. apply wp_snd. by apply Hm. Qed.

(** A write for one user, then its publication. *)
Lemma write_then_publish (u : string) (s : Service) (db' : StateDB) (Q : unit -> Service -> Prop) (X : Service -> Prop) :
  in_step_at T s -> touches (fun v => v = u) (engine s) db' -> user_exists u db' = true ->
  (forall s', engine s' = db' -> in_step_at T s' -> Q tt s') ->
  wp (republishUserKeys u) Q X (set_engine db' s).
Proof.
  intros Hs Ht Hu HQ. apply (wp_publish_user T); [|done|].
  - eapply in_step_weaken; [by eapply in_step_write|]. simpl. tauto.
  - intros s' E. by apply HQ.
Qed.

Lemma wp_rewrite (sub : UserSubscription) (Q : unit -> Service -> Prop) (X : Service -> Prop) (s : Service) :
  in_step_at T s -> owned (engine s) sub -> readable sub = true ->
  (forall s', in_step_at T s' -> owners (engine s') = owners (engine s) -> Q tt s') -> X s ->
  wp (rewrite_subscription sub) Q X s.
Proof.
  intros Hs Ho Hr HQ HX. pose proof (is_sound _ _ _ Hs) as So. unfold rewrite_subscription. apply wp_bind, wp_call; [|done].
  intros x db' H. apply UpdateTerms_touches in H as (Ht & Eo & Eu); [|done..].
  apply write_then_publish; [done|done| |].
  - unfold user_exists. rewrite Eu. by apply owned_exists.
  - intros s' E Hs'. apply HQ; [done|by rewrite E].
Qed.

Lemma wp_rewrite_all (g : UserSubscription -> UserSubscription) (l : list UserSubscription) (s : Service) :
  in_step_at T s -> (forall sub, In sub l -> owned (engine s) (g sub) /\ readable (g sub) = true) ->
  wp (proc_for (fun sub => rewrite_subscription (g sub)) l) (fun _ => in_step_at T) (in_step_at T) s.
Proof.
  intros Hs Hl. apply (wp_for (fun rest s => in_step_at T s /\
    forall sub, In sub rest -> owned (engine s) (g sub) /\ readable (g sub) = true)); [|done|by intros s' []].
  clear s Hs Hl l. intros x rest s [Hs Hl]. destruct (Hl x (or_introl eq_refl)) as [Ho Hr].
  apply wp_rewrite; [done..| |done]. intros s' Hs' E. split; [done|]. intros sub Hin. unfold owned. rewrite E.
  apply Hl. by right.
Qed.

(** ** Plans *)

Lemma on_plan_In (plan : Plan) (db : StateDB) (sub : UserSubscription) :
  In sub (on_plan plan db) -> In sub (user_subscriptions db).
Proof.
  unfold on_plan, ListActiveUserSubscriptions. intros H. apply List.filter_In in H as [H _].
  apply sort_by_In, sql_where_In in H. tauto.
Qed.

Lemma keeps_stop (plan : Plan) : keeps T (stopSubscriptionsOnPlan plan).
Proof.
  intros s Hs. unfold stopSubscriptionsOnPlan. apply wp_bind, wp_get. cbv zeta. apply wp_bind.
  eapply wp_mono; [apply wp_rewrite_all; [done|]|done|done].
  intros sub Hin. split; [|done]. apply on_plan_In, owned_In in Hin. exact Hin.
Qed.

Lemma keeps_apply (plan : Plan) : keeps T (applyPlanToExisting plan).
Proof.
  intros s Hs. unfold applyPlanToExisting. apply wp_bind, wp_get. cbv zeta. apply wp_bind.
  eapply wp_mono; [apply wp_rewrite_all; [done|]|done|done].
  intros sub Hin. split; [|done]. apply on_plan_In, owned_In in Hin. exact Hin.
Qed.

Lemma keeps_upsert_plan (plan : Plan) : keeps T (call (UpsertPlan plan) mapPlanWriteError).
Proof. apply keeps_call. intros db x db'. apply UpsertPlan_touches. Qed.

Lemma keeps_CreatePlan (i : PlanInput) (now : Z) (id : string) : keeps T (CreatePlan i now id).
Proof.
  apply keeps_bind; [apply keeps_pure, _|]. intros plan. apply keeps_bind; [apply keeps_upsert_plan|].
  intros _. apply keeps_pure, _.
Qed.

#[global] Instance pure_patched_plan (existing : Plan) (patch : mergePatch) (now : Z) : Pure (patched_plan existing patch now).
Proof. unfold patched_plan. apply _. Qed.

Lemma keeps_UpdatePlan (id : string) (body : Json) (now : Z) : keeps T (UpdatePlan id body now).
Proof.
  unfold UpdatePlan. do 3 (apply keeps_bind; [apply keeps_pure, _|]; intros ?).
  apply keeps_bind; [apply keeps_pure, _|]. intros [updated apply_]. simpl.
  unfold store_plan. apply keeps_bind; [apply keeps_pure, _|]. intros _.
  apply keeps_bind; [apply keeps_upsert_plan|]. intros _.
  apply keeps_bind; [apply keeps_pure, _|]. intros s. cbv zeta.
  apply keeps_bind; [apply keeps_if; [|apply keeps_pure, _]|].
  { apply keeps_bind; [apply keeps_stop|]. intros _. apply keeps_pure, _. }
  intros _. apply keeps_if; [|apply keeps_pure, _].
  apply keeps_bind; [apply keeps_apply|]. intros n. apply keeps_pure, _.
Qed.

Lemma keeps_DeletePlan (id : string) : keeps T (DeletePlan id).
Proof.
  apply keeps_bind; [apply keeps_pure, _|]. intros _. apply keeps_call. intros db x db'. apply DeletePlan_touches.
Qed.
End Keeping.

(** ** Subscriptions *)

#[global] Instance pure_views (rows : list UserSubscription) : Pure (subscriptionViews rows).
Proof. induction rows as [|r rows IH]; simpl; apply _. Qed.
#[global] Instance pure_one_view (row : UserSubscription) : Pure (one_view row).
Proof. unfold one_view. apply _. Qed.

(** Nothing runs for [u], and nothing else changed. *)
Record ended (u : string) (db db' : StateDB) : Prop := {
  en_touches : touches (fun v => v = u) db db';
  en_owners : owners db' = owners db;
  en_users : users db' = users db;
  en_plans : plans db' = plans db;
  en_idle : forall r, In r (user_subscriptions db') -> UserSubscription.UserID r = u -> is_active r = false;
  en_rest : forall r, In r (user_subscriptions db) -> is_active r = false -> In r (user_subscriptions db')
}.

Definition running (u : string) (row : UserSubscription) : bool :=
  (UserSubscription.UserID row ==s u) && (UserSubscription.Status row ==s SubscriptionStatusActive).

(** At most one row runs. *)
Lemma running_rows (u : string) (db : StateDB) :
  sound db ->
  match List.filter (running u) (ListUserSubscriptions db) with
  | [] => forall r, In r (user_subscriptions db) -> UserSubscription.UserID r = u -> is_active r = false
  | [r] => In r (user_subscriptions db) /\ UserSubscription.UserID r = u /\ is_active r = true
  | _ => False
  end.
Proof.
  intros So. set (l := List.filter _ _).
  assert (forall r, In r l <-> In r (user_subscriptions db) /\ UserSubscription.UserID r = u /\ is_active r = true) as Hin.
  { intros r. unfold l. rewrite List.filter_In. unfold ListUserSubscriptions. rewrite sort_by_In.
    unfold running, is_active. rewrite andb_true_iff, eqb_s_true. tauto. }
  assert (NoDup (map UserSubscription.ID l)) as Hn.
  { apply NoDup_map_filter, NoDup_sort_map, (sw_ids db (so_subs db So)). }
  destruct l as [|a [|b rest]].
  - intros r Hr Hu. destruct (is_active r) eqn:E; [|done]. exfalso. apply (Hin r). done.
  - apply Hin. by left.
  - destruct (proj1 (Hin a) (or_introl eq_refl)) as (Ha & Hua & Haa).
    destruct (proj1 (Hin b) (or_intror (or_introl eq_refl))) as (Hb & Hub & Hab).
    assert (a = b) as -> by (apply (sw_active db (so_subs db So)); congruence).
    simpl in Hn. apply list.NoDup_cons in Hn as [Hn _]. apply Hn. left.
Qed.

Lemma ended_refl (u : string) (db : StateDB) :
  sound db -> (forall r, In r (user_subscriptions db) -> UserSubscription.UserID r = u -> is_active r = false) ->
  ended u db db.
Proof. intros So H. split; [frame_touches|done..|]. done. Qed.

Lemma ended_one (u : string) (r : UserSubscription) (x : unit) (db db' : StateDB) :
  sound db -> In r (user_subscriptions db) -> UserSubscription.UserID r = u -> is_active r = true ->
  UpdateUserSubscriptionTerms (UserSubscription.with_Status SubscriptionStatusExpired r) db = (Ok x, db') ->
  ended u db db'.
Proof.
  intros So Hr Hu Ha H. pose proof H as H'. set (r' := UserSubscription.with_Status SubscriptionStatusExpired r) in *.
  apply UpdateTerms_touches in H as (Ht & Eo & Eu); [|done|exact (all_rows_readable db r So Hr)|by apply (owned_In db r)].
  apply transact_ok in H'. apply tx_bind_ok in H' as (n & db1 & H' & Hn). apply not_found_if_absent_ok in Hn as ->.
  apply update_subscription_ok in H' as (_ & -> & _).
  change (UserSubscription.UserID r') with (UserSubscription.UserID r) in Ht. rewrite Hu in Ht. split; try done; simpl.
  - intros q Hq Hqu. apply sql_update_In in Hq as (q0 & Hq0 & ->).
    destruct (_ && _) eqn:E; [done|]. destruct (is_active q0) eqn:Ea; [|done]. exfalso.
    assert (q0 = r) as -> by (apply (sw_active db (so_subs db So)); congruence).
    rewrite eqb_s_refl in E. done.
  - intros q Hq Hqa. apply sql_update_In. exists q. split; [done|]. destruct (_ && _) eqn:E; [|done]. exfalso.
    bool_prop. assert (q = r) as -> by (eapply NoDup_map_inj; [apply (sw_ids db (so_subs db So))|done..]). congruence.
Qed.

Lemma wp_expire (u : string) (Q : unit -> Service -> Prop) (X : Service -> Prop) (s : Service) :
  sound (engine s) -> (forall db', ended u (engine s) db' -> Q tt (set_engine db' s)) -> X s ->
  wp (expireActiveSubscriptions u) Q X s.
Proof.
  intros So HQ HX. unfold expireActiveSubscriptions. apply wp_bind, wp_get.
  pose proof (running_rows u (engine s) So) as H. fold (running u).
  destruct (List.filter (running u) _) as [|r [|]]; simpl; [| |done].
  - apply wp_ret. rewrite <- (set_engine_id s). apply HQ, ended_refl; done.
  - destruct H as (Hr & Hu & Ha). apply wp_bind, wp_call; [|done]. intros [] db' Hc. apply wp_ret, HQ.
    by eapply ended_one.
Qed.

(** A drawn id is not in use. *)
Definition fresh (id : string) (db : StateDB) : Prop :=
  forall r, In r (user_subscriptions db) -> UserSubscription.ID r <> id.

Lemma idle_slot (s : UserSubscription) (u : string) (l : list UserSubscription) :
  UserSubscription.UserID s = u -> (forall r, In r l -> UserSubscription.UserID r = u -> is_active r = false) ->
  active_slot_taken s l = false.
Proof.
  intros Hu H. unfold active_slot_taken. apply andb_false_iff. right. apply existsb_false. intros r Hr.
  destruct (UserSubscription.UserID r ==s UserSubscription.UserID s) eqn:E; [|by rewrite andb_false_r].
  apply eqb_s_true in E. by rewrite (H r Hr) by congruence.
Qed.

(** With the slot free and a new id, the row goes in. *)
Lemma upsert_fresh (row : UserSubscription) (db : StateDB) :
  fresh (UserSubscription.ID row) db -> UserSubscription.Status row = SubscriptionStatusActive ->
  (forall r, In r (user_subscriptions db) -> UserSubscription.UserID r = UserSubscription.UserID row -> is_active r = false) ->
  subscription_fk_ok row db = true ->
  exists db', UpsertUserSubscription row db = (Ok tt, db') /\ insert_subscription (subscription_row row) db = Ok (tt, db').
Proof.
  intros Hf Hst Hidle Hfk. eexists. unfold UpsertUserSubscription, transact. cbv zeta.
  unfold mbind at 1, tx_bind, tx_get.
  assert (subscription_exists (UserSubscription.ID (subscription_row row)) (user_subscriptions db) = false) as Hex.
  { apply existsb_false. intros r Hr. by apply eqb_s_false, Hf. }
  rewrite Hex.
  assert (insert_subscription (subscription_row row) db =
    Ok (tt, set_user_subscriptions (user_subscriptions db ++ [subscription_row row]) db)) as E; [|by rewrite E].
  unfold insert_subscription. rewrite Hex.
  assert (subscription_status_valid (UserSubscription.Status (subscription_row row)) = true) as ->
    by (simpl; rewrite Hst; done). simpl negb. cbv iota.
  rewrite (idle_slot _ (UserSubscription.UserID row)) by done.
  assert (subscription_fk_ok (subscription_row row) db = true) as -> by exact Hfk. done.
Qed.

Lemma ended_fresh (u id : string) (db db' : StateDB) : ended u db db' -> fresh id db -> fresh id db'.
Proof.
  intros He Hf r Hr. assert (In (UserSubscription.ID r) (map fst (owners db'))) as H.
  { unfold owners. rewrite map_map. apply in_map_iff. exists r. done. }
  rewrite (en_owners _ _ _ He) in H. unfold owners in H. rewrite map_map in H.
  apply in_map_iff in H as (q & <- & Hq). by apply Hf.
Qed.

Section Subscriptions.
Context (T : Z).

Lemma wp_Assign (userID planID : string) (days now : Z) (id : string) (s : Service) :
  in_step_at T s -> fresh id (engine s) ->
  wp (AssignSubscription userID planID days now id) (fun _ => in_step_at T) (in_step_at T) s.
Proof.
  intros Hs Hf. unfold AssignSubscription. svc_wp.
  rename a into user, H1 into Hu, a0 into plan, H2 into Hp.
  apply wp_expire; [apply Hs| |done]. intros db1 He. cbv zeta. set (row := assigned_row _ _ _ _ _).
  apply GetUser_Some in Hu as [Hu Huid].
  assert (user_exists userID (engine s) = true) as Hue by (apply user_exists_spec; eauto).
  assert (user_exists userID db1 = true) as Hue1 by (unfold user_exists; by rewrite (en_users _ _ _ He)).
  assert (subscription_fk_ok row db1 = true) as Hfk.
  { unfold subscription_fk_ok. simpl. rewrite Hue1. simpl. apply orb_true_iff. right. unfold plan_exists.
    rewrite (en_plans _ _ _ He). unfold Store.GetPlan in Hp. destruct (sql_first _ _) as [q|] eqn:Eq; [|done].
    injection Hp as <-. apply find_some_In in Eq as [Hin Eq]. apply List.existsb_exists. exists q. by rewrite eqb_s_refl. }
  destruct (upsert_fresh row db1 (ended_fresh _ _ _ _ He Hf) eq_refl (en_idle _ _ _ He) Hfk) as (db2 & E & Hins).
  apply wp_bind. unfold wp at 1, call. simpl engine. rewrite E. simpl.
  apply wp_bind, wp_count. apply wp_bind.
  assert (touches (fun v => v = userID) (engine s) db2) as Ht.
  { eapply touches_trans; [apply (en_touches _ _ _ He)|].
    eapply touches_insert; [apply (en_touches _ _ _ He)|exact Hins|done|done]. }
  apply (wp_publish_user T).
  - apply in_step_usage. eapply in_step_weaken; [apply (in_step_write T nobody (fun v => v = userID) s db2 Hs Ht)|].
    simpl. tauto.
  - simpl. apply insert_subscription_ok in Hins as (-> & _). exact Hue1.
  - intros s' _ Hs'. by apply wp_pure; [apply _|..].
Qed.

(** A row that comes back takes the slot its user left. *)
Lemma update_idle (row updated : UserSubscription) (db : StateDB) :
  sound db -> In row (user_subscriptions db) ->
  UserSubscription.ID updated = UserSubscription.ID row -> UserSubscription.UserID updated = UserSubscription.UserID row ->
  UserSubscription.PlanID updated = UserSubscription.PlanID row ->
  subscription_status_valid (UserSubscription.Status updated) = true ->
  (forall r, In r (user_subscriptions db) -> UserSubscription.UserID r = UserSubscription.UserID row -> is_active r = false) ->
  exists db', UpdateUserSubscriptionTerms updated db = (Ok tt, db').
Proof.
  intros So Hrow Eid Eu Ep Hst Hidle. eexists. unfold UpdateUserSubscriptionTerms, transact. cbv zeta.
  unfold mbind, tx_bind, update_subscription. simpl UserSubscription.ID.
  assert (status_or_active (UserSubscription.Status updated) = UserSubscription.Status updated) as Es.
  { unfold status_or_active. destruct (_ ==s "") eqn:E; [|done]. apply eqb_s_true in E. by rewrite E in Hst. }
  rewrite !(proj2 (existsb_false _ _)).
  - unfold not_found_if_absent. destruct (_ =? 0)%nat eqn:E0; [|reflexivity]. exfalso.
    apply Nat.eqb_eq, (proj1 (sql_affected_zero _ _)) with (r := row) in E0; [|done].
    rewrite <- Eid, eqb_s_refl in E0. done.
  - intros r Hr. apply andb_false_iff. right. apply negb_false_iff. unfold subscription_fk_ok. simpl. rewrite Eu, Ep.
    apply (proj2 (sw_row db (so_subs db So) row Hrow)).
  - intros r Hr. apply andb_false_iff. right. by apply (idle_slot _ (UserSubscription.UserID row)).
  - intros r Hr. apply andb_false_iff. right. simpl. by rewrite Es, Hst.
Qed.

Lemma GetUserSubscription_In (id : string) (db : StateDB) (row : UserSubscription) :
  GetUserSubscription id db = Ok row -> In row (user_subscriptions db) /\ UserSubscription.ID row = id.
Proof.
  unfold GetUserSubscription. destruct (sql_first _ _) as [r|] eqn:E; [|done]. intros [= ->].
  apply find_some_In in E as [Hin E]. by apply eqb_s_true in E.
Qed.

(** The row a patch may write: the same subscription under a valid status. *)
Record revises (row updated : UserSubscription) : Prop := {
  rv_id : UserSubscription.ID updated = UserSubscription.ID row;
  rv_user : UserSubscription.UserID updated = UserSubscription.UserID row;
  rv_plan : UserSubscription.PlanID updated = UserSubscription.PlanID row;
  rv_snapshot : UserSubscription.PlanSnapshotJSON updated = UserSubscription.PlanSnapshotJSON row;
  rv_status : subscription_status_valid (UserSubscription.Status updated) = true
}.

Lemma revises_owned (row updated : UserSubscription) (db : StateDB) :
  revises row updated -> In row (user_subscriptions db) -> sound db -> owned db updated /\ readable updated = true.
Proof.
  intros R Hin So. split.
  - unfold owned. rewrite (rv_id _ _ R), (rv_user _ _ R). by apply owned_In.
  - unfold readable. rewrite (rv_snapshot _ _ R). by apply (all_rows_readable db).
Qed.

(** The write of the terms and the publication, once nothing else runs. *)
Lemma wp_store_ended (row updated : UserSubscription) (s : Service) (db1 : StateDB) :
  in_step_at T s -> In row (user_subscriptions (engine s)) -> is_active row = false -> revises row updated ->
  ended (UserSubscription.UserID updated) (engine s) db1 ->
  wp (_ ← call (UpdateUserSubscriptionTerms updated) mapSubscriptionWriteError;
      _ ← republishUserKeys (UserSubscription.UserID updated); one_view updated)
    (fun _ => in_step_at T) (in_step_at T) (set_engine db1 s).
Proof.
  intros Hs Hrow Hna R He. pose proof (en_touches _ _ _ He) as Ht. pose proof (to_sound _ _ _ Ht) as So1.
  pose proof (en_rest _ _ _ He row Hrow Hna) as Hrow1. pose proof R as [R1 R2 R3 R4 R5].
  destruct (update_idle row updated db1 So1 Hrow1 R1 R2 R3 R5) as (db2 & E).
  { rewrite <- R2. apply (en_idle _ _ _ He). }
  apply wp_bind. unfold wp at 1, call. simpl engine. rewrite E.
  destruct (revises_owned row updated db1 R Hrow1 So1) as [Ho Hr].
  apply UpdateTerms_touches in E as (Ht2 & _ & Eu2); [|done..].
  apply wp_bind. apply (write_then_publish T _ s db2); [done|by eapply touches_trans| |].
  - unfold user_exists. rewrite Eu2. by apply owned_exists.
  - intros s' _ Hs'. by apply wp_pure; [apply _|..].
Qed.

Lemma wp_store_terms (row updated : UserSubscription) (s : Service) :
  in_step_at T s -> In row (user_subscriptions (engine s)) -> revises row updated ->
  wp (store_terms row updated) (fun _ => in_step_at T) (in_step_at T) s.
Proof.
  intros Hs Hrow R. unfold store_terms. apply wp_bind, wp_if; intros Hb.
  - apply wp_expire; [apply Hs| |done]. intros db1 He. apply (wp_store_ended row); try done.
    apply andb_true_iff in Hb as [_ Hb]. by apply negb_true_iff in Hb.
  - apply wp_ret, wp_bind, wp_call; [|done]. intros [] db' H.
    destruct (revises_owned row updated (engine s) R Hrow (is_sound _ _ _ Hs)) as [Ho Hr].
    apply UpdateTerms_touches in H as (Ht & _ & Eu); [|by apply Hs|done..].
    apply wp_bind, (write_then_publish T _ s db'); [done..| |].
    + unfold user_exists. rewrite Eu. apply (owned_exists (engine s)); [apply Hs|done].
    + intros s' _ Hs'. by apply wp_pure; [apply _|..].
Qed.

#[global] Instance pure_patched_status (row : UserSubscription) (patch : mergePatch) : Pure (patched_status row patch).
Proof. apply pure_bind; [apply _|]. intros [v|]; apply _. Qed.
#[global] Instance pure_patched_expiry (row : UserSubscription) (patch : mergePatch) (now : Z) :
  Pure (patched_expiry row patch now).
Proof.
  apply pure_bind; [apply _|]. intros [d|]; (apply pure_bind; [apply _|]; intros ?; apply pure_bind; [apply _|]);
    intros [v|]; apply _.
Qed.

Lemma patched_status_valid (row : UserSubscription) (patch : mergePatch) (s s' : Service) (st : string) :
  subscription_status_valid (UserSubscription.Status row) = true -> patched_status row patch s = (Ok st, s') ->
  subscription_status_valid st = true.
Proof.
  intros Hv H. unfold patched_status in H. apply proc_bind_ok in H as (o & s1 & _ & H).
  destruct o as [v|]; svc_invert; done.
Qed.

Lemma keeps_UpdateTenantSubscription (id : string) (body : Json) (now : Z) : keeps T (UpdateTenantSubscription id body now).
Proof.
  intros s Hs. unfold UpdateTenantSubscription. svc_wp. rename a0 into row.
  match goal with H : GetUserSubscription _ _ = _ |- _ => apply GetUserSubscription_In in H as [Hrow _] end.
  apply wp_store_terms; [done..|]. split; try done. simpl.
  eapply patched_status_valid; [|eassumption]. apply (sw_row _ (so_subs _ (is_sound _ _ _ Hs)) row Hrow).
Qed.

Lemma keeps_DeleteTenantSubscription (id : string) : keeps T (DeleteTenantSubscription id).
Proof.
  intros s Hs. unfold DeleteTenantSubscription. svc_wp. rename a into row.
  match goal with H : GetUserSubscription _ _ = _ |- _ => apply GetUserSubscription_In in H as [Hrow _] end.
  apply wp_call; [|done]. intros x db' H. pose proof (is_sound _ _ _ Hs) as So.
  apply Revoke_touches in H as [Ht Eu]; [|done..]. apply (write_then_publish T _ s db'); [done..| |done].
  unfold user_exists. rewrite Eu. by apply (owned_exists (engine s)), owned_In.
Qed.
End Subscriptions.
