(* ===== verification/SyncAccounts.v ===== *)
(** * Accounts keep the live store in step

    The account half of [Tenants], and registration, against the invariant of
    [Sync].  A patch writes status, role and password one after the other: once
    the first write went through the others must, which is where the remaining
    administrator comes in. *)

From Stdlib Require Import Ascii String.
From stdpp Require Import base gmap list strings.
From S2P Require Import Prelude Hoare Counters Model Store UsageTables Ledger GoStrings Utf8 Keys Service Totp Accounts Sync Patch Access Codes Plans Tenants Invites SyncPlans.

(** ** The account service *)

#[global] Instance pure_account (id : string) : Pure (account id).
Proof. intros db. unfold account. by destruct (GetUser id db). Qed.
#[global] Instance pure_refuse (u : User) : Pure (refuseIfLastAdmin u).
Proof. unfold refuseIfLastAdmin. apply _. Qed.
#[global] Instance pure_policy (p : string) : Pure (checkPasswordPolicy p).
Proof. unfold checkPasswordPolicy. apply _. Qed.
#[global] Instance pure_account_call {A} (m : Acct A) : Pure m -> Pure (account_call m).
Proof.
  intros P s. specialize (P (engine s)). unfold account_call. destruct (m (engine s)) as [[a|e] db]; simpl in *; subst;
    apply set_engine_id.
Qed.

Lemma wp_account {A} (m : Acct A) (Q : A -> Service -> Prop) (X : Service -> Prop) (s : Service) :
  wp m (fun a db => Q a (set_engine db s)) (fun db => X (set_engine db s)) (engine s) -> wp (account_call m) Q X s.
Proof. unfold wp, account_call. by destruct (m (engine s)) as [[a|e] db]. Qed.

Lemma wp_engine {A} (m : DbTx A) (Q : A -> StateDB -> Prop) (X : StateDB -> Prop) (db : StateDB) :
  (forall a db', transact m db = (Ok a, db') -> Q a db') -> X db -> wp (engine_call (transact m)) Q X db.
Proof.
  intros HQ HX. unfold wp, engine_call. destruct (transact m db) as [[a|e] db'] eqn:E; [by apply HQ|].
  by apply transact_err in E as [-> _].
Qed.

(** A write of columns of one account. *)
Record wrote (id : string) (db db' : StateDB) : Prop := {
  wr_touches : touches (fun v => v = id) db db';
  wr_exists : user_exists id db' = true
}.

Lemma column_wrote (id : string) (set : User -> User) (at_ns : Z) (x : unit) (db db' : StateDB) :
  sound db -> user_exists id db = true -> (forall u, User.ID (set u) = User.ID u) -> has_admin db' ->
  updateUserColumn id set at_ns db = (Ok x, db') -> wrote id db db'.
Proof.
  intros So Hu Hid Ha H. apply updateUserColumn_ok in H as [-> Hc]. split.
  - apply touches_users; [done| |done|exact Hc|by left]. done.
  - apply user_exists_spec in Hu as (u & Hin & E). apply user_exists_spec.
    exists (if User.ID u ==s id then with_UpdatedAt at_ns (set u) else u). split; [apply sql_update_In; eauto|].
    destruct (_ ==s id); [|done]. simpl. by rewrite Hid.
Qed.

Lemma sound_admin_ok (db : StateDB) : sound db -> admin_ok db.
Proof. intros So. split; [apply (so_keys db So)|apply (so_admin db So)]. Qed.

Lemma wrote_refl (id : string) (db : StateDB) : sound db -> user_exists id db = true -> wrote id db db.
Proof. intros So Hu. split; [frame_touches|done]. Qed.

Lemma wrote_trans (id : string) (a b c : StateDB) : wrote id a b -> wrote id b c -> wrote id a c.
Proof. intros [T1 _] [T2 E2]. split; [by eapply touches_trans|done]. Qed.

Lemma status_wrote (id st : string) (now : Z) (x : unit) (db db' : StateDB) :
  sound db -> setAccountStatusLocked id st now db = (Ok x, db') -> wrote id db db'.
Proof.
  intros So H. pose proof (setAccountStatusLocked_admin _ _ _ _ _ _ (sound_admin_ok db So) H) as [_ Ha].
  unfold setAccountStatusLocked, UpdateUserStatus in H.
  acct_invert; match goal with Hu : In _ (users db), E : User.ID _ = id |- _ =>
    assert (user_exists id db = true) as Hex by (apply user_exists_spec; eauto) end.
  - by apply wrote_refl.
  - match goal with H : refuseIfLastAdmin _ _ = _ |- _ => apply refuseIfLastAdmin_ok in H as [-> _] end.
    eapply column_wrote; [done|done|..|eassumption]; done.
  - eapply column_wrote; [done|done|..|eassumption]; done.
Qed.

Lemma role_wrote (id role : string) (now : Z) (x : unit) (db db' : StateDB) :
  sound db -> setAccountRoleLocked id role now db = (Ok x, db') -> wrote id db db'.
Proof.
  intros So H. pose proof (setAccountRoleLocked_admin _ _ _ _ _ _ (sound_admin_ok db So) H) as [_ Ha].
  unfold setAccountRoleLocked, UpdateUserRole in H.
  acct_invert; match goal with Hu : In _ (users db), E : User.ID _ = id |- _ =>
    assert (user_exists id db = true) as Hex by (apply user_exists_spec; eauto) end.
  - by apply wrote_refl.
  - match goal with H : refuseIfLastAdmin _ _ = _ |- _ => apply refuseIfLastAdmin_ok in H as [-> _] end.
    eapply column_wrote; [done|done|..|eassumption]; done.
  - eapply column_wrote; [done|done|..|eassumption]; done.
Qed.

Lemma password_wrote (id hash : string) (now : Z) (x : unit) (db db' : StateDB) :
  sound db -> UpdateUserPassword id hash now db = (Ok x, db') ->
  touches nobody db db' /\ (user_exists id db = true -> wrote id db db').
Proof.
  intros So H. unfold UpdateUserPassword in H.
  pose proof (neutral_column_admin id (with_Password hash) now db) as Hn. rewrite H in Hn.
  destruct (Hn (fun u => conj eq_refl (conj eq_refl eq_refl)) (sound_admin_ok db So)) as [_ Ha]. split.
  - apply updateUserColumn_ok in H as [-> Hc]. apply touches_users; [done|done|done|exact Hc|]. by right.
  - intros Hu. by eapply (column_wrote id (with_Password hash)).
Qed.

Lemma keeps_password (T : Z) (id hash : string) (now : Z) (s : Service) (X : Service -> Prop) :
  in_step_at T s -> X s ->
  wp (account_call (engine_call (UpdateUserPassword id hash now))) (fun _ => in_step_at T) X s.
Proof.
  intros Hs HX. apply wp_account, wp_engine; [|by rewrite set_engine_id]. intros x db' H.
  apply in_step_quiet; [done|]. eapply password_wrote; [apply Hs|exact H].
Qed.

(** ** Writes that cannot fail *)

Lemma column_succeeds (id : string) (set : User -> User) (at_ns : Z) (db : StateDB) :
  user_exists id db = true -> (forall u, In u (users db) -> User.ID u = id -> user_check_ok (set u) = true) ->
  exists db', updateUserColumn id set at_ns db = (Ok tt, db').
Proof.
  intros Hu Hc. eexists. unfold updateUserColumn, transact. cbv zeta.
  rewrite (proj2 (existsb_false _ _)).
  - apply user_exists_spec in Hu as (u & Hin & E).
    destruct (sql_affected _ _ =? 0)%nat eqn:E0; [|reflexivity]. exfalso.
    apply Nat.eqb_eq, (proj1 (sql_affected_zero _ _)) with (r := u) in E0; [|done].
    apply eqb_s_false in E0. done.
  - intros u Hin. destruct (User.ID u ==s id) eqn:E; [|done]. apply eqb_s_true in E. simpl.
    apply negb_false_iff, (Hc u Hin E).
Qed.

Definition other_admin (id : string) (db : StateDB) : Prop :=
  exists w, In w (users db) /\ User.ID w <> id /\ active_admin w = true.

Lemma other_admin_wrote (id : string) (db db' : StateDB) :
  sound db -> wrote id db db' -> other_admin id db -> other_admin id db'.
Proof.
  intros So [Ht _] (w & Hw & Hne & Ha). destruct (to_rest _ _ _ Ht (User.ID w) Hne) as [E _].
  rewrite (standing_In db w (kw_users _ (so_keys db So)) Hw) in E. unfold standing in E.
  destruct (GetUser (User.ID w) db') as [w'|] eqn:Eg; [|done]. injection E as E1 E2.
  apply GetUser_Some in Eg as [Hw' Hid]. exists w'. split; [done|]. unfold active_admin in *. rewrite E1, E2.
  split; [congruence|done].
Qed.

Lemma refuse_passes (u : User) (db : StateDB) : other_admin (User.ID u) db -> refuseIfLastAdmin u db = (Ok tt, db).
Proof.
  intros (w & Hw & Hne & Ha). unfold refuseIfLastAdmin. destruct (_ || _); [done|].
  unfold mbind, proc_bind, proc_get. destruct (length _) eqn:El; [|done]. exfalso.
  apply length_zero_iff_nil in El. assert (In w []) as []. rewrite <- El. apply List.filter_In.
  unfold ListUsers. rewrite sort_by_In. split; [done|]. apply eqb_s_false in Hne. by rewrite Hne, Ha.
Qed.

Lemma role_succeeds (id role : string) (now : Z) (db : StateDB) :
  sound db -> user_exists id db = true -> role_known role = true -> (role = UserRoleUser -> other_admin id db) ->
  exists db', setAccountRoleLocked id role now db = (Ok tt, db') /\ wrote id db db'.
Proof.
  intros So Hu Hr Ho.
  assert (exists db', setAccountRoleLocked id role now db = (Ok tt, db')) as (db' & E);
    [|exists db'; split; [done|by eapply role_wrote]].
  apply user_exists_spec in Hu as Hu'. destruct Hu' as (u & Hin & <-).
  unfold setAccountRoleLocked, account, mbind, proc_bind. rewrite (GetUser_In db u (kw_users _ (so_keys db So)) Hin).
  destruct (User.Role u ==s role); [by eexists|].
  destruct ((User.Role u ==s UserRoleAdmin) && (role ==s UserRoleUser)) eqn:Eb.
  - apply andb_true_iff in Eb as [_ Eb]. apply eqb_s_true in Eb. rewrite (refuse_passes u db (Ho Eb)).
    destruct (column_succeeds (User.ID u) (with_Role role) now db Hu) as (db' & E).
    { intros v Hv _. pose proof (so_checks db So v Hv) as Hc. unfold user_check_ok in *. simpl.
      apply andb_true_iff in Hc as [_ ->]. unfold role_known in Hr. by rewrite Hr. }
    exists db'. unfold engine_call, UpdateUserRole. by rewrite E.
  - destruct (column_succeeds (User.ID u) (with_Role role) now db Hu) as (db' & E).
    { intros v Hv _. pose proof (so_checks db So v Hv) as Hc. unfold user_check_ok in *. simpl.
      apply andb_true_iff in Hc as [_ ->]. unfold role_known in Hr. by rewrite Hr. }
    exists db'. simpl. unfold engine_call, UpdateUserRole. by rewrite E.
Qed.

Lemma password_succeeds (id hash : string) (now : Z) (db : StateDB) :
  sound db -> user_exists id db = true ->
  exists db', engine_call (UpdateUserPassword id hash now) db = (Ok tt, db') /\ wrote id db db'.
Proof.
  intros So Hu. destruct (column_succeeds id (with_Password hash) now db Hu) as (db' & E).
  { intros v Hv _. exact (so_checks db So v Hv). }
  exists db'. unfold engine_call, UpdateUserPassword. rewrite E. split; [done|]. by eapply password_wrote.
Qed.

(** ** Patching an account *)

Lemma status_atomic (id st : string) (now : Z) : Atomic (fun _ => True) (setAccountStatusLocked id st now).
Proof.
  unfold setAccountStatusLocked. apply atomic_bind; [apply _|]. intros u.
  destruct (_ ==s st); [apply atomic_pure, _|]. apply atomic_bind; [apply _|]. intros _. apply engine_call_atomic.
Qed.

Lemma role_atomic (id role : string) (now : Z) : Atomic (fun _ => True) (setAccountRoleLocked id role now).
Proof.
  unfold setAccountRoleLocked. apply atomic_bind; [apply _|]. intros u.
  destruct (_ ==s role); [apply atomic_pure, _|]. apply atomic_bind; [apply _|]. intros _. apply engine_call_atomic.
Qed.

(** The state after some columns of [id] were written. *)
Definition after_write (id : string) (s s' : Service) : Prop :=
  exists db', s' = set_engine db' s /\ wrote id (engine s) db'.

Lemma wp_atomic_account {A} (m : Acct A) (Q : A -> Service -> Prop) (X : Service -> Prop) (s : Service) :
  Atomic (fun _ => True) m -> (forall a db', m (engine s) = (Ok a, db') -> Q a (set_engine db' s)) -> X s ->
  wp (account_call m) Q X s.
Proof.
  intros Ha HQ HX. apply wp_account. unfold wp. destruct (m (engine s)) as [[a|e] db'] eqn:E; [by apply HQ|].
  rewrite (Ha (engine s) e db' I E). by rewrite set_engine_id.
Qed.

Lemma wp_late_password (id : string) (hash : option string) (now : Z) (s : Service) (db1 : StateDB)
    (X : Service -> Prop) :
  wrote id (engine s) db1 ->
  wp (on_some hash (fun h => account_call (engine_call (UpdateUserPassword id h now)))) (fun _ => after_write id s) X
    (set_engine db1 s).
Proof.
  intros Hw. destruct hash as [h|]; simpl; [|apply wp_ret; by exists db1].
  destruct (password_succeeds id h now db1 (to_sound _ _ _ (wr_touches _ _ _ Hw)) (wr_exists _ _ _ Hw)) as (db2 & E & W2).
  unfold wp, account_call. simpl. rewrite E. exists db2. split; [done|by eapply wrote_trans].
Qed.

Lemma wp_late_writes (id : string) (role hash : option string) (now : Z) (s : Service) (db1 : StateDB)
    (X : Service -> Prop) :
  sound (engine s) -> wrote id (engine s) db1 ->
  (forall r, role = Some r -> role_known r = true /\ (r = UserRoleUser -> other_admin id (engine s))) ->
  wp (_ ← on_some role (fun r => account_call (setAccountRoleLocked id r now));
      on_some hash (fun h => account_call (engine_call (UpdateUserPassword id h now))))
    (fun _ => after_write id s) X (set_engine db1 s).
Proof.
  intros So Hw Hr. apply wp_bind. destruct role as [r|]; simpl; [|apply wp_ret, wp_late_password; done].
  destruct (Hr r eq_refl) as [Hk Ho]. pose proof (to_sound _ _ _ (wr_touches _ _ _ Hw)) as So1.
  destruct (role_succeeds id r now db1 So1 (wr_exists _ _ _ Hw) Hk) as (db2 & E & W2).
  { intros Er. exact (other_admin_wrote id (engine s) db1 So Hw (Ho Er)). }
  unfold wp at 1, account_call. simpl engine. rewrite E.
  apply (wp_late_password id hash now s db2). by eapply wrote_trans.
Qed.

Lemma wp_write_patch (id : string) (patch : TenantUserPatch) (hash : option string) (now : Z) (s : Service)
    (X : Service -> Prop) :
  sound (engine s) -> user_exists id (engine s) = true ->
  (forall r, tp_Role patch = Some r -> role_known r = true /\ (r = UserRoleUser -> other_admin id (engine s))) -> X s ->
  wp (write_patch id patch hash now) (fun _ => after_write id s) X s.
Proof.
  intros So Hu Hr HX. unfold write_patch. apply wp_bind. destruct (tp_Status patch) as [st|]; simpl.
  - apply wp_atomic_account; [apply status_atomic| |done]. intros x db1 H.
    apply wp_late_writes; [done|by eapply status_wrote|done].
  - apply wp_ret. pose proof (wp_late_writes id (tp_Role patch) hash now s (engine s) X So (wrote_refl id _ So Hu) Hr) as H.
    rewrite set_engine_id in H. exact H.
Qed.

(** ** The handlers *)

#[global] Instance pure_adminUserViews (l : list User) : Pure (adminUserViews l).
Proof. unfold adminUserViews. apply _. Qed.
#[global] Instance pure_tenantUserView (id : string) : Pure (tenantUserView id).
Proof. unfold tenantUserView. apply _. Qed.
#[global] Instance pure_GetTenantUser (id : string) (now : Z) (tb : UsageTables) : Pure (GetTenantUser id now tb).
Proof. unfold GetTenantUser. apply _. Qed.

Section Accounts.
Context (T : Z).

Lemma wp_end_sessions (B : string -> Prop) (id : string) (Q : unit -> Service -> Prop) (X : Service -> Prop) (s : Service) :
  in_step_but T B s ->
  (forall s', in_step_but T B s' -> users (engine s') = users (engine s) -> Q tt s') -> wp (end_sessions id) Q X s.
Proof.
  intros Hs HQ. unfold end_sessions. apply wp_bind. unfold wp, call. simpl.
  apply HQ; [|done]. eapply in_step_weaken; [eapply (in_step_write T B nobody s); [done|]|].
  - apply touches_frame; [apply Hs|done..|auto].
  - simpl. tauto.
Qed.

(** What is left to do once the columns of [id] are written. *)
Lemma wp_finish (b : bool) (id : string) (s s1 : Service) :
  in_step_at T s -> after_write id s s1 ->
  wp (_ ← (if b then end_sessions id else mret tt); _ ← republishUserKeys id; tenantUserView id)
    (fun _ => in_step_at T) (in_step_at T) s1.
Proof.
  intros Hs (db1 & -> & Hw). apply wp_bind.
  assert (in_step_but T (fun v => v = id) (set_engine db1 s)) as H1.
  { eapply in_step_weaken; [eapply in_step_write; [exact Hs|apply (wr_touches _ _ _ Hw)]|]. simpl. tauto. }
  assert (forall s', in_step_but T (fun v => v = id) s' -> users (engine s') = users db1 ->
    wp (_ ← republishUserKeys id; tenantUserView id) (fun _ => in_step_at T) (in_step_at T) s') as Hk.
  { intros s' Hs' Eu. apply wp_bind, (wp_publish_user T); [done| |].
    - unfold user_exists. rewrite Eu. apply (wr_exists _ _ _ Hw).
    - intros s2 _ Hs2. by apply wp_pure; [apply _|..]. }
  apply wp_if; intros _; [|by apply wp_ret, Hk]. eapply wp_end_sessions; [exact H1|exact Hk].
Qed.

Lemma keeps_SetTenantUserStatus (id st : string) (now : Z) : keeps T (SetTenantUserStatus id st now).
Proof.
  intros s Hs. unfold SetTenantUserStatus, SetAccountStatus. svc_wp. apply wp_account, wp_bind, wp_check;
    [|by rewrite set_engine_id]. intros _. 
  unfold wp at 1. destruct (setAccountStatusLocked id st now (engine s)) as [[x|e] db'] eqn:E.
  - apply (wp_finish _ id s); [done|]. exists db'. split; [done|]. eapply status_wrote; [apply Hs|exact E].
  - rewrite (status_atomic _ _ _ _ _ _ I E), set_engine_id. done.
Qed.

Lemma keeps_SetTenantUserRole (id role : string) (now : Z) : keeps T (SetTenantUserRole id role now).
Proof.
  intros s Hs. unfold SetTenantUserRole, SetAccountRole. apply wp_bind, wp_account, wp_bind, wp_check;
    [|by rewrite set_engine_id]. intros _.
  unfold wp at 1. destruct (setAccountRoleLocked id role now (engine s)) as [[x|e] db'] eqn:E.
  - apply (wp_finish false id s); [done|]. exists db'. split; [done|]. eapply role_wrote; [apply Hs|exact E].
  - rewrite (role_atomic _ _ _ _ _ _ I E), set_engine_id. done.
Qed.

#[global] Instance pure_validate (user : User) (patch : TenantUserPatch) : Pure (validateTenantUserPatch user patch).
Proof.
  unfold validateTenantUserPatch. apply pure_bind; [apply _|]. intros _. apply pure_bind; [apply _|]. intros _.
  apply pure_bind; [destruct (tp_Password patch); apply _|]. intros _. apply _.
Qed.

Lemma account_call_ok {A} (m : Acct A) (s s' : Service) (a : A) :
  account_call m s = (Ok a, s') -> exists db', m (engine s) = (Ok a, db') /\ s' = set_engine db' s.
Proof. unfold account_call. destruct (m (engine s)) as [[b|e] db']; [intros [= -> <-]; eauto|done]. Qed.

(** A patch that may take the role away leaves another administrator. *)
Lemma validated (user : User) (patch : TenantUserPatch) (s s' : Service) (x : unit) :
  sound (engine s) -> In user (users (engine s)) -> validateTenantUserPatch user patch s = (Ok x, s') ->
  forall r, tp_Role patch = Some r -> role_known r = true /\ (r = UserRoleUser -> other_admin (User.ID user) (engine s)).
Proof.
  intros So Hin H r Hr. unfold validateTenantUserPatch in H. rewrite Hr in H. cbv zeta in H. simpl default in H.
  apply proc_bind_ok in H as (? & ? & Hc & H). apply check_ok in Hc as [_ ->].
  apply proc_bind_ok in H as (? & ? & Hc & H). apply check_ok in Hc as [Hk ->].
  apply proc_bind_ok in H as (? & s1 & Hp & H). split; [exact Hk|]. intros ->.
  assert (s1 = s) as ->.
  { destruct (tp_Password patch); [|by injection Hp as _ <-].
    apply account_call_ok in Hp as (db & Hp & ->). unfold checkPasswordPolicy in Hp. apply check_ok in Hp as [_ ->].
    apply set_engine_id. }
  destruct (active_admin user) eqn:Ea.
  - change ((UserRoleUser <>s UserRoleAdmin)) with true in H. rewrite orb_true_r in H. simpl in H.
    apply account_call_ok in H as (db & H & _). apply refuseIfLastAdmin_ok in H as [_ H]. by apply H.
  - destruct (so_admin _ So) as (w & Hw & Haw). exists w. split; [done|]. split; [|done]. intros E.
    assert (w = user) as -> by (eapply NoDup_map_inj; [apply (kw_users _ (so_keys _ So))|done..]). congruence.
Qed.

Context (hashPassword : string -> option string).

Lemma keeps_UpdateTenantUser (id : string) (patch : TenantUserPatch) (now : Z) :
  keeps T (UpdateTenantUser hashPassword id patch now).
Proof.
  intros s Hs. unfold UpdateTenantUser. svc_wp. rename a into user, H0 into Hu, H1 into Hv.
  apply GetUser_Some in Hu as [Hu Hid]. pose proof (validated user patch s s a0 (is_sound _ _ _ Hs) Hu Hv) as Hrole.
  rewrite Hid in Hrole.
  assert (forall hash, wp (_ ← write_patch id patch hash now;
    _ ← (if (match tp_Status patch with Some v => v ==s UserStatusDisabled | None => false end)
            || (match tp_Password patch with Some _ => true | None => false end)
         then end_sessions id else mret tt);
    _ ← republishUserKeys id; tenantUserView id) (fun _ => in_step_at T) (in_step_at T) s) as Hrest.
  { intros hash. apply wp_bind. eapply wp_mono; [apply wp_write_patch; [apply Hs| |exact Hrole|exact Hs]| |done].
    - apply user_exists_spec. eauto.
    - intros u0 s1 Hw. by apply (wp_finish _ id s). }
  destruct (tp_Password patch) as [p|]; [|apply wp_ret, Hrest].
  apply wp_bind, wp_or_fail; [|done]. intros h _. apply wp_ret, Hrest.
Qed.

Lemma keeps_SetTenantUserPassword (id password : string) (now : Z) :
  keeps T (SetTenantUserPassword hashPassword id password now).
Proof.
  intros s Hs. unfold SetTenantUserPassword, SetAccountPassword, setPassword.
  apply wp_bind, wp_account. apply wp_bind, wp_pure; [apply _| |by rewrite set_engine_id]. intros _ _.
  apply wp_bind, wp_pure; [apply _| |by rewrite set_engine_id]. intros user _.
  apply wp_bind, wp_or_fail; [|by rewrite set_engine_id]. intros h _.
  apply wp_engine; [|by rewrite set_engine_id]. intros x db' H.
  apply (wp_end_sessions nobody); [|done]. apply in_step_quiet; [done|]. eapply password_wrote; [apply Hs|exact H].
Qed.

End Accounts.

(** ** Deleting an account *)

Section Deleting.
Context (T : Z).

Lemma fold_delete_lookup (rows : list AccessKey) (m : KeyStore) (id : string) :
  fold_left (fun k row => Delete (AccessKey.ID row) k) rows m !! id =
    if existsb (fun k => AccessKey.ID k ==s id) rows then None else m !! id.
Proof.
  revert m. induction rows as [|k rows IH]; intros m; simpl; [done|]. rewrite IH.
  destruct (existsb _ rows); [by rewrite orb_true_r|]. rewrite orb_false_r. unfold Delete.
  destruct (AccessKey.ID k ==s id) eqn:E; [apply eqb_s_true in E as ->; apply lookup_delete_eq|].
  apply eqb_s_false in E. by apply lookup_delete_ne.
Qed.

Definition without_user (id : string) (db : StateDB) : StateDB := snd (DeleteUser id db).

Lemma DeleteUser_run (id : string) (db : StateDB) :
  user_exists id db = true -> DeleteUser id db = (Ok tt, without_user id db).
Proof. intros H. unfold without_user, DeleteUser, transact. by rewrite H. Qed.

Lemma without_user_keys (id : string) (db : StateDB) (k : AccessKey) :
  user_exists id db = true ->
  In k (access_keys (without_user id db)) <-> In k (access_keys db) /\ AccessKey.UserID k <> id.
Proof.
  intros H. unfold without_user, DeleteUser, transact. rewrite H. simpl. rewrite sql_where_In, negb_true_iff, eqb_s_false.
  done.
Qed.

Lemma without_user_rest (id v : string) (db : StateDB) :
  user_exists id db = true -> v <> id ->
  standing v (without_user id db) = standing v db /\ rows_of v (without_user id db) = rows_of v db.
Proof.
  intros H Hv. unfold without_user, DeleteUser, transact. rewrite H. simpl. split.
  - unfold standing, GetUser. simpl. unfold sql_first, sql_where. induction (users db) as [|u l IH]; simpl; [done|].
    destruct (User.ID u ==s id) eqn:E; simpl; [|by destruct (User.ID u ==s v)].
    apply eqb_s_true in E. rewrite IH. by rewrite (proj2 (eqb_s_false (User.ID u) v)) by congruence.
  - unfold rows_of. simpl. unfold sql_where. f_equal. induction (user_subscriptions db) as [|r l IH]; simpl; [done|].
    destruct (UserSubscription.UserID r ==s id) eqn:E; simpl; [|unfold of_user in *; by destruct (_ ==s v); rewrite ?IH].
    apply eqb_s_true in E. rewrite IH. unfold of_user at 2. by rewrite (proj2 (eqb_s_false _ v)) by congruence.
Qed.

Lemma without_user_sound (id : string) (db : StateDB) :
  sound db -> user_exists id db = true -> other_admin id db -> sound (without_user id db).
Proof.
  intros [Hc W Ws Hr _] He (w & Hw & Hne & Ha). pose proof (DeleteUser_subs_wf id db Ws) as Ws'.
  fold (without_user id db) in Ws'. revert Ws'. unfold without_user, DeleteUser, transact. rewrite He. simpl. intros Ws'.
  split; try done; simpl.
  - intros u Hu. apply sql_where_In in Hu as [Hu _]. auto.
  - destruct W as [H1 H2 H3 H4]. split; simpl; [by apply NoDup_map_filter..| |].
    + intros k Hk. apply sql_where_In in Hk as [Hk _]. auto.
    + intros k Hk. apply sql_where_In in Hk as [Hk Hn]. apply negb_true_iff in Hn.
      specialize (H4 k Hk). apply user_exists_spec in H4 as (u & Hu & E). apply user_exists_spec. exists u.
      split; [|done]. apply sql_where_In. by rewrite E, Hn.
  - intros u s Hs. apply sql_where_In in Hs as [Hs _]. by apply Hr.
  - exists w. split; [|done]. apply sql_where_In. apply eqb_s_false in Hne. by rewrite Hne.
Qed.

Lemma keeps_DeleteTenantUser (id : string) : keeps T (DeleteTenantUser id).
Proof.
  intros s Hs. unfold DeleteTenantUser. svc_wp. rename a into user, H into Hu, H0 into Hr.
  apply GetUser_Some in Hu as [Hu Hid]. apply account_call_ok in Hr as (db0 & Hr & _).
  apply refuseIfLastAdmin_ok in Hr as [_ Hr]. pose proof (is_sound _ _ _ Hs) as So.
  assert (user_exists id (engine s) = true) as He by (apply user_exists_spec; eauto).
  assert (other_admin id (engine s)) as Ho.
  { destruct (active_admin user) eqn:Ea; [rewrite <- Hid; by apply Hr|]. destruct (so_admin _ So) as (w & Hw & Haw).
    exists w. split; [done|]. split; [|done]. intros E.
    assert (w = user) as -> by (eapply NoDup_map_inj; [apply (kw_users _ (so_keys _ So))|done|done|congruence]). congruence. }
  unfold wp at 1, publish. unfold wp, call. simpl engine. rewrite DeleteUser_run by done.
  split; simpl; [by apply without_user_sound|..].
  - intros kid Hno. rewrite fold_delete_lookup. destruct (existsb _ _) eqn:Eb; [done|].
    apply (is_gone _ _ _ Hs). intros k Hk E. rewrite existsb_false in Eb.
    destruct (decide (AccessKey.UserID k = id)) as [Eu|Eu].
    + specialize (Eb k (proj2 (keys_by_user_In _ _ _) (conj Hk Eu))). apply eqb_s_false in Eb. done.
    + apply (Hno k); [by apply without_user_keys|done].
  - intros k Hk _. apply without_user_keys in Hk as [Hk Hne]; [|done]. rewrite fold_delete_lookup.
    rewrite (proj2 (existsb_false _ _)).
    + rewrite (entry_of_eq (engine s)) by (apply without_user_rest; done). apply (is_live _ _ _ Hs); tauto.
    + intros r Hin. apply keys_by_user_In in Hin as [Hin Eu]. apply eqb_s_false. intros E. apply Hne.
      assert (r = k) as -> by (eapply NoDup_map_inj; [apply (kw_keys _ (so_keys _ So))|done..]). done.
Qed.

End Deleting.

(** ** New accounts *)

Section NewAccounts.
Context (T : Z) (hashPassword : string -> option string).

Lemma in_step_new_user (uid : string) (s : Service) (db' : StateDB) :
  in_step_at T s -> touches (fun v => v = uid) (engine s) db' -> user_exists uid (engine s) = false ->
  in_step_at T (set_engine db' s).
Proof.
  intros Hs Ht Hno. eapply in_step_weaken; [by eapply in_step_write|]. simpl. rewrite (to_keys _ _ _ Ht).
  intros k Hk [[]|E]. pose proof (kw_owner _ (so_keys _ (is_sound _ _ _ Hs)) k Hk). congruence.
Qed.

Lemma insert_user_subs (u : User) (x : unit) (db db' : StateDB) :
  insert_user_tx u db = Ok (x, db') -> user_subscriptions db' = user_subscriptions db.
Proof. unfold insert_user_tx. intros H. tx_invert. done. Qed.

Lemma wp_CreateTenantUser (input : TenantUserInput) (now : Z) (id subID : string) (tb : UsageTables) (s : Service) :
  in_step_at T s -> fresh subID (engine s) ->
  wp (CreateTenantUser hashPassword input now id subID tb) (fun _ => in_step_at T) (in_step_at T) s.
Proof.
  intros Hs Hf. unfold CreateTenantUser, CreateAccount. apply wp_bind, wp_account. cbv zeta.
  apply wp_bind, wp_check; [intros _|by rewrite set_engine_id].
  apply wp_bind, wp_check; [intros _|by rewrite set_engine_id].
  apply wp_bind, wp_pure; [apply _|intros _ _|by rewrite set_engine_id].
  apply wp_bind, wp_or_fail; [intros h _|by rewrite set_engine_id].
  apply wp_bind, wp_engine; [|by rewrite set_engine_id]. intros x db' H. apply transact_ok in H.
  pose proof (insert_user_subs _ _ _ _ H) as Es.
  apply InsertUser_touches in H as (Ht & Hno & _); [|by apply Hs]. apply wp_ret. simpl acc_ID.
  pose proof (in_step_new_user _ s db' Hs Ht Hno) as Hs1.
  apply wp_bind, wp_if; intros _.
  - apply wp_bind. eapply wp_mono; [apply wp_Assign; [exact Hs1|]| |done].
    + unfold fresh. simpl. by rewrite Es.
    + intros v s' H. apply wp_ret. by apply wp_pure; [apply _|..].
  - apply wp_ret. by apply wp_pure; [apply _|..].
Qed.

Lemma RedeemInvite_touches (code : string) (now : Z) (u : User) (i : Invite) (db db' : StateDB) :
  sound db -> RedeemInviteAndInsertUser code now u db = (Ok i, db') ->
  touches (fun v => v = User.ID u) db db' /\ user_exists (User.ID u) db = false /\
  user_subscriptions db' = user_subscriptions db.
Proof.
  intros So H. apply transact_ok in H. apply tx_bind_ok in H as (n & db1 & H1 & H).
  assert (touches nobody db db1) as T1 by (unfold claim_invite in H1; injection H1 as <- <-; frame_touches).
  assert (users db1 = users db /\ user_subscriptions db1 = user_subscriptions db) as [Eu Es]
    by (unfold claim_invite in H1; injection H1 as <- <-; done).
  destruct (n =? 0)%nat; [done|]. apply tx_bind_ok in H as (x & db2 & H2 & H).
  pose proof (insert_user_subs _ _ _ _ H2) as Es2.
  apply InsertUser_touches in H2 as (T2 & Hno & _); [|apply T1].
  assert (db' = db2) as ->.
  { unfold as_sql_error, getInviteByCodeLocked in H. destruct (GetInviteByCode code db2); [|done]. by injection H. }
  split_and!; [|unfold user_exists in *; by rewrite <- Eu|congruence].
  split; [apply T2|rewrite (to_keys _ _ _ T2); apply T1|].
  intros v Hv. destruct (to_rest _ _ _ T2 v Hv) as [-> ->]. apply (to_rest _ _ _ T1). tauto.
Qed.

#[global] Instance pure_checkInvitePlan (code : string) (now : Z) : Pure (checkInvitePlan code now).
Proof. unfold checkInvitePlan. apply _. Qed.
#[global] Instance pure_invitation (mode : RegistrationMode) (code : string) (now : Z) : Pure (invitation mode code now).
Proof. unfold invitation. destruct mode; apply _. Qed.

Context (letter_above digit_above : Z -> bool).

Lemma wp_RegisterTenantUser (mode : RegistrationMode) (inviteCode username password : string) (now : Z)
    (id subID : string) (s : Service) :
  in_step_at T s -> fresh subID (engine s) ->
  wp (RegisterTenantUser letter_above digit_above hashPassword mode inviteCode username password now id subID)
    (fun _ => in_step_at T) (in_step_at T) s.
Proof.
  intros Hs Hf. unfold RegisterTenantUser. svc_wp. cbv zeta.
  assert (forall u, wp (_ ← call (InsertUser u) mapUserWriteError; mret u) (fun _ => in_step_at T) (in_step_at T) s) as Hplain.
  { intros u. apply wp_bind, wp_call; [|done]. intros x db' H'. apply transact_ok in H'.
    apply InsertUser_touches in H' as (Ht & Hno & _); [|by apply Hs]. apply wp_ret. by eapply in_step_new_user. }
  destruct mode; [apply Hplain| |apply Hplain].
  apply wp_bind, wp_call; [|done]. intros i db' H'.
  apply RedeemInvite_touches in H' as (Ht & Hno & Es); [|by apply Hs].
  pose proof (in_step_new_user _ s db' Hs Ht Hno) as Hs1. apply wp_bind, wp_if; intros _; [|by apply wp_ret, wp_ret].
  unfold wp at 1, grant. apply wp_ret. apply wp_snd, wp_Assign; [done|]. unfold fresh. simpl. by rewrite Es.
Qed.
End NewAccounts.
