(* ===== verification/SyncBilling.v ===== *)
(** * Money and the sweeps keep the live store in step

    The handlers of [Billing] and [Invites], the renewal sweep and the sweep that
    closes subscriptions, against the invariant of [Sync]. *)

From Stdlib Require Import Ascii String.
From stdpp Require Import base gmap list strings.
From S2P Require Import Prelude Hoare Counters Model Store Ledger GoStrings Keys Service Totp Accounts Sync Patch Access Codes Plans Tenants Invites Billing SyncPlans.

(** ** Closing subscriptions *)

Lemma expired_plan_unusable (k : AccessKey) (st : string * string) (plan : PlanSnapshot) (t : Z) :
  0 < PlanSnapshot.ExpiresAtNs plan <= t -> Usable (Some (entry k st plan)) t = false.
Proof.
  intros H. unfold Usable, entry. cbn [KeyState.Plan KeyState.Status KeyState.ExpiresAtNs KeyState.UserStatus].
  repeat case_match; try done. bool_prop. lia.
Qed.

Lemma stopped_plan_unusable (k : AccessKey) (st : string * string) (plan : PlanSnapshot) (t : Z) :
  PlanSnapshot.Status plan <> "" -> PlanSnapshot.Status plan <> SubscriptionStatusActive ->
  Usable (Some (entry k st plan)) t = false.
Proof.
  intros H1 H2. unfold Usable, entry. cbn [KeyState.Plan KeyState.Status KeyState.ExpiresAtNs KeyState.UserStatus].
  apply eqb_s_false in H1, H2. rewrite H1, H2. simpl. by repeat case_match.
Qed.

Definition close (now : Z) (r : UserSubscription) : UserSubscription :=
  if window_closed now r then UserSubscription.with_Status SubscriptionStatusExpired r else r.

(** Of rows that do not run, the one that decides stops the plan. *)
Lemma plan_of_stopped (l : list UserSubscription) (r : UserSubscription) :
  NoDup (map UserSubscription.ID l) -> In r l ->
  (forall q, In q l -> is_active q = false /\ subscription_status_valid (UserSubscription.Status q) = true) ->
  PlanSnapshot.Status (plan_of l) <> "" /\ PlanSnapshot.Status (plan_of l) <> SubscriptionStatusActive.
Proof.
  intros Hn Hr Hl. destruct (DecidingSubscription_active l r Hn Hr) as (m & E & Hm & _).
  unfold plan_of. rewrite E. destruct (Hl m Hm) as [Ha Hv]. unfold is_active in Ha. simpl. rewrite Ha. simpl.
  split; [|by apply eqb_s_false]. intros Es. by rewrite Es in Hv.
Qed.

(** A user with a row the sweep closes was refused before it and is after. *)
Lemma closed_rows (now : Z) (l : list UserSubscription) (r : UserSubscription) :
  NoDup (map UserSubscription.ID l) -> In r l -> window_closed now r = true ->
  (forall a, In a l -> is_active a = true -> a = r) ->
  (forall a, In a l -> subscription_status_valid (UserSubscription.Status a) = true) ->
  0 < PlanSnapshot.ExpiresAtNs (plan_of l) <= now /\
  PlanSnapshot.Status (plan_of (map (close now) l)) <> "" /\
  PlanSnapshot.Status (plan_of (map (close now) l)) <> SubscriptionStatusActive.
Proof.
  intros Hn Hr Hc Huniq Hv. pose proof Hc as Hc'. unfold window_closed in Hc'. bool_prop. split.
  - destruct (DecidingSubscription_active l r Hn Hr) as (m & E & Hm & Ha).
    unfold plan_of. rewrite E, (Huniq m Hm) by auto. simpl. lia.
  - apply (plan_of_stopped _ (close now r)).
    + rewrite map_map. erewrite map_ext; [exact Hn|]. intros q. unfold close. by destruct (window_closed now q).
    + apply in_map_iff. eauto.
    + intros q Hq. apply in_map_iff in Hq as (a & <- & Ha). unfold close.
      destruct (window_closed now a) eqn:Ea; [done|]. split; [|by apply Hv].
      destruct (is_active a) eqn:Ei; [|done]. rewrite (Huniq a Ha Ei) in Ea. congruence.
Qed.

Lemma rows_after_sweep (now : Z) (u : string) (db db' : StateDB) (n : Z) :
  ExpireStaleSubscriptions now db = (Ok n, db') ->
  plan_of (rows_of u db') = plan_of (map (close now) (List.filter (of_user u) (user_subscriptions db))).
Proof.
  intros [= _ <-]. unfold rows_of. rewrite plan_of_shape. f_equal. simpl. unfold sql_update.
  induction (user_subscriptions db) as [|r l IH]; simpl; [done|].
  assert (of_user u (if window_closed now r then UserSubscription.with_Status SubscriptionStatusExpired r else r)
          = of_user u r) as -> by (by destruct (window_closed now r)).
  destruct (of_user u r); simpl; by rewrite IH.
Qed.

Lemma sweep_agrees (T now : Z) (db db' : StateDB) (n : Z) (k : AccessKey) :
  sound db -> now <= T -> ExpireStaleSubscriptions now db = (Ok n, db') -> agree T (entry_of db k) (entry_of db' k).
Proof.
  intros So HT H. pose proof (rows_after_sweep now (AccessKey.UserID k) db db' n H) as Hrows.
  assert (standing (AccessKey.UserID k) db' = standing (AccessKey.UserID k) db) as Est by (injection H as _ <-; done).
  unfold entry_of. rewrite Est, Hrows. unfold rows_of. rewrite plan_of_shape.
  destruct (_ ==s KeyStatusActive); [|by left]. destruct (standing _ db) as [st|]; [|by left]. simpl.
  set (l := List.filter _ _).
  assert (forall a, In a l -> In a (user_subscriptions db) /\ UserSubscription.UserID a = AccessKey.UserID k) as Hl.
  { intros a Ha. apply List.filter_In in Ha as [Ha E]. by apply eqb_s_true in E. }
  destruct (List.find (window_closed now) l) as [r|] eqn:Ef.
  - apply find_some_In in Ef as [Hr Hc]. destruct (Hl r Hr) as [Hr' Hu].
    destruct (closed_rows now l r) as (He & Hs1 & Hs2); [|done|done|..].
    + apply NoDup_map_filter, (sw_ids db (so_subs db So)).
    + intros a Ha Haa. destruct (Hl a Ha) as [Ha' Hua]. apply (sw_active db (so_subs db So)); try done; [|congruence].
      unfold window_closed in Hc. by bool_prop.
    + intros a Ha. apply (sw_row db (so_subs db So)), Hl, Ha.
    + right. intros t Ht. split; [apply expired_plan_unusable; lia|by apply stopped_plan_unusable].
  - left. do 3 f_equal. symmetry. rewrite <- (map_id l) at 2. apply map_ext_in. intros a Ha. unfold close.
    by rewrite (proj1 (find_none_all _ _) Ef a Ha).
Qed.

Section Billing.
Context (T : Z).

Lemma wp_Sweep (now : Z) (s : Service) :
  now <= T -> in_step_at T s -> wp (SweepExpiredSubscriptions now) (fun _ => in_step_at T) (in_step_at T) s.
Proof.
  intros HT Hs. unfold SweepExpiredSubscriptions. apply wp_bind, wp_check; [intros _|done].
  apply wp_call; [|done]. intros n db' H. pose proof (is_sound _ _ _ Hs) as So.
  assert (keys_wf db' /\ subs_wf db' /\ users db' = users (engine s) /\ access_keys db' = access_keys (engine s) /\
    forall u, user_readable u db') as (W & Ws & Eu & Ek & Hr).
  { pose proof (ExpireStaleSubscriptions_subs_wf now (engine s) (so_subs _ So)) as Ws. injection H as _ <-.
    split_and!; try done; [by apply (keys_wf_frame (engine s)); [apply So|..]|].
    intros u r Hr E. apply sql_update_In in Hr as (q & Hq & ->).
    pose proof (all_rows_readable _ q So Hq) as Hqr. by destruct (window_closed now q). }
  split; simpl.
  - split; [rewrite Eu; apply So|done|done|done|unfold has_admin; rewrite Eu; apply So].
  - rewrite Ek. apply Hs.
  - rewrite Ek. intros k Hk HB. rewrite (is_live _ _ _ Hs k Hk HB). by eapply sweep_agrees.
Qed.

(** ** Publishing that is only tried *)

Lemma wp_try (u : string) (Q : unit -> Service -> Prop) (X : Service -> Prop) (s : Service) :
  in_step_but T (fun v => v = u) s -> user_exists u (engine s) = true ->
  (forall s', engine s' = engine s -> in_step_at T s' -> Q tt s') -> wp (try_republish u) Q X s.
Proof.
  intros Hs Hu HQ. unfold wp, try_republish. apply (wp_snd _ (Q tt)).
  eapply wp_mono; [apply (wp_publish_user T u (fun _ s' => Q tt s') (Q tt) s Hs Hu)| |]; [done|by intros []|done].
Qed.

Lemma in_step_wrote_user (u : string) (s : Service) (db' : StateDB) :
  in_step_at T s -> touches (fun v => v = u) (engine s) db' -> in_step_but T (fun v => v = u) (set_engine db' s).
Proof. intros Hs Ht. eapply in_step_weaken; [by eapply in_step_write|]. simpl. tauto. Qed.

Lemma keeps_SelfPurchase (userID planID requestID : string) (now : Z) (subID entryID : string) :
  keeps T (SelfPurchase userID planID requestID now subID entryID).
Proof.
  intros s Hs. unfold SelfPurchase. svc_wp.
  match goal with H : GetUser _ _ = _ |- _ => apply GetUser_Some in H as [Hu Hid] end.
  apply wp_call; [|done]. intros r db' H'.
  apply (Purchase_touches _ _ now) in H' as [Ht Eu]; [|apply Hs|done|done]. simpl in Ht.
  assert (user_exists userID db' = true) as He.
  { unfold user_exists. rewrite Eu. apply List.existsb_exists. exists a. split; [done|]. by apply eqb_s_true. }
  assert (forall c, wp (_ ← try_republish userID; view ← one_view (Subscription r); mret (result_view view r))
    (fun _ => in_step_at T) (in_step_at T) (set_usage c (set_engine db' s))) as Hrest.
  { intros c. apply wp_bind, wp_try; [by apply in_step_usage, in_step_wrote_user|done|].
    intros s' _ Hs'. by apply wp_pure; [apply _|..]. }
  apply wp_bind, wp_if; intros _; [apply wp_ret; apply (Hrest (usage s))|]. apply wp_count, Hrest.
Qed.

(** ** Renewals *)

Lemma next_period_row (sub : UserSubscription) (plan : Plan) (price now : Z) (db : StateDB) :
  owned db sub -> readable sub = true ->
  owned db (next_period sub plan price now) /\ readable (next_period sub plan price now) = true.
Proof.
  intros Ho Hr. split; [done|]. unfold readable in *. simpl. by destruct (price <=? 0).
Qed.

Lemma renew_in_step (sub : UserSubscription) (plan : Plan) (price now : Z) (requestID entryID : string) (s : Service) :
  in_step_at T s -> owned (engine s) sub -> readable sub = true ->
  let s' := snd (renewOneWithPlan sub plan price now requestID entryID s) in
  in_step_at T s' /\ owners (engine s') = owners (engine s).
Proof.
  intros Hs Ho Hr. unfold renewOneWithPlan. destruct (_ <=? 0); [done|].
  destruct (next_period_row sub plan price now (engine s) Ho Hr) as [Ho' Hr'].
  destruct (RenewSubscriptionWithBalance _ _ _ (engine s)) as [[r|e] db'] eqn:E.
  - apply Renew_touches in E as (Ht & Eo & Eu); [|apply Hs|done|done]. simpl in Ht. simpl.
    set (s1 := if Replayed r then _ else _).
    assert (in_step_but T (fun v => v = UserSubscription.UserID sub) s1 /\ engine s1 = db') as [H1 E1].
    { unfold s1. destruct (Replayed r); split; try done; [|apply in_step_usage]; by apply in_step_wrote_user. }
    apply (wp_snd _ (fun s' => in_step_at T s' /\ owners (engine s') = owners (engine s))).
    apply (wp_publish_user T); [done| |].
    + rewrite E1. unfold user_exists. rewrite Eu. apply (owned_exists (engine s) sub); [apply Hs|done].
    + intros s' E' Hs'. split; [done|]. by rewrite E', E1, Eo.
  - unfold RenewSubscriptionWithBalance in E. apply transact_err in E as [-> _]. simpl. by rewrite set_engine_id.
Qed.

Lemma keeps_SelfRenew (userID subID requestID : string) (now : Z) (entryID : string) :
  keeps T (SelfRenew userID subID requestID now entryID).
Proof.
  intros s Hs. unfold SelfRenew. svc_wp. rename a into sub.
  match goal with H : GetUserSubscription _ _ = _ |- _ => apply GetUserSubscription_In in H as [Hin _] end.
  assert (in_step_at T (snd (renewOne sub now (TrimSpace requestID) entryID s))) as Hs'.
  { unfold renewOne. destruct (renewalPrice sub (engine s)) as [[plan price]|e]; [|done].
    apply renew_in_step; [done|by apply owned_In|apply (all_rows_readable (engine s)); [apply Hs|done]]. }
  unfold wp at 1, renew_call. destruct (renewOne sub now (TrimSpace requestID) entryID s) as [[o|e] s1]; [|done].
  simpl in Hs'. by apply wp_pure; [apply _|..].
Qed.

Lemma keeps_SetAutoRenew (userID subID : string) (b : bool) : keeps T (SetAutoRenew userID subID b).
Proof.
  intros s Hs. unfold SetAutoRenew. svc_wp. apply wp_call; [|done]. intros x db' H'.
  apply wp_pure; [apply _|intros _ _|]; (apply in_step_quiet; [done|]; eapply SetAutoRenew_touches; [apply Hs|exact H']).
Qed.

Lemma renewals_in_step (draw : UserSubscription -> string) (now : Z) (l : list UserSubscription) (v : RenewalView)
    (s : Service) :
  in_step_at T s -> (forall sub, In sub l -> owned (engine s) sub /\ readable sub = true) ->
  in_step_at T (snd (fold_left (renew_due draw now) l (v, s))).
Proof.
  revert v s. induction l as [|sub l IH]; intros v s Hs Hl; simpl; [done|].
  destruct (Hl sub (or_introl eq_refl)) as [Ho Hr]. assert (forall x, In x l -> owned (engine s) x /\ readable x = true) as Hl'
    by (intros x Hx; apply Hl; by right).
  destruct (renewalPrice sub (engine s)) as [[plan price]|e]; [|by apply IH].
  destruct (negb _); [by apply IH|].
  destruct (renew_in_step sub plan price now (renewalRequestID sub) (draw sub) s Hs Ho Hr) as [H1 E1].
  destruct (renewOneWithPlan _ _ _ _ _ _ s) as [r s1]. simpl in *. apply IH; [done|]. intros x Hx.
  unfold owned. rewrite E1. by apply Hl'.
Qed.

Lemma keeps_RenewDue (draw : UserSubscription -> string) (now : Z) : keeps T (RenewDueSubscriptions draw now).
Proof.
  intros s Hs. unfold RenewDueSubscriptions. apply wp_bind, wp_check; [intros _|done]. unfold wp, renew_all.
  pose proof (renewals_in_step draw now (ListRenewableSubscriptions now renewalLeadTimeNs (engine s))
    (mkRenewalView 0 0 0) s Hs) as H. destruct (fold_left _ _ _) as [v s']. apply H. intros sub Hin.
  unfold ListRenewableSubscriptions in Hin. apply sort_by_In, sql_where_In in Hin as [Hin _].
  split; [by apply owned_In|apply (all_rows_readable (engine s)); [apply Hs|done]].
Qed.

(** ** Balances, codes and invitations *)

Lemma keeps_Redeem (pepper : option Pepper) (userID code : string) (now : Z) (id : string) :
  keeps T (Redeem pepper userID code now id).
Proof.
  unfold Redeem, redeemCodeAmount. do 3 (apply keeps_bind; [apply keeps_pure, _|]; intros ?; cbv zeta).
  apply keeps_bind; [apply keeps_pure, _|]. intros amount. apply keeps_bind; [|intros ?; apply keeps_pure, _].
  apply keeps_call. intros db r db' So H. exact (RedeemCode_touches _ _ r now db db' So H).
Qed.

Lemma keeps_AdjustBalance (userID : string) (delta : Z) (note actor : string) (now : Z) (id : string) :
  keeps T (AdjustBalance userID delta note actor now id).
Proof.
  unfold AdjustBalance. do 4 (apply keeps_bind; [apply keeps_pure, _|]; intros ?; cbv zeta).
  apply keeps_bind.
  - apply keeps_call. intros db r db' So H. exact (ApplyBalanceDelta_touches _ r db db' So H).
  - intros _. apply keeps_pure. unfold AdminBalance, SelfBalance. apply _.
Qed.

Lemma keeps_mint (pepper : option Pepper) (input : RedeemCodeInput) (createdBy : string) (now : Z)
    (draw : nat -> string * list Z) (i n : nat) : keeps T (mint_codes pepper input createdBy now draw i n).
Proof.
  revert i. induction n as [|n IH]; intros i; simpl; [apply keeps_pure, _|]. apply keeps_bind.
  - apply keeps_call. intros db x db' So H. apply transact_ok in H. cbv beta zeta in H. tx_invert; frame_touches.
  - intros _. apply keeps_bind; [apply IH|]. intros l. apply keeps_pure, _.
Qed.

Lemma keeps_CreateRedeemCodes (pepper : option Pepper) (input : RedeemCodeInput) (createdBy : string) (now : Z)
    (draw : nat -> string * list Z) : keeps T (CreateRedeemCodes pepper input createdBy now draw).
Proof.
  unfold CreateRedeemCodes. do 7 (apply keeps_bind; [apply keeps_pure, _|]; intros ?; cbv zeta). apply keeps_mint.
Qed.

Lemma keeps_DeleteRedeemCode (id : string) : keeps T (DeleteRedeemCode id).
Proof. apply keeps_call. intros db x db' So H. apply transact_ok in H. cbv beta zeta in H. tx_invert; frame_touches. Qed.

Lemma keeps_CreateInvite (input : InviteInput) (createdBy : string) (now : Z) (id : string) (buf : list Z) :
  keeps T (CreateInvite input createdBy now id buf).
Proof.
  unfold CreateInvite. do 3 (apply keeps_bind; [apply keeps_pure, _|]; intros ?).
  apply keeps_bind; [apply keeps_pure; unfold granted_plan_name; apply _|]. intros name.
  apply keeps_bind; [|intros _; apply keeps_pure, _].
  apply keeps_call. intros db x db' So H. apply transact_ok in H. cbv beta zeta in H. tx_invert; frame_touches.
Qed.

Lemma keeps_DeleteInvite (id : string) : keeps T (DeleteInvite id).
Proof.
  apply keeps_bind; [apply keeps_pure, _|]. intros _.
  apply keeps_call. intros db x db' So H. apply transact_ok in H. cbv beta zeta in H. tx_invert; frame_touches.
Qed.

(** ** The workers of the usage package *)

Lemma period_row_quiet (id : string) (p : UserSubscription -> bool) (f : UserSubscription -> UserSubscription) (n : nat)
    (db db' : StateDB) :
  (forall r, shape (f r) = shape r) -> sound db -> update_subscription id p f db = Ok (n, db') -> touches nobody db db'.
Proof.
  intros Hf So H. eapply touches_update; [done|exact H|..].
  - intros r. pose proof (f_equal UserSubscription.ID (Hf r)) as E. simpl in E. by rewrite E.
  - intros r Hin _. pose proof (f_equal UserSubscription.PlanSnapshotJSON (Hf r)) as E. simpl in E. split; [|by left].
    unfold readable. rewrite E. by apply (all_rows_readable db).
Qed.

Lemma keeps_AddUsed (id : string) (delta : Z) : keeps T (call (AddSubscriptionUsedBytes id delta) internal_error).
Proof.
  apply keeps_call. intros db x db' So H. apply transact_ok in H. apply tx_bind_ok in H as (n & db1 & H & Hn).
  assert (db' = db1) as -> by (destruct (n =? 0)%nat; [done|by injection Hn]).
  eapply period_row_quiet; [|done|exact H]. done.
Qed.

Lemma keeps_ResetPeriod (id : string) (from to : Z) : keeps T (call (ResetSubscriptionPeriod id from to) internal_error).
Proof.
  apply keeps_call. intros db x db' So H. apply transact_ok in H. apply tx_bind_ok in H as (n & db1 & H & Hn).
  assert (db' = db1) as ->.
  { destruct (0 <? n)%nat; [by injection Hn|by apply not_found_if_absent_ok in Hn]. }
  eapply period_row_quiet; [|done|exact H]. done.
Qed.
End Billing.
