(* ===== verification/ControlPlane.v ===== *)
(** * The control plane as a whole

    Every operation of the console that writes, and the workers beside it, run in
    any order: the live key store stays in step with the tables, the tables keep
    their constraints, and an administrator who can sign in remains.

    Password hashing, the Unicode tables above Latin-1 and the pepper are
    parameters. *)

From Stdlib Require Import Ascii String.
From stdpp Require Import base gmap list strings relations.
From S2P Require Import Prelude Hoare Counters Model Store UsageTables Ledger GoStrings Keys Service Totp Accounts Sync Patch Access Codes Plans Tenants Invites Billing SyncPlans SyncAccounts SyncBilling.

(** ** Commands *)

Inductive Command :=
| KeyCmd (c : KeyCommand)
| CmdCreatePlan (i : PlanInput) (now : Z) (id : string)
| CmdUpdatePlan (id : string) (body : Json) (now : Z)
| CmdDeletePlan (id : string)
| CmdAssign (userID planID : string) (days now : Z) (id : string)
| CmdUpdateSubscription (id : string) (body : Json) (now : Z)
| CmdRevoke (id : string)
| CmdCreateUser (input : TenantUserInput) (now : Z) (id subID : string) (tb : UsageTables)
| CmdSetStatus (id status : string) (now : Z)
| CmdSetRole (id role : string) (now : Z)
| CmdPatchUser (id : string) (patch : TenantUserPatch) (now : Z)
| CmdSetPassword (id password : string) (now : Z)
| CmdDeleteUser (id : string)
| CmdRegister (mode : RegistrationMode) (inviteCode username password : string) (now : Z) (id subID : string)
| CmdCreateInvite (input : InviteInput) (createdBy : string) (now : Z) (id : string) (buf : list Z)
| CmdDeleteInvite (id : string)
| CmdPurchase (userID planID requestID : string) (now : Z) (subID entryID : string)
| CmdRenew (userID subID requestID : string) (now : Z) (entryID : string)
| CmdAutoRenew (userID subID : string) (on : bool)
| CmdRedeem (userID code : string) (now : Z) (id : string)
| CmdAdjust (userID : string) (delta : Z) (note actor : string) (now : Z) (id : string)
| CmdMintCodes (input : RedeemCodeInput) (createdBy : string) (now : Z) (draw : nat -> string * list Z)
| CmdDeleteCode (id : string)
| RenewalSweep (draw : UserSubscription -> string) (now : Z)
| ExpirySweep (now : Z)
| UsageFlushed (id : string) (delta : Z)
| PeriodRolled (id : string) (from to : Z).

Section ControlPlane.
Context (hashPassword : string -> option string) (letter_above digit_above : Z -> bool) (pepper : option Pepper).

(** The state a command leaves, whether it succeeded or not. *)
Definition run (s : Service) (c : Command) : Service :=
  match c with
  | KeyCmd c => run_command s c
  | CmdCreatePlan i now id => snd (CreatePlan i now id s)
  | CmdUpdatePlan id body now => snd (UpdatePlan id body now s)
  | CmdDeletePlan id => snd (DeletePlan id s)
  | CmdAssign u p days now id => snd (AssignSubscription u p days now id s)
  | CmdUpdateSubscription id body now => snd (UpdateTenantSubscription id body now s)
  | CmdRevoke id => snd (DeleteTenantSubscription id s)
  | CmdCreateUser input now id subID tb => snd (CreateTenantUser hashPassword input now id subID tb s)
  | CmdSetStatus id st now => snd (SetTenantUserStatus id st now s)
  | CmdSetRole id role now => snd (SetTenantUserRole id role now s)
  | CmdPatchUser id patch now => snd (UpdateTenantUser hashPassword id patch now s)
  | CmdSetPassword id p now => snd (SetTenantUserPassword hashPassword id p now s)
  | CmdDeleteUser id => snd (DeleteTenantUser id s)
  | CmdRegister mode code name p now id subID =>
      snd (RegisterTenantUser letter_above digit_above hashPassword mode code name p now id subID s)
  | CmdCreateInvite input by_ now id buf => snd (CreateInvite input by_ now id buf s)
  | CmdDeleteInvite id => snd (DeleteInvite id s)
  | CmdPurchase u p r now subID entryID => snd (SelfPurchase u p r now subID entryID s)
  | CmdRenew u sub r now entryID => snd (SelfRenew u sub r now entryID s)
  | CmdAutoRenew u sub on => snd (SetAutoRenew u sub on s)
  | CmdRedeem u code now id => snd (Redeem pepper u code now id s)
  | CmdAdjust u delta note actor now id => snd (AdjustBalance u delta note actor now id s)
  | CmdMintCodes input by_ now draw => snd (CreateRedeemCodes pepper input by_ now draw s)
  | CmdDeleteCode id => snd (DeleteRedeemCode id s)
  | RenewalSweep draw now => snd (RenewDueSubscriptions draw now s)
  | ExpirySweep now => snd (SweepExpiredSubscriptions now s)
  | UsageFlushed id delta => snd (call (AddSubscriptionUsedBytes id delta) internal_error s)
  | PeriodRolled id from to => snd (call (ResetSubscriptionPeriod id from to) internal_error s)
  end.

(** The id drawn for a subscription is new, and sweeps run at their time. *)
Definition admissible (T : Z) (s : Service) (c : Command) : Prop :=
  match c with
  | CmdAssign _ _ _ _ id => fresh id (engine s)
  | CmdCreateUser _ _ _ subID _ => fresh subID (engine s)
  | CmdRegister _ _ _ _ _ _ subID => fresh subID (engine s)
  | ExpirySweep now => now <= T
  | _ => True
  end.

Inductive step (T : Z) : Service -> Service -> Prop :=
| step_run s c : admissible T s c -> step T s (run s c).

(** A list of commands, each admissible where it runs. *)
Fixpoint admissible_all (T : Z) (s : Service) (cs : list Command) : Prop :=
  match cs with
  | [] => True
  | c :: cs => admissible T s c /\ admissible_all T (run s c) cs
  end.

Lemma console_history_steps (T : Z) (s : Service) (cs : list Command) :
  admissible_all T s cs -> rtc (step T) s (fold_left run cs s).
Proof.
  revert s. induction cs as [|c cs IH]; intros s; simpl; [done|]. intros [Hc Hcs].
  eapply rtc_l; [by apply step_run|by apply IH].
Qed.

Lemma run_in_step (T : Z) (s : Service) (c : Command) : in_step_at T s -> admissible T s c -> in_step_at T (run s c).
Proof.
  intros Hs Ha. destruct c; cbn [run admissible] in *.
  - by apply run_command_in_step.
  - apply keeps_snd; [apply keeps_CreatePlan|done].
  - apply keeps_snd; [apply keeps_UpdatePlan|done].
  - apply keeps_snd; [apply keeps_DeletePlan|done].
  - apply wp_snd; by apply wp_Assign.
  - apply keeps_snd; [apply keeps_UpdateTenantSubscription|done].
  - apply keeps_snd; [apply keeps_DeleteTenantSubscription|done].
  - apply wp_snd; by apply wp_CreateTenantUser.
  - apply keeps_snd; [apply keeps_SetTenantUserStatus|done].
  - apply keeps_snd; [apply keeps_SetTenantUserRole|done].
  - apply keeps_snd; [apply keeps_UpdateTenantUser|done].
  - apply keeps_snd; [apply keeps_SetTenantUserPassword|done].
  - apply keeps_snd; [apply keeps_DeleteTenantUser|done].
  - apply wp_snd; by apply wp_RegisterTenantUser.
  - apply keeps_snd; [apply keeps_CreateInvite|done].
  - apply keeps_snd; [apply keeps_DeleteInvite|done].
  - apply keeps_snd; [apply keeps_SelfPurchase|done].
  - apply keeps_snd; [apply keeps_SelfRenew|done].
  - apply keeps_snd; [apply keeps_SetAutoRenew|done].
  - apply keeps_snd; [apply keeps_Redeem|done].
  - apply keeps_snd; [apply keeps_AdjustBalance|done].
  - apply keeps_snd; [apply keeps_CreateRedeemCodes|done].
  - apply keeps_snd; [apply keeps_DeleteRedeemCode|done].
  - apply keeps_snd; [apply keeps_RenewDue|done].
  - apply wp_snd; by apply wp_Sweep.
  - apply keeps_snd; [apply keeps_AddUsed|done].
  - apply keeps_snd; [apply keeps_ResetPeriod|done].
Qed.

Lemma reachable_in_step (T : Z) (s s' : Service) : in_step_at T s -> rtc (step T) s s' -> in_step_at T s'.
Proof.
  intros Hs H. revert Hs. induction H as [s|s s1 s' [t c Ha] _ IH]; intros Hs; [done|]. apply IH. by apply run_in_step.
Qed.

(** C1: Whatever the console, the customers and the workers do, in any order and
    whether it succeeds or is refused, the data plane decides as it would after
    a restart: a key is served exactly when the key loaded from the database
    would be, with the same limits; and the console keeps an administrator who
    can sign in. *)
Theorem data_plane_answers_as_after_a_restart (T : Z) (s s' : Service) :
  in_step_at T s -> rtc (step T) s s' ->
  has_admin (engine s') /\
  forall id t, T <= t ->
    Usable (Get id (live s')) t = Usable (LoadFromState (engine s') !! id) t /\
    (Usable (Get id (live s')) t = true -> Get id (live s') = LoadFromState (engine s') !! id).
Proof.
  intros Hs H. pose proof (reachable_in_step T s s' Hs H) as Hs'. split; [apply Hs'|].
  intros id t Ht. destruct (in_step_load T s' id Hs') as [E|E].
  - unfold Get. by rewrite E.
  - destruct (E t Ht) as [E1 E2]. unfold Get. rewrite E1, E2. done.
Qed.
End ControlPlane.

(** ** A console at work *)
Module ConsoleDemo.
Definition root : User := User.mkUser "u0" "root" "hash" "admin" "active" None 0 0 0 0.
Definition start : Service := mkService (set_users [root] emptyDB) ∅ NewCounters.

Lemma start_in_step (T : Z) : in_step_at T start.
Proof.
  split; [split|done|]; simpl; try done.
  - intros u [<-|[]]. reflexivity.
  - split; simpl; [apply NoDup_nil_2|apply NoDup_singleton|done|done].
  - split; simpl; [apply NoDup_nil_2|done|done].
  - by intros u r [].
  - exists root. split; [by left|reflexivity].
Qed.

Definition hash (p : string) : option string := Some ("hash of " ++ p)%string.
Definition exec : Service -> Command -> Service := run hash (fun _ => false) (fun _ => false) None.

Definition plan : PlanInput :=
  mkPlanInput "Basic" ["web"%string] [] 1000 "" 0 0 0 2 30 5000000 "".
Definition bob : TenantUserInput := mkTenantUserInput "bob" "a long password" "" "p1" 0.

(** The plan, a user on it, a key, and the sweep a month and a day later. *)
Definition month : list Command :=
  [CmdCreatePlan plan 1 "p1"; CmdCreateUser bob 2 "u1" "s1" (mkUsageTables [] []);
   KeyCmd (CmdCreate "u1" (mkAccessKeyInput "laptop" [] [] 0) 3 "k1" "secret" "digest");
   ExpirySweep (31 * dayNs)].
Definition after_month : Service := fold_left exec month start.
Definition plan_status (k : KeyState) : string := PlanSnapshot.Status (KeyState.Plan k).

Lemma month_admissible : admissible_all hash (fun _ => false) (fun _ => false) None (31 * dayNs) start month.
Proof.
  split; [done|]. split; [|done]. intros r Hr. vm_compute in Hr. destruct Hr.
Qed.
End ConsoleDemo.

(** After the sweep the two stores differ, and refuse alike. *)
Lemma data_plane_answers_as_after_a_restart_witness :
  ConsoleDemo.plan_status <$> Get "k1" (live ConsoleDemo.after_month) = Some "active"%string /\
  ConsoleDemo.plan_status <$> LoadFromState (engine ConsoleDemo.after_month) !! "k1" = Some "expired"%string /\
  Usable (Get "k1" (live ConsoleDemo.after_month)) 4 = true /\
  Usable (Get "k1" (live ConsoleDemo.after_month)) (32 * dayNs) =
    Usable (LoadFromState (engine ConsoleDemo.after_month) !! "k1") (32 * dayNs).
Proof.
  do 3 (split; [vm_compute; reflexivity|]).
  destruct (data_plane_answers_as_after_a_restart ConsoleDemo.hash (fun _ => false) (fun _ => false) None (31 * dayNs)
    ConsoleDemo.start ConsoleDemo.after_month (ConsoleDemo.start_in_step _)
    (console_history_steps _ _ _ _ _ _ _ ConsoleDemo.month_admissible)) as [_ H].
  apply H. vm_compute. discriminate.
Defined.
