(* ===== verification/Effects.v ===== *)
(** * What a console operation is good for

    On top of the invariant of [ControlPlane]: disabling an account or a plan
    cuts its keys off at once, and a purchase puts the plan in force at once. *)

From Stdlib Require Import Ascii String.
From stdpp Require Import base gmap list strings relations.
From S2P Require Import Prelude Hoare Counters Model Store UsageTables Ledger GoStrings Keys Service Totp Accounts Sync Patch Access Codes Plans Tenants Invites Billing SyncPlans SyncAccounts SyncBilling ControlPlane.

(** ** Reading the live store off the tables *)

Lemma live_usable (T : Z) (s : Service) (k : AccessKey) (t : Z) :
  in_step_at T s -> In k (access_keys (engine s)) -> T <= t ->
  Usable (Get (AccessKey.ID k) (live s)) t = Usable (entry_of (engine s) k) t.
Proof.
  intros Hs Hk Ht. unfold Get. destruct (is_live _ _ _ Hs k Hk ltac:(tauto)) as [->|H]; [done|].
  destruct (H t Ht) as [-> ->]. done.
Qed.

Lemma disabled_user_unusable (db : StateDB) (k : AccessKey) (role : string) (t : Z) :
  standing (AccessKey.UserID k) db = Some (UserStatusDisabled, role) -> Usable (entry_of db k) t = false.
Proof.
  intros E. unfold entry_of. rewrite E. destruct (_ ==s KeyStatusActive); [|done]. simpl. by repeat case_match.
Qed.

(** The subscription that runs decides. *)
Lemma plan_of_running (db : StateDB) (r : UserSubscription) :
  sound db -> In r (user_subscriptions db) -> is_active r = true ->
  plan_of (rows_of (UserSubscription.UserID r) db) =
    SnapshotForPlan (Some r) (decode_snapshot (UserSubscription.PlanSnapshotJSON r)).
Proof.
  intros So Hr Ha. unfold rows_of. rewrite plan_of_shape. set (l := List.filter _ _).
  assert (In r l) as Hin by (apply List.filter_In; split; [done|by apply eqb_s_true]).
  destruct (DecidingSubscription_active l r) as (m & E & Hm & Hma); [|done|].
  { apply NoDup_map_filter, (sw_ids db (so_subs db So)). }
  unfold plan_of. rewrite E. apply List.filter_In in Hm as [Hm Hu]. apply eqb_s_true in Hu.
  assert (m = r) as -> by (apply (sw_active db (so_subs db So)); auto). done.
Qed.

(** ** Disabling an account *)

(** Nobody signed in as [id], and no key of [id] served. *)
Definition refused (k : AccessKey) (s : Service) (t : Z) : Prop := Usable (Get (AccessKey.ID k) (live s)) t = false.

Definition cut_off (id : string) (s : Service) (t : Z) : Prop :=
  (forall ses, In ses (sessions (engine s)) -> Session.UserID ses <> id) /\
  (forall k, In k (access_keys (engine s)) -> AccessKey.UserID k = id -> refused k s t).

Lemma status_written (id st : string) (now : Z) (x : unit) (db db' : StateDB) :
  setAccountStatusLocked id st now db = (Ok x, db') -> exists role, standing id db' = Some (st, role).
Proof.
  intros H. unfold setAccountStatusLocked in H. apply proc_bind_ok in H as (u & db1 & Hu & H).
  unfold account in Hu. destruct (GetUser id db) as [u'|] eqn:Eg; [|done]. injection Hu as -> ->.
  destruct (User.Status u ==s st) eqn:E.
  - injection H as _ <-. apply eqb_s_true in E. exists (User.Role u). unfold standing. by rewrite Eg, E.
  - apply proc_bind_ok in H as (y & db2 & Hr & H).
    assert (db2 = db1) as -> by (destruct (st ==s _); [by apply refuseIfLastAdmin_ok in Hr as [-> _]|by injection Hr as _ <-]).
    apply engine_call_ok in H. apply updateUserColumn_ok in H as [-> _]. exists (User.Role u).
    unfold standing. rewrite GetUser_update by done. rewrite Eg. apply GetUser_Some in Eg as [_ Eg].
    rewrite Eg, eqb_s_refl. done.
Qed.

Lemma end_sessions_ok (id : string) (x : unit) (s s' : Service) :
  end_sessions id s = (Ok x, s') ->
  s' = set_engine (set_sessions (sql_where (fun ses => negb (Session.UserID ses ==s id)) (sessions (engine s))) (engine s)) s.
Proof. intros [= _ <-]. done. Qed.

Lemma republish_engine (u : string) (s : Service) : engine (snd (republishUserKeys u s)) = engine s.
Proof.
  unfold republishUserKeys, mbind, proc_bind, read, svc_get, proc_get. destruct (GetUser u (engine s)); [|done].
  unfold userPlanSnapshot, mbind, proc_bind, svc_get, proc_get, or_fail. by destruct (SnapshotFromSubscription _).
Qed.

(** C7: Disabling an account takes effect before the call returns: no session of
    it is left and none of its keys is served any more, whatever their own
    expiry or the plan. *)
Theorem disabling_an_account_cuts_it_off (T : Z) (id : string) (now : Z) (s s' : Service) (v : AdminUserView) (t : Z) :
  in_step_at T s -> SetTenantUserStatus id UserStatusDisabled now s = (Ok v, s') -> T <= t -> cut_off id s' t.
Proof.
  intros Hs H Ht. pose proof (keeps_snd T _ s (keeps_SetTenantUserStatus T id UserStatusDisabled now) Hs) as Hs'.
  rewrite H in Hs'. simpl in Hs'. unfold SetTenantUserStatus, SetAccountStatus in H.
  apply proc_bind_ok in H as (? & ? & Hc & H). apply check_ok in Hc as [_ ->].
  apply proc_bind_ok in H as (? & s1 & Ha & H). apply account_call_ok in Ha as (db1 & Ha & ->).
  apply proc_bind_ok in Ha as (? & ? & Hc & Ha). apply check_ok in Hc as [_ ->].
  apply status_written in Ha as (role & Est).
  apply proc_bind_ok in H as (? & s2 & He & H). apply end_sessions_ok in He as ->.
  apply proc_bind_ok in H as (? & s3 & Hp & H).
  match type of Hp with _ ?st = _ => pose proof (republish_engine id st) as E3 end. rewrite Hp in E3. simpl in E3.
  pose proof (pure_run (m := tenantUserView id) s3) as E4. rewrite H in E4. simpl in E4. subst s'. split.
  - rewrite E3. simpl. intros ses Hin. apply sql_where_In in Hin as [_ Hn]. by apply negb_true_iff, eqb_s_false in Hn.
  - intros k Hk Hu. unfold refused. rewrite (live_usable T) by done. apply (disabled_user_unusable _ _ role).
    rewrite Hu. unfold standing. rewrite E3. exact Est.
Qed.

(** ** Disabling a plan *)

(** The terms the row carries are those of a disabled plan. *)
Definition stopped (r : UserSubscription) : Prop :=
  exists p, UserSubscription.PlanSnapshotJSON r = SnapPlan p /\ Plan.Status p = planStatusDisabled.

Definition runs_on (pid : string) (r : UserSubscription) : Prop := UserSubscription.PlanID r = pid /\ is_active r = true.

Lemma stopped_unusable (db : StateDB) (r : UserSubscription) (k : AccessKey) (t : Z) :
  sound db -> In r (user_subscriptions db) -> is_active r = true -> stopped r ->
  AccessKey.UserID k = UserSubscription.UserID r -> Usable (entry_of db k) t = false.
Proof.
  intros So Hr Ha (p & Ej & Es) Hu. unfold entry_of. rewrite Hu, plan_of_running by done.
  destruct (_ ==s KeyStatusActive); [|done]. destruct (standing _ db) as [st|]; [|done]. cbn [fmap option_fmap option_map].
  apply stopped_plan_unusable; simpl; unfold is_active in Ha; rewrite Ha, Ej; simpl; by rewrite Es.
Qed.

Lemma UpdateTerms_rows (s : UserSubscription) (x : unit) (db db' : StateDB) :
  UpdateUserSubscriptionTerms s db = (Ok x, db') ->
  user_subscriptions db' =
    sql_update (fun r => (UserSubscription.ID r ==s UserSubscription.ID s) && true) (terms_of (subscription_row s))
      (user_subscriptions db).
Proof.
  intros H. apply transact_ok in H. apply tx_bind_ok in H as (n & db1 & H & Hn).
  apply not_found_if_absent_ok in Hn as ->. by apply update_subscription_ok in H as (_ & -> & _).
Qed.

(** The rewriting of a list of rows, each to terms that stop it. *)
Lemma rewrite_all_stops (pid : string) (g : UserSubscription -> UserSubscription) (l : list UserSubscription)
    (x : unit) (s s' : Service) :
  (forall sub, UserSubscription.ID (g sub) = UserSubscription.ID sub /\ stopped (g sub)) ->
  (forall r, In r (user_subscriptions (engine s)) -> runs_on pid r ->
     stopped r \/ exists sub, In sub l /\ UserSubscription.ID sub = UserSubscription.ID r) ->
  (forall sub, In sub l -> UserSubscription.PlanID (g sub) = pid) ->
  proc_for (fun sub => rewrite_subscription (g sub)) l s = (Ok x, s') ->
  forall r, In r (user_subscriptions (engine s')) -> runs_on pid r -> stopped r.
Proof.
  intros Hg. revert s. induction l as [|sub l IH]; intros s Hall Hp H; simpl in H.
  { injection H as _ <-. intros r Hr Hrun. destruct (Hall r Hr Hrun) as [?|(q & [] & _)]. done. }
  apply proc_bind_ok in H as (y & s1 & H1 & H). eapply IH; [| |exact H]; [|intros q Hq; apply Hp; by right].
  unfold rewrite_subscription in H1. apply proc_bind_ok in H1 as (z & s2 & Hc & H1).
  apply call_ok in Hc as (db2 & Hc & ->). apply UpdateTerms_rows in Hc.
  pose proof (republish_engine (UserSubscription.UserID (g sub)) (set_engine db2 s)) as E1. rewrite H1 in E1. simpl in E1.
  rewrite E1, Hc. destruct (Hg sub) as [Eid Hst]. intros r Hr Hrun. apply sql_update_In in Hr as (q & Hq & ->).
  rewrite andb_true_r in *. destruct (UserSubscription.ID q ==s UserSubscription.ID (g sub)) eqn:E.
  - left. destruct Hst as (p & Ej & Es). exists p. split; [|done]. simpl. by rewrite Ej.
  - destruct (Hall q Hq Hrun) as [?|(c & [<-|Hin] & Ec)]; [by left| |right; by exists c].
    apply eqb_s_false in E. congruence.
Qed.

Lemma on_plan_spec (plan : Plan) (db : StateDB) (r : UserSubscription) :
  In r (on_plan plan db) <-> In r (user_subscriptions db) /\ runs_on (Plan.ID plan) r.
Proof.
  unfold on_plan, ListActiveUserSubscriptions, runs_on. rewrite List.filter_In, sort_by_In, sql_where_In, eqb_s_true.
  tauto.
Qed.

Lemma stop_stops (plan : Plan) (n : Z) (s s' : Service) :
  stopSubscriptionsOnPlan plan s = (Ok n, s') ->
  forall r, In r (user_subscriptions (engine s')) -> runs_on (Plan.ID plan) r -> stopped r.
Proof.
  intros H. unfold stopSubscriptionsOnPlan in H. apply proc_bind_ok in H as (? & ? & [= <- <-] & H). cbv zeta in H.
  apply proc_bind_ok in H as (x & s1 & H1 & H). injection H as _ <-.
  eapply (rewrite_all_stops (Plan.ID plan) (fun sub => UserSubscription.with_Snapshot
    (disabledPlanSnapshot (UserSubscription.PlanSnapshotJSON sub) plan) sub)); [| | |exact H1].
  - intros sub. split; [done|]. unfold disabledPlanSnapshot. by eexists.
  - intros r Hr Hrun. right. exists r. split; [|done]. by apply on_plan_spec.
  - intros sub Hin. by apply on_plan_spec in Hin as [_ [? _]].
Qed.

Lemma apply_stops (plan : Plan) (n : Z) (s s' : Service) :
  Plan.Status plan = planStatusDisabled -> applyPlanToExisting plan s = (Ok n, s') ->
  forall r, In r (user_subscriptions (engine s')) -> runs_on (Plan.ID plan) r -> stopped r.
Proof.
  intros Hd H. unfold applyPlanToExisting in H. apply proc_bind_ok in H as (? & ? & [= <- <-] & H). cbv zeta in H.
  apply proc_bind_ok in H as (x & s1 & H1 & H). injection H as _ <-.
  eapply (rewrite_all_stops (Plan.ID plan) (UserSubscription.with_Snapshot (planSnapshotJSON plan))); [| | |exact H1].
  - intros sub. split; [done|]. by exists plan.
  - intros r Hr Hrun. right. exists r. split; [|done]. by apply on_plan_spec.
  - intros sub Hin. by apply on_plan_spec in Hin as [_ [? _]].
Qed.

(** C6: Disabling a plan is an emergency stop: when the patch returns, no key of
    any user whose running subscription is on that plan is served, however much
    of the period is left. *)
Theorem disabling_a_plan_stops_its_subscribers (T : Z) (id : string) (body : Json) (now : Z) (s s' : Service)
    (v : PlanView) (sub : UserSubscription) (k : AccessKey) (t : Z) :
  in_step_at T s -> UpdatePlan id body now s = (Ok v, s') -> Plan.Status (pv_Plan v) = planStatusDisabled ->
  In sub (user_subscriptions (engine s')) -> UserSubscription.PlanID sub = Plan.ID (pv_Plan v) -> is_active sub = true ->
  In k (access_keys (engine s')) -> AccessKey.UserID k = UserSubscription.UserID sub -> T <= t ->
  refused k s' t.
Proof.
  intros Hs H Hd Hsub Hp Ha Hk Hu Ht. unfold refused. pose proof (keeps_snd T _ s (keeps_UpdatePlan T id body now) Hs) as Hs'.
  rewrite H in Hs'. simpl in Hs'. rewrite (live_usable T) by done.
  apply (stopped_unusable _ sub); try done; [apply Hs'|].
  unfold UpdatePlan in H. do 4 apply proc_bind_ok in H as (? & ? & _ & H). unfold store_plan in H.
  do 2 apply proc_bind_ok in H as (? & ? & _ & H).
  apply proc_bind_ok in H as (? & s2 & _ & H). cbv zeta in H. set (updated := fst _) in *.
  apply proc_bind_ok in H as (? & s3 & Hstop & H).
  assert (pv_Plan v = updated) as Ev.
  { destruct (snd _); [apply proc_bind_ok in H as (? & ? & _ & H)|]; by injection H as <- _. }
  rewrite Ev in *. apply eqb_s_true in Hd as Hd'. rewrite Hd' in Hstop.
  apply proc_bind_ok in Hstop as (n & s4 & Hstop & [= _ <-]).
  destruct (snd _).
  - apply proc_bind_ok in H as (n' & s5 & H & [= _ <-]). by eapply apply_stops.
  - injection H as _ <-. by eapply stop_stops.
Qed.

(** ** Buying a plan *)

Lemma purchase_row (s : UserSubscription) (e : BalanceEntry) (now : Z) (r : PurchaseResult) (db db' : StateDB) :
  PurchasePlanWithBalance s e now db = (Ok r, db') -> Replayed r = false ->
  UserSubscription.Status s = SubscriptionStatusActive -> snapshot_is_empty (UserSubscription.PlanSnapshotJSON s) = false ->
  In s (user_subscriptions db') /\ Subscription r = s /\ BalanceEntry.DeltaMicro (Entry r) = BalanceEntry.DeltaMicro e.
Proof.
  intros H Hr Hst Hsn. apply transact_ok in H. apply tx_bind_ok in H as (o & db0 & H0 & H).
  destruct o as [prior|]; [unfold activeSubscriptionTx in H; tx_invert; done|].
  apply tx_bind_ok in H as (e' & db1 & H1 & H). apply tx_bind_ok in H as ([] & db2 & H2 & H).
  cbv zeta in H. apply tx_bind_ok in H as ([] & db3 & H3 & H). injection H as <- <-.
  assert (UserSubscription.with_Status (status_or_active (UserSubscription.Status s)) s = s) as Es.
  { rewrite Hst. destruct s. simpl in *. by rewrite Hst. }
  rewrite Es in *. assert (UserSubscription.with_Snapshot (snapshot_or_braces (UserSubscription.PlanSnapshotJSON s)) s = s) as Ej.
  { unfold snapshot_or_braces. rewrite Hsn. by destruct s. }
  rewrite Ej in *. apply insert_subscription_ok in H3 as (-> & _). simpl. split; [apply in_app_iff; right; by left|].
  split; [done|]. unfold chargeInTx, upsert_user_balance, insert_balance_ledger, balanceForUpdate in H1. tx_invert; done.
Qed.

(** C5: What a customer buys is in force when the purchase returns: every active
    key of theirs is judged and limited by the plan bought and its expiry, and
    the answer reports the plan's price as the charge. *)
Theorem purchase_takes_effect (T : Z) (userID planID requestID : string) (now : Z) (subID entryID : string)
    (s s' : Service) (view : PurchaseResultView) :
  in_step_at T s -> SelfPurchase userID planID requestID now subID entryID s = (Ok view, s') ->
  pr_Replayed view = false ->
  exists user plan, GetUser userID (engine s) = Ok user /\ Store.GetPlan (TrimSpace planID) (engine s) = Ok plan /\
    Plan.Status plan = planStatusActive /\ (in_int64 (Plan.PriceMicro plan) -> pr_ChargedMicro view = Plan.PriceMicro plan) /\
    forall k t, In k (access_keys (engine s')) -> AccessKey.UserID k = userID -> AccessKey.Status k = KeyStatusActive ->
      T <= t ->
      let bought := entry k (User.Status user, User.Role user)
                      (SnapshotForPlan (Some (purchased_row subID userID plan now)) (Some plan)) in
      Usable (Get (AccessKey.ID k) (live s')) t = Usable (Some bought) t /\
      (Usable (Some bought) t = true -> Get (AccessKey.ID k) (live s') = Some bought).
Proof.
  intros Hs H Hrep. pose proof (keeps_snd T _ s (keeps_SelfPurchase T userID planID requestID now subID entryID) Hs) as Hs'.
  rewrite H in Hs'. simpl in Hs'. unfold SelfPurchase in H.
  apply proc_bind_ok in H as (user & ? & Hu & H). apply read_ok in Hu as [Hu ->].
  apply proc_bind_ok in H as (? & ? & Hc & H). apply check_ok in Hc as [_ ->].
  apply proc_bind_ok in H as (? & ? & Hc & H). apply check_ok in Hc as [_ ->].
  apply proc_bind_ok in H as (plan & ? & Hp & H). apply read_ok in Hp as [Hp ->].
  apply proc_bind_ok in H as (? & ? & Hc & H). apply check_ok in Hc as [Hact ->].
  apply proc_bind_ok in H as (? & ? & Hc & H). apply check_ok in Hc as [Hpos ->].
  apply proc_bind_ok in H as (? & ? & Hc & H). apply check_ok in Hc as [_ ->].
  apply proc_bind_ok in H as (r & s1 & Hc & H). apply call_ok in Hc as (db1 & Hc & ->).
  apply proc_bind_ok in H as (? & s2 & H2 & H). apply proc_bind_ok in H as (? & s3 & H3 & H).
  apply proc_bind_ok in H as (vw & s4 & H4 & H). injection H as <- <-.
  simpl in Hrep. rewrite Hrep in H2. injection H2 as _ <-.
  pose proof (pure_run (m := one_view (Subscription r)) s3) as E4. rewrite H4 in E4. simpl in E4. subst s4.
  assert (engine s3 = db1) as E3 by (injection H3 as _ <-; apply republish_engine).
  pose proof (purchase_row _ _ _ _ _ _ Hc Hrep eq_refl eq_refl) as (Hin & _ & Hdelta).
  pose proof (Purchase_touches _ _ _ _ _ _ (is_sound _ _ _ Hs) Hc eq_refl eq_refl) as [_ Eu].
  exists user, plan. split_and!; [done|done|by apply eqb_s_true| |].
  - intros Hi. simpl. rewrite Hrep, Hdelta. simpl. unfold neg64.
    apply Z.ltb_lt in Hpos. rewrite (wrap64_id (- Plan.PriceMicro plan)) by (int64_unfold; lia).
    rewrite Z.opp_involutive. by apply wrap64_id.
  - intros k t Hk Hku Hks Ht bought.
    assert (entry_of (engine s3) k = Some bought) as Ee.
    { unfold entry_of. apply eqb_s_true in Hks. rewrite Hks, Hku. rewrite E3 in *.
      unfold standing, GetUser in *. rewrite Eu. destruct (sql_first _ _) as [u0|]; [|done]. injection Hu as ->. simpl.
      pose proof (plan_of_running db1 (purchased_row subID userID plan now)) as Er. cbn [UserSubscription.UserID purchased_row] in Er.
      rewrite Er; [done|rewrite <- E3; apply Hs'|done|done]. }
    rewrite (live_usable T), Ee by done. split; [done|]. intros Hus.
    destruct (is_live _ _ _ Hs' k Hk ltac:(tauto)) as [E|E]; [by rewrite <- Ee|].
    destruct (E t Ht) as [_ E']. rewrite Ee in E'. congruence.
Qed.

(** A user on a plan, with a key and some money. *)
Module EffectsDemo.
Import ConsoleDemo.
Definition setup : list Command :=
  [CmdCreatePlan plan 1 "p1"; CmdCreateUser bob 2 "u1" "s1" (mkUsageTables [] []);
   KeyCmd (CmdCreate "u1" (mkAccessKeyInput "laptop" [] [] 0) 3 "k1" "secret" "digest");
   CmdAdjust "u1" 9000000 "cash" "root" 4 "b1"].
Definition ready : Service := Eval vm_compute in fold_left exec setup start.

Lemma ready_in_step : in_step_at 0 ready.
Proof.
  change ready with (fold_left exec setup start).
  apply (reachable_in_step hash (fun _ => false) (fun _ => false) None 0 start); [apply start_in_step|].
  apply console_history_steps. split; [done|]. split; [|done]. intros r Hr. vm_compute in Hr. destruct Hr.
Qed.

Definition disabled : res SvcErr AdminUserView * Service := Eval vm_compute in
  SetTenantUserStatus "u1" UserStatusDisabled 5 ready.
Definition stop : Json := JObject [("status"%string, JString "disabled")].
Definition stopped_plan : res SvcErr PlanView * Service := Eval vm_compute in UpdatePlan "p1" stop 5 ready.
Definition bought : res SvcErr PurchaseResultView * Service := Eval vm_compute in
  SelfPurchase "u1" "p1" "req-1" 5 "s2" "b2" ready.
Definition get {A} (d : A) (r : res SvcErr A) : A := match r with Ok a => a | Err _ => d end.
Definition key : AccessKey := Eval vm_compute in
  match access_keys (engine ready) with k :: _ => k | [] => new_row "" "" "" "" [] [] 0 0 end.
End EffectsDemo.

Lemma disabling_an_account_cuts_it_off_witness :
  Usable (Get "k1" (live EffectsDemo.ready)) 6 = true /\ cut_off "u1" (snd EffectsDemo.disabled) 6.
Proof.
  split; [vm_compute; reflexivity|].
  eapply (disabling_an_account_cuts_it_off 0 "u1" 5 EffectsDemo.ready (snd EffectsDemo.disabled));
    [exact EffectsDemo.ready_in_step|vm_compute; reflexivity|vm_compute; discriminate].
Defined.

Lemma disabling_a_plan_stops_its_subscribers_witness :
  Usable (Get "k1" (live EffectsDemo.ready)) 6 = true /\
  Usable (Get "k1" (live (snd EffectsDemo.stopped_plan))) 6 = false.
Proof.
  split; [vm_compute; reflexivity|].
  refine (disabling_a_plan_stops_its_subscribers 0 "p1" EffectsDemo.stop 5 EffectsDemo.ready
    (snd EffectsDemo.stopped_plan) _ _ EffectsDemo.key 6 EffectsDemo.ready_in_step _ _ _ _ _ _ _ _);
    [vm_compute; reflexivity|reflexivity|left; reflexivity|reflexivity|reflexivity|left; reflexivity|reflexivity|
     vm_compute; discriminate].
Defined.

Lemma purchase_takes_effect_witness :
  exists view, fst EffectsDemo.bought = Ok view /\ pr_ChargedMicro view = 5000000 /\
    exists user plan, Plan.Status plan = planStatusActive /\
      Usable (Get "k1" (live (snd EffectsDemo.bought))) 6 =
      Usable (Some (entry EffectsDemo.key (User.Status user, User.Role user)
        (SnapshotForPlan (Some (purchased_row "s2" "u1" plan 5)) (Some plan)))) 6.
Proof.
  eexists. split; [reflexivity|]. split; [reflexivity|].
  destruct (purchase_takes_effect 0 "u1" "p1" "req-1" 5 "s2" "b2" EffectsDemo.ready (snd EffectsDemo.bought) _
    EffectsDemo.ready_in_step ltac:(vm_compute; reflexivity) eq_refl) as (user & plan & _ & _ & Hp & _ & H).
  exists user, plan. split; [exact Hp|].
  apply (H EffectsDemo.key 6); [left; reflexivity|reflexivity|reflexivity|vm_compute; discriminate].
Defined.
