(* ===== verification/Refinement.v ===== *)
(** * The control plane against the store

    Every command of [ControlPlane] is a sequence of the store's transactions:
    whatever a handler does between its calls, and wherever it stops, the tables
    only move along [money_step].  What holds of every reachable store therefore
    holds under the whole service. *)

From Stdlib Require Import Ascii String.
From stdpp Require Import base gmap list strings relations.
From S2P Require Import Prelude Hoare Counters Model Store UsageTables Ledger Deposits GoStrings Keys Service Totp Accounts Money Sync Patch Access Codes Plans Tenants Invites Billing SyncPlans SyncAccounts SyncBilling ControlPlane.

Definition store_moves (s s' : Service) : Prop := rtc money_step (engine s) (engine s').

#[global] Instance store_moves_preorder : PreOrder store_moves.
Proof. split; [intros s; apply rtc_refl|intros a b c; unfold store_moves; intros; by etrans]. Qed.

(** ** Methods that are transactions of the store *)

Class StoreMethod {A} (m : Method A) : Prop := store_method : forall db, rtc money_step db (snd (m db)).

Ltac by_step c := intros db; apply rtc_once; apply c; done.

#[local] Instance sm_upsert_plan p : StoreMethod (UpsertPlan p).
Proof. by_step ms_upsert_plan. Qed.
#[local] Instance sm_delete_plan id : StoreMethod (Store.DeletePlan id).
Proof. by_step ms_delete_plan. Qed.
#[local] Instance sm_upsert_sub r : StoreMethod (UpsertUserSubscription r).
Proof. by_step ms_upsert_sub. Qed.
#[local] Instance sm_terms r : StoreMethod (UpdateUserSubscriptionTerms r).
Proof. by_step ms_terms. Qed.
#[local] Instance sm_used id d : StoreMethod (AddSubscriptionUsedBytes id d).
Proof. by_step ms_used. Qed.
#[local] Instance sm_reset id a b : StoreMethod (ResetSubscriptionPeriod id a b).
Proof. by_step ms_reset. Qed.
#[local] Instance sm_revoke id : StoreMethod (RevokeUserSubscription id).
Proof. by_step ms_revoke. Qed.
#[local] Instance sm_expire now : StoreMethod (ExpireStaleSubscriptions now).
Proof. by_step ms_expire. Qed.
#[local] Instance sm_auto id b : StoreMethod (SetSubscriptionAutoRenew id b).
Proof. by_step ms_auto_renew. Qed.
#[local] Instance sm_delete_code id : StoreMethod (Ledger.DeleteRedeemCode id).
Proof. by_step ms_delete_code. Qed.
#[local] Instance sm_insert_invite i : StoreMethod (InsertInvite i).
Proof. by_step ms_insert_invite. Qed.
#[local] Instance sm_delete_invite id : StoreMethod (Ledger.DeleteInvite id).
Proof. by_step ms_delete_invite. Qed.
#[local] Instance sm_delete_user id : StoreMethod (DeleteUser id).
Proof. by_step ms_delete_user. Qed.
#[local] Instance sm_insert_key k : StoreMethod (InsertAccessKey k).
Proof. by_step ms_insert_key. Qed.
#[local] Instance sm_update_key k : StoreMethod (UpdateAccessKeyRow k).
Proof. by_step ms_update_key. Qed.
#[local] Instance sm_delete_key id : StoreMethod (DeleteAccessKeyRow id).
Proof. by_step ms_delete_key. Qed.
#[local] Instance sm_password id h now : StoreMethod (UpdateUserPassword id h now).
Proof. by_step ms_column. Qed.
#[local] Instance sm_status id st now : StoreMethod (UpdateUserStatus id st now).
Proof. by_step ms_column. Qed.
#[local] Instance sm_role id r now : StoreMethod (UpdateUserRole id r now).
Proof. by_step ms_column. Qed.
#[local] Instance sm_sessions id : StoreMethod (DeleteSessionsByUser id).
Proof. by_step ms_delete_sessions. Qed.

(** The amount of a charge is negated in int64. *)
#[local] Instance sm_purchase sub id u price reason ref req now now' :
  StoreMethod (PurchasePlanWithBalance sub (charge_entry id u price reason ref req now) now').
Proof. intros db. apply rtc_once, ms_purchase, wrap64_in. Qed.
#[local] Instance sm_renew sub i id u price reason ref req now :
  StoreMethod (RenewSubscriptionWithBalance sub i (charge_entry id u price reason ref req now)).
Proof. intros db. apply rtc_once, ms_renew, wrap64_in. Qed.

(** ** Handlers *)

(** Walk down a handler; the calls are resolved one by one. *)
Ltac move_on :=
  cbv zeta;
  lazymatch goal with
  | |- forall _, _ => intros ?; move_on
  | |- Moves _ (mbind _ _) => apply moves_bind; [apply _|move_on|move_on]
  | |- Moves _ (check _ _) => apply moves_pure; [apply _|apply pure_check]
  | |- Moves _ (if _ then _ else _) => apply moves_if; move_on
  | |- Moves _ (match ?o with Some _ => _ | None => _ end) => destruct o; move_on
  | |- _ => apply _
  end.

#[local] Instance moves_call {A} (m : Method A) (h : StateErr -> SvcErr) : StoreMethod m -> Moves store_moves (call m h).
Proof.
  intros Hm s. specialize (Hm (engine s)). unfold store_moves, call. by destruct (m (engine s)) as [[a|e] db].
Qed.
#[local] Instance moves_publish f : Moves store_moves (publish f).
Proof. intros s. apply rtc_refl. Qed.
#[local] Instance moves_count f : Moves store_moves (count f).
Proof. intros s. apply rtc_refl. Qed.
#[local] Instance moves_for {A} (f : A -> Svc unit) (l : list A) :
  (forall x, Moves store_moves (f x)) -> Moves store_moves (proc_for f l).
Proof. intros Hf. induction l as [|x l IH]; simpl; apply _. Qed.

#[local] Instance moves_engine {A} (m : Method A) : StoreMethod m -> Moves (rtc money_step) (engine_call m).
Proof. intros Hm db. specialize (Hm db). unfold engine_call. by destruct (m db) as [[a|e] db']. Qed.
#[local] Instance moves_account {A} (m : Acct A) : Moves (rtc money_step) m -> Moves store_moves (account_call m).
Proof.
  intros Hm s. specialize (Hm (engine s)). unfold store_moves, account_call. by destruct (m (engine s)) as [[a|e] db].
Qed.
#[local] Instance moves_on_some {A} (o : option A) (f : A -> Svc unit) :
  (forall a, Moves store_moves (f a)) -> Moves store_moves (on_some o f).
Proof. intros Hf. destruct o; simpl; apply _. Qed.

(** Resolve a handler by its name, not by what it unfolds to. *)
#[local] Typeclasses Opaque republishUserKeys rewrite_subscription expireActiveSubscriptions AssignSubscription end_sessions
  stopSubscriptionsOnPlan applyPlanToExisting UpdatePlan store_terms UpdateTenantSubscription setAccountStatusLocked
  setAccountRoleLocked try_republish publishKey patched_plan validateTenantUserPatch tenantUserView one_view.

#[local] Instance moves_republish u : Moves store_moves (republishUserKeys u).
Proof. unfold republishUserKeys, userPlanSnapshot. move_on. Qed.
#[local] Instance moves_rewrite sub : Moves store_moves (rewrite_subscription sub).
Proof. unfold rewrite_subscription. move_on. Qed.
#[local] Instance moves_expire u : Moves store_moves (expireActiveSubscriptions u).
Proof. unfold expireActiveSubscriptions. move_on. Qed.
#[local] Instance moves_assign u p days now id : Moves store_moves (AssignSubscription u p days now id).
Proof. unfold AssignSubscription. move_on. Qed.
#[local] Instance moves_end_sessions id : Moves store_moves (end_sessions id).
Proof. unfold end_sessions. move_on. Qed.

#[local] Instance moves_stop p : Moves store_moves (stopSubscriptionsOnPlan p).
Proof. unfold stopSubscriptionsOnPlan. move_on. Qed.
#[local] Instance moves_apply p : Moves store_moves (applyPlanToExisting p).
Proof. unfold applyPlanToExisting. move_on. Qed.
#[local] Instance moves_UpdatePlan id body now : Moves store_moves (UpdatePlan id body now).
Proof. unfold UpdatePlan, store_plan. move_on. Qed.
#[local] Instance moves_store_terms a b : Moves store_moves (store_terms a b).
Proof. unfold store_terms. move_on. Qed.
#[local] Instance moves_UpdateSub id body now : Moves store_moves (UpdateTenantSubscription id body now).
Proof. unfold UpdateTenantSubscription. move_on. Qed.
#[local] Instance moves_set_status id st now : Moves (rtc money_step) (setAccountStatusLocked id st now).
Proof. unfold setAccountStatusLocked. move_on. Qed.
#[local] Instance moves_set_role id r now : Moves (rtc money_step) (setAccountRoleLocked id r now).
Proof. unfold setAccountRoleLocked. move_on. Qed.
#[local] Instance moves_SetStatus id st now : Moves store_moves (SetTenantUserStatus id st now).
Proof. unfold SetTenantUserStatus, SetAccountStatus. move_on. Qed.
#[local] Instance moves_SetRole id r now : Moves store_moves (SetTenantUserRole id r now).
Proof. unfold SetTenantUserRole, SetAccountRole. move_on. Qed.
#[local] Instance moves_SetPassword hash id p now : Moves store_moves (SetTenantUserPassword hash id p now).
Proof. unfold SetTenantUserPassword, SetAccountPassword, setPassword. move_on. Qed.
#[local] Instance moves_UpdateUser hash id patch now : Moves store_moves (UpdateTenantUser hash id patch now).
Proof.
  unfold UpdateTenantUser, write_patch. move_on.
Qed.
#[local] Instance moves_DeleteUser id : Moves store_moves (DeleteTenantUser id).
Proof. unfold DeleteTenantUser. move_on. Qed.
#[local] Instance moves_try u : Moves store_moves (try_republish u).
Proof. intros s. exact (moves_republish u s). Qed.
#[local] Instance moves_purchase u p r now a b : Moves store_moves (SelfPurchase u p r now a b).
Proof. unfold SelfPurchase. move_on. Qed.

Lemma renew_moves sub plan price now req id (s : Service) :
  store_moves s (snd (renewOneWithPlan sub plan price now req id s)).
Proof.
  unfold renewOneWithPlan. destruct (_ <=? 0); [reflexivity|].
  match goal with |- context [RenewSubscriptionWithBalance ?r ?i ?e] =>
    pose proof (store_method (m := RenewSubscriptionWithBalance r i e) (engine s)) as H;
    destruct (RenewSubscriptionWithBalance r i e (engine s)) as [[x|err] db]; simpl in H end; [|exact H].
  unfold store_moves. etrans; [exact H|]. simpl.
  match goal with |- context [snd (republishUserKeys _ ?s1)] => assert (engine s1 = db) as E by (by destruct (Replayed x));
    rewrite <- E at 1 end. apply moves_republish.
Qed.

#[local] Instance moves_SelfRenew u sub req now id : Moves store_moves (SelfRenew u sub req now id).
Proof.
  assert (forall r q, Moves store_moves (renew_call (renewOne r now q id))) as H.
  { intros r q s. unfold renew_call, renewOne. destruct (renewalPrice r (engine s)) as [[plan price]|e]; [|reflexivity].
    pose proof (renew_moves r plan price now q id s) as H. by destruct (renewOneWithPlan _ _ _ _ _ _ s) as [[x|e] s']. }
  unfold SelfRenew. move_on.
Qed.

Lemma renewals_move draw now (l : list UserSubscription) (v : RenewalView) (s : Service) :
  store_moves s (snd (fold_left (renew_due draw now) l (v, s))).
Proof.
  revert v s. induction l as [|sub l IH]; intros v s; simpl; [reflexivity|].
  destruct (renewalPrice sub (engine s)) as [[plan price]|e]; [|apply IH]. destruct (negb _); [apply IH|].
  pose proof (renew_moves sub plan price now (renewalRequestID sub) (draw sub) s) as H.
  destruct (renewOneWithPlan _ _ _ _ _ _ s) as [r s1]. etrans; [exact H|apply IH].
Qed.

#[local] Instance moves_RenewDue draw now : Moves store_moves (RenewDueSubscriptions draw now).
Proof.
  assert (Moves store_moves (renew_all draw now)) as H; [|unfold RenewDueSubscriptions; move_on].
  intros s. unfold renew_all. pose proof (renewals_move draw now
    (ListRenewableSubscriptions now renewalLeadTimeNs (engine s)) (mkRenewalView 0 0 0) s) as H.
  by destruct (fold_left _ _ _).
Qed.

#[local] Instance moves_publishKey row user : Moves store_moves (publishKey row user).
Proof. unfold publishKey, userPlanSnapshot. move_on. Qed.
#[local] Instance moves_CreateKey u input now id secret h : Moves store_moves (CreateAccessKey u input now id secret h).
Proof. unfold CreateAccessKey, insertAccessKeyWithinAllowance. move_on. Qed.
#[local] Instance moves_UpdateKey u k body : Moves store_moves (UpdateAccessKey u k body).
Proof. unfold UpdateAccessKey. move_on. Qed.

(** ** Calls with a condition on their arguments *)

Definition moved (s0 : Service) {A} (_ : A) (s : Service) : Prop := store_moves s0 s.

Lemma wp_moves {A} (s0 : Service) (m : Svc A) (s : Service) :
  Moves store_moves m -> store_moves s0 s -> wp m (moved s0) (store_moves s0) s.
Proof.
  intros Hm Hs. specialize (Hm s). unfold wp, moved. destruct (m s) as [[a|e] s']; simpl in Hm; by etrans.
Qed.

Lemma wp_store_call {A} (s : Service) (m : DbTx A) (h : StateErr -> SvcErr) :
  rtc money_step (engine s) (snd (transact m (engine s))) -> wp (call (transact m) h) (moved s) (store_moves s) s.
Proof. intros H. unfold wp, call. by destruct (transact m (engine s)) as [[a|e] db]. Qed.

Lemma adjust_moves (u : string) (delta : Z) (note actor : string) (now : Z) (id : string) (s : Service) :
  store_moves s (snd (AdjustBalance u delta note actor now id s)).
Proof.
  apply wp_snd. unfold AdjustBalance. svc_wp; try reflexivity. eapply wp_mono; [apply wp_store_call| |done].
  - apply rtc_once, ms_apply. simpl. unfold maxBalanceMicro, microPerUnit in *. bool_prop. int64_unfold. lia.
  - intros e s' H'. apply wp_moves; [|exact H']. unfold AdminBalance, SelfBalance. apply _.
Qed.

Definition amounts_fit (db : StateDB) : Prop :=
  forall c, In c (redeem_codes db) -> in_int64 (RedeemCode.AmountMicro c).

Lemma redeem_moves (pepper : option Pepper) (u code : string) (now : Z) (id : string) (s : Service) :
  amounts_fit (engine s) -> store_moves s (snd (Redeem pepper u code now id s)).
Proof.
  intros Hfit. apply wp_snd. unfold Redeem, redeemCodeAmount. svc_wp; try reflexivity.
  eapply wp_mono; [apply wp_store_call|by intros|done]. apply rtc_once, ms_redeem. simpl. apply Hfit.
  match goal with H : GetRedeemCodeByHash _ _ = Ok _ |- _ => rename H into Hg end. unfold GetRedeemCodeByHash in Hg.
  destruct (sql_first _ _) as [c|] eqn:E; [|done]. injection Hg as <-. by apply find_some_In in E as [? _].
Qed.

Lemma mint_moves (pepper : option Pepper) (input : RedeemCodeInput) (by_ : string) (now : Z)
    (draw : nat -> string * list Z) (i n : nat) :
  0 <= ri_MaxUses input -> Moves store_moves (mint_codes pepper input by_ now draw i n).
Proof.
  intros Hm. revert i. induction n as [|n IH]; intros i; cbn [mint_codes]; [apply _|]. cbv zeta.
  apply moves_bind; [apply _| |].
  - apply moves_call. intros db. by apply rtc_once, ms_insert_code.
  - intros _. apply moves_bind; [apply _|apply IH|]. intros l. apply _.
Qed.

Lemma codes_moves (pepper : option Pepper) (input : RedeemCodeInput) (by_ : string) (now : Z)
    (draw : nat -> string * list Z) (s : Service) : store_moves s (snd (CreateRedeemCodes pepper input by_ now draw s)).
Proof.
  apply wp_snd. unfold CreateRedeemCodes. svc_wp; try reflexivity. apply wp_moves; [|reflexivity].
  apply mint_moves. match goal with H : (0 <=? ri_MaxUses input) = true |- _ => by apply Z.leb_le in H end.
Qed.

Lemma create_user_moves (hash : string -> option string) (input : TenantUserInput) (now : Z) (id subID : string)
    (tb : UsageTables) (s : Service) :
  fresh_user id (engine s) -> store_moves s (snd (CreateTenantUser hash input now id subID tb s)).
Proof.
  intros Hf. apply wp_snd. unfold CreateTenantUser, CreateAccount. apply wp_bind, wp_account. cbv zeta.
  assert (store_moves s (set_engine (engine s) s)) as Hr by (rewrite set_engine_id; reflexivity).
  apply wp_bind, wp_check; [intros _|exact Hr]. apply wp_bind, wp_check; [intros _|exact Hr].
  apply wp_bind, wp_pure; [apply _|intros _ _|exact Hr]. apply wp_bind, wp_or_fail; [intros h _|exact Hr].
  apply wp_bind, wp_engine; [|exact Hr]. intros x db' H. apply wp_ret. simpl acc_ID.
  apply (wp_moves s); [move_on|]. unfold store_moves. simpl.
  pose proof (ms_insert_user (new_user id (TrimSpace (ti_Username input)) h (tenantUserRole (ti_Role input)) now)
    (engine s) Hf) as Hstep. unfold InsertUser in Hstep. rewrite H in Hstep. by apply rtc_once.
Qed.

#[local] Instance moves_grant u p now id : Moves store_moves (grant u p now id).
Proof. intros s. exact (moves_assign u p 0 now id s). Qed.

Lemma register_moves (letter digit : Z -> bool) (hash : string -> option string) (mode : RegistrationMode)
    (code name p : string) (now : Z) (id subID : string) (s : Service) :
  fresh_user id (engine s) ->
  store_moves s (snd (RegisterTenantUser letter digit hash mode code name p now id subID s)).
Proof.
  intros Hf. apply wp_snd. unfold RegisterTenantUser. svc_wp; try reflexivity. cbv zeta.
  assert (forall u, User.ID u = id ->
    wp (_ ← call (InsertUser u) mapUserWriteError; mret u) (fun _ => store_moves s) (store_moves s) s) as Hplain.
  { intros u <-. apply wp_bind. eapply wp_mono; [apply wp_store_call|by intros|done]. by apply rtc_once, ms_insert_user. }
  destruct mode; [by apply Hplain| |by apply Hplain]. apply wp_bind.
  eapply wp_mono; [apply wp_store_call; by apply rtc_once, ms_register| |done]. intros i s1 Hm1.
  apply (wp_moves s); [move_on|exact Hm1].
Qed.

(** ** The refinement *)

Section Refinement.
Context (hashPassword : string -> option string) (letter_above digit_above : Z -> bool) (pepper : option Pepper).

(** Ids drawn for users are new to the ledger, and stored amounts are int64
    values. *)
Definition well_drawn (s : Service) (c : Command) : Prop :=
  match c with
  | CmdCreateUser _ _ id _ _ | CmdRegister _ _ _ _ _ id _ => fresh_user id (engine s)
  | CmdRedeem _ _ _ _ => amounts_fit (engine s)
  | _ => True
  end.

Lemma run_moves (s : Service) (c : Command) :
  well_drawn s c -> store_moves s (run hashPassword letter_above digit_above pepper s c).
Proof.
  intros Hw. destruct c; try match goal with k : KeyCommand |- _ => destruct k end; cbn [run run_command well_drawn] in *;
    lazymatch goal with
    | |- store_moves _ (snd (CreateTenantUser _ _ _ _ _ _ _)) => by apply create_user_moves
    | |- store_moves _ (snd (RegisterTenantUser _ _ _ _ _ _ _ _ _ _ _)) => by apply register_moves
    | |- store_moves _ (snd (Redeem _ _ _ _ _ _)) => by apply redeem_moves
    | |- store_moves _ (snd (AdjustBalance _ _ _ _ _ _ _)) => by apply adjust_moves
    | |- store_moves _ (snd (CreateRedeemCodes _ _ _ _ _ _)) => by apply codes_moves
    | |- store_moves ?s (snd (?m ?s)) => 
        let H := fresh in assert (Moves store_moves m) as H by (cbv delta [DeleteAccessKey CreatePlan DeletePlan
          DeleteTenantSubscription CreateInvite granted_plan_name DeleteInvite SetAutoRenew DeleteRedeemCode
          SweepExpiredSubscriptions]; cbv beta; move_on); exact (H s)
    end.
Qed.

Fixpoint well_drawn_all (s : Service) (cs : list Command) : Prop :=
  match cs with
  | [] => True
  | c :: cs => well_drawn s c /\ well_drawn_all (run hashPassword letter_above digit_above pepper s c) cs
  end.

End Refinement.

Module RefinementDemo.
Import ConsoleDemo.
Definition shopping : list Command :=
  [CmdCreatePlan plan 1 "p1"; CmdCreateUser bob 2 "u1" "s1" (mkUsageTables [] []);
   CmdAdjust "u1" 9000000 "cash" "root" 4 "b1"; CmdPurchase "u1" "p1" "req-1" 5 "s2" "b2";
   CmdPurchase "u1" "p1" "req-2" 6 "s3" "b3"; CmdRenew "u1" "s2" "req-1" 7 "b4"].

Lemma start_store_wf : store_wf (engine start).
Proof.
  change (engine start) with (snd (InsertUser root emptyDB)).
  apply (money_step_wf emptyDB); [apply ms_insert_user; intros e []|apply emptyDB_store_wf].
Qed.
End RefinementDemo.

