(* ===== verification/Renewals.v ===== *)
(** * When a renewal is due

    The window of [renewalDue] in [src/internal/service/control_plane_purchase.go]
    against the period a renewal buys. *)

From Stdlib Require Import Ascii String.
From stdpp Require Import base gmap list strings.
From S2P Require Import Prelude Counters Model Store UsageTables Ledger GoStrings Keys Service Patch Access Codes Plans Tenants Billing ControlPlane.

Lemma expiryFromDays_add (days base : Z) :
  0 < days <= maxExpiryDays -> 0 <= base -> base + days * dayNs <= int64_max ->
  expiryFromDays days base = base + days * dayNs.
Proof.
  intros Hd Hb Hsum. unfold expiryFromDays, maxDays, maxExpiryDays in *.
  assert ((days <=? 0) = false) as -> by (apply Z.leb_gt; lia).
  assert ((int64_max / dayNs <? days) = false) as ->.
  { apply Z.ltb_ge. change (int64_max / dayNs) with 106751. lia. }
  unfold dayNs in *. unfold mul64. rewrite (wrap64_id (days * _)) by (int64_unfold; lia).
  unfold sub64. rewrite (wrap64_id (int64_max - _)) by (int64_unfold; lia).
  assert ((int64_max - days * 86400000000000 <? base) = false) as -> by (apply Z.ltb_ge; lia).
  unfold add64. apply wrap64_id. int64_unfold. lia.
Qed.

(** The window never exceeds the period being bought. *)
Lemma window_within_period (days : Z) :
  0 < days <= maxExpiryDays ->
  renewalWindowNs renewalLeadTimeNs days = Z.min renewalLeadTimeNs (days * dayNs).
Proof.
  intros Hd. unfold renewalWindowNs. assert ((days <=? 0) = false) as -> by (apply Z.leb_gt; lia).
  unfold maxExpiryDays, dayNs in *. rewrite (expiryFromDays_add days 0) by (unfold maxExpiryDays, dayNs; int64_unfold; lia).
  simpl (0 + _). unfold dayNs. cbv zeta. destruct (_ || _) eqn:E.
  - apply orb_true_iff in E as [E|E]; [apply Z.leb_le in E; lia|apply Z.ltb_lt in E; lia].
  - apply orb_false_iff in E as [_ E]. apply Z.ltb_ge in E. lia.
Qed.

Lemma due_iff (sub : UserSubscription) (plan : Plan) (t : Z) :
  0 < UserSubscription.ExpiresAtNs sub <= int64_max -> 0 <= t <= int64_max -> 0 < Plan.DurationDays plan <= maxExpiryDays ->
  renewalDue sub plan t = true <->
  UserSubscription.ExpiresAtNs sub - t <= Z.min renewalLeadTimeNs (Plan.DurationDays plan * dayNs).
Proof.
  intros He Ht Hd. unfold renewalDue. assert ((UserSubscription.ExpiresAtNs sub <=? 0) = false) as -> by (apply Z.leb_gt; lia).
  rewrite window_within_period by done. unfold sub64. rewrite wrap64_id by (int64_unfold; lia). apply Z.leb_le.
Qed.

(** C36: A renewal made before the subscription lapses is not repeated: until the
    moment the period in force would have ended, the sweep finds nothing due,
    however short the plan and however often it runs. *)
Theorem early_renewal_is_bought_once (sub : UserSubscription) (plan : Plan) (price now t : Z) :
  0 < Plan.DurationDays plan <= maxExpiryDays ->
  0 <= now < UserSubscription.ExpiresAtNs sub ->
  UserSubscription.ExpiresAtNs sub + Plan.DurationDays plan * dayNs <= int64_max ->
  0 <= t < UserSubscription.ExpiresAtNs sub ->
  renewalDue (next_period sub plan price now) plan t = false.
Proof.
  intros Hd Hn Hmax Ht. unfold dayNs in *.
  assert (UserSubscription.ExpiresAtNs (next_period sub plan price now) =
          UserSubscription.ExpiresAtNs sub + Plan.DurationDays plan * dayNs) as E.
  { simpl. unfold maxInt64. assert ((now <? UserSubscription.ExpiresAtNs sub) = true) as -> by (apply Z.ltb_lt; lia).
    apply expiryFromDays_add; unfold dayNs; lia. }
  unfold dayNs in E. apply not_true_is_false. intros H. apply due_iff in H; rewrite ?E in *; unfold dayNs in *; lia.
Qed.


Module RenewalsDemo.
Import ConsoleDemo.
Definition daily : PlanInput := mkPlanInput "Day pass" ["web"%string] [] 1000 "" 0 0 0 2 1 1000000 "".
Definition minute : Z := 60000000000.
(** The subscription ends one day after 2; the first pass comes a second late. *)
Definition late : Z := dayNs + 1000000000.
Definition setup : list Command :=
  [CmdCreatePlan daily 1 "p1"; CmdCreateUser bob 2 "u1" "s1" (mkUsageTables [] []);
   CmdAdjust "u1" 9000000 "cash" "root" 4 "b1"; CmdAutoRenew "u1" "s1" true].
Definition before : Service := Eval vm_compute in fold_left exec setup start.
Definition first_pass : Service := Eval vm_compute in exec before (RenewalSweep (fun _ => "b2"%string) late).
Definition second_pass : Service := Eval vm_compute in
  exec first_pass (RenewalSweep (fun _ => "b3"%string) (late + minute)).
Definition row : UserSubscription := Eval vm_compute in
  match user_subscriptions (engine before) with r :: _ => r | [] => UserSubscription.zero end.
Definition plan : Plan := Eval vm_compute in
  match plans (engine before) with p :: _ => p | [] => Plan.zero end.
End RenewalsDemo.

Lemma early_renewal_is_bought_once_witness :
  renewalDue RenewalsDemo.row RenewalsDemo.plan (dayNs - 5) = true /\
  renewalDue (next_period RenewalsDemo.row RenewalsDemo.plan 1000000 (dayNs - 5)) RenewalsDemo.plan (dayNs - 4) = false.
Proof.
  split; [vm_compute; reflexivity|].
  apply (early_renewal_is_bought_once RenewalsDemo.row RenewalsDemo.plan 1000000 (dayNs - 5) (dayNs - 4));
    vm_compute; intuition congruence.
Defined.

