(* ===== verification/Float64.v ===== *)
(** * Doubles

    What the sources do with [float64]: IEEE 754 binary64 in its specification
    form, the conversions from and to int64, and a duration in seconds. *)

From Stdlib Require Import SpecFloat.
From stdpp Require Import base numbers.
From S2P Require Import Prelude.

Definition float64 (n : Z) : spec_float := binary_normalize 53 1024 n 0 false.

Definition fadd : spec_float -> spec_float -> spec_float := SFadd 53 1024.
Definition fsub : spec_float -> spec_float -> spec_float := SFsub 53 1024.
Definition fmul : spec_float -> spec_float -> spec_float := SFmul 53 1024.
Definition fdiv : spec_float -> spec_float -> spec_float := SFdiv 53 1024.

(** [math.Trunc] as an integer, where the value has one. *)
Definition trunc (f : spec_float) : option Z :=
  match f with
  | S754_zero _ => Some 0
  | S754_finite neg m e =>
      let v := if 0 <=? e then Zpos m * 2 ^ e else Zpos m / 2 ^ (- e) in
      Some (if neg then - v else v)
  | _ => None
  end.

(** The conversion to int64: towards zero; what does not fit is the
    implementation's choice, the least integer on amd64. *)
Definition int64_of (f : spec_float) : Z :=
  match trunc f with
  | Some z => if (int64_min <=? z) && (z <=? int64_max) then z else int64_min
  | None => int64_min
  end.

(** [time.Duration.Seconds]. *)
Definition Second : Z := 1000000000.
Definition Seconds (d : Z) : spec_float :=
  fadd (float64 (Z.quot d Second)) (fdiv (float64 (Z.rem d Second)) (float64 Second)).

(** [time.Duration.Milliseconds]. *)
Definition Milliseconds (d : Z) : Z := Z.quot d 1000000.
