(* ===== verification/Duration.v ===== *)
(** * Durations as text

    [time.ParseDuration]: a signed sequence of decimal numbers, each with an
    optional fraction and a unit.  A duration is its nanoseconds. *)

From Stdlib Require Import Ascii String SpecFloat.
From stdpp Require Import base list strings.
From S2P Require Import Prelude GoStrings Float64.

Definition digit_value (c : ascii) : Z := Z.of_nat (nat_of_ascii c) - 48.

(** Digits up to 2^63; [None] is the overflow. *)
Fixpoint leadingInt (l : bytes) (x : Z) : option (Z * bytes) :=
  match l with
  | c :: l' =>
      if is_digit c then
        if 2 ^ 63 / 10 <? x then None
        else let x := x * 10 + digit_value c in if 2 ^ 63 <? x then None else leadingInt l' x
      else Some (x, l)
  | [] => Some (x, [])
  end.

(** A fraction loses what does not fit. *)
Fixpoint leadingFraction (l : bytes) (x : Z) (scale : spec_float) (overflow : bool) : Z * spec_float * bytes :=
  match l with
  | c :: l' =>
      if is_digit c then
        if overflow then leadingFraction l' x scale true
        else if (2 ^ 63 - 1) / 10 <? x then leadingFraction l' x scale true
        else let y := x * 10 + digit_value c in
             if 2 ^ 63 <? y then leadingFraction l' x scale true
             else leadingFraction l' y (fmul scale (float64 10)) false
      else (x, scale, l)
  | [] => (x, scale, [])
  end.

Definition is_number (c : ascii) : bool := Ascii.eqb c "."%char || is_digit c.

(** The unit runs up to the next number. *)
Fixpoint take_unit (l : bytes) : bytes * bytes :=
  match l with
  | c :: l' => if is_number c then ([], l) else let '(u, r) := take_unit l' in (c :: u, r)
  | [] => ([], [])
  end.

Definition unitMap : list (bytes * Z) :=
  [(list_ascii_of_string "ns", 1); (list_ascii_of_string "us", 1000);
   (of_codes [194; 181; 115]%nat, 1000); (of_codes [206; 188; 115]%nat, 1000);
   (list_ascii_of_string "ms", 1000000); (list_ascii_of_string "s", 1000000000);
   (list_ascii_of_string "m", 60000000000); (list_ascii_of_string "h", 3600000000000)].

Definition unit_of (u : bytes) : option Z :=
  match List.find (fun p => String.eqb (string_of_list_ascii (fst p)) (string_of_list_ascii u)) unitMap with
  | Some (_, n) => Some n
  | None => None
  end.

(** The conversion to uint64 of a value that is not negative. *)
Definition uint64_of (f : spec_float) : Z := match trunc f with Some z => z | None => 0 end.

(** One number with its unit: its nanoseconds and the rest. *)
Definition parse_term (l : bytes) : option (Z * bytes) :=
  match l with
  | [] => None
  | c :: _ =>
      if negb (is_number c) then None
      else match leadingInt l 0 with
           | None => None
           | Some (v, l1) =>
               let pre := negb (length l1 =? length l)%nat in
               let '(f, scale, l2, post) :=
                 match l1 with
                 | "."%char :: l1' =>
                     let '(f, scale, l2) := leadingFraction l1' 0 (float64 1) false in
                     (f, scale, l2, negb (length l2 =? length l1')%nat)
                 | _ => (0, float64 1, l1, false)
                 end in
               if negb pre && negb post then None
               else
                 let '(u, rest) := take_unit l2 in
                 match unit_of u with
                 | None => None
                 | Some unit =>
                     if 2 ^ 63 / unit <? v then None
                     else
                       let v := v * unit in
                       let v := if 0 <? f then v + uint64_of (fmul (float64 f) (fdiv (float64 unit) scale)) else v in
                       if 2 ^ 63 <? v then None else Some (v, rest)
                 end
           end
  end.

(** The terms of the text; each takes at least a byte, so its length is enough
    fuel. *)
Fixpoint parse_terms (fuel : nat) (l : bytes) (d : Z) : option Z :=
  match l, fuel with
  | [], _ => Some d
  | _, O => None
  | _, S fuel' =>
      match parse_term l with
      | None => None
      | Some (v, rest) => if 2 ^ 63 <? d + v then None else parse_terms fuel' rest (d + v)
      end
  end.

Definition ParseDuration (s : string) : option Z :=
  let l := list_ascii_of_string s in
  let '(neg, l) := match l with
                   | "-"%char :: l' => (true, l')
                   | "+"%char :: l' => (false, l')
                   | _ => (false, l)
                   end in
  if (string_of_list_ascii l ==s "0") then Some 0
  else match l with
       | [] => None
       | _ =>
           match parse_terms (length l) l 0 with
           | None => None
           | Some d => if neg then Some (neg64 (wrap64 d)) else if 2 ^ 63 - 1 <? d then None else Some d
           end
       end.

(** ** Facts *)

Lemma leadingInt_shorter (l l' : bytes) (x v : Z) : leadingInt l x = Some (v, l') -> (length l' <= length l)%nat.
Proof.
  revert x. induction l as [|c l IH]; intros x; simpl; [intros [= _ <-]; done|].
  destruct (is_digit c); [|intros [= _ <-]; done]. do 2 (case_match; [done|]). intros Hl. apply IH in Hl. lia.
Qed.

Lemma leadingFraction_shorter (l : bytes) (x : Z) (scale : spec_float) (o : bool) :
  (length (snd (leadingFraction l x scale o)) <= length l)%nat.
Proof.
  revert x scale o. induction l as [|c l IH]; intros; simpl; [done|]. destruct (is_digit c); [|done].
  repeat case_match; etrans; (apply IH || lia).
Qed.

Lemma take_unit_app (l : bytes) : fst (take_unit l) ++ snd (take_unit l) = l.
Proof.
  induction l as [|c l IH]; simpl; [done|]. destruct (is_number c); [done|].
  destruct (take_unit l). simpl in *. by rewrite IH.
Qed.

(** A term takes at least a byte. *)
Lemma parse_term_shorter (l rest : bytes) (v : Z) : parse_term l = Some (v, rest) -> (length rest < length l)%nat.
Proof.
  unfold parse_term. destruct l as [|c l]; [done|]. case_match; [done|].
  destruct (leadingInt (c :: l) 0) as [[v0 l1]|] eqn:E1; [|done]. apply leadingInt_shorter in E1.
  destruct (match l1 with "."%char :: _ => _ | _ => _ end) as [[[f scale] l2] post] eqn:E2.
  assert (length l2 <= length l1)%nat as H2.
  { destruct l1 as [|a l1']; [by injection E2 as <- <- <- <-|]. pose proof (leadingFraction_shorter l1' 0 (float64 1) false).
    repeat case_match; injection E2 as <- <- <- <-; simpl in *; lia. }
  destruct (negb _ && negb post); [done|]. destruct (take_unit l2) as [u r] eqn:E3. pose proof (take_unit_app l2) as H3. rewrite E3 in H3. simpl in H3.
  destruct u as [|a u].
  - destruct (unit_of []) eqn:E; [discriminate E|done].
  - destruct (unit_of (a :: u)) as [unit|]; [|done]. destruct (2 ^ 63 / unit <? v0); [done|]. cbv zeta.
    destruct (2 ^ 63 <? _); [done|]. intros [= _ <-]. rewrite <- H3 in H2.
    rewrite length_app in H2. simpl in *. lia.
Qed.

(** The fuel is enough: more of it changes nothing. *)
Lemma parse_terms_fuel (fuel fuel' : nat) (l : bytes) (d : Z) : (length l <= fuel)%nat -> (length l <= fuel')%nat ->
  parse_terms fuel l d = parse_terms fuel' l d.
Proof.
  revert fuel' l d. induction fuel as [|n IH]; intros [|n'] l d H H'; destruct l as [|c l]; try done; try (simpl in *; lia).
  cbn [parse_terms]. destruct (parse_term (c :: l)) as [[v rest]|] eqn:E; [|reflexivity].
  apply parse_term_shorter in E. simpl in *. destruct (_ <? _); [reflexivity|]. apply IH; lia.
Qed.

Example parse_durations :
  map ParseDuration ["1h30m"; "1.5s"; ".5m"; "-2us"; "+0"; "168h"; "1"; "s"; "h1"; ""; "9223372036854775807ns";
                     "9223372036854775808ns"; "-9223372036854775808ns"]%string =
  [Some 5400000000000; Some 1500000000; Some 30000000000; Some (-2000); Some 0; Some 604800000000000; None; None; None;
   None; Some 9223372036854775807; None; Some (-9223372036854775808)].
Proof. vm_compute. reflexivity. Qed.
