(* ===== verification/Latency.v ===== *)
(** * Latency tables

    [src/internal/node/latency.go]: for each node, the smoothed latency by
    domain.  Authority domains stay; the others share a fixed number of slots
    and the least recently used one gives way.

    The hash that keys a domain (xxh3) and the exponential of the smoothing
    ([math.Exp]) are parameters; the clock is an argument.  A table is locked for
    each operation, so an operation is one step. *)

From Stdlib Require Import SpecFloat String.
From stdpp Require Import base list strings numbers.
From S2P Require Import Prelude GoStrings Float64.

Record DomainLatencyStats := mkStats { Ewma : Z; LastUpdated : Z }.

Definition latencyReadTouchMinInterval : Z := 100000000.

Record latencySlot := mkSlot {
  slot_key : Z;
  slot_domain : string;
  slot_stats : DomainLatencyStats;
  lastAccessNs : Z;
  occupied : bool
}.

(** The zero value of a slot. *)
Definition empty_slot : latencySlot := mkSlot 0 "" (mkStats 0 0) 0 false.

Record LatencyTable := mkTable { authorities : list latencySlot; regular : list latencySlot }.

(** [maxEntries] is positive, or the constructor panics. *)
Definition NewLatencyTable (maxEntries : nat) : LatencyTable := mkTable [] (replicate maxEntries empty_slot).

Definition holds (key : Z) (s : latencySlot) : bool := occupied s && (slot_key s =? key).

Definition totalSizeLocked (t : LatencyTable) : nat :=
  (length (List.filter occupied (authorities t)) + length (List.filter occupied (regular t)))%nat.

Definition LatencyTable_Size (t : LatencyTable) : nat := totalSizeLocked t.

(** The first slot with the key, and its position. *)
Fixpoint find_slot (key : Z) (l : list latencySlot) (i : nat) : option (nat * latencySlot) :=
  match l with
  | [] => None
  | s :: l' => if holds key s then Some (i, s) else find_slot key l' (S i)
  end.

Definition deleteLatencySlot (slots : list latencySlot) (idx : nat) : list latencySlot :=
  take idx slots ++ drop (S idx) slots.

Definition popDomainLocked (key : Z) (t : LatencyTable) : option DomainLatencyStats * LatencyTable :=
  match find_slot key (authorities t) 0 with
  | Some (i, s) => (Some (slot_stats s), mkTable (deleteLatencySlot (authorities t) i) (regular t))
  | None =>
      match find_slot key (regular t) 0 with
      | Some (i, s) => (Some (slot_stats s), mkTable (authorities t) (<[i := empty_slot]> (regular t)))
      | None => (None, t)
      end
  end.

Definition upsertAuthorityLocked (key : Z) (domain : string) (st : DomainLatencyStats) (accessNs : Z)
    (t : LatencyTable) : LatencyTable :=
  mkTable (authorities t ++ [mkSlot key domain st accessNs true]) (regular t).

(** The scan over the regular slots: the first free one, and the occupied one
    with the oldest access, the first of those that tie. *)
Fixpoint scan_slots (l : list latencySlot) (i : nat) (empty : option nat) (oldest : option (nat * Z))
    : option nat * option (nat * Z) :=
  match l with
  | [] => (empty, oldest)
  | s :: l' =>
      if negb (occupied s) then scan_slots l' (S i) (match empty with None => Some i | _ => empty end) oldest
      else
        let oldest' := match oldest with
                       | None => Some (i, lastAccessNs s)
                       | Some (_, ns) => if lastAccessNs s <? ns then Some (i, lastAccessNs s) else oldest
                       end in
        scan_slots l' (S i) empty oldest'
  end.

(** The answer is the domain that was evicted. *)
Definition upsertRegularLocked (key : Z) (domain : string) (st : DomainLatencyStats) (accessNs : Z)
    (t : LatencyTable) : option string * LatencyTable :=
  let put i := mkTable (authorities t) (<[i := mkSlot key domain st accessNs true]> (regular t)) in
  match scan_slots (regular t) 0 None None with
  | (Some i, _) => (None, put i)
  | (None, Some (i, _)) => (slot_domain <$> regular t !! i, put i)
  | (None, None) => (None, t)
  end.

Section LatencyTable.
Context (domainKey : string -> Z) (exp : spec_float -> spec_float).

(** [now.Sub] saturates. *)
Definition duration_between (a b : Z) : Z := Z.max int64_min (Z.min int64_max (a - b)).

Definition tdEWMAUpdate (old : option DomainLatencyStats) (latency decayWindow now : Z) : DomainLatencyStats :=
  match old with
  | None => mkStats latency now
  | Some old =>
      let dt := Seconds (duration_between now (LastUpdated old)) in
      let decay := Seconds decayWindow in
      let decay := if SFleb decay (S754_zero false) then float64 1 else decay in
      let weight := exp (fdiv (SFopp dt) decay) in
      mkStats (int64_of (fadd (fmul (float64 (Ewma old)) weight)
                              (fmul (float64 latency) (fsub (float64 1) weight)))) now
  end.

(** Answers whether the table was empty, and the domain that gave way. *)
Definition UpdateClassified (domain : string) (latency decayWindow : Z) (isAuthority : bool) (now : Z)
    (t : LatencyTable) : bool * option string * LatencyTable :=
  let key := domainKey domain in
  let wasEmpty := (totalSizeLocked t =? 0)%nat in
  let '(old, t1) := popDomainLocked key t in
  let st := tdEWMAUpdate old latency decayWindow now in
  if isAuthority then (wasEmpty, None, upsertAuthorityLocked key domain st now t1)
  else let '(evicted, t2) := upsertRegularLocked key domain st now t1 in (wasEmpty, evicted, t2).

Definition Update (domain : string) (latency decayWindow now : Z) (t : LatencyTable) : bool * LatencyTable :=
  let '(wasEmpty, _, t') := UpdateClassified domain latency decayWindow false now t in (wasEmpty, t').

Definition touch (nowNs : Z) (s : latencySlot) : latencySlot :=
  if latencyReadTouchMinInterval <=? sub64 nowNs (lastAccessNs s)
  then mkSlot (slot_key s) (slot_domain s) (slot_stats s) nowNs (occupied s) else s.

Definition GetDomainStats (domain : string) (nowNs : Z) (t : LatencyTable)
    : option DomainLatencyStats * LatencyTable :=
  let key := domainKey domain in
  match find_slot key (authorities t) 0 with
  | Some (i, s) => (Some (slot_stats s), mkTable (<[i := touch nowNs s]> (authorities t)) (regular t))
  | None =>
      match find_slot key (regular t) 0 with
      | Some (i, s) => (Some (slot_stats s), mkTable (authorities t) (<[i := touch nowNs s]> (regular t)))
      | None => (None, t)
      end
  end.

(** [now] is read when the statistics carry no moment. *)
Definition LoadEntryClassified (domain : string) (st : DomainLatencyStats) (isAuthority : bool) (now : Z)
    (t : LatencyTable) : option string * LatencyTable :=
  let key := domainKey domain in
  let accessNs := if LastUpdated st <=? 0 then now else LastUpdated st in
  let t1 := snd (popDomainLocked key t) in
  if isAuthority then (None, upsertAuthorityLocked key domain st accessNs t1)
  else upsertRegularLocked key domain st accessNs t1.

Definition LoadEntry (domain : string) (st : DomainLatencyStats) (now : Z) (t : LatencyTable) : LatencyTable :=
  snd (LoadEntryClassified domain st false now t).

(** What [Range] visits, in its order. *)
Definition Range (t : LatencyTable) : list (string * DomainLatencyStats) :=
  map (fun s => (slot_domain s, slot_stats s))
    (List.filter occupied (authorities t) ++ List.filter occupied (regular t)).

(** The mean over the domains the table knows, in milliseconds.  Reading a
    domain touches its slot, so the table comes back too. *)
Fixpoint sum_ewma (domains : list string) (nowNs : Z) (sum : spec_float) (count : Z) (t : LatencyTable)
    : spec_float * Z * LatencyTable :=
  match domains with
  | [] => (sum, count, t)
  | d :: rest =>
      let d := TrimSpace d in
      if d ==s "" then sum_ewma rest nowNs sum count t
      else match GetDomainStats d nowNs t with
           | (Some st, t') => sum_ewma rest nowNs (fadd sum (float64 (Milliseconds (Ewma st)))) (count + 1) t'
           | (None, t') => sum_ewma rest nowNs sum count t'
           end
  end.

Definition AverageEWMAForDomainsMs (t : option LatencyTable) (domains : list string) (nowNs : Z)
    : option spec_float * option LatencyTable :=
  match t with
  | None => (None, None)
  | Some t =>
      if (LatencyTable_Size t =? 0)%nat || (length domains =? 0)%nat then (None, Some t)
      else let '(sum, count, t') := sum_ewma domains nowNs (float64 0) 0 t in
           if count =? 0 then (None, Some t') else (Some (fdiv sum (float64 count)), Some t')
  end.
End LatencyTable.

(** ** The table as a bounded map

    What the table knows is the list of its occupied slots; their order and
    place do not matter. *)

Definition known (t : LatencyTable) : list latencySlot := List.filter occupied (authorities t ++ regular t).

Definition look (key : Z) (t : LatencyTable) : option DomainLatencyStats :=
  slot_stats <$> List.find (fun s => slot_key s =? key) (known t).

Record table_ok (max : nat) (t : LatencyTable) : Prop := {
  tb_authorities : forall s, In s (authorities t) -> occupied s = true;
  tb_length : length (regular t) = max;
  tb_keys : NoDup (map slot_key (known t))
}.

Lemma known_In (s : latencySlot) (t : LatencyTable) :
  In s (known t) <-> (In s (authorities t) \/ In s (regular t)) /\ occupied s = true.
Proof. unfold known. rewrite filter_In, in_app_iff. done. Qed.

Lemma find_key_In (key : Z) (l : list latencySlot) (s : latencySlot) : NoDup (map slot_key l) ->
  List.find (fun s => slot_key s =? key) l = Some s <-> In s l /\ slot_key s = key.
Proof.
  intros Hn. split; [intros H; apply find_some in H as [? E]; by apply Z.eqb_eq in E|]. intros [Hin <-].
  destruct (List.find _ l) as [s'|] eqn:E.
  - apply find_some in E as [Hin' E]. apply Z.eqb_eq in E. f_equal. by apply (NoDup_map_inj slot_key l).
  - apply (find_none _ _ E) in Hin. by rewrite Z.eqb_refl in Hin.
Qed.

Lemma look_iff (max : nat) (key : Z) (t : LatencyTable) (st : DomainLatencyStats) : table_ok max t ->
  look key t = Some st <-> exists s, In s (known t) /\ slot_key s = key /\ slot_stats s = st.
Proof.
  intros W. unfold look. rewrite fmap_Some. split.
  - intros (s & H & ->). apply find_key_In in H as [? ?]; [|apply W]. by exists s.
  - intros (s & H & Hk & <-). exists s. split; [|done]. apply find_key_In; [apply W|done].
Qed.

(** Two tables that agree on the slots of a key agree on its lookup. *)
Lemma look_ext (max : nat) (key : Z) (t t' : LatencyTable) : table_ok max t -> table_ok max t' ->
  (forall s, slot_key s = key -> In s (known t') <-> In s (known t)) -> look key t' = look key t.
Proof.
  intros W W' H. apply option_eq. intros st. rewrite !(look_iff max) by done.
  split; intros (s & Hin & Hk & Hs); exists s; split_and!; try done; by apply H.
Qed.

Lemma find_slot_spec (key : Z) (l : list latencySlot) (i : nat) :
  match find_slot key l i with
  | Some (j, s) => exists l1 l2, l = l1 ++ s :: l2 /\ j = (i + length l1)%nat /\ holds key s = true /\
                     forall s', In s' l1 -> holds key s' = false
  | None => forall s, In s l -> holds key s = false
  end.
Proof.
  revert i. induction l as [|s l IH]; intros i; simpl; [done|]. destruct (holds key s) eqn:E.
  - exists [], l. split_and!; [done|simpl; lia|done|intros ? []].
  - specialize (IH (S i)). destruct (find_slot key l (S i)) as [[j s']|].
    + destruct IH as (l1 & l2 & -> & -> & Hh & Hl). exists (s :: l1), l2.
      split_and!; [done|simpl; lia|done|]. intros s'' [<-|Hin]; auto.
    + intros s' [<-|Hin]; auto.
Qed.

Lemma holds_iff (key : Z) (s : latencySlot) : holds key s = true <-> occupied s = true /\ slot_key s = key.
Proof. unfold holds. rewrite andb_true_iff, Z.eqb_eq. done. Qed.

Lemma deleteLatencySlot_app (l1 l2 : list latencySlot) (s : latencySlot) :
  deleteLatencySlot (l1 ++ s :: l2) (length l1) = l1 ++ l2.
Proof.
  unfold deleteLatencySlot. rewrite take_app_length. f_equal.
  replace (S (length l1)) with (length l1 + 1)%nat by lia. by rewrite drop_app_add.
Qed.

(** Filling the table at a place: the slots known before and after. *)
Lemma known_app (a r : list latencySlot) :
  known (mkTable a r) = List.filter occupied a ++ List.filter occupied r.
Proof. apply List.filter_app. Qed.

Lemma known_replace (a r1 r2 : list latencySlot) (old new : latencySlot) :
  known (mkTable a (r1 ++ old :: r2)) ≡ₚ
    (if occupied old then [old] else []) ++ known (mkTable a (r1 ++ r2)) /\
  <[length r1 := new]> (r1 ++ old :: r2) = r1 ++ new :: r2.
Proof.
  split; [|apply list_insert_middle || (rewrite insert_app_r_alt by lia; by rewrite Nat.sub_diag)].
  rewrite !known_app, !List.filter_app. simpl. destruct (occupied old); [|done]. simpl. by rewrite <- !Permutation_middle.
Qed.

(** One slot out of a list with distinct keys. *)
Lemma one_out (l l' : list latencySlot) (s : latencySlot) : NoDup (map slot_key l) -> l ≡ₚ s :: l' ->
  NoDup (map slot_key l') /\ forall x, In x l' <-> In x l /\ slot_key x <> slot_key s.
Proof.
  intros Hn Hp. rewrite Hp in Hn. simpl in Hn. inversion Hn as [|? ? Hs Hn' [E1 E2]]; subst. split; [done|]. intros x. split.
  - intros Hx. split; [apply (Permutation_in x (Permutation_sym Hp)); by right|]. intros E. apply Hs. rewrite <- E.
    apply list_elem_of_In, in_map_iff. by exists x.
  - intros [Hx Hk]. apply (Permutation_in x Hp) in Hx as [->|Hx]; done.
Qed.

Lemma known_out_authority (a1 a2 r : list latencySlot) (s : latencySlot) : occupied s = true ->
  known (mkTable (a1 ++ s :: a2) r) ≡ₚ s :: known (mkTable (a1 ++ a2) r).
Proof.
  intros Ho. rewrite !known_app, !List.filter_app. simpl. rewrite Ho, <- !app_assoc. simpl.
  by rewrite <- Permutation_middle.
Qed.

Lemma look_one (max : nat) (s : latencySlot) (t : LatencyTable) : table_ok max t -> In s (known t) ->
  look (slot_key s) t = Some (slot_stats s).
Proof. intros W Hin. apply (look_iff max); [done|]. by exists s. Qed.

(** Taking a domain out leaves exactly the slots of the other keys. *)
Record popped (max : nat) (key : Z) (t t' : LatencyTable) : Prop := {
  po_ok : table_ok max t';
  po_known : forall s, In s (known t') <-> In s (known t) /\ slot_key s <> key;
  po_authorities : forall s, In s (authorities t) -> slot_key s <> key -> In s (authorities t');
  po_full : (forall s, In s (regular t') -> occupied s = true) -> regular t' = regular t
}.

Lemma pop_spec (max : nat) (key : Z) (t : LatencyTable) : table_ok max t ->
  fst (popDomainLocked key t) = look key t /\ popped max key t (snd (popDomainLocked key t)).
Proof.
  intros W. destruct t as [a r]. unfold popDomainLocked. simpl.
  pose proof (find_slot_spec key a 0) as Fa. destruct (find_slot key a 0) as [[i s]|].
  - destruct Fa as (a1 & a2 & -> & -> & Hh & _). apply holds_iff in Hh as [Ho <-]. simpl. rewrite deleteLatencySlot_app.
    pose proof (known_out_authority a1 a2 r s Ho) as Hp. destruct (one_out _ _ _ (tb_keys _ _ W) Hp) as [Hn Hk].
    split; [symmetry; apply (look_one max); [done|]; rewrite Hp; by left|]. split; [|done| |done].
    + split; [|apply W|done]. intros x Hx. apply W. simpl. apply in_app_iff in Hx as [?|?]; apply in_app_iff; simpl; auto.
    + simpl. intros x Hx Hne. apply in_app_iff in Hx as [?|[<-|?]]; apply in_app_iff; auto. done.
  - pose proof (find_slot_spec key r 0) as Fr. destruct (find_slot key r 0) as [[i s]|].
    + destruct Fr as (r1 & r2 & -> & -> & Hh & _). apply holds_iff in Hh as [Ho <-]. simpl.
      destruct (known_replace a r1 r2 s empty_slot) as [Hp Ei]. rewrite Ei. rewrite Ho in Hp.
      destruct (known_replace a r1 r2 empty_slot empty_slot) as [Hp' _]. simpl in Hp, Hp'. rewrite <- Hp' in Hp.
      destruct (one_out _ _ _ (tb_keys _ _ W) Hp) as [Hn Hk].
      split; [symmetry; apply (look_one max); [done|]; rewrite Hp; by left|]. split; [|done|done|].
      * split; [apply W| |done]. pose proof (tb_length _ _ W) as Hl. simpl in *. by rewrite <- Hl, !length_app.
      * simpl. intros Hfull. specialize (Hfull empty_slot). rewrite in_app_iff in Hfull. discriminate Hfull. right. by left.
    + simpl. assert (forall s, In s (known (mkTable a r)) -> slot_key s <> key) as Hnone.
      { intros s Hs E. apply known_In in Hs as [[Hs|Hs] Ho]; [apply Fa in Hs|apply Fr in Hs];
          (assert (holds key s = true) by (by apply holds_iff)); congruence. }
      split; [|split; try done; intros s; naive_solver]. symmetry. apply eq_None_not_Some. intros [st H].
      apply (look_iff max) in H as (s & Hs & Hk & _); [|done]. by eapply Hnone.
Qed.

(** What the scan has found in the slots it has passed. *)
Definition scanned (p : list latencySlot) (empty : option nat) (oldest : option (nat * Z)) : Prop :=
  match empty with
  | Some i => exists s, p !! i = Some s /\ occupied s = false
  | None => forall s, In s p -> occupied s = true
  end /\
  match oldest with
  | Some (i, ns) => exists s, p !! i = Some s /\ occupied s = true /\ lastAccessNs s = ns /\
                      forall s', In s' p -> occupied s' = true -> ns <= lastAccessNs s'
  | None => forall s, In s p -> occupied s = false
  end.

Lemma scanned_step (p : list latencySlot) (s : latencySlot) (e : option nat) (o : option (nat * Z)) :
  scanned p e o ->
  if occupied s
  then scanned (p ++ [s]) e (match o with
                             | None => Some (length p, lastAccessNs s)
                             | Some (_, ns) => if lastAccessNs s <? ns then Some (length p, lastAccessNs s) else o
                             end)
  else scanned (p ++ [s]) (match e with None => Some (length p) | _ => e end) o.
Proof.
  intros [He Ho]. assert ((p ++ [s]) !! length p = Some s) as Hl by (by rewrite lookup_app_r, Nat.sub_diag by lia).
  assert (forall x, In x (p ++ [s]) -> In x p \/ x = s) as Hall.
  { intros x Hx. apply in_app_iff in Hx as [?|[<-|[]]]; auto. }
  destruct (occupied s) eqn:E; split.
  - destruct e as [i|]; [destruct He as (x & Hx & ?); exists x; split; [by apply lookup_app_l_Some|done]|].
    intros x Hx. apply Hall in Hx as [?| ->]; auto.
  - destruct o as [[i ns]|].
    + destruct Ho as (x & Hx & Hox & Hns & Hmin). destruct (Z.ltb_spec (lastAccessNs s) ns).
      * exists s. split_and!; try done. intros y Hy Hoy. apply Hall in Hy as [Hy| ->]; [specialize (Hmin y Hy Hoy)|]; lia.
      * exists x. split_and!; try done; [by apply lookup_app_l_Some|].
        intros y Hy Hoy. apply Hall in Hy as [Hy| ->]; [auto|lia].
    + exists s. split_and!; try done. intros y Hy Hoy. apply Hall in Hy as [Hy| ->]; [|lia]. rewrite (Ho y Hy) in Hoy. done.
  - destruct e as [i|]; [destruct He as (x & Hx & ?); exists x; split; [by apply lookup_app_l_Some|done]|by exists s].
  - destruct o as [[i ns]|]; [|intros x Hx; apply Hall in Hx as [?| ->]; auto]. destruct Ho as (x & Hx & Hox & Hns & Hmin).
    exists x. split_and!; try done; [by apply lookup_app_l_Some|].
    intros y Hy Hoy. apply Hall in Hy as [Hy| ->]; [auto|congruence].
Qed.

Lemma scan_slots_spec (l p : list latencySlot) (e : option nat) (o : option (nat * Z)) : scanned p e o ->
  let '(e', o') := scan_slots l (length p) e o in scanned (p ++ l) e' o'.
Proof.
  revert p e o. induction l as [|s l IH]; intros p e o H; simpl; [by rewrite app_nil_r|].
  apply (scanned_step p s) in H. replace (p ++ s :: l) with ((p ++ [s]) ++ l) by (by rewrite <- app_assoc).
  replace (S (length p)) with (length (p ++ [s])) by (rewrite length_app; simpl; lia).
  destruct (occupied s); simpl; by apply IH.
Qed.

Lemma scan_all (l : list latencySlot) : let '(e, o) := scan_slots l 0 None None in scanned l e o.
Proof. apply (scan_slots_spec l [] None None). split; intros ? []. Qed.

(** Filling a slot: the new one is known, the one that was there is not. *)
Lemma put_known (max : nat) (t : LatencyTable) (i : nat) (old new : latencySlot) : table_ok max t ->
  regular t !! i = Some old -> occupied new = true ->
  (forall s, In s (known t) -> slot_key s <> slot_key new) ->
  let t' := mkTable (authorities t) (<[i := new]> (regular t)) in
  table_ok max t' /\
  forall s, In s (known t') <-> s = new \/ (In s (known t) /\ (occupied old = true -> slot_key s <> slot_key old)).
Proof.
  intros W Hi Hnew Hfresh t'. subst t'. destruct t as [a r]. simpl in *.
  apply list_elem_of_split_length in Hi as (r1 & r2 & -> & ->).
  destruct (known_replace a r1 r2 old new) as [Hp Ei]. destruct (known_replace a r1 r2 new new) as [Hp' _].
  rewrite Ei. rewrite Hnew in Hp'. simpl in Hp'. pose proof (tb_keys _ _ W) as Hn.
  assert (NoDup (map slot_key (known (mkTable a (r1 ++ r2)))) /\
    forall s, In s (known (mkTable a (r1 ++ r2))) <->
      In s (known (mkTable a (r1 ++ old :: r2))) /\ (occupied old = true -> slot_key s <> slot_key old)) as [Hn' Hk].
  { destruct (occupied old); simpl in Hp; [destruct (one_out _ _ _ Hn Hp) as [? H]; split; [done|]; intros s; rewrite H; naive_solver|].
    split; [by rewrite <- Hp|]. intros s. split; [intros H; split; [|done]|intros [H _]];
      eapply Permutation_in; (exact H || exact Hp || by apply Permutation_sym). }
  split; [split|].
  - apply W.
  - pose proof (tb_length _ _ W) as Hl. simpl in *. rewrite <- Hl, !length_app. done.
  - rewrite Hp'. simpl. constructor; [|done]. rewrite list_elem_of_In. intros Hin. apply in_map_iff in Hin as (s & E & Hs).
    apply Hk in Hs as [Hs _]. by apply (Hfresh s).
  - intros s. split.
    + intros H. apply (Permutation_in s Hp') in H as [->|H]; [by left|]. right. by apply Hk.
    + intros [->|H]; apply (Permutation_in _ (Permutation_sym Hp')); [by left|right]. by apply Hk.
Qed.

(** ** The contract of an update *)

(** What writing a domain's statistics into a table it is not in does. *)
Lemma upsertAuthority_spec (max : nat) (key : Z) (domain : string) (st : DomainLatencyStats) (ns : Z) (t : LatencyTable) :
  table_ok max t -> (forall s, In s (known t) -> slot_key s <> key) ->
  let t' := upsertAuthorityLocked key domain st ns t in
  table_ok max t' /\ forall s, In s (known t') <-> s = mkSlot key domain st ns true \/ In s (known t).
Proof.
  intros W Hfresh. destruct t as [a r]. unfold upsertAuthorityLocked. cbv zeta. simpl. set (new := mkSlot _ _ _ _ _).
  assert (known (mkTable (a ++ [new]) r) ≡ₚ new :: known (mkTable a r)) as Hp.
  { rewrite (known_out_authority a [] r new) by done. by rewrite app_nil_r. }
  split; [split; simpl|].
  - intros s Hs. apply in_app_iff in Hs as [Hs|[<-|[]]]; [by apply W|done].
  - apply W.
  - rewrite Hp. simpl. constructor; [|apply W]. rewrite list_elem_of_In. intros Hin. apply in_map_iff in Hin as (s & E & Hs).
    by apply (Hfresh s).
  - intros s. split; [intros H; apply (Permutation_in s Hp) in H as [->|H]; auto|].
    intros [->|H]; apply (Permutation_in _ (Permutation_sym Hp)); [by left|by right].
Qed.

(** The slot that gives way: occupied, regular, and used least recently. *)
Definition gives_way (s : latencySlot) (t : LatencyTable) : Prop :=
  In s (regular t) /\ occupied s = true /\
  forall s', In s' (regular t) -> occupied s' = true /\ lastAccessNs s <= lastAccessNs s'.

Lemma upsertRegular_spec (max : nat) (key : Z) (domain : string) (st : DomainLatencyStats) (ns : Z) (t : LatencyTable) :
  (0 < max)%nat -> table_ok max t -> (forall s, In s (known t) -> slot_key s <> key) ->
  let '(evicted, t') := upsertRegularLocked key domain st ns t in
  let new := mkSlot key domain st ns true in
  table_ok max t' /\ authorities t' = authorities t /\
  match evicted with
  | None => forall s, In s (known t') <-> s = new \/ In s (known t)
  | Some d => exists v, gives_way v t /\ slot_domain v = d /\
                forall s, In s (known t') <-> s = new \/ (In s (known t) /\ slot_key s <> slot_key v)
  end.
Proof.
  intros Hm W Hfresh. unfold upsertRegularLocked. pose proof (scan_all (regular t)) as Hs.
  destruct (scan_slots _ _ _ _) as [[i|] o]; destruct Hs as [He Ho].
  - destruct He as (old & Hi & Hold). cbv zeta.
    destruct (put_known max t i old (mkSlot key domain st ns true) W Hi eq_refl Hfresh) as [W' Hk].
    split_and!; [done|done|]. intros s. rewrite Hk, Hold. naive_solver.
  - destruct o as [[i ns']|].
    + destruct Ho as (old & Hi & Hold & Hns & Hmin). rewrite Hi. simpl.
      destruct (put_known max t i old (mkSlot key domain st ns true) W Hi eq_refl Hfresh) as [W' Hk].
      split_and!; [done|done|]. exists old. split_and!; [|done|intros s; rewrite Hk; naive_solver].
      split_and!; [apply list_elem_of_In; by eapply list_elem_of_lookup_2|done|]. intros s' Hs'. subst ns'. split; auto.
    + exfalso. pose proof (tb_length _ _ W). destruct (regular t) as [|s l]; [simpl in *; lia|].
      specialize (He s (or_introl eq_refl)). rewrite (Ho s (or_introl eq_refl)) in He. done.
Qed.

Section Contract.
Context (domainKey : string -> Z) (exp : spec_float -> spec_float).

(** What an update answers and leaves behind. *)
Definition update_contract (max : nat) (key : Z) (st : DomainLatencyStats) (isAuthority wasEmpty : bool)
    (evicted : option string) (t t' : LatencyTable) : Prop :=
  table_ok max t' /\ look key t' = Some st /\ (wasEmpty = true <-> known t = []) /\
  (forall s, In s (authorities t) -> slot_key s <> key -> In s (authorities t')) /\
  match evicted with
  | None => forall k, k <> key -> look k t' = look k t
  | Some d => isAuthority = false /\
      exists v, gives_way v t /\ slot_domain v = d /\ look (slot_key v) t' = None /\
        forall k, k <> key -> k <> slot_key v -> look k t' = look k t
  end.

Lemma update_contract_holds (max : nat) (domain : string) (latency decayWindow : Z) (isAuthority : bool)
    (now : Z) (t : LatencyTable) :
  (0 < max)%nat -> table_ok max t ->
  let '(wasEmpty, evicted, t') := UpdateClassified domainKey exp domain latency decayWindow isAuthority now t in
  update_contract max (domainKey domain)
    (tdEWMAUpdate exp (look (domainKey domain) t) latency decayWindow now) isAuthority wasEmpty evicted t t'.
Proof.
  intros Hm W. unfold UpdateClassified. set (key := domainKey domain).
  destruct (pop_spec max key t W) as [Eo P]. destruct (popDomainLocked key t) as [old t1]. simpl in *. subst old.
  set (st := tdEWMAUpdate _ _ _ _ _). destruct P as [W1 Hk Ha Hfull].
  assert (forall s, In s (known t1) -> slot_key s <> key) as Hfresh by (intros s Hs; apply Hk in Hs; apply Hs).
  assert ((totalSizeLocked t =? 0)%nat = true <-> known t = []) as He.
  { unfold totalSizeLocked, known. rewrite Nat.eqb_eq, List.filter_app, <- length_app. apply length_zero_iff_nil. }
  unfold update_contract. destruct isAuthority.
  - destruct (upsertAuthority_spec max key domain st now t1 W1 Hfresh) as [W' Hk']. split_and!; [done| |done| |].
    + apply (look_iff max); [done|]. eexists. split; [apply Hk'; by left|done].
    + intros s Hs Hne. simpl. apply in_app_iff. left. auto.
    + intros k Hne. apply (look_ext max); [done..|]. intros s E. rewrite Hk', Hk. split; [intros [->|[? _]]; done|].
      intros Hs. right. split; [done|congruence].
  - pose proof (upsertRegular_spec max key domain st now t1 Hm W1 Hfresh) as Hu.
    destruct (upsertRegularLocked _ _ _ _ _) as [evicted t']. destruct Hu as (W' & Ea & Hu). split_and!; [done| |done| |].
    + apply (look_iff max); [done|]. exists (mkSlot key domain st now true). split; [|done].
      destruct evicted; [destruct Hu as (v & _ & _ & Hu)|]; apply Hu; by left.
    + intros s Hs Hne. rewrite Ea. auto.
    + destruct evicted as [d|].
      * destruct Hu as (v & Hv & Hd & Hu). assert (regular t1 = regular t) as Er by (apply Hfull; intros s Hs; by apply Hv).
        split; [done|]. exists v. split_and!; [by unfold gives_way in *; rewrite <- Er|done| |].
        -- apply eq_None_not_Some. intros [x Hx]. apply (look_iff max) in Hx as (s & Hs & E & _); [|done].
           apply Hu in Hs as [->|[_ ?]]; [|done]. simpl in E. destruct Hv as (Hv1 & Hv2 & _). apply (Hfresh v); [|done].
           apply known_In. auto.
        -- intros k Hne Hnv. apply (look_ext max); [done..|]. intros s E. rewrite Hu, Hk. naive_solver.
      * intros k Hne. apply (look_ext max); [done..|]. intros s E. rewrite Hu, Hk. naive_solver.
Qed.

(** C38: A latency table is a bounded map.  A sample is found under its domain,
    smoothed with the domain's previous value; every other domain keeps its
    value, except that where all the regular slots are taken the least recently
    used one gives way, and only to a regular domain.  Authorities are never
    dropped, the table never outgrows its slots, and the caller learns whether
    the table was empty and which domain went. *)
Theorem latency_table_is_a_bounded_map (max : nat) (domain : string) (latency decayWindow : Z) (isAuthority : bool)
    (now : Z) (t : LatencyTable) :
  (0 < max)%nat -> table_ok max t ->
  let '(wasEmpty, evicted, t') := UpdateClassified domainKey exp domain latency decayWindow isAuthority now t in
  update_contract max (domainKey domain)
    (tdEWMAUpdate exp (look (domainKey domain) t) latency decayWindow now) isAuthority wasEmpty evicted t t'.
Proof. apply update_contract_holds. Qed.
End Contract.

Lemma new_table_ok (max : nat) : table_ok max (NewLatencyTable max) /\ known (NewLatencyTable max) = [].
Proof.
  assert (known (NewLatencyTable max) = []) as E by (unfold NewLatencyTable, known; simpl; induction max; done).
  split; [split|done]; [intros ? []|apply length_replicate|rewrite E; constructor].
Qed.

Lemma update_ok (domainKey : string -> Z) (exp : spec_float -> spec_float) (max : nat) (domain : string)
    (latency decayWindow : Z) (isAuthority : bool) (now : Z) (t : LatencyTable) :
  (0 < max)%nat -> table_ok max t ->
  table_ok max (snd (UpdateClassified domainKey exp domain latency decayWindow isAuthority now t)).
Proof.
  intros Hm W. unfold UpdateClassified. destruct (pop_spec max (domainKey domain) t W) as [_ P].
  destruct (popDomainLocked _ t) as [old t1]. simpl in P. destruct P as [W1 Hk _ _].
  assert (forall s, In s (known t1) -> slot_key s <> domainKey domain) as Hf by (intros s Hs; apply Hk in Hs; apply Hs).
  destruct isAuthority; [exact (proj1 (upsertAuthority_spec max _ domain _ now t1 W1 Hf))|].
  pose proof (upsertRegular_spec max (domainKey domain) domain (tdEWMAUpdate exp old latency decayWindow now) now t1 Hm W1 Hf) as H.
  destruct (upsertRegularLocked _ _ _ _ _) as [e t']. apply H.
Qed.

Module LatencyDemo.
(** A key per first letter, and a smoothing that forgets the past. *)
Definition letter (d : string) : Z := match d with String c _ => Z.of_nat (Ascii.nat_of_ascii c) | _ => 0 end.
Definition forget (x : spec_float) : spec_float := float64 0.

Definition step (d : string) (auth : bool) (now : Z) (t : LatencyTable) : LatencyTable :=
  snd (UpdateClassified letter forget d 5000000 30000000000 auth now t).
Definition full : LatencyTable := step "origin" true 3 (step "beta" false 2 (step "alpha" false 1 (NewLatencyTable 2))).

Lemma full_ok : table_ok 2 full.
Proof. unfold full, step. do 3 (apply update_ok; [lia|]). apply new_table_ok. Qed.
End LatencyDemo.

Lemma latency_table_is_a_bounded_map_witness :
  let '(wasEmpty, evicted, t') := UpdateClassified LatencyDemo.letter LatencyDemo.forget "gamma" 7000000 30000000000 false 4 LatencyDemo.full in
  wasEmpty = false /\ evicted = Some "alpha"%string /\
  update_contract 2 (LatencyDemo.letter "gamma") (mkStats 7000000 4) false wasEmpty evicted LatencyDemo.full t'.
Proof.
  pose proof (latency_table_is_a_bounded_map LatencyDemo.letter LatencyDemo.forget 2 "gamma" 7000000 30000000000 false 4
    LatencyDemo.full ltac:(lia) LatencyDemo.full_ok) as H.
  vm_compute in H |- *. split; [reflexivity|]. split; [reflexivity|]. exact H.
Defined.
