(* ===== verification/RoutableView.v ===== *)
(** * Node hashes and the routable view

    [src/internal/node/hash.go] (the 128-bit identity of a node and its
    hexadecimal form) and [src/internal/platform/routableview.go] (the 64-shard
    set a platform picks its nodes from). *)

From Stdlib Require Import Ascii String.
From stdpp Require Import base gmap list strings numbers.
From S2P Require Import Prelude GoStrings Netip.

(** ** Node hashes: 16 bytes, the first the most significant *)

Abbreviation Hash := Z.

Definition hash_ok (h : Hash) : Prop := 0 <= h < 2 ^ 128.

Definition ZeroHash : Hash := 0.

(** The [i]-th byte, counted from the first. *)
Definition hash_byte (h : Hash) (i : Z) : Z := Z.land (Z.shiftr h (120 - 8 * i)) 255.

(** [hex.EncodeToString]: two lower case digits for each byte. *)
Fixpoint hex_bytes (n : nat) (v : Z) (acc : bytes) : bytes :=
  match n with
  | O => acc
  | S n' => hex_bytes n' (v / 16) (hex_digit (v mod 16) :: acc)
  end.

Definition Hex (h : Hash) : string := string_of_list_ascii (hex_bytes 32 h []).

Fixpoint decode_hex (l : bytes) (acc : Z) : option Z :=
  match l with
  | [] => Some acc
  | c :: l' => match hex_value c with Some d => decode_hex l' (acc * 16 + d) | None => None end
  end.

(** [hex.DecodeString] and the length check: 32 digits of either case. *)
Definition ParseHex (s : string) : option Hash :=
  let l := list_ascii_of_string s in
  if (length l =? 32)%nat then decode_hex l 0 else None.

(** ** The view *)

Definition numShards : nat := 64.

Record shard := mkShard { nodes : list Hash; index : gmap Hash nat }.

Record RoutableView := mkRoutableView { shards : list shard; view_size : Z }.

Definition NewRoutableView : RoutableView := mkRoutableView (replicate numShards (mkShard [] ∅)) 0.

Definition shardFor (h : Hash) : nat := Z.to_nat (hash_byte h 0 mod Z.of_nat numShards).

Definition set_shard (i : nat) (s : shard) (delta : Z) (rv : RoutableView) : RoutableView :=
  mkRoutableView (<[i := s]> (shards rv)) (view_size rv + delta).

Definition shard_at (h : Hash) (rv : RoutableView) : shard :=
  default (mkShard [] ∅) (shards rv !! shardFor h).

Definition AddNode (h : Hash) (rv : RoutableView) : RoutableView :=
  let s := shard_at h rv in
  match index s !! h with
  | Some _ => rv
  | None =>
      set_shard (shardFor h) (mkShard (nodes s ++ [h]) (<[h := length (nodes s)]> (index s))) 1 rv
  end.

(** Swap the last element into the freed position, then shorten by one.  The
    element moved is named by [last], which is in range when the index is. *)
Definition RemoveNode (h : Hash) (rv : RoutableView) : RoutableView :=
  let s := shard_at h rv in
  match index s !! h with
  | None => rv
  | Some idx =>
      let last := (length (nodes s) - 1)%nat in
      let moved := default ZeroHash (nodes s !! last) in
      let s' := if (idx =? last)%nat then s
                else mkShard (<[idx := moved]> (nodes s)) (<[moved := idx]> (index s)) in
      set_shard (shardFor h) (mkShard (take last (nodes s')) (delete h (index s'))) (-1) rv
  end.

Definition ContainsNode (h : Hash) (rv : RoutableView) : bool :=
  match index (shard_at h rv) !! h with Some _ => true | None => false end.

Definition Size (rv : RoutableView) : Z := view_size rv.

Fixpoint pick_in (target : Z) (l : list shard) : option Hash :=
  match l with
  | [] => None
  | s :: l' =>
      let n := Z.of_nat (length (nodes s)) in
      if target <? n then nodes s !! Z.to_nat target else pick_in (target - n) l'
  end.

(** [draw] is the generator's next value; [IntN total] reduces it. *)
Definition RandomPick (draw : Z) (rv : RoutableView) : option Hash :=
  let total := Size rv in
  if total =? 0 then None else pick_in (draw mod total) (shards rv).

(** What [Range] visits, in its order. *)
Definition RangeNodes (rv : RoutableView) : list Hash := concat (map nodes (shards rv)).

(** ** Hexadecimal round trip *)

Lemma hex_value_digit (d : Z) : 0 <= d < 16 -> hex_value (hex_digit d) = Some d.
Proof.
  intros Hd. assert (d = 0 \/ d = 1 \/ d = 2 \/ d = 3 \/ d = 4 \/ d = 5 \/ d = 6 \/ d = 7 \/ d = 8 \/ d = 9
    \/ d = 10 \/ d = 11 \/ d = 12 \/ d = 13 \/ d = 14 \/ d = 15) as H by lia.
  destruct_or! H; subst d; reflexivity.
Qed.

Lemma hex_bytes_length (n : nat) (v : Z) (acc : bytes) : length (hex_bytes n v acc) = (n + length acc)%nat.
Proof. revert v acc. induction n; intros; simpl; [done|]. rewrite IHn. simpl. lia. Qed.

Lemma decode_hex_app (l k : bytes) (acc : Z) :
  decode_hex (l ++ k) acc = match decode_hex l acc with Some v => decode_hex k v | None => None end.
Proof. revert acc. induction l as [|c l IH]; intros; simpl; [done|]. destruct (hex_value c); auto. Qed.

Lemma decode_hex_bytes (n : nat) (v : Z) (acc : bytes) :
  0 <= v < 16 ^ Z.of_nat n -> decode_hex (hex_bytes n v acc) 0 = decode_hex acc v.
Proof.
  revert v acc. induction n as [|n IH]; intros v acc Hv; [simpl in *; f_equal; lia|].
  cbn [hex_bytes]. rewrite Nat2Z.inj_succ, Z.pow_succ_r in Hv by lia. rewrite IH.
  - cbn [decode_hex]. rewrite hex_value_digit by (apply Z.mod_pos_bound; lia). f_equal.
    pose proof (Z.div_mod v 16). lia.
  - split; [apply Z.div_pos; lia|]. apply Z.div_lt_upper_bound; lia.
Qed.

(** Printing then parsing a hash gives it back. *)
Lemma ParseHex_Hex (h : Hash) : hash_ok h -> ParseHex (Hex h) = Some h.
Proof.
  intros Hh. unfold ParseHex, Hex. rewrite list_ascii_of_string_of_list_ascii, hex_bytes_length.
  cbn [length Nat.add Nat.eqb]. rewrite decode_hex_bytes; [done|]. exact Hh.
Qed.

Lemma Hex_inj (h h' : Hash) : hash_ok h -> hash_ok h' -> Hex h = Hex h' -> h = h'.
Proof. intros H H' E. apply ParseHex_Hex in H, H'. congruence. Qed.

(** ** The invariant of the view *)

(** The index is the inverse of the slice, and the slice holds only hashes of
    its shard. *)
Record shard_wf (i : nat) (s : shard) : Prop := {
  sh_index : forall h k, index s !! h = Some k <-> nodes s !! k = Some h;
  sh_home : forall h, h ∈ nodes s -> shardFor h = i
}.

Record view_wf (rv : RoutableView) : Prop := {
  vw_shards : length (shards rv) = numShards;
  vw_each : forall i s, shards rv !! i = Some s -> shard_wf i s;
  vw_size : view_size rv = Z.of_nat (length (RangeNodes rv))
}.

Lemma shardFor_lt (h : Hash) : (shardFor h < numShards)%nat.
Proof.
  unfold shardFor. pose proof (Z.mod_pos_bound (hash_byte h 0) (Z.of_nat numShards) ltac:(done)). lia.
Qed.

Lemma shard_at_lookup (rv : RoutableView) (h : Hash) : view_wf rv ->
  shards rv !! shardFor h = Some (shard_at h rv).
Proof.
  intros W. unfold shard_at. destruct (shards rv !! shardFor h) eqn:E; [done|].
  apply lookup_ge_None in E. rewrite (vw_shards _ W) in E. pose proof (shardFor_lt h). lia.
Qed.

Lemma NewRoutableView_wf : view_wf NewRoutableView.
Proof.
  split; [done| |done]. intros i s Hs. apply lookup_replicate in Hs as [-> _].
  split; [|intros h Hh; by apply elem_of_nil in Hh].
  intros h k. simpl. rewrite lookup_empty. split; intros H; by destruct k.
Qed.

Lemma concat_insert {A} (l : list (list A)) (i : nat) (x y : list A) : l !! i = Some x ->
  exists pre post, concat l = pre ++ x ++ post /\ concat (<[i := y]> l) = pre ++ y ++ post.
Proof.
  intros Hi. exists (concat (take i l)), (concat (drop (S i) l)). split.
  - rewrite <- (take_drop_middle l i x Hi) at 1. by rewrite concat_app.
  - rewrite (insert_take_drop l i y) by (eapply lookup_lt_Some; exact Hi). by rewrite concat_app.
Qed.

(** Replacing one shard replaces its piece of the enumeration. *)
Lemma RangeNodes_set (rv : RoutableView) (h : Hash) (s : shard) (d : Z) : view_wf rv ->
  exists pre post, RangeNodes rv = pre ++ nodes (shard_at h rv) ++ post /\
    RangeNodes (set_shard (shardFor h) s d rv) = pre ++ nodes s ++ post.
Proof.
  intros W. unfold RangeNodes, set_shard. cbn [shards]. rewrite list_fmap_insert.
  apply concat_insert. change (map nodes (shards rv)) with (nodes <$> shards rv).
  by rewrite list_lookup_fmap, shard_at_lookup.
Qed.

Lemma set_shard_wf (rv : RoutableView) (h : Hash) (s : shard) (d : Z) : view_wf rv ->
  shard_wf (shardFor h) s -> Z.of_nat (length (nodes s)) = Z.of_nat (length (nodes (shard_at h rv))) + d ->
  view_wf (set_shard (shardFor h) s d rv).
Proof.
  intros W Hs Hd. split.
  - unfold set_shard. cbn [shards]. rewrite length_insert. apply W.
  - unfold set_shard. cbn [shards]. intros i s' Hi. rewrite list_lookup_insert_Some in Hi.
    destruct Hi as [(<- & <- & _)|[_ Hi]]; [done|]. by apply (vw_each _ W).
  - destruct (RangeNodes_set rv h s d W) as (pre & post & E1 & E2).
    rewrite E2. unfold set_shard. cbn [view_size]. rewrite (vw_size _ W), E1, !length_app. lia.
Qed.

Lemma shard_at_wf (rv : RoutableView) (h : Hash) : view_wf rv -> shard_wf (shardFor h) (shard_at h rv).
Proof. intros W. apply (vw_each _ W), shard_at_lookup, W. Qed.

(** Membership in the whole view is membership in the home shard. *)
Lemma RangeNodes_home (rv : RoutableView) (h : Hash) : view_wf rv ->
  h ∈ RangeNodes rv <-> h ∈ nodes (shard_at h rv).
Proof.
  intros W. unfold RangeNodes. rewrite list_elem_of_In, in_concat. split.
  - intros (l & (s & <- & Hs)%in_map_iff & Hh). apply list_elem_of_In in Hs as Hs'.
    apply list_elem_of_lookup in Hs' as [i Hi]. pose proof (vw_each _ W i s Hi) as Hw.
    apply list_elem_of_In in Hh. rewrite <- (sh_home _ _ Hw h Hh) in Hi.
    rewrite shard_at_lookup in Hi by done. injection Hi as ->. done.
  - intros Hh. exists (nodes (shard_at h rv)). split; [|by apply list_elem_of_In].
    apply in_map, list_elem_of_In. eapply list_elem_of_lookup_2, shard_at_lookup, W.
Qed.

Lemma index_elem (i : nat) (s : shard) (h : Hash) : shard_wf i s ->
  is_Some (index s !! h) <-> h ∈ nodes s.
Proof.
  intros W. rewrite list_elem_of_lookup. split.
  - intros [k Hk]. exists k. by apply (sh_index _ _ W).
  - intros [k Hk]. exists k. by apply (sh_index _ _ W).
Qed.

(** ** [Contains] *)

Lemma ContainsNode_spec (rv : RoutableView) (h : Hash) : view_wf rv ->
  ContainsNode h rv = true <-> h ∈ RangeNodes rv.
Proof.
  intros W. rewrite RangeNodes_home, <- index_elem by eauto using shard_at_wf. unfold ContainsNode.
  destruct (index _ !! h) as [k|]; [by split; eauto|]. split; [done|]. by intros [k Hk].
Qed.

(** ** [Add] *)

Lemma add_shard_wf (i : nat) (s : shard) (h : Hash) : shard_wf i s -> shardFor h = i -> index s !! h = None ->
  shard_wf i (mkShard (nodes s ++ [h]) (<[h := length (nodes s)]> (index s))).
Proof.
  intros W Hi Hn. split; simpl.
  - intros h' k. rewrite lookup_insert_Some, lookup_app_Some, list_lookup_singleton_Some.
    split.
    + intros [[<- <-]|[Hne Hk]]; [right; split; [done|lia]|left; by apply (sh_index _ _ W)].
    + intros [Hk|[Hlen [Hk <-]]]; [|left; split; [done|lia]]. right. split; [|by apply (sh_index _ _ W)].
      intros ->. apply (sh_index _ _ W) in Hk. congruence.
  - intros h' [Hh|Hh%list_elem_of_singleton]%elem_of_app; [by apply (sh_home _ _ W)|by subst].
Qed.

Lemma AddNode_wf (rv : RoutableView) (h : Hash) : view_wf rv -> view_wf (AddNode h rv).
Proof.
  intros W. unfold AddNode. destruct (index _ !! h) eqn:E; [done|].
  apply set_shard_wf; [done|by apply add_shard_wf; [apply shard_at_wf| |]|].
  cbn [nodes]. rewrite length_app. simpl. lia.
Qed.

Lemma AddNode_members (rv : RoutableView) (h : Hash) : view_wf rv ->
  if ContainsNode h rv then AddNode h rv = rv else RangeNodes (AddNode h rv) ≡ₚ h :: RangeNodes rv.
Proof.
  intros W. unfold ContainsNode, AddNode. destruct (index _ !! h) eqn:E; [done|].
  match goal with |- RangeNodes (set_shard _ ?s ?d _) ≡ₚ _ =>
    destruct (RangeNodes_set rv h s d W) as (pre & post & E1 & ->) end.
  rewrite E1. simpl. solve_Permutation.
Qed.

(** ** [Remove] *)

(** Swapping the last element in removes exactly the element at the index. *)
Lemma swap_remove_perm (l : list Hash) (idx : nat) (h : Hash) : l !! idx = Some h ->
  let last := (length l - 1)%nat in
  let l' := if (idx =? last)%nat then l else <[idx := default ZeroHash (l !! last)]> l in
  l ≡ₚ h :: take last l'.
Proof.
  intros Hi last. assert (idx < length l)%nat as Hlt by (eapply lookup_lt_Some; exact Hi).
  pose proof (take_drop_middle l idx h Hi) as El.
  destruct (Nat.eqb_spec idx last) as [E|Hne]; cbv zeta.
  - rewrite <- E. rewrite <- El at 1. rewrite (drop_ge l (S idx)) by lia. by rewrite Permutation_app_comm.
  - destruct (lookup_lt_is_Some_2 l last ltac:(lia)) as [m Hm]. rewrite Hm. simpl.
    assert (drop (S idx) l = take (last - S idx) (drop (S idx) l) ++ [m]) as Ed.
    { rewrite <- (take_drop (last - S idx) (drop (S idx) l)) at 1. f_equal. rewrite drop_drop.
      replace (S idx + (last - S idx))%nat with last by lia.
      rewrite <- (take_drop_middle l last m Hm) at 1. rewrite drop_app_length' by (rewrite length_take; lia).
      by rewrite (drop_ge l (S last)) by lia. }
    rewrite insert_take_drop by lia. rewrite take_app, length_take, (take_ge (take idx l)) by (rewrite length_take; lia).
    replace (last - idx `min` length l)%nat with (S (last - S idx)) by lia. cbn [take].
    rewrite <- El at 1. rewrite Ed at 1. solve_Permutation.
Qed.

Lemma remove_shard_wf (i : nat) (s : shard) (h : Hash) (idx : nat) :
  shard_wf i s -> index s !! h = Some idx ->
  let last := (length (nodes s) - 1)%nat in
  let moved := default ZeroHash (nodes s !! last) in
  let s' := if (idx =? last)%nat then s
            else mkShard (<[idx := moved]> (nodes s)) (<[moved := idx]> (index s)) in
  shard_wf i (mkShard (take last (nodes s')) (delete h (index s'))).
Proof.
  intros W Hi last moved s'. pose proof (proj1 (sh_index _ _ W _ _) Hi) as Hn.
  assert (idx < length (nodes s))%nat as Hlt by (eapply lookup_lt_Some; exact Hn).
  destruct (lookup_lt_is_Some_2 (nodes s) last ltac:(lia)) as [m Hm].
  assert (moved = m) as Em by (unfold moved; by rewrite Hm). clearbody moved. subst moved.
  pose proof (proj2 (sh_index _ _ W _ _) Hm) as Hmi. split; cbn [nodes index].
  - intros h' k. rewrite lookup_delete_Some, lookup_take_Some. subst s'.
    destruct (Nat.eqb_spec idx last) as [E|Hne]; cbn [nodes index].
    + rewrite (sh_index _ _ W). split.
      * intros [Hh Hk]. split; [done|]. assert (k < length (nodes s))%nat by (eapply lookup_lt_Some; exact Hk).
        assert (k <> last); [|lia]. intros ->. congruence.
      * intros [Hk Hl]. split; [|done]. intros ->. apply (sh_index _ _ W) in Hk. rewrite Hi in Hk. injection Hk as ->. lia.
    + rewrite lookup_insert_Some, list_lookup_insert_Some. split.
      * intros [Hh [[<- <-]|[Hm' Hk]]]; [split; [left; done|lia]|]. apply (sh_index _ _ W) in Hk as Hk'.
        split; [right; split; [|done]; intros <-; congruence|].
        assert (k < length (nodes s))%nat by (eapply lookup_lt_Some; exact Hk').
        assert (k <> last); [|lia]. intros ->. congruence.
      * intros [[(<- & <- & _)|[Hk' Hk]] Hl].
        -- split; [|left; done]. intros ->. congruence.
        -- apply (sh_index _ _ W) in Hk as Hk2. split; [intros ->; congruence|]. right. split; [|done]. intros ->.
           rewrite Hk2 in Hmi. injection Hmi as ->. lia.
  - intros h' Hh'. apply (sh_home _ _ W).
    pose proof (swap_remove_perm (nodes s) idx h Hn) as Hp. cbv zeta in Hp. fold last in Hp. rewrite Hm in Hp. simpl in Hp.
    rewrite Hp. apply elem_of_cons. right. subst s'. by destruct (idx =? last)%nat.
Qed.

Lemma RemoveNode_wf (rv : RoutableView) (h : Hash) : view_wf rv -> view_wf (RemoveNode h rv).
Proof.
  intros W. unfold RemoveNode. destruct (index _ !! h) as [idx|] eqn:E; [|done].
  pose proof (shard_at_wf rv h W) as Hs. apply set_shard_wf; [done|by apply remove_shard_wf|].
  pose proof (swap_remove_perm _ _ _ (proj1 (sh_index _ _ Hs _ _) E)) as Hp. cbv zeta in Hp.
  apply Permutation_length in Hp. cbn [nodes length] in *. destruct (idx =? _)%nat; cbn [nodes]; lia.
Qed.

Lemma RemoveNode_members (rv : RoutableView) (h : Hash) : view_wf rv ->
  if ContainsNode h rv then RangeNodes rv ≡ₚ h :: RangeNodes (RemoveNode h rv) else RemoveNode h rv = rv.
Proof.
  intros W. unfold ContainsNode, RemoveNode. destruct (index _ !! h) as [idx|] eqn:E; [|done].
  match goal with |- _ ≡ₚ _ :: RangeNodes (set_shard _ ?s ?d _) =>
    destruct (RangeNodes_set rv h s d W) as (pre & post & E1 & ->) end.
  rewrite E1. pose proof (swap_remove_perm _ _ _ (proj1 (sh_index _ _ (shard_at_wf rv h W) _ _) E)) as Hp.
  cbv zeta in Hp. cbn [nodes]. rewrite Hp at 1. destruct (_ =? _)%nat; cbn [nodes]; solve_Permutation.
Qed.

(** ** Picking *)

Lemma pick_in_spec (l : list shard) (target : Z) : 0 <= target ->
  pick_in target l = concat (map nodes l) !! Z.to_nat target.
Proof.
  revert target. induction l as [|s l IH]; intros target Ht; cbn [pick_in map concat]; [done|].
  destruct (target <? _) eqn:E; bool_prop.
  - rewrite lookup_app_l by lia. done.
  - rewrite IH by lia. rewrite lookup_app_r by lia. f_equal. lia.
Qed.

(** The draws below the size enumerate the members, each once. *)
Lemma RandomPick_enumerates (rv : RoutableView) : view_wf rv ->
  map (fun k => RandomPick (Z.of_nat k) rv) (seq 0 (Z.to_nat (Size rv))) = map Some (RangeNodes rv).
Proof.
  intros W. unfold RandomPick, Size. rewrite (vw_size _ W), Nat2Z.id.
  apply list_eq. intros i. change (map ?f ?l) with (f <$> l). rewrite !list_lookup_fmap.
  destruct (decide (i < length (RangeNodes rv))%nat) as [Hi|Hi].
  - rewrite lookup_seq_lt by done. destruct (lookup_lt_is_Some_2 _ _ Hi) as [h Hh]. rewrite Hh. simpl.
    destruct (_ =? 0) eqn:E; bool_prop; [lia|].
    rewrite Z.mod_small by lia. rewrite pick_in_spec, Nat2Z.id by lia. by rewrite <- Hh.
  - rewrite lookup_seq_ge, (lookup_ge_None_2 (RangeNodes rv)) by lia. done.
Qed.

(** ** The view as a set *)

Inductive ViewOp := ViewAdd (h : Hash) | ViewRemove (h : Hash).

Definition run_view_op (rv : RoutableView) (op : ViewOp) : RoutableView :=
  match op with ViewAdd h => AddNode h rv | ViewRemove h => RemoveNode h rv end.

Definition run_view (ops : list ViewOp) : RoutableView := fold_left run_view_op ops NewRoutableView.

Definition set_op (S : gset Hash) (op : ViewOp) : gset Hash :=
  match op with ViewAdd h => {[h]} ∪ S | ViewRemove h => S ∖ {[h]} end.

Definition run_set (ops : list ViewOp) : gset Hash := fold_left set_op ops ∅.

(** A view that stands for a set. *)
Record view_is (rv : RoutableView) (S : gset Hash) : Prop := {
  vi_wf : view_wf rv;
  vi_once : NoDup (RangeNodes rv);
  vi_set : list_to_set (RangeNodes rv) = S
}.

Lemma view_is_elem (rv : RoutableView) (S : gset Hash) (h : Hash) : view_is rv S -> h ∈ RangeNodes rv <-> h ∈ S.
Proof. intros [_ _ <-]. by rewrite elem_of_list_to_set. Qed.

Lemma view_is_contains (rv : RoutableView) (S : gset Hash) (h : Hash) : view_is rv S ->
  ContainsNode h rv = bool_decide (h ∈ S).
Proof.
  intros V. apply Bool.eq_iff_eq_true. rewrite bool_decide_eq_true, ContainsNode_spec by apply V.
  by apply view_is_elem.
Qed.

Lemma view_is_step (rv : RoutableView) (S : gset Hash) (op : ViewOp) : view_is rv S ->
  view_is (run_view_op rv op) (set_op S op).
Proof.
  intros V. pose proof V as [W Hn HS]. destruct op as [h|h]; simpl.
  - pose proof (AddNode_members rv h W) as Hm. rewrite (view_is_contains rv S h V) in Hm.
    case_bool_decide as Hin.
    + rewrite Hm. replace ({[h]} ∪ S) with S by set_solver. done.
    + split; [by apply AddNode_wf|rewrite Hm; apply list.NoDup_cons; split; [by rewrite (view_is_elem rv S)|done]|].
      rewrite Hm. simpl. by rewrite HS.
  - pose proof (RemoveNode_members rv h W) as Hm. rewrite (view_is_contains rv S h V) in Hm.
    case_bool_decide as Hin.
    + rewrite Hm in Hn, HS. apply list.NoDup_cons in Hn as [Hh Hn].
      split; [by apply RemoveNode_wf|done|]. subst S. simpl. set_solver.
    + rewrite Hm. replace (S ∖ {[h]}) with S by set_solver. done.
Qed.

Lemma run_view_is (ops : list ViewOp) : view_is (run_view ops) (run_set ops).
Proof.
  unfold run_view, run_set.
  assert (view_is NewRoutableView ∅) as H by (split; [apply NewRoutableView_wf|apply NoDup_nil_2|done]).
  revert H. generalize NewRoutableView (∅ : gset Hash).
  induction ops as [|op ops IH]; intros rv S V; simpl; [done|]. by apply IH, view_is_step.
Qed.

(** C12: after any sequence of insertions and removals the sharded view is the
    set those operations build.  Membership, size and iteration agree with the
    set, iteration visits nothing twice, a pick fails exactly on the empty set,
    and the draws below the size pick every member exactly once, so a uniform
    draw is a uniform pick. *)
Theorem routable_view_refines_a_set (ops : list ViewOp) :
  let rv := run_view ops in
  let S := run_set ops in
  (forall h, ContainsNode h rv = bool_decide (h ∈ S)) /\
  Size rv = Z.of_nat (size S) /\
  NoDup (RangeNodes rv) /\ (forall h, h ∈ RangeNodes rv <-> h ∈ S) /\
  (forall draw, RandomPick draw rv = None <-> S = ∅) /\
  map (fun k => RandomPick (Z.of_nat k) rv) (seq 0 (size S)) = map Some (RangeNodes rv).
Proof.
  cbv zeta. pose proof (run_view_is ops) as V. set (rv := run_view ops) in *. set (S := run_set ops) in *.
  pose proof V as [W Hn HS]. assert (length (RangeNodes rv) = size S) as Hl
    by (rewrite <- HS, size_list_to_set by done; done).
  assert (Size rv = Z.of_nat (size S)) as Hsz by (unfold Size; rewrite (vw_size _ W); lia).
  split_and!; auto.
  - intros h. by apply view_is_contains.
  - intros h. by apply view_is_elem.
  - intros draw. unfold RandomPick. rewrite Hsz. destruct (_ =? 0) eqn:E; bool_prop.
    + split; [|done]. intros _. apply leibniz_equiv, size_empty_inv, Nat2Z.inj, E.
    + assert (0 < Z.of_nat (size S)) as Hpos by lia. pose proof (Z.mod_pos_bound draw _ Hpos) as Hd.
      rewrite pick_in_spec by lia. change (concat (map nodes (shards rv))) with (RangeNodes rv).
      rewrite lookup_ge_None. split; intros H; [lia|]. rewrite H, size_empty in E. done.
  - rewrite <- (RandomPick_enumerates rv W), Hsz, Nat2Z.id. done.
Qed.
