(* ===== verification/Leases.v ===== *)
(** * Sticky leases

    [src/internal/routing/lease.go] (the lease table of a platform and the
    number of leases per egress address) and [rotation_tombstone.go] (the
    bounded memory of the addresses accounts were rotated away from).

    Each table operation is one [Compute] on the concurrent map, so it is one
    step here. *)

From Stdlib Require Import Ascii String.
From stdpp Require Import base gmap list strings numbers.
From S2P Require Import Prelude GoStrings Netip RoutableView.

Record Lease := mkLease {
  NodeHash : Hash;
  EgressIP : Addr;
  CreatedAtNs : Z;
  ExpiryNs : Z;
  LastAccessedNs : Z
}.

Record leaseOwner := owner { UserID : string; Account : string }.

#[global] Instance leaseOwner_eq_dec : EqDecision leaseOwner.
Proof. solve_decision. Defined.

#[global] Program Instance leaseOwner_countable : Countable leaseOwner :=
  inj_countable' (fun o => (UserID o, Account o)) (fun p => owner (fst p) (snd p)) _.
Next Obligation. by intros []. Qed.

(** ** Leases per address *)

Abbreviation IPLoadStats := (gmap Addr Z).

Definition Inc (ip : Addr) (s : IPLoadStats) : IPLoadStats :=
  if negb (IsValid ip) then s else <[ip := default 0 (s !! ip) + 1]> s.

(** A counter is never removed, and one that was never made is not touched. *)
Definition Dec (ip : Addr) (s : IPLoadStats) : IPLoadStats :=
  if negb (IsValid ip) then s
  else match s !! ip with
       | Some n => <[ip := n - 1]> s
       | None => s
       end.

Definition Get (ip : Addr) (s : IPLoadStats) : Z :=
  if negb (IsValid ip) then 0 else default 0 (s !! ip).

Definition Snapshot (s : IPLoadStats) : gmap Addr Z :=
  filter (fun kv => IsValid (fst kv) = true /\ 0 < snd kv) s.

(** ** The lease table *)

Record LeaseTable := mkLeaseTable { leases : gmap leaseOwner Lease; stats : IPLoadStats }.

Definition NewLeaseTable : LeaseTable := mkLeaseTable ∅ ∅.

Definition GetLease (o : leaseOwner) (t : LeaseTable) : option Lease := leases t !! o.

Definition CreateLease (o : leaseOwner) (l : Lease) (t : LeaseTable) : LeaseTable :=
  let st := match leases t !! o with Some old => Dec (EgressIP old) (stats t) | None => stats t end in
  mkLeaseTable (<[o := l]> (leases t)) (Inc (EgressIP l) st).

Definition DeleteLease (o : leaseOwner) (t : LeaseTable) : option Lease * LeaseTable :=
  match leases t !! o with
  | Some old => (Some old, mkLeaseTable (delete o (leases t)) (Dec (EgressIP old) (stats t)))
  | None => (None, t)
  end.

Definition DeleteLeaseIfOlderThan (o : leaseOwner) (createdBeforeOrAtNs : Z) (t : LeaseTable)
    : option Lease * LeaseTable :=
  match leases t !! o with
  | Some current =>
      if createdBeforeOrAtNs <? CreatedAtNs current then (None, t)
      else (Some current, mkLeaseTable (delete o (leases t)) (Dec (EgressIP current) (stats t)))
  | None => (None, t)
  end.

Definition IsExpired (nowNs : Z) (l : Lease) : bool := ExpiryNs l <? nowNs.

(** ** Rotation tombstones

    The cache in most-recently-used order.  The map of the source indexes this
    list by key. *)

Definition rotationTombstoneMaxEntries : nat := N.to_nat 100000.

Record rotationTombstone := mkTombstone { key : string; egressIP : Addr; expiresAtNs : Z }.

Abbreviation tombstones := (list rotationTombstone).

Definition nul : string := String (ascii_of_nat 0) "".

Definition rotationTombstoneKey (platformID : string) (o : leaseOwner) : string :=
  platformID +:+ nul +:+ UserID o +:+ nul +:+ Account o.

Definition without (k : string) (c : tombstones) : tombstones := List.filter (fun t => key t <>s k) c.

Definition find_tombstone (k : string) (c : tombstones) : option rotationTombstone :=
  find (fun t => key t ==s k) c.

(** A refresh moves the record to the front; a new record can push the oldest
    ones out. *)
Definition store_tombstone (max : nat) (k : string) (ip : Addr) (expires : Z) (c : tombstones) : tombstones :=
  if negb (IsValid ip) then c
  else match find_tombstone k c with
       | Some _ => mkTombstone k ip expires :: without k c
       | None => take max (mkTombstone k ip expires :: c)
       end.

Definition lookup_tombstone (k : string) (nowNs : Z) (c : tombstones) : option Addr * tombstones :=
  match find_tombstone k c with
  | None => (None, c)
  | Some t =>
      if expiresAtNs t <=? nowNs then (None, without k c)
      else (Some (egressIP t), t :: without k c)
  end.

Definition rotationTombstoneTTL (interval stickyTTLNs : Z) : Z :=
  if interval <? stickyTTLNs then stickyTTLNs else interval.

(** ** The load of an address is the number of its leases *)

Definition on_ip (ip : Addr) (l : Lease) : Z := if bool_decide (EgressIP l = ip) then 1 else 0.

Definition load_of (ip : Addr) (t : LeaseTable) : Z := msum (fun _ l => on_ip ip l) (leases t).

Definition load_ok (t : LeaseTable) : Prop :=
  forall ip, IsValid ip = true -> Get ip (stats t) = load_of ip t /\ (0 < load_of ip t -> is_Some (stats t !! ip)).

Lemma on_ip_nonneg (ip : Addr) (l : Lease) : 0 <= on_ip ip l <= 1.
Proof. unfold on_ip. case_bool_decide; lia. Qed.

Lemma load_of_nonneg (ip : Addr) (t : LeaseTable) : 0 <= load_of ip t.
Proof.
  unfold load_of. induction (leases t) as [|o l m Hn IH] using map_ind.
  - rewrite msum_empty. lia.
  - rewrite msum_insert_new by done. pose proof (on_ip_nonneg ip l). lia.
Qed.

Lemma load_of_lookup (ip : Addr) (t : LeaseTable) (o : leaseOwner) (l : Lease) :
  leases t !! o = Some l -> on_ip ip l <= load_of ip t.
Proof.
  intros Ho. unfold load_of. rewrite <- (insert_delete_id _ _ _ Ho), msum_insert_new by apply lookup_delete_eq.
  pose proof (load_of_nonneg ip (mkLeaseTable (delete o (leases t)) (stats t))) as H. unfold load_of in H. simpl in H. lia.
Qed.

Lemma Get_Inc (ip ip' : Addr) (s : IPLoadStats) : IsValid ip = true ->
  Get ip (Inc ip' s) = Get ip s + (if bool_decide (ip' = ip) then 1 else 0).
Proof.
  intros Hv. unfold Get, Inc. rewrite Hv. simpl. case_bool_decide as E.
  - subst. rewrite Hv. simpl. by rewrite lookup_insert_eq.
  - destruct (IsValid ip'); simpl; rewrite ?lookup_insert_ne by done; lia.
Qed.

Lemma Get_Dec (ip ip' : Addr) (s : IPLoadStats) : IsValid ip = true ->
  (ip' = ip -> is_Some (s !! ip)) ->
  Get ip (Dec ip' s) = Get ip s - (if bool_decide (ip' = ip) then 1 else 0).
Proof.
  intros Hv Hs. unfold Get, Dec. rewrite Hv. simpl. case_bool_decide as E.
  - subst. rewrite Hv. simpl. destruct (Hs eq_refl) as [n ->]. by rewrite lookup_insert_eq.
  - destruct (IsValid ip'), (s !! ip'); simpl; rewrite ?lookup_insert_ne by done; lia.
Qed.

Lemma Inc_present (ip ip' : Addr) (s : IPLoadStats) : is_Some (s !! ip) -> is_Some (Inc ip' s !! ip).
Proof. intros H. unfold Inc. destruct (IsValid ip'); simpl; [|done]. rewrite lookup_insert_is_Some. destruct (decide (ip' = ip)); auto. Qed.

Lemma Dec_present (ip ip' : Addr) (s : IPLoadStats) : is_Some (s !! ip) -> is_Some (Dec ip' s !! ip).
Proof.
  intros H. unfold Dec. destruct (IsValid ip'); simpl; [|done]. destruct (s !! ip') eqn:E; [|done].
  rewrite lookup_insert_is_Some. destruct (decide (ip' = ip)); auto.
Qed.

(** Removing a lease. *)
Lemma load_ok_remove (o : leaseOwner) (l : Lease) (t : LeaseTable) :
  load_ok t -> leases t !! o = Some l ->
  load_ok (mkLeaseTable (delete o (leases t)) (Dec (EgressIP l) (stats t))).
Proof.
  intros H Ho ip Hv. destruct (H ip Hv) as [Hg Hp].
  assert (load_of ip (mkLeaseTable (delete o (leases t)) (Dec (EgressIP l) (stats t))) = load_of ip t - on_ip ip l) as El.
  { unfold load_of. simpl. rewrite msum_delete, Ho. simpl. lia. }
  pose proof (load_of_lookup ip t o l Ho) as Hle. pose proof (on_ip_nonneg ip l).
  rewrite El. simpl. rewrite Get_Dec; [|done|].
  - split; [unfold on_ip in *; lia|]. intros Hpos. apply Dec_present, Hp. lia.
  - intros E. apply Hp. unfold on_ip in Hle. rewrite bool_decide_eq_true_2 in Hle by done. lia.
Qed.

(** Adding a lease for an owner without one. *)
Lemma load_ok_add (o : leaseOwner) (l : Lease) (t : LeaseTable) :
  load_ok t -> leases t !! o = None ->
  load_ok (mkLeaseTable (<[o := l]> (leases t)) (Inc (EgressIP l) (stats t))).
Proof.
  intros H Ho ip Hv. destruct (H ip Hv) as [Hg Hp].
  assert (load_of ip (mkLeaseTable (<[o := l]> (leases t)) (Inc (EgressIP l) (stats t))) = on_ip ip l + load_of ip t) as El.
  { unfold load_of. simpl. rewrite msum_insert_new by done. lia. }
  rewrite El. simpl. rewrite Get_Inc by done. split; [unfold on_ip in *; lia|].
  intros Hpos. unfold on_ip in Hpos. case_bool_decide as E.
  - unfold Inc. rewrite E, Hv. simpl. rewrite lookup_insert_eq. eauto.
  - apply Inc_present, Hp. lia.
Qed.

(** Keeping the address of a lease keeps the load. *)
Lemma load_ok_update (o : leaseOwner) (l l' : Lease) (t : LeaseTable) :
  load_ok t -> leases t !! o = Some l -> EgressIP l' = EgressIP l ->
  load_ok (mkLeaseTable (<[o := l']> (leases t)) (stats t)).
Proof.
  intros H Ho E ip Hv. destruct (H ip Hv) as [Hg Hp].
  assert (load_of ip (mkLeaseTable (<[o := l']> (leases t)) (stats t)) = load_of ip t) as ->; [|done].
  unfold load_of. simpl. rewrite msum_insert, Ho. simpl. unfold on_ip. rewrite E. lia.
Qed.

Lemma CreateLease_ok (o : leaseOwner) (l : Lease) (t : LeaseTable) : load_ok t -> load_ok (CreateLease o l t).
Proof.
  intros H. unfold CreateLease. destruct (leases t !! o) as [old|] eqn:E; [|by apply load_ok_add].
  pose proof (load_ok_remove o old t H E) as H'. apply (load_ok_add o l) in H'; [|apply lookup_delete_eq].
  simpl in H'. by rewrite insert_delete_eq in H'.
Qed.

Lemma DeleteLease_ok (o : leaseOwner) (t : LeaseTable) : load_ok t -> load_ok (snd (DeleteLease o t)).
Proof. intros H. unfold DeleteLease. destruct (leases t !! o) eqn:E; [by apply load_ok_remove|done]. Qed.

Lemma DeleteLeaseIfOlderThan_ok (o : leaseOwner) (ns : Z) (t : LeaseTable) :
  load_ok t -> load_ok (snd (DeleteLeaseIfOlderThan o ns t)).
Proof.
  intros H. unfold DeleteLeaseIfOlderThan. destruct (leases t !! o) eqn:E; [|done].
  case_match; [done|by apply load_ok_remove].
Qed.

Lemma NewLeaseTable_ok : load_ok NewLeaseTable.
Proof. intros ip Hv. unfold load_of, Get. simpl. rewrite msum_empty, Hv. simpl. split; [done|lia]. Qed.

#[export] Hint Resolve CreateLease_ok DeleteLease_ok DeleteLeaseIfOlderThan_ok NewLeaseTable_ok : prism.

(** What a snapshot reports of a table in order. *)
Lemma Snapshot_spec (t : LeaseTable) (ip : Addr) : load_ok t ->
  Snapshot (stats t) !! ip =
    if IsValid ip && (0 <? load_of ip t) then Some (load_of ip t) else None.
Proof.
  intros H. unfold Snapshot. destruct (IsValid ip) eqn:Hv; simpl.
  - destruct (H ip Hv) as [Hg Hp]. unfold Get in Hg. rewrite Hv in Hg. simpl in Hg.
    destruct (0 <? load_of ip t) eqn:E; bool_prop.
    + destruct (Hp E) as [n Hn]. rewrite Hn in Hg. simpl in Hg. subst n. apply map_lookup_filter_Some. done.
    + apply map_lookup_filter_None. destruct (stats t !! ip) as [n|] eqn:Es; [right|by left].
      intros n' [= <-]. simpl in *. intros [_ ?]. lia.
  - apply map_lookup_filter_None. right. intros n _ [? _]. simpl in *. congruence.
Qed.
