(* ===== verification/Router.v ===== *)
(** * Routing

    [src/internal/routing/router.go] (route selection and lease management),
    [random.go] and [latency_eval.go] (the choice between two random candidates
    by latency and load), [rotation_tombstone.go] (avoiding the previous
    address), [lease_cleaner.go] and [scheduled_rotator.go] (the two sweeps).

    The pool behind the router is the interface [PoolAccessor] of the source, a
    record of functions here.  The random generator is a list of draws, the
    clock an argument.  Scores are IEEE 754 doubles in their specification
    form. *)

From Stdlib Require Import Ascii String SpecFloat.
From stdpp Require Import base gmap list strings numbers.
From S2P Require Import Prelude GoStrings Netip Float64 Latency RoutableView Leases.

(** ** What the router reads *)

(** A node: its egress address and, where it has a latency table, the read of
    one domain's statistics. *)
Record NodeEntry := mkNodeEntry {
  GetEgressIP : Addr;
  LatencyTable : option (string -> option DomainLatencyStats)
}.

Module Platform.
Record Platform := mkPlatform {
  ID : string;
  Name : string;
  StickyTTLNs : Z;
  AllocationPolicy : string;
  ScheduledRotationIntervalNs : Z;
  ScheduledRotationEnabled : bool;
  RotationAvoidPreviousIP : bool;
  View : RoutableView
}.
End Platform.
Abbreviation Platform := Platform.Platform.

Definition AllocationPolicyBalanced : string := "BALANCED".
Definition AllocationPolicyPreferLowLatency : string := "PREFER_LOW_LATENCY".
Definition AllocationPolicyPreferIdleIP : string := "PREFER_IDLE_IP".

Definition DefaultPlatformID : string := "00000000-0000-0000-0000-000000000000".

Record PoolAccessor := mkPool {
  GetEntry : Hash -> option NodeEntry;
  GetPlatform : string -> option Platform;
  GetPlatformByName : string -> option Platform;
  RangePlatforms : list Platform
}.

(** The configuration: the pool, the latency authorities, the window in which a
    measurement counts, the domain of a target and the display tag of a node. *)
Record RouterConfig := mkRouterConfig {
  Pool : PoolAccessor;
  Authorities : list string;
  P2CWindow : Z;
  ExtractDomain : string -> string;
  NodeTagResolver : Hash -> string
}.

(** ** Events and state *)

Inductive LeaseEventType := LeaseCreate | LeaseTouch | LeaseReplace | LeaseRemove | LeaseExpire.

Record LeaseEvent := mkLeaseEvent {
  EventType : LeaseEventType;
  EventPlatformID : string;
  EventUserID : string;
  EventAccount : string;
  EventNodeHash : Hash;
  EventEgressIP : Addr;
  EventCreatedAtNs : Z
}.

(** The routing state of each platform, the tombstones, and the events handed
    to the listener so far. *)
Record Router := mkRouter {
  states : gmap string LeaseTable;
  rotationTombstones : tombstones;
  emitted : list LeaseEvent
}.

Definition NewRouter : Router := mkRouter ∅ [] [].

Definition set_state (pid : string) (t : LeaseTable) (r : Router) : Router :=
  mkRouter (<[pid := t]> (states r)) (rotationTombstones r) (emitted r).

Definition set_tombstones (c : tombstones) (r : Router) : Router := mkRouter (states r) c (emitted r).

Definition emitLeaseEvent (e : LeaseEvent) (r : Router) : Router :=
  mkRouter (states r) (rotationTombstones r) (emitted r ++ [e]).

Definition table (pid : string) (r : Router) : LeaseTable := default NewLeaseTable (states r !! pid).

Definition ensurePlatformState (pid : string) (r : Router) : Router :=
  match states r !! pid with Some _ => r | None => set_state pid NewLeaseTable r end.

Definition with_stats (pid : string) (f : IPLoadStats -> IPLoadStats) (r : Router) : Router :=
  set_state pid (mkLeaseTable (leases (table pid r)) (f (stats (table pid r)))) r.

Record RouteResult := mkRouteResult {
  ResultPlatformID : string;
  ResultPlatformName : string;
  ResultNodeHash : Hash;
  ResultEgressIP : Addr;
  ResultNodeTag : string;
  LeaseCreated : bool;
  ResultEvents : list string
}.

Inductive RouteErr := ErrPlatformNotFound | ErrNoAvailableNodes.

Definition RouteEventRotationFallbackSameIP : string := "rotation_fallback_same_ip".

Definition rotationFallbackEvents (fallbackSameIP : bool) : list string :=
  if fallbackSameIP then [RouteEventRotationFallbackSameIP] else [].

(** ** Latency *)

(** [time.Time.Sub] saturates. *)
Definition time_sub (a b : Z) : Z := Z.max (- 2 ^ 63) (Z.min (2 ^ 63 - 1) (a - b)).

Definition isRecent (t now window : Z) : bool := time_sub now t <=? window.

Definition lookupRecentDomainLatency (entry : NodeEntry) (domain : string) (now window : Z) : option Z :=
  match LatencyTable entry with
  | None => None
  | Some get =>
      if domain ==s "" then None
      else match get domain with
           | Some st => if isRecent (LastUpdated st) now window then Some (Ewma st) else None
           | None => None
           end
  end.

Fixpoint sum_recent (entry : NodeEntry) (authorities : list string) (now window : Z) (sum count : Z) : Z * Z :=
  match authorities with
  | [] => (sum, count)
  | d :: rest =>
      match lookupRecentDomainLatency entry d now window with
      | Some l => sum_recent entry rest now window (add64 sum l) (count + 1)
      | None => sum_recent entry rest now window sum count
      end
  end.

Definition averageRecentAuthorityLatency (entry : NodeEntry) (authorities : list string) (now window : Z) : option Z :=
  let '(sum, count) := sum_recent entry authorities now window 0 0 in
  if count =? 0 then None else Some (sum ÷ count).

Fixpoint sum_comparable (e1 e2 : NodeEntry) (authorities : list string) (now window : Z) (sum1 sum2 count : Z)
    : Z * Z * Z :=
  match authorities with
  | [] => (sum1, sum2, count)
  | d :: rest =>
      match lookupRecentDomainLatency e1 d now window, lookupRecentDomainLatency e2 d now window with
      | Some l1, Some l2 => sum_comparable e1 e2 rest now window (add64 sum1 l1) (add64 sum2 l2) (count + 1)
      | _, _ => sum_comparable e1 e2 rest now window sum1 sum2 count
      end
  end.

Definition averageComparableAuthorityLatencies (e1 e2 : NodeEntry) (authorities : list string) (now window : Z)
    : option (Z * Z) :=
  let '(sum1, sum2, count) := sum_comparable e1 e2 authorities now window 0 0 0 in
  if count =? 0 then None else Some (sum1 ÷ count, sum2 ÷ count).

(** ** Scores *)

Section Selection.
Context (cfg : RouterConfig) (now : Z).

Definition compareLatencies (h1 h2 : Hash) (target : string) : Z * Z :=
  match GetEntry (Pool cfg) h1, GetEntry (Pool cfg) h2 with
  | Some e1, Some e2 =>
      match lookupRecentDomainLatency e1 target now (P2CWindow cfg),
            lookupRecentDomainLatency e2 target now (P2CWindow cfg) with
      | Some l1, Some l2 => (l1, l2)
      | _, _ =>
          default (0, 0) (averageComparableAuthorityLatencies e1 e2 (Authorities cfg) now (P2CWindow cfg))
      end
  | _, _ => (0, 0)
  end.

Definition calculateScore (h : Hash) (latency : Z) (plat : Platform) (st : IPLoadStats) : spec_float :=
  let leaseCount := match GetEntry (Pool cfg) h with
                    | Some entry => if IsValid (GetEgressIP entry) then Get (GetEgressIP entry) st else 0
                    | None => 0
                    end in
  if latency <=? 0 then float64 leaseCount
  else if Platform.AllocationPolicy plat ==s AllocationPolicyPreferLowLatency then float64 latency
  else if Platform.AllocationPolicy plat ==s AllocationPolicyPreferIdleIP then float64 leaseCount
  else SFmul 53 1024 (float64 (leaseCount + 1)) (float64 latency).

(** ** Picking a node *)

Definition draw (rng : list Z) : Z * list Z := (hd 0 rng, tl rng).

Definition pickAny (view : RoutableView) (rng : list Z) : option Hash * list Z :=
  if Size view =? 0 then (None, rng)
  else let '(d, rng) := draw rng in (RandomPick d view, rng).

(** Reservoir sampling over the nodes with another egress address. *)
Definition excluded (avoidIP : Addr) (h : Hash) : bool :=
  match GetEntry (Pool cfg) h with
  | Some entry => bool_decide (GetEgressIP entry = avoidIP)
  | None => false
  end.

Fixpoint reservoir (avoidIP : Addr) (l : list Hash) (chosen : Hash) (seen : Z) (rng : list Z) : Hash * Z * list Z :=
  match l with
  | [] => (chosen, seen, rng)
  | h :: l' =>
      if excluded avoidIP h then reservoir avoidIP l' chosen seen rng
      else
        let seen := seen + 1 in
        let '(d, rng) := draw rng in
        reservoir avoidIP l' (if d mod seen =? 0 then h else chosen) seen rng
  end.

Definition randomPickExcludingEgressIP (view : RoutableView) (avoidIP : Addr) (rng : list Z) : option Hash * list Z :=
  let '(chosen, seen, rng) := reservoir avoidIP (RangeNodes view) ZeroHash 0 rng in
  (if 0 <? seen then Some chosen else None, rng).

Definition pick (view : RoutableView) (avoidIP : Addr) (rng : list Z) : option Hash * list Z :=
  if IsValid avoidIP then randomPickExcludingEgressIP view avoidIP rng else pickAny view rng.

(** Up to three more picks for a second candidate that differs from the first. *)
Fixpoint pick_distinct (n : nat) (view : RoutableView) (avoidIP : Addr) (h1 : Hash) (rng : list Z) : Hash * list Z :=
  match n with
  | O => (h1, rng)
  | S n' =>
      match pick view avoidIP rng with
      | (None, rng) => (h1, rng)
      | (Some c, rng) => if c =? h1 then pick_distinct n' view avoidIP h1 rng else (c, rng)
      end
  end.

(** Two candidates, the better score; the second one on a tie. *)
Definition choose_second (plat : Platform) (st : IPLoadStats) (target : string) (avoidIP : Addr) (h1 : Hash)
    (rng : list Z) : Hash * list Z :=
  match pick (Platform.View plat) avoidIP rng with
  | (None, rng) => (h1, rng)
  | (Some h2, rng) =>
      let '(h2, rng) := if h2 =? h1 then pick_distinct 3 (Platform.View plat) avoidIP h1 rng else (h2, rng) in
      if h2 =? h1 then (h1, rng)
      else
        let '(lat1, lat2) := compareLatencies h1 h2 target in
        let s1 := calculateScore h1 lat1 plat st in
        let s2 := calculateScore h2 lat2 plat st in
        (if SFltb s1 s2 then h1 else h2, rng)
  end.

(** When every candidate has the avoided address, fall back to any of them and
    say so. *)
Definition randomRouteAvoiding (plat : Platform) (st : IPLoadStats) (target : string) (avoidIP : Addr) (rng : list Z)
    : option (Hash * bool) * list Z :=
  let view := Platform.View plat in
  if Size view =? 0 then (None, rng)
  else
    let '(first, rng) := pick view avoidIP rng in
    let '(first, avoidIP, fallbackSameIP, rng) :=
      match first with
      | None => if IsValid avoidIP
                then let '(first, rng) := pickAny view rng in (first, AddrInvalid, true, rng)
                else (None, avoidIP, false, rng)
      | Some h => (Some h, avoidIP, false, rng)
      end in
    match first with
    | None => (None, rng)
    | Some h1 =>
        if Size view =? 1 then (Some (h1, fallbackSameIP), rng)
        else
          let '(h, rng) := choose_second plat st target avoidIP h1 rng in
          (Some (h, fallbackSameIP), rng)
    end.

Definition livePickAttempts : nat := 2.

Fixpoint live_pick (n : nat) (plat : Platform) (st : IPLoadStats) (target : string) (avoidIP : Addr)
    (fallbackSameIP : bool) (rng : list Z) : option (Hash * NodeEntry * bool) * list Z :=
  match n with
  | O => (None, rng)
  | S n' =>
      match randomRouteAvoiding plat st target avoidIP rng with
      | (None, rng) => (None, rng)
      | (Some (h, fallback), rng) =>
          let fallbackSameIP := fallbackSameIP || fallback in
          match GetEntry (Pool cfg) h with
          | Some entry => (Some (h, entry, fallbackSameIP), rng)
          | None => live_pick n' plat st target avoidIP fallbackSameIP rng
          end
      end
  end.

Definition selectLiveRandomRoute (plat : Platform) (st : IPLoadStats) (target : string) (avoidIP : Addr) (rng : list Z)
    : option (Hash * NodeEntry * bool) * list Z :=
  live_pick livePickAttempts plat st target avoidIP false rng.

Definition sameIPCandidateLatency (entry : NodeEntry) (target : string) : option Z :=
  match lookupRecentDomainLatency entry target now (P2CWindow cfg) with
  | Some l => Some l
  | None => averageRecentAuthorityLatency entry (Authorities cfg) now (P2CWindow cfg)
  end.

(** The best known hash and latency and the first candidate, in the order of
    the view; the zero hash stands for none. *)
Definition same_ip_step (targetIP : Addr) (target : string) (acc : Hash * Z * Hash) (h : Hash) : Hash * Z * Hash :=
  let '(best, bestLatency, fallback) := acc in
  match GetEntry (Pool cfg) h with
  | None => acc
  | Some entry =>
      if negb (bool_decide (GetEgressIP entry = targetIP)) then acc
      else
        let fallback := if fallback =? ZeroHash then h else fallback in
        match sameIPCandidateLatency entry target with
        | Some l => if l <? bestLatency then (h, l, fallback) else (best, bestLatency, fallback)
        | None => (best, bestLatency, fallback)
        end
  end.

Definition chooseSameIPRotationCandidate (plat : Platform) (targetIP : Addr) (target : string) : option Hash :=
  let '(best, _, fallback) :=
    fold_left (same_ip_step targetIP target) (RangeNodes (Platform.View plat)) (ZeroHash, int64_max, ZeroHash) in
  if negb (best =? ZeroHash) then Some best
  else if negb (fallback =? ZeroHash) then Some fallback
  else None.

(** ** Sticky routes *)

Inductive ComputeOp := UpdateOp | DeleteOp | CancelOp.

Inductive leaseInvalidationReason := leaseInvalidationNone | leaseInvalidationExpire | leaseInvalidationRemove.

Definition lease_event (ty : LeaseEventType) (pid : string) (o : leaseOwner) (h : Hash) (ip : Addr) (created : Z)
    : LeaseEvent := mkLeaseEvent ty pid (UserID o) (Account o) h ip created.

Definition plain_result (h : Hash) (ip : Addr) (created : bool) (events : list string) : RouteResult :=
  mkRouteResult "" "" h ip "" created events.

Definition touched (l : Lease) (h : Hash) : Lease := mkLease h (EgressIP l) (CreatedAtNs l) (ExpiryNs l) now.

Definition tryLeaseHit (plat : Platform) (o : leaseOwner) (current : Lease) (r : Router)
    : option (Lease * RouteResult * Router) :=
  match GetEntry (Pool cfg) (NodeHash current) with
  | None => None
  | Some entry =>
      if negb (ContainsNode (NodeHash current) (Platform.View plat))
         || negb (bool_decide (GetEgressIP entry = EgressIP current)) then None
      else
        Some (touched current (NodeHash current),
              plain_result (NodeHash current) (EgressIP current) false [],
              emitLeaseEvent
                (lease_event LeaseTouch (Platform.ID plat) o (NodeHash current) (EgressIP current) 0) r)
  end.

Definition tryLeaseSameIPRotation (plat : Platform) (o : leaseOwner) (current : Lease) (target : string) (r : Router)
    : option (Lease * RouteResult * Router) :=
  match chooseSameIPRotationCandidate plat (EgressIP current) target with
  | None => None
  | Some best =>
      Some (touched current best,
            plain_result best (EgressIP current) false [],
            emitLeaseEvent (lease_event LeaseReplace (Platform.ID plat) o best (EgressIP current) 0) r)
  end.

(** Reading the tombstone refreshes its place in the cache. *)
Definition rotationAvoidIP (plat : Platform) (o : leaseOwner) (r : Router) : Addr * Router :=
  if (Account o ==s "") || negb (Platform.RotationAvoidPreviousIP plat) then (AddrInvalid, r)
  else
    let '(ip, c) := lookup_tombstone (rotationTombstoneKey (Platform.ID plat) o) now (rotationTombstones r) in
    (default AddrInvalid ip, set_tombstones c r).

Definition recordRotationTombstone (pid : string) (o : leaseOwner) (ip : Addr) (ttl : Z) (r : Router) : Router :=
  if (Account o ==s "") || negb (IsValid ip) || (ttl <=? 0) then r
  else set_tombstones (store_tombstone rotationTombstoneMaxEntries (rotationTombstoneKey pid o) ip (add64 now ttl)
                         (rotationTombstones r)) r.

Definition defaultStickyTTL : Z := 24 * 3600 * 1000000000.

Definition createLease (plat : Platform) (o : leaseOwner) (target : string) (rng : list Z) (r : Router)
    : option (Lease * RouteResult) * list Z * Router :=
  let '(avoidIP, r) := rotationAvoidIP plat o r in
  match selectLiveRandomRoute plat (stats (table (Platform.ID plat) r)) target avoidIP rng with
  | (None, rng) => (None, rng, r)
  | (Some (h, entry, fallbackSameIP), rng) =>
      let ttl := if Platform.StickyTTLNs plat <=? 0 then defaultStickyTTL else Platform.StickyTTLNs plat in
      let lease := mkLease h (GetEgressIP entry) now (add64 now ttl) now in
      (Some (lease, plain_result h (GetEgressIP entry) true (rotationFallbackEvents fallbackSameIP)), rng, r)
  end.

Definition cleanupPreviousLease (pid : string) (o : leaseOwner) (previous : option Lease)
    (invalidation : leaseInvalidationReason) (r : Router) : Router :=
  match previous with
  | None => r
  | Some l =>
      let r := with_stats pid (Dec (EgressIP l)) r in
      match invalidation with
      | leaseInvalidationNone => r
      | leaseInvalidationExpire =>
          emitLeaseEvent (lease_event LeaseExpire pid o (NodeHash l) (EgressIP l) (CreatedAtNs l)) r
      | leaseInvalidationRemove =>
          emitLeaseEvent (lease_event LeaseRemove pid o (NodeHash l) (EgressIP l) (CreatedAtNs l)) r
      end
  end.

Definition abortLeaseCreate (previous : option Lease) : ComputeOp :=
  match previous with Some _ => DeleteOp | None => CancelOp end.

(** The lease to store (where the operation stores one), the operation, the
    result and what the callback did to the rest of the state. *)
Definition Decision : Type := option Lease * ComputeOp * res RouteErr RouteResult * list Z * Router.

Definition createOrAbortStickyLease (plat : Platform) (o : leaseOwner) (target : string) (previous : option Lease)
    (invalidation : leaseInvalidationReason) (rng : list Z) (r : Router) : Decision :=
  let pid := Platform.ID plat in
  let '(created, rng, r) := createLease plat o target rng r in
  let r := cleanupPreviousLease pid o previous invalidation r in
  match created with
  | None => (previous, abortLeaseCreate previous, Err ErrNoAvailableNodes, rng, r)
  | Some (lease, result) =>
      let r := with_stats pid (Inc (EgressIP lease)) r in
      let r := emitLeaseEvent (lease_event LeaseCreate pid o (NodeHash lease) (EgressIP lease) 0) r in
      (Some lease, UpdateOp, Ok result, rng, r)
  end.

Definition decideStickyLease (plat : Platform) (o : leaseOwner) (target : string) (current : option Lease)
    (rng : list Z) (r : Router) : Decision :=
  match current with
  | None => createOrAbortStickyLease plat o target None leaseInvalidationNone rng r
  | Some l =>
      if IsExpired now l then createOrAbortStickyLease plat o target current leaseInvalidationExpire rng r
      else match tryLeaseHit plat o l r with
           | Some (l', result, r) => (Some l', UpdateOp, Ok result, rng, r)
           | None =>
               match tryLeaseSameIPRotation plat o l target r with
               | Some (l', result, r) => (Some l', UpdateOp, Ok result, rng, r)
               | None => createOrAbortStickyLease plat o target current leaseInvalidationRemove rng r
               end
           end
  end.

(** What [Compute] does with the callback's answer. *)
Definition apply_op (pid : string) (o : leaseOwner) (l : option Lease) (op : ComputeOp) (r : Router) : Router :=
  let t := table pid r in
  match op, l with
  | UpdateOp, Some l => set_state pid (mkLeaseTable (<[o := l]> (leases t)) (stats t)) r
  | DeleteOp, _ => set_state pid (mkLeaseTable (delete o (leases t)) (stats t)) r
  | _, _ => r
  end.

Definition routeSticky (plat : Platform) (o : leaseOwner) (target : string) (rng : list Z) (r : Router)
    : res RouteErr RouteResult * list Z * Router :=
  let pid := Platform.ID plat in
  let '(l, op, result, rng, r) := decideStickyLease plat o target (leases (table pid r) !! o) rng r in
  (result, rng, apply_op pid o l op r).

Definition routeRandom (plat : Platform) (target : string) (rng : list Z) (r : Router)
    : res RouteErr RouteResult * list Z * Router :=
  match selectLiveRandomRoute plat (stats (table (Platform.ID plat) r)) target AddrInvalid rng with
  | (None, rng) => (Err ErrNoAvailableNodes, rng, r)
  | (Some (h, entry, fallbackSameIP), rng) =>
      (Ok (plain_result h (GetEgressIP entry) false (rotationFallbackEvents fallbackSameIP)), rng, r)
  end.

Definition resolvePlatform (platName : string) : res RouteErr Platform :=
  match (if platName ==s "" then GetPlatform (Pool cfg) DefaultPlatformID
         else GetPlatformByName (Pool cfg) platName) with
  | Some p => Ok p
  | None => Err ErrPlatformNotFound
  end.

Definition ResolvePlatformID (platName : string) : res RouteErr string :=
  match resolvePlatform platName with Ok p => Ok (Platform.ID p) | Err e => Err e end.

Definition withPlatformContext (plat : Platform) (res : RouteResult) : RouteResult :=
  mkRouteResult (Platform.ID plat) (Platform.Name plat) (ResultNodeHash res) (ResultEgressIP res) (ResultNodeTag res)
    (LeaseCreated res) (ResultEvents res).

Definition with_tag (res : RouteResult) : RouteResult :=
  mkRouteResult (ResultPlatformID res) (ResultPlatformName res) (ResultNodeHash res) (ResultEgressIP res)
    (NodeTagResolver cfg (ResultNodeHash res)) (LeaseCreated res) (ResultEvents res).

Definition RouteRequest (platName : string) (o : leaseOwner) (target : string) (rng : list Z) (r : Router)
    : res RouteErr RouteResult * list Z * Router :=
  match resolvePlatform platName with
  | Err e => (Err e, rng, r)
  | Ok plat =>
      let targetDomain := ExtractDomain cfg target in
      let r := ensurePlatformState (Platform.ID plat) r in
      let '(result, rng, r) :=
        if Account o ==s "" then routeRandom plat targetDomain rng r
        else routeSticky plat o targetDomain rng r in
      (match result with
       | Ok res => Ok (with_tag (withPlatformContext plat res))
       | Err e => Err e
       end, rng, r)
  end.
End Selection.

(** ** Leases as rows *)

Module LeaseRow.
Record Lease := mkLeaseRow {
  PlatformID : string;
  UserID : string;
  Account : string;
  NodeHash : string;
  EgressIP : string;
  CreatedAtNs : Z;
  ExpiryNs : Z;
  LastAccessedNs : Z
}.
End LeaseRow.

Definition lease_row (pid : string) (o : leaseOwner) (l : Lease) : LeaseRow.Lease :=
  LeaseRow.mkLeaseRow pid (UserID o) (Account o) (Hex (NodeHash l)) (addr_string (EgressIP l))
    (CreatedAtNs l) (ExpiryNs l) (LastAccessedNs l).

Definition row_lease (h : Hash) (ip : Addr) (ml : LeaseRow.Lease) : Lease :=
  mkLease h ip (LeaseRow.CreatedAtNs ml) (LeaseRow.ExpiryNs ml) (LeaseRow.LastAccessedNs ml).

Definition ReadLease (pid : string) (o : leaseOwner) (r : Router) : option LeaseRow.Lease :=
  match states r !! pid with
  | None => None
  | Some t => match GetLease o t with Some l => Some (lease_row pid o l) | None => None end
  end.

Inductive UpsertErr := PlatformRequired | AccountRequired | BadNodeHash | BadEgressIP.

Definition UpsertLease (ml : LeaseRow.Lease) (r : Router) : res UpsertErr unit * Router :=
  let platformID := TrimSpace (LeaseRow.PlatformID ml) in
  if platformID ==s "" then (Err PlatformRequired, r)
  else
    let account := TrimSpace (LeaseRow.Account ml) in
    if account ==s "" then (Err AccountRequired, r)
    else
      let o := owner (TrimSpace (LeaseRow.UserID ml)) account in
      match ParseHex (LeaseRow.NodeHash ml) with
      | None => (Err BadNodeHash, r)
      | Some h =>
          match ParseAddr (LeaseRow.EgressIP ml) with
          | None => (Err BadEgressIP, r)
          | Some ip =>
              let r := ensurePlatformState platformID r in
              let lease := row_lease h ip ml in
              let eventType := match leases (table platformID r) !! o with
                               | Some _ => LeaseReplace
                               | None => LeaseCreate
                               end in
              let r := set_state platformID (CreateLease o lease (table platformID r)) r in
              (Ok tt, emitLeaseEvent (lease_event eventType platformID o h ip 0) r)
          end
      end.

Definition SnapshotIPLoad (pid : string) (r : Router) : gmap Addr Z :=
  match states r !! pid with Some t => Snapshot (stats t) | None => ∅ end.

Definition restore_row (r : Router) (ml : LeaseRow.Lease) : Router :=
  match ParseHex (LeaseRow.NodeHash ml), ParseAddr (LeaseRow.EgressIP ml) with
  | Some h, Some ip =>
      let pid := LeaseRow.PlatformID ml in
      let r := ensurePlatformState pid r in
      set_state pid (CreateLease (owner (LeaseRow.UserID ml) (LeaseRow.Account ml)) (row_lease h ip ml) (table pid r)) r
  | _, _ => r
  end.

Definition RestoreLeases (rows : list LeaseRow.Lease) (r : Router) : Router := fold_left restore_row rows r.

(** ** Removing leases *)

Definition remove_event (pid : string) (o : leaseOwner) (l : Lease) : LeaseEvent :=
  lease_event LeaseRemove pid o (NodeHash l) (EgressIP l) (CreatedAtNs l).

Definition RouterDeleteLease (pid : string) (o : leaseOwner) (r : Router) : bool * Router :=
  match states r !! pid with
  | None => (false, r)
  | Some t =>
      match DeleteLease o t with
      | (None, _) => (false, r)
      | (Some l, t') => (true, emitLeaseEvent (remove_event pid o l) (set_state pid t' r))
      end
  end.

(** [onDelete] runs with the lease before it leaves the table. *)
Definition RouterDeleteLeaseIfOlderThan (pid : string) (o : leaseOwner) (createdBeforeOrAtNs : Z)
    (onDelete : Lease -> Router -> Router) (r : Router) : option Lease * Router :=
  match states r !! pid with
  | None => (None, r)
  | Some t =>
      match DeleteLeaseIfOlderThan o createdBeforeOrAtNs t with
      | (None, _) => (None, r)
      | (Some l, t') => (Some l, emitLeaseEvent (remove_event pid o l) (onDelete l (set_state pid t' r)))
      end
  end.

Definition RotateLease (now : Z) (plat : Platform) (o : leaseOwner) (r : Router) : bool * Router :=
  if Account o ==s "" then (false, r)
  else
    let pid := Platform.ID plat in
    match states r !! pid with
    | None => (false, r)
    | Some t =>
        let ttl := rotationTombstoneTTL (Platform.ScheduledRotationIntervalNs plat) (Platform.StickyTTLNs plat) in
        match DeleteLease o t with
        | (None, _) => (false, r)
        | (Some l, t') =>
            let r := recordRotationTombstone now pid o (EgressIP l) ttl (set_state pid t' r) in
            (true, emitLeaseEvent (remove_event pid o l) r)
        end
    end.

(** The events of the bulk removals carry the account alone. *)
Definition bulk_event (pid : string) (o : leaseOwner) (l : Lease) : LeaseEvent :=
  mkLeaseEvent LeaseRemove pid "" (Account o) (NodeHash l) (EgressIP l) (CreatedAtNs l).

Fixpoint drain_leases (pid : string) (owners : list leaseOwner) (t : LeaseTable) (events : list LeaseEvent)
    : Z * LeaseTable * list LeaseEvent :=
  match owners with
  | [] => (0, t, events)
  | o :: rest =>
      match DeleteLease o t with
      | (None, t) => drain_leases pid rest t events
      | (Some l, t) =>
          let '(n, t, events) := drain_leases pid rest t (events ++ [bulk_event pid o l]) in (n + 1, t, events)
      end
  end.

Definition DeleteAllLeases (pid : string) (r : Router) : Z * Router :=
  match states r !! pid with
  | None => (0, r)
  | Some t =>
      let '(n, t, events) := drain_leases pid (map_to_list (leases t)).*1 t (emitted r) in
      (n, mkRouter (<[pid := t]> (states r)) (rotationTombstones r) events)
  end.

Definition PurgePlatformState (pid : string) (r : Router) : Z * Router :=
  if pid ==s "" then (0, r)
  else match states r !! pid with
       | None => (0, r)
       | Some t =>
           let '(n, _, events) := drain_leases pid (map_to_list (leases t)).*1 t (emitted r) in
           (n, mkRouter (delete pid (states r)) (rotationTombstones r) events)
       end.

(** ** The sweeps *)

(** One lease of the expiry sweep: the check is repeated under the lock. *)
Definition sweep_lease (pid : string) (nowNs : Z) (r : Router) (entry : leaseOwner * Lease) : Router :=
  let '(o, seen) := entry in
  if ExpiryNs seen <? nowNs then
    match leases (table pid r) !! o with
    | None => r
    | Some current =>
        if ExpiryNs current <? nowNs then
          emitLeaseEvent (lease_event LeaseExpire pid o (NodeHash current) (EgressIP current) (CreatedAtNs current))
            (set_state pid (mkLeaseTable (delete o (leases (table pid r))) (Dec (EgressIP current) (stats (table pid r)))) r)
        else r
    end
  else r.

Definition sweepPlatformState (nowNs : Z) (r : Router) (pid : string) : Router :=
  fold_left (sweep_lease pid nowNs) (map_to_list (leases (table pid r))) r.

Definition CleanerSweep (nowNs : Z) (r : Router) : Router :=
  fold_left (sweepPlatformState nowNs) (map_to_list (states r)).*1 r.

Definition rotate_one (pid : string) (interval stickyTTLNs nowNs : Z) (r : Router) (o : leaseOwner) : Router :=
  snd (RouterDeleteLeaseIfOlderThan pid o (sub64 nowNs interval)
         (fun removed => recordRotationTombstone nowNs pid o (EgressIP removed)
                           (rotationTombstoneTTL interval stickyTTLNs)) r).

Definition rotatePlatformLeases (interval stickyTTLNs nowNs : Z) (pid : string) (r : Router) : Router :=
  let candidates :=
    (List.filter (fun ol => interval <=? sub64 nowNs (CreatedAtNs (snd ol))) (map_to_list (leases (table pid r)))).*1 in
  fold_left (rotate_one pid interval stickyTTLNs nowNs) candidates r.

Definition rotation_due (r : Router) (plat : Platform) : bool :=
  Platform.ScheduledRotationEnabled plat && (0 <? Platform.ScheduledRotationIntervalNs plat)
  && match states r !! Platform.ID plat with Some _ => true | None => false end.

Definition RotatorSweep (pool : PoolAccessor) (nowNs : Z) (r : Router) : Router :=
  fold_left (fun r plat =>
      rotatePlatformLeases (Platform.ScheduledRotationIntervalNs plat) (Platform.StickyTTLNs plat) nowNs
        (Platform.ID plat) r)
    (List.filter (rotation_due r) (RangePlatforms pool)) r.

(** ** Every operation is a sequence of steps on single leases *)

(** What one operation can do to a platform's table on behalf of an owner. *)
Inductive lease_step (o : leaseOwner) (t : LeaseTable) : LeaseTable -> Prop :=
| ls_same : lease_step o t t
| ls_touch l l' : leases t !! o = Some l -> EgressIP l' = EgressIP l ->
    lease_step o t (mkLeaseTable (<[o := l']> (leases t)) (stats t))
| ls_create l : lease_step o t (CreateLease o l t)
| ls_remove : lease_step o t (snd (DeleteLease o t)).

Lemma lease_step_ok (o : leaseOwner) (t t' : LeaseTable) : lease_step o t t' -> load_ok t -> load_ok t'.
Proof. destruct 1; intros Hok; auto with prism. by eapply load_ok_update. Qed.

(** A step leaves the leases of every other owner alone. *)
Lemma lease_step_frame (o o' : leaseOwner) (t t' : LeaseTable) : lease_step o t t' -> o' <> o ->
  leases t' !! o' = leases t !! o'.
Proof.
  destruct 1; intros Hne; try done.
  - simpl. by rewrite lookup_insert_ne.
  - unfold CreateLease. simpl. by rewrite lookup_insert_ne.
  - unfold DeleteLease. destruct (leases t !! o); simpl; [by rewrite lookup_delete_ne|done].
Qed.

(** Two routers that differ in one platform's table by one step. *)
Definition router_step (pid : string) (o : leaseOwner) (r r' : Router) : Prop :=
  lease_step o (table pid r) (table pid r') /\ forall pid', pid' <> pid -> states r' !! pid' = states r !! pid'.

Definition router_ok (r : Router) : Prop := forall pid t, states r !! pid = Some t -> load_ok t.

Lemma table_ok (r : Router) (pid : string) : router_ok r -> load_ok (table pid r).
Proof. intros H. unfold table. destruct (states r !! pid) eqn:E; simpl; [eauto|apply NewLeaseTable_ok]. Qed.

Lemma router_step_ok (pid : string) (o : leaseOwner) (r r' : Router) :
  router_step pid o r r' -> router_ok r -> router_ok r'.
Proof.
  intros [Hs Hf] H pid' t Ht. destruct (decide (pid' = pid)) as [->|Hne].
  - assert (table pid r' = t) as <- by (unfold table; by rewrite Ht). eapply lease_step_ok; [done|by apply table_ok].
  - rewrite Hf in Ht by done. eauto.
Qed.

Lemma table_set_state (pid : string) (t : LeaseTable) (r : Router) : table pid (set_state pid t r) = t.
Proof. unfold table, set_state. simpl. by rewrite lookup_insert_eq. Qed.

Lemma states_set_state_ne (pid pid' : string) (t : LeaseTable) (r : Router) : pid' <> pid ->
  states (set_state pid t r) !! pid' = states r !! pid'.
Proof. intros. unfold set_state. simpl. by rewrite lookup_insert_ne. Qed.

Lemma table_emit (pid : string) (e : LeaseEvent) (r : Router) : table pid (emitLeaseEvent e r) = table pid r.
Proof. done. Qed.

Lemma table_tombstones (pid : string) (c : tombstones) (r : Router) : table pid (set_tombstones c r) = table pid r.
Proof. done. Qed.

Lemma table_with_stats (pid : string) (f : IPLoadStats -> IPLoadStats) (r : Router) :
  table pid (with_stats pid f r) = mkLeaseTable (leases (table pid r)) (f (stats (table pid r))).
Proof. apply table_set_state. Qed.

Lemma table_ensure (pid pid' : string) (r : Router) : table pid' (ensurePlatformState pid r) = table pid' r.
Proof.
  unfold ensurePlatformState. destruct (states r !! pid) eqn:E; [done|].
  unfold table, set_state. simpl. destruct (decide (pid = pid')) as [->|]; [by rewrite lookup_insert_eq, E|by rewrite lookup_insert_ne].
Qed.

Lemma states_ensure_ne (pid pid' : string) (r : Router) : pid' <> pid ->
  states (ensurePlatformState pid r) !! pid' = states r !! pid'.
Proof. intros. unfold ensurePlatformState. case_match; [done|]. by apply states_set_state_ne. Qed.

Lemma ensure_step (pid : string) (o : leaseOwner) (r : Router) : router_step pid o r (ensurePlatformState pid r).
Proof. split; [rewrite table_ensure; constructor|intros; by apply states_ensure_ne]. Qed.

Lemma set_state_step (pid : string) (o : leaseOwner) (t : LeaseTable) (r : Router) :
  lease_step o (table pid r) t -> router_step pid o r (set_state pid t r).
Proof. intros. split; [by rewrite table_set_state|intros; by apply states_set_state_ne]. Qed.

(** The state that does not hold leases does not matter. *)
Lemma router_step_same_states (pid : string) (o : leaseOwner) (r r' r'' : Router) :
  router_step pid o r r' -> states r'' = states r' -> router_step pid o r r''.
Proof. intros [Hs Hf] E. split; unfold table in *; by rewrite E. Qed.

Create Rewrite HintDb router.
#[export] Hint Rewrite table_set_state table_emit table_tombstones table_with_stats table_ensure : router.

Section Steps.
Context (cfg : RouterConfig) (now : Z).

Lemma rotationAvoidIP_states (plat : Platform) (o : leaseOwner) (r : Router) :
  states (snd (rotationAvoidIP now plat o r)) = states r /\
  emitted (snd (rotationAvoidIP now plat o r)) = emitted r.
Proof. unfold rotationAvoidIP. case_match; [done|]. by destruct (lookup_tombstone _ _ _). Qed.

Lemma createLease_states (plat : Platform) (o : leaseOwner) (target : string) (rng : list Z) (r : Router) :
  states (snd (createLease cfg now plat o target rng r)) = states r /\
  emitted (snd (createLease cfg now plat o target rng r)) = emitted r.
Proof.
  unfold createLease. pose proof (rotationAvoidIP_states plat o r) as H.
  destruct (rotationAvoidIP now plat o r) as [ip r1]. simpl in H.
  by destruct (selectLiveRandomRoute _ _ _ _ _ _ _) as [[[[h e] f]|] rng'].
Qed.

Lemma recordRotationTombstone_states (pid : string) (o : leaseOwner) (ip : Addr) (ttl : Z) (r : Router) :
  states (recordRotationTombstone now pid o ip ttl r) = states r /\
  emitted (recordRotationTombstone now pid o ip ttl r) = emitted r.
Proof. unfold recordRotationTombstone. by case_match. Qed.

(** The table a decision leaves, once [Compute] has applied it. *)
Lemma createOrAbort_step (plat : Platform) (o : leaseOwner) (target : string)
    (inv : leaseInvalidationReason) (rng : list Z) (r : Router) :
  let pid := Platform.ID plat in
  let '(l, op, _, _, r') :=
    createOrAbortStickyLease cfg now plat o target (leases (table pid r) !! o) inv rng r in
  router_step pid o r (apply_op pid o l op r').
Proof.
  intros pid. unfold createOrAbortStickyLease. fold pid.
  pose proof (createLease_states plat o target rng r) as [Hs _].
  destruct (createLease cfg now plat o target rng r) as [[created rng1] r1]. simpl in Hs.
  assert (table pid r1 = table pid r) as Ht by (unfold table; by rewrite Hs).
  assert (forall r2 t, table pid r2 = t -> (forall pid', pid' <> pid -> states r2 !! pid' = states r !! pid') ->
            lease_step o (table pid r) t -> router_step pid o r r2) as Hstep by (intros r2 t <- Hf ?; by split).
  destruct created as [[lease result]|]; destruct (leases (table pid r) !! o) as [prev|] eqn:Eo;
    unfold apply_op, cleanupPreviousLease, abortLeaseCreate.
  - eapply (Hstep _ (CreateLease o lease (table pid r))); [|intros pid' Hne|constructor].
    + unfold CreateLease. rewrite Eo, <- Ht. destruct inv; by autorewrite with router.
    + destruct inv; unfold with_stats, emitLeaseEvent, set_state; simpl; by rewrite !lookup_insert_ne, Hs.
  - eapply (Hstep _ (CreateLease o lease (table pid r))); [|intros pid' Hne|constructor].
    + unfold CreateLease. rewrite Eo, <- Ht. by autorewrite with router.
    + unfold with_stats, emitLeaseEvent, set_state; simpl; by rewrite !lookup_insert_ne, Hs.
  - eapply (Hstep _ (snd (DeleteLease o (table pid r)))); [|intros pid' Hne|constructor].
    + unfold DeleteLease. rewrite Eo, <- Ht. destruct inv; by autorewrite with router.
    + destruct inv; unfold with_stats, emitLeaseEvent, set_state; simpl; by rewrite !lookup_insert_ne, Hs.
  - eapply (Hstep _ (table pid r)); [done|intros pid' Hne; by rewrite Hs|constructor].
Qed.

Lemma routeSticky_step (plat : Platform) (o : leaseOwner) (target : string) (rng : list Z) (r : Router) :
  router_step (Platform.ID plat) o r (snd (routeSticky cfg now plat o target rng r)).
Proof.
  unfold routeSticky, decideStickyLease. set (pid := Platform.ID plat).
  assert (forall inv, router_step pid o r (snd (let '(l, op, result, rng0, r0) :=
            createOrAbortStickyLease cfg now plat o target (leases (table pid r) !! o) inv rng r in
            (result, rng0, apply_op pid o l op r0)))) as Hcreate.
  { intros inv. pose proof (createOrAbort_step plat o target inv rng r) as H. cbv zeta in H. fold pid in H.
    by destruct (createOrAbortStickyLease _ _ _ _ _ _ _ _ _) as [[[[l op] res] rng1] r1]. }
  assert (forall l l' e, leases (table pid r) !! o = Some l -> EgressIP l' = EgressIP l ->
            router_step pid o r (apply_op pid o (Some l') UpdateOp (emitLeaseEvent e r))) as Htouch.
  { intros l l' e El E. unfold apply_op. autorewrite with router.
    eapply router_step_same_states; [apply (set_state_step pid o); econstructor; [exact El|exact E]|]. done. }
  destruct (leases (table pid r) !! o) as [l|] eqn:Eo; [|by apply Hcreate].
  destruct (IsExpired now l); [by apply Hcreate|].
  unfold tryLeaseHit, tryLeaseSameIPRotation.
  destruct (GetEntry _ _) as [entry|]; [destruct (negb _ || negb _)|].
  2: by eapply Htouch.
  all: destruct (chooseSameIPRotationCandidate _ _ _ _ _) as [best|]; [by eapply Htouch|by apply Hcreate].
Qed.

Lemma RouteRequest_step (platName : string) (o : leaseOwner) (target : string) (rng : list Z) (r : Router) :
  snd (RouteRequest cfg now platName o target rng r) = r \/
  exists plat, resolvePlatform cfg platName = Ok plat /\
    router_step (Platform.ID plat) o (ensurePlatformState (Platform.ID plat) r)
      (snd (RouteRequest cfg now platName o target rng r)).
Proof.
  unfold RouteRequest. destruct (resolvePlatform cfg platName) as [plat|e]; [right|by left].
  exists plat. split; [done|]. destruct (Account o ==s "").
  - unfold routeRandom. destruct (selectLiveRandomRoute _ _ _ _ _ _ _) as [[[[h e] f]|] rng']; simpl;
      (split; [constructor|done]).
  - pose proof (routeSticky_step plat o (ExtractDomain cfg target) rng (ensurePlatformState (Platform.ID plat) r)) as H.
    by destruct (routeSticky _ _ _ _ _ _ _) as [[res rng'] r'].
Qed.
End Steps.

(** ** Reachable routers *)

Inductive RouterOp :=
| DoRoute (cfg : RouterConfig) (now : Z) (platName : string) (o : leaseOwner) (target : string) (rng : list Z)
| DoUpsert (ml : LeaseRow.Lease)
| DoRestore (rows : list LeaseRow.Lease)
| DoDelete (pid : string) (o : leaseOwner)
| DoRotate (now : Z) (plat : Platform) (o : leaseOwner)
| DoDeleteAll (pid : string)
| DoPurge (pid : string)
| DoClean (now : Z)
| DoRotateAll (pool : PoolAccessor) (now : Z).

Definition run_router_op (r : Router) (op : RouterOp) : Router :=
  match op with
  | DoRoute cfg now platName o target rng => snd (RouteRequest cfg now platName o target rng r)
  | DoUpsert ml => snd (UpsertLease ml r)
  | DoRestore rows => RestoreLeases rows r
  | DoDelete pid o => snd (RouterDeleteLease pid o r)
  | DoRotate now plat o => snd (RotateLease now plat o r)
  | DoDeleteAll pid => snd (DeleteAllLeases pid r)
  | DoPurge pid => snd (PurgePlatformState pid r)
  | DoClean now => CleanerSweep now r
  | DoRotateAll pool now => RotatorSweep pool now r
  end.

Definition run_router (ops : list RouterOp) : Router := fold_left run_router_op ops NewRouter.

(** An invariant of routers that holds after each element of a list. *)
Lemma fold_preserves {A S} (P : S -> Prop) (f : S -> A -> S) (l : list A) (s : S) :
  (forall s a, P s -> P (f s a)) -> P s -> P (fold_left f l s).
Proof. intros Hf. revert s. induction l; intros s Hs; simpl; auto. Qed.

Lemma router_ok_same (r r' : Router) : states r' = states r -> router_ok r -> router_ok r'.
Proof. intros E H pid t. rewrite E. apply H. Qed.

Lemma router_ok_emit (e : LeaseEvent) (r : Router) : router_ok r -> router_ok (emitLeaseEvent e r).
Proof. by apply router_ok_same. Qed.

Lemma router_ok_set (pid : string) (t : LeaseTable) (r : Router) : router_ok r -> load_ok t -> router_ok (set_state pid t r).
Proof.
  intros H Ht pid' t' E. unfold set_state in E. simpl in E. apply lookup_insert_Some in E as [[<- <-]|[_ E]]; eauto.
Qed.

Lemma ensure_ok (pid : string) (r : Router) : router_ok r -> router_ok (ensurePlatformState pid r).
Proof. intros H. unfold ensurePlatformState. case_match; [done|]. apply router_ok_set; auto with prism. Qed.

#[export] Hint Resolve table_ok router_ok_set ensure_ok : prism.

Lemma UpsertLease_ok (ml : LeaseRow.Lease) (r : Router) : router_ok r -> router_ok (snd (UpsertLease ml r)).
Proof.
  intros H. unfold UpsertLease. destruct (_ ==s ""); [done|]. destruct (_ ==s ""); [done|].
  destruct (ParseHex _); [|done]. destruct (ParseAddr _); [|done].
  apply router_ok_emit, router_ok_set; auto with prism.
Qed.

Lemma RestoreLeases_ok (rows : list LeaseRow.Lease) (r : Router) : router_ok r -> router_ok (RestoreLeases rows r).
Proof.
  apply fold_preserves. clear. intros r ml H. unfold restore_row. repeat case_match; auto with prism.
Qed.

Lemma RouterDeleteLease_ok (pid : string) (o : leaseOwner) (r : Router) :
  router_ok r -> router_ok (snd (RouterDeleteLease pid o r)).
Proof.
  intros H. unfold RouterDeleteLease. destruct (states r !! pid) as [t|] eqn:Et; [|done].
  pose proof (DeleteLease_ok o t (H _ _ Et)) as Ht. destruct (DeleteLease o t) as [[l|] t']; [|done].
  eapply router_ok_same; [|by apply (router_ok_set pid t')]. done.
Qed.

Lemma RotateLease_ok (now : Z) (plat : Platform) (o : leaseOwner) (r : Router) :
  router_ok r -> router_ok (snd (RotateLease now plat o r)).
Proof.
  intros H. unfold RotateLease. case_match; [done|]. destruct (states r !! _) as [t|] eqn:Et; [|done].
  pose proof (DeleteLease_ok o t (H _ _ Et)) as Ht. destruct (DeleteLease o t) as [[l|] t']; [|done].
  eapply router_ok_same; [|apply (router_ok_set (Platform.ID plat) t' r H Ht)].
  apply recordRotationTombstone_states.
Qed.

Lemma RouterDeleteLeaseIfOlderThan_ok (pid : string) (o : leaseOwner) (ns : Z) (f : Lease -> Router -> Router) (r : Router) :
  (forall l r, states (f l r) = states r) ->
  router_ok r -> router_ok (snd (RouterDeleteLeaseIfOlderThan pid o ns f r)).
Proof.
  intros Hf H. unfold RouterDeleteLeaseIfOlderThan. destruct (states r !! pid) as [t|] eqn:Et; [|done].
  pose proof (DeleteLeaseIfOlderThan_ok o ns t (H _ _ Et)) as Ht.
  destruct (DeleteLeaseIfOlderThan o ns t) as [[l|] t']; [|done].
  eapply router_ok_same; [|apply (router_ok_set pid t' r H Ht)]. apply Hf.
Qed.

Lemma drain_leases_ok (pid : string) (os : list leaseOwner) (t : LeaseTable) (ev : list LeaseEvent) :
  load_ok t -> load_ok (snd (fst (drain_leases pid os t ev))).
Proof.
  revert t ev. induction os as [|o os IH]; intros t ev H; simpl; [done|].
  pose proof (DeleteLease_ok o t H) as H'. destruct (DeleteLease o t) as [[l|] t']; simpl in H'; [|by apply IH].
  specialize (IH t' (ev ++ [bulk_event pid o l]) H'). by destruct (drain_leases _ _ _ _) as [[n t''] ev'].
Qed.

Lemma DeleteAllLeases_ok (pid : string) (r : Router) : router_ok r -> router_ok (snd (DeleteAllLeases pid r)).
Proof.
  intros H. unfold DeleteAllLeases. destruct (states r !! pid) as [t|] eqn:Et; [|done].
  pose proof (drain_leases_ok pid (map_to_list (leases t)).*1 t (emitted r) (H _ _ Et)) as Ht.
  destruct (drain_leases _ _ _ _) as [[n t'] ev]. simpl in *.
  eapply router_ok_same; [|apply (router_ok_set pid t' r H Ht)]. done.
Qed.

Lemma PurgePlatformState_ok (pid : string) (r : Router) : router_ok r -> router_ok (snd (PurgePlatformState pid r)).
Proof.
  intros H. unfold PurgePlatformState. case_match; [done|]. destruct (states r !! pid) as [t|] eqn:Et; [|done].
  destruct (drain_leases _ _ _ _) as [[n t'] ev]. intros pid' t'' E. simpl in E.
  apply lookup_delete_Some in E as [_ E]. eauto.
Qed.

Lemma CleanerSweep_ok (now : Z) (r : Router) : router_ok r -> router_ok (CleanerSweep now r).
Proof.
  apply fold_preserves. clear r. intros r pid. apply fold_preserves. clear r. intros r [o l] H.
  unfold sweep_lease. case_match; [|done]. destruct (leases (table pid r) !! o) as [c|] eqn:Ec; [|done].
  case_match; [|done]. apply router_ok_emit, router_ok_set; [done|]. apply (load_ok_remove o c); auto with prism.
Qed.

Lemma RotatorSweep_ok (pool : PoolAccessor) (now : Z) (r : Router) : router_ok r -> router_ok (RotatorSweep pool now r).
Proof.
  apply fold_preserves. clear r. intros r plat. apply fold_preserves. clear r. intros r o H.
  apply RouterDeleteLeaseIfOlderThan_ok; [|done]. intros l r'. apply recordRotationTombstone_states.
Qed.

Lemma RouteRequest_ok (cfg : RouterConfig) (now : Z) (platName : string) (o : leaseOwner) (target : string)
    (rng : list Z) (r : Router) :
  router_ok r -> router_ok (snd (RouteRequest cfg now platName o target rng r)).
Proof.
  intros H. destruct (RouteRequest_step cfg now platName o target rng r) as [->|(plat & _ & Hs)]; [done|].
  eapply router_step_ok; [exact Hs|by apply ensure_ok].
Qed.

Lemma run_router_ok (ops : list RouterOp) : router_ok (run_router ops).
Proof.
  unfold run_router. apply fold_preserves; [|by intros pid t E].
  intros r op H. destruct op; simpl; auto using RouteRequest_ok, UpsertLease_ok, RestoreLeases_ok,
    RouterDeleteLease_ok, RotateLease_ok, DeleteAllLeases_ok, PurgePlatformState_ok, CleanerSweep_ok, RotatorSweep_ok.
Qed.

(** C30: the load the router balances on is exact.  After any sequence of
    routes, upserts, restores, deletions, rotations, purges and sweeps, on any
    pools and clocks, the lease count reported for an address of a platform is
    the number of that platform's leases that use the address, and no address
    without a lease is reported. *)
Theorem ip_load_counts_the_leases (ops : list RouterOp) (pid : string) (ip : Addr) :
  let r := run_router ops in
  let load := load_of ip (table pid r) in
  SnapshotIPLoad pid r !! ip = (if IsValid ip && (0 <? load) then Some load else None) /\
  (IsValid ip = true -> Get ip (stats (table pid r)) = load).
Proof.
  cbv zeta. pose proof (run_router_ok ops) as H. pose proof (table_ok _ pid H) as Ht. split.
  - unfold SnapshotIPLoad. rewrite <- Snapshot_spec by done. unfold table.
    destruct (states _ !! pid); simpl; [done|]. unfold Snapshot. by rewrite map_filter_empty, lookup_empty.
  - intros Hv. by apply Ht.
Qed.
