(* ===== verification/Routing.v ===== *)
(** * What a route promises

    Theorems about [Router.v]: which node a request is sent to, what keeps an
    account on its address, and what a rotation guarantees for the next
    request. *)

From Stdlib Require Import Ascii String SpecFloat.
From stdpp Require Import base gmap list strings numbers.
From S2P Require Import Prelude GoStrings Netip Latency RoutableView Leases Router.

Section Picks.
Context (cfg : RouterConfig) (now : Z).

(** ** Candidates come from the view *)

Lemma RandomPick_in (d : Z) (view : RoutableView) (h : Hash) : view_wf view ->
  RandomPick d view = Some h -> h ∈ RangeNodes view.
Proof.
  intros W. unfold RandomPick. destruct (_ =? 0) eqn:E; [done|]. bool_prop.
  pose proof (vw_size _ W) as Hs. unfold Size in *.
  rewrite pick_in_spec by (apply Z.mod_pos_bound; lia). apply list_elem_of_lookup_2.
Qed.

Lemma RandomPick_total (d : Z) (view : RoutableView) : view_wf view -> Size view <> 0 -> is_Some (RandomPick d view).
Proof.
  intros W Hs. unfold RandomPick. destruct (_ =? 0) eqn:E; bool_prop; [done|]. unfold Size in *.
  rewrite (vw_size _ W) in *. pose proof (Z.mod_pos_bound d (Z.of_nat (length (RangeNodes view))) ltac:(lia)).
  rewrite pick_in_spec by lia. apply lookup_lt_is_Some_2. change (concat (map nodes (shards view))) with (RangeNodes view). lia.
Qed.

Lemma reservoir_spec (ip : Addr) (l : list Hash) (c c' : Hash) (seen seen' : Z) (rng rng' : list Z) :
  0 <= seen -> reservoir cfg ip l c seen rng = (c', seen', rng') ->
  (seen' = seen /\ c' = c /\ forall h, h ∈ l -> excluded cfg ip h = true) \/
  (seen < seen' /\ ((c' = c /\ 0 < seen) \/ (c' ∈ l /\ excluded cfg ip c' = false))).
Proof.
  revert c seen rng. induction l as [|h l IH]; intros c seen rng Hs H; simpl in H.
  { simplify_eq. left. split_and!; [done|done|]. intros h Hh. by apply elem_of_nil in Hh. }
  destruct (excluded cfg ip h) eqn:Ex.
  - apply IH in H as [(-> & -> & Hall)|(Hlt & Hc)]; [| |done].
    + left. split_and!; [done|done|]. intros h' [->|Hh]%elem_of_cons; auto.
    + right. split; [done|]. destruct Hc as [?|[? ?]]; [by left|right; split; [by apply list_elem_of_further|done]].
  - apply IH in H as [(-> & -> & Hall)|(Hlt & Hc)]; [| |lia].
    + right. split; [lia|]. destruct (_ =? 0) eqn:E; [right; split; [apply list_elem_of_here|done]|].
      left. split; [done|]. destruct (decide (seen = 0)) as [->|]; [|lia]. rewrite Z.mod_1_r in E. done.
    + right. split; [lia|]. destruct Hc as [[-> Hpos]|[? ?]].
      * destruct (_ =? 0) eqn:E; [right; split; [apply list_elem_of_here|done]|].
        left. split; [done|]. destruct (decide (seen = 0)) as [->|]; [|lia]. rewrite Z.mod_1_r in E. done.
      * right; split; [by apply list_elem_of_further|done].
Qed.

(** Every candidate has the avoided address. *)
Definition all_excluded (view : RoutableView) (ip : Addr) : Prop :=
  forall h, h ∈ RangeNodes view -> excluded cfg ip h = true.

Lemma pick_spec (view : RoutableView) (ip : Addr) (rng rng' : list Z) (o : option Hash) :
  view_wf view -> pick cfg view ip rng = (o, rng') ->
  match o with
  | Some h => h ∈ RangeNodes view /\ (IsValid ip = true -> excluded cfg ip h = false)
  | None => (IsValid ip = true -> all_excluded view ip) /\ (IsValid ip = false -> Size view = 0)
  end.
Proof.
  intros W. unfold pick, randomPickExcludingEgressIP, pickAny. destruct (IsValid ip) eqn:Hv.
  - destruct (reservoir _ _ _ _ _ _) as [[c seen] rng1] eqn:Er. intros [= <- <-].
    apply reservoir_spec in Er as [(-> & -> & Hall)|(Hlt & [[_ ?]|[? ?]])]; [by split|lia| |done].
    destruct (0 <? seen) eqn:E; bool_prop; [done|lia].
  - destruct (Size view =? 0) eqn:E; bool_prop; [intros [= <- <-]; done|]. simpl. intros [= <- <-].
    destruct (RandomPick _ view) as [h|] eqn:Ep; [split; [by eapply RandomPick_in|done]|].
    destruct (RandomPick_total (hd 0 rng) view W E) as [h Hh]. congruence.
Qed.

Lemma pick_distinct_spec (n : nat) (view : RoutableView) (ip : Addr) (h1 h : Hash) (rng rng' : list Z) :
  view_wf view -> pick_distinct cfg n view ip h1 rng = (h, rng') ->
  h = h1 \/ (h ∈ RangeNodes view /\ (IsValid ip = true -> excluded cfg ip h = false)).
Proof.
  intros W. revert rng. induction n as [|n IH]; intros rng H; simpl in H; [simplify_eq; by left|].
  destruct (pick cfg view ip rng) as [[c|] rng1] eqn:Ep; [|simplify_eq; by left].
  apply (pick_spec view ip _ _ _ W) in Ep. destruct (c =? h1); [eauto|simplify_eq; by right].
Qed.

Lemma choose_second_spec (plat : Platform) (st : IPLoadStats) (target : string) (ip : Addr) (h1 h : Hash)
    (rng rng' : list Z) :
  view_wf (Platform.View plat) -> choose_second cfg now plat st target ip h1 rng = (h, rng') ->
  h = h1 \/ (h ∈ RangeNodes (Platform.View plat) /\ (IsValid ip = true -> excluded cfg ip h = false)).
Proof.
  intros W. unfold choose_second. destruct (pick _ _ _ _) as [[h2|] rng1] eqn:Ep; [|intros; simplify_eq; by left].
  apply (pick_spec _ _ _ _ _ W) in Ep.
  destruct (if h2 =? h1 then _ else _) as [h2' rng2] eqn:E2.
  assert (h2' = h1 \/ (h2' ∈ RangeNodes (Platform.View plat) /\ (IsValid ip = true -> excluded cfg ip h2' = false))) as H2.
  { destruct (h2 =? h1); [by eapply pick_distinct_spec|simplify_eq; by right]. }
  destruct (h2' =? h1); [intros; simplify_eq; by left|].
  destruct (compareLatencies _ _ _ _ _) as [l1 l2]. intros H. simplify_eq. destruct (SFltb _ _); [by left|done].
Qed.

Lemma randomRouteAvoiding_spec (plat : Platform) (st : IPLoadStats) (target : string) (ip : Addr)
    (rng rng' : list Z) (o : option (Hash * bool)) :
  view_wf (Platform.View plat) -> randomRouteAvoiding cfg now plat st target ip rng = (o, rng') ->
  match o with
  | Some (h, fallback) => h ∈ RangeNodes (Platform.View plat) /\
      (fallback = true -> IsValid ip = true /\ all_excluded (Platform.View plat) ip) /\
      (fallback = false -> IsValid ip = true -> excluded cfg ip h = false)
  | None => Size (Platform.View plat) = 0
  end.
Proof.
  intros W. unfold randomRouteAvoiding. set (view := Platform.View plat) in *.
  destruct (Size view =? 0) eqn:Es; bool_prop; [intros; simplify_eq; done|].
  destruct (pick cfg view ip rng) as [[h1|] rng1] eqn:Ep; apply (pick_spec _ _ _ _ _ W) in Ep.
  - destruct (Size view =? 1); [intros; simplify_eq; naive_solver|].
    destruct (choose_second _ _ _ _ _ _ _ _) as [h rng2] eqn:Ec. intros. simplify_eq.
    apply choose_second_spec in Ec as [->|Ec]; [naive_solver|naive_solver|done].
  - destruct (IsValid ip) eqn:Hv; [|intros; simplify_eq; naive_solver].
    destruct (pickAny view rng1) as [[h1|] rng2] eqn:Ea.
    + assert (pick cfg view AddrInvalid rng1 = (Some h1, rng2)) as Ea' by done. apply (pick_spec _ _ _ _ _ W) in Ea'.
      destruct (Size view =? 1); [intros; simplify_eq; naive_solver|].
      destruct (choose_second _ _ _ _ _ _ _ _) as [h rng3] eqn:Ec. intros. simplify_eq.
      apply choose_second_spec in Ec as [->|Ec]; [naive_solver|naive_solver|done].
    + assert (pick cfg view AddrInvalid rng1 = (None, rng2)) as Ea' by done. apply (pick_spec _ _ _ _ _ W) in Ea'. naive_solver.
Qed.

(** A platform on which every request can be served. *)
Definition servable (plat : Platform) : Prop :=
  Size (Platform.View plat) <> 0 /\
  forall h, h ∈ RangeNodes (Platform.View plat) -> is_Some (GetEntry (Pool cfg) h).

Lemma live_pick_spec (n : nat) (plat : Platform) (st : IPLoadStats) (target : string) (ip : Addr) (fb : bool)
    (rng rng' : list Z) (o : option (Hash * NodeEntry * bool)) :
  view_wf (Platform.View plat) ->
  (fb = true -> IsValid ip = true /\ all_excluded (Platform.View plat) ip) ->
  live_pick cfg now n plat st target ip fb rng = (o, rng') ->
  match o with
  | Some (h, entry, fb') =>
      h ∈ RangeNodes (Platform.View plat) /\ GetEntry (Pool cfg) h = Some entry /\
      (fb' = true -> IsValid ip = true /\ all_excluded (Platform.View plat) ip) /\
      (fb' = false -> IsValid ip = true -> GetEgressIP entry <> ip)
  | None => n = O \/ ~ servable plat
  end.
Proof.
  intros W. revert fb rng. induction n as [|n IH]; intros fb rng Hfb H; simpl in H; [simplify_eq; by left|].
  destruct (randomRouteAvoiding _ _ _ _ _ _ _) as [[[h f]|] rng1] eqn:Er;
    apply randomRouteAvoiding_spec in Er; [|done| |done].
  - destruct Er as (Hin & Hf & Hx). destruct (GetEntry (Pool cfg) h) as [entry|] eqn:Ee.
    + simplify_eq. split_and!; [done|done| |].
      * intros [E|E]%orb_true_iff; auto.
      * intros [_ E]%orb_false_iff Hv. specialize (Hx E Hv). unfold excluded in Hx. rewrite Ee in Hx.
        by apply bool_decide_eq_false in Hx.
    + apply IH in H; [|intros [E|E]%orb_true_iff; auto]. destruct o as [[[h' e'] f']|]; [done|]. right.
      intros [_ Hall]. destruct (Hall h Hin) as [e He]. congruence.
  - simplify_eq. right. by intros [Hs _].
Qed.

Lemma selectLive_spec (plat : Platform) (st : IPLoadStats) (target : string) (ip : Addr) (rng rng' : list Z)
    (o : option (Hash * NodeEntry * bool)) :
  view_wf (Platform.View plat) -> selectLiveRandomRoute cfg now plat st target ip rng = (o, rng') ->
  match o with
  | Some (h, entry, fb) =>
      h ∈ RangeNodes (Platform.View plat) /\ GetEntry (Pool cfg) h = Some entry /\
      (fb = true -> IsValid ip = true /\ all_excluded (Platform.View plat) ip) /\
      (fb = false -> IsValid ip = true -> GetEgressIP entry <> ip)
  | None => ~ servable plat
  end.
Proof.
  intros W H. apply live_pick_spec in H; [|done|done]. destruct o as [[[h e] f]|]; [done|].
  by destruct H.
Qed.

(** ** Keeping the address *)

(** A node of the view that goes out by the address. *)
Definition holds_ip (plat : Platform) (ip : Addr) (h : Hash) : Prop :=
  h ∈ RangeNodes (Platform.View plat) /\ exists e, GetEntry (Pool cfg) h = Some e /\ GetEgressIP e = ip.

Lemma same_ip_fold (ip : Addr) (target : string) (l seen : list Hash) (best fallback : Hash) (lat : Z) :
  let holds h := exists e, GetEntry (Pool cfg) h = Some e /\ GetEgressIP e = ip in
  (best <> ZeroHash -> best ∈ seen /\ holds best) -> (fallback <> ZeroHash -> fallback ∈ seen /\ holds fallback) ->
  (fallback = ZeroHash -> forall h, h ∈ seen -> holds h -> h = ZeroHash) ->
  let '(best', _, fallback') := fold_left (same_ip_step cfg now ip target) l (best, lat, fallback) in
  (best' <> ZeroHash -> best' ∈ seen ++ l /\ holds best') /\
  (fallback' <> ZeroHash -> fallback' ∈ seen ++ l /\ holds fallback') /\
  (fallback' = ZeroHash -> forall h, h ∈ seen ++ l -> holds h -> h = ZeroHash).
Proof.
  intros holds. revert seen best lat fallback. induction l as [|h l IH]; intros seen best lat fallback Hb Hf Hz.
  { simpl. rewrite app_nil_r. done. }
  cbn [fold_left]. rewrite cons_middle, app_assoc.
  destruct (same_ip_step cfg now ip target (best, lat, fallback) h) as [[best1 lat1] fallback1] eqn:E.
  unfold same_ip_step in E. destruct (GetEntry (Pool cfg) h) as [entry|] eqn:Ee.
  2:{ simplify_eq. apply IH; [set_solver|set_solver|]. intros E h' [?|Hh]%elem_of_app Hh'; [by apply Hz|].
      apply list_elem_of_singleton in Hh as ->. destruct Hh' as (e & He & _). congruence. }
  destruct (negb (bool_decide (GetEgressIP entry = ip))) eqn:Ei.
  { simplify_eq. apply negb_true_iff, bool_decide_eq_false in Ei. apply IH; [set_solver|set_solver|].
    intros E h' [?|Hh]%elem_of_app Hh'; [by apply Hz|].
    apply list_elem_of_singleton in Hh as ->. destruct Hh' as (e & He & ?). congruence. }
  apply negb_false_iff, bool_decide_eq_true in Ei.
  assert (holds h) as Hh by (exists entry; done).
  assert (fallback1 = (if fallback =? ZeroHash then h else fallback) /\ (best1 = best \/ best1 = h)) as [Ef Eb].
  { destruct (sameIPCandidateLatency _ _ _ _) as [lt|]; [destruct (lt <? lat)|]; simplify_eq; auto. }
  clear E. apply IH.
  - intros Hn. destruct Eb as [-> | ->]; [set_solver|]. split; [set_solver|done].
  - intros Hn. rewrite Ef in *. destruct (fallback =? ZeroHash) eqn:E0; [split; [set_solver|done]|].
    bool_prop. set_solver.
  - intros Ez h' [Hin|Hin]%elem_of_app Hh'; rewrite Ef in Ez; destruct (fallback =? ZeroHash) eqn:E0; bool_prop; try done.
    + by apply Hz.
    + apply list_elem_of_singleton in Hin. by subst.
Qed.

Lemma chooseSameIP_spec (plat : Platform) (ip : Addr) (target : string) :
  match chooseSameIPRotationCandidate cfg now plat ip target with
  | Some h => holds_ip plat ip h
  | None => forall h, holds_ip plat ip h -> h = ZeroHash
  end.
Proof.
  unfold chooseSameIPRotationCandidate.
  pose proof (same_ip_fold ip target (RangeNodes (Platform.View plat)) [] ZeroHash ZeroHash int64_max) as H.
  cbv zeta in H. specialize (H ltac:(done) ltac:(done) ltac:(set_solver)).
  destruct (fold_left _ _ _) as [[best lat] fallback]. simpl app in H. destruct H as (Hb & Hf & Hz).
  destruct (best =? ZeroHash) eqn:E1; bool_prop; simpl; [|unfold holds_ip; naive_solver].
  destruct (fallback =? ZeroHash) eqn:E2; bool_prop; simpl; [|unfold holds_ip; naive_solver].
  intros h [Hh Hh']. by apply Hz.
Qed.

(** ** The outcome of a request *)

(** The lease stored names a live node of the view, and the result is it. *)
Definition lease_served (plat : Platform) (lease : Lease) (result : RouteResult) : Prop :=
  ResultNodeHash result = NodeHash lease /\ ResultEgressIP result = EgressIP lease /\
  holds_ip plat (EgressIP lease) (NodeHash lease).

Lemma createLease_spec (plat : Platform) (o : leaseOwner) (target : string) (rng : list Z) (r : Router) :
  view_wf (Platform.View plat) ->
  let avoid := fst (rotationAvoidIP now plat o r) in
  match fst (fst (createLease cfg now plat o target rng r)) with
  | Some (lease, result) =>
      lease_served plat lease result /\ LeaseCreated result = true /\
      (IsValid avoid = true -> EgressIP lease <> avoid \/
         (In RouteEventRotationFallbackSameIP (ResultEvents result) /\ all_excluded (Platform.View plat) avoid))
  | None => ~ servable plat
  end.
Proof.
  intros W. unfold createLease. destruct (rotationAvoidIP now plat o r) as [avoid r1]. simpl.
  destruct (selectLiveRandomRoute _ _ _ _ _ _ _) as [o' rng'] eqn:Es. apply selectLive_spec in Es; [|done].
  destruct o' as [[[h e] f]|]; [|done]. simpl. destruct Es as (Hin & He & Hf & Hx).
  split_and!; [split_and!; [done|done|by split; eauto]|done|].
  intros Hv. destruct f; [right; split; [by left|by apply Hf]|left; by apply Hx].
Qed.

Lemma createOrAbort_spec (plat : Platform) (o : leaseOwner) (target : string) (prev : option Lease)
    (inv : leaseInvalidationReason) (rng : list Z) (r : Router) :
  view_wf (Platform.View plat) ->
  let avoid := fst (rotationAvoidIP now plat o r) in
  let '(l, op, res, _, _) := createOrAbortStickyLease cfg now plat o target prev inv rng r in
  match res with
  | Ok result => exists lease, l = Some lease /\ op = UpdateOp /\ lease_served plat lease result /\
      LeaseCreated result = true /\
      (IsValid avoid = true -> EgressIP lease <> avoid \/
         (In RouteEventRotationFallbackSameIP (ResultEvents result) /\ all_excluded (Platform.View plat) avoid))
  | Err e => e = ErrNoAvailableNodes /\ op = abortLeaseCreate prev /\ ~ servable plat
  end.
Proof.
  intros W avoid. pose proof (createLease_spec plat o target rng r W) as H. cbv zeta in H. fold avoid in H.
  unfold createOrAbortStickyLease. destruct (createLease _ _ _ _ _ _ _) as [[[[lease result]|] rng1] r1]; simpl in H.
  - exists lease. naive_solver.
  - done.
Qed.

Lemma leases_apply_update (pid : string) (o : leaseOwner) (l : Lease) (r : Router) :
  leases (table pid (apply_op pid o (Some l) UpdateOp r)) !! o = Some l.
Proof. unfold apply_op. rewrite table_set_state. simpl. by rewrite lookup_insert_eq. Qed.

Lemma leases_apply_abort (pid : string) (o : leaseOwner) (prev : option Lease) (r : Router) :
  leases (table pid r) !! o = prev ->
  leases (table pid (apply_op pid o prev (abortLeaseCreate prev) r)) !! o = None.
Proof.
  intros E. destruct prev as [l|]; [|done]. unfold apply_op. simpl.
  rewrite table_set_state. simpl. by rewrite lookup_delete_eq.
Qed.

(** What a sticky route answers and leaves for its owner. *)
Definition sticky_outcome (plat : Platform) (o : leaseOwner) (r : Router) (res : res RouteErr RouteResult) (r' : Router)
    : Prop :=
  let pid := Platform.ID plat in
  match res with
  | Err e => e = ErrNoAvailableNodes /\ leases (table pid r') !! o = None /\ ~ servable plat
  | Ok result => exists lease, leases (table pid r') !! o = Some lease /\ lease_served plat lease result /\
      (forall l, leases (table pid r) !! o = Some l -> IsExpired now l = false ->
         (exists h, h <> ZeroHash /\ holds_ip plat (EgressIP l) h) ->
         lease = touched now l (NodeHash lease) /\ LeaseCreated result = false)
  end.

(** The callback itself only touches the counters. *)
Lemma createOrAbort_leases (plat : Platform) (o : leaseOwner) (target : string) (prev : option Lease)
    (inv : leaseInvalidationReason) (rng : list Z) (r : Router) :
  let pid := Platform.ID plat in
  leases (table pid (snd (createOrAbortStickyLease cfg now plat o target prev inv rng r))) = leases (table pid r).
Proof.
  intros pid. unfold createOrAbortStickyLease. fold pid.
  pose proof (createLease_states cfg now plat o target rng r) as [Hs _].
  destruct (createLease _ _ _ _ _ _ _) as [[created rng1] r1]. simpl in Hs.
  assert (leases (table pid (cleanupPreviousLease pid o prev inv r1)) = leases (table pid r)) as Hc.
  { assert (table pid r1 = table pid r) as <- by (unfold table; by rewrite Hs).
    destruct prev, inv; simpl; by autorewrite with router. }
  destruct created as [[lease result]|]; simpl; [by autorewrite with router|done].
Qed.

Lemma createOrAbort_outcome (plat : Platform) (o : leaseOwner) (target : string)
    (inv : leaseInvalidationReason) (rng : list Z) (r : Router) :
  let pid := Platform.ID plat in
  let prev := leases (table pid r) !! o in
  view_wf (Platform.View plat) ->
  (forall l, prev = Some l -> IsExpired now l = false -> forall h, holds_ip plat (EgressIP l) h -> h = ZeroHash) ->
  let '(l, op, res, _, r1) := createOrAbortStickyLease cfg now plat o target prev inv rng r in
  sticky_outcome plat o r res (apply_op pid o l op r1).
Proof.
  intros pid prev W Hprev. pose proof (createOrAbort_spec plat o target prev inv rng r W) as H. cbv zeta in H.
  pose proof (createOrAbort_leases plat o target prev inv rng r) as Hl. cbv zeta in Hl. fold pid in Hl.
  destruct (createOrAbortStickyLease _ _ _ _ _ _ _ _ _) as [[[[l op] res] rng1] r1] eqn:Ec. simpl in Hl.
  unfold sticky_outcome. fold pid. destruct res as [result|e].
  - destruct H as (lease & -> & -> & Hs & _ & _). exists lease. split; [apply leases_apply_update|]. split; [done|].
    intros l Hlo He (h & Hne & Hh). fold prev in Hlo. by destruct (Hne (Hprev l Hlo He h Hh)).
  - destruct H as (-> & -> & Hs). split_and!; [done| |done].
    unfold createOrAbortStickyLease in Ec. destruct (createLease _ _ _ _ _ _ _) as [[[[? ?]|] ?] ?]; [done|].
    injection Ec as <- _ _. apply leases_apply_abort. by rewrite Hl.
Qed.

Lemma tryLeaseHit_spec (plat : Platform) (o : leaseOwner) (l : Lease) (r : Router) :
  view_wf (Platform.View plat) ->
  match tryLeaseHit cfg now plat o l r with
  | Some (l', result, r') => l' = touched now l (NodeHash l) /\ lease_served plat l' result /\ LeaseCreated result = false
  | None => True
  end.
Proof.
  intros W. unfold tryLeaseHit. destruct (GetEntry _ _) as [entry|] eqn:Ee; [|done].
  destruct (negb _ || negb _) eqn:E; [done|]. apply orb_false_iff in E as [E1 E2].
  apply negb_false_iff in E1, E2. apply bool_decide_eq_true in E2. apply ContainsNode_spec in E1; [|done].
  split_and!; [done| |done]. split_and!; [done|done|]. split; [done|]. by exists entry.
Qed.

Lemma routeSticky_outcome (plat : Platform) (o : leaseOwner) (target : string) (rng : list Z) (r : Router) :
  view_wf (Platform.View plat) ->
  let '(res, _, r') := routeSticky cfg now plat o target rng r in sticky_outcome plat o r res r'.
Proof.
  intros W. unfold routeSticky. set (pid := Platform.ID plat).
  pose proof (fun inv => createOrAbort_outcome plat o target inv rng r W) as Hc. cbv zeta in Hc. fold pid in Hc.
  assert (forall l l' result r1, leases (table pid r) !! o = Some l -> l' = touched now l (NodeHash l') ->
            lease_served plat l' result -> LeaseCreated result = false ->
            sticky_outcome plat o r (Ok result) (apply_op pid o (Some l') UpdateOp r1)) as Ht.
  { intros l l' result r1 El Et Hs Hn. exists l'. split; [apply leases_apply_update|]. split; [done|].
    intros l0 El0. fold pid in El0. rewrite El0 in El. by injection El as ->. }
  unfold decideStickyLease. destruct (leases (table pid r) !! o) as [l|] eqn:Eo.
  2:{ specialize (Hc leaseInvalidationNone). specialize (Hc ltac:(naive_solver)). by destruct (createOrAbortStickyLease _ _ _ _ _ _ _ _ _) as [[[[? ?] ?] ?] ?]. }
  destruct (IsExpired now l) eqn:Ex.
  { specialize (Hc leaseInvalidationExpire ltac:(intros l0 [= <-]; congruence)).
    by destruct (createOrAbortStickyLease _ _ _ _ _ _ _ _ _) as [[[[? ?] ?] ?] ?]. }
  pose proof (tryLeaseHit_spec plat o l r W) as Hh. destruct (tryLeaseHit _ _ _ _ _ _) as [[[l' result] r1]|].
  { destruct Hh as (-> & Hs & Hn). by eapply Ht. }
  unfold tryLeaseSameIPRotation. pose proof (chooseSameIP_spec plat (EgressIP l) target) as Hr.
  destruct (chooseSameIPRotationCandidate _ _ _ _ _) as [best|].
  { eapply Ht; [done|done| |done]. split_and!; [done|done|exact Hr]. }
  specialize (Hc leaseInvalidationRemove ltac:(intros l0 [= <-] _ h Hip; by apply Hr)).
  by destruct (createOrAbortStickyLease _ _ _ _ _ _ _ _ _) as [[[[? ?] ?] ?] ?].
Qed.
End Picks.

(** Everything but one owner's lease on one platform is as it was. *)
Definition others_untouched (pid : string) (o : leaseOwner) (r r' : Router) : Prop :=
  (forall o', o' <> o -> leases (table pid r') !! o' = leases (table pid r) !! o') /\
  (forall pid', pid' <> pid -> states r' !! pid' = states r !! pid').

(** What a request for an account answers and leaves behind. *)
Definition sticky_contract (cfg : RouterConfig) (now : Z) (plat : Platform) (o : leaseOwner) (r : Router)
    (out : res RouteErr RouteResult * list Z * Router) : Prop :=
  let '(res, _, r') := out in
  others_untouched (Platform.ID plat) o r r' /\
  sticky_outcome cfg now plat o r res r' /\
  match res with
  | Ok result => ResultPlatformID result = Platform.ID plat /\
      ResultNodeTag result = NodeTagResolver cfg (ResultNodeHash result)
  | Err _ => True
  end.

Lemma router_step_others (pid : string) (o : leaseOwner) (r r' : Router) :
  router_step pid o r r' -> others_untouched pid o r r'.
Proof. intros [Hs Hf]. split; [|done]. intros o' Hne. by eapply lease_step_frame. Qed.

Lemma sticky_outcome_tagged (cfg : RouterConfig) (now : Z) (plat : Platform) (o : leaseOwner) (r r0 r' : Router)
    (res : res RouteErr RouteResult) : table (Platform.ID plat) r0 = table (Platform.ID plat) r ->
  sticky_outcome cfg now plat o r0 res r' ->
  sticky_outcome cfg now plat o r
    match res with Ok x => Ok (with_tag cfg (withPlatformContext plat x)) | Err e => Err e end r'.
Proof. intros E. unfold sticky_outcome. rewrite E. by destruct res. Qed.


(** ** Rotation *)

Lemma find_without (k k' : string) (c : tombstones) : k' <> k ->
  find_tombstone k' (without k c) = find_tombstone k' c.
Proof.
  intros Hne. unfold find_tombstone, without. induction c as [|t c IH]; simpl; [done|].
  destruct (key t ==s k) eqn:E; simpl.
  - bool_prop. destruct (key t ==s k') eqn:E'; bool_prop; [congruence|done].
  - by rewrite IH.
Qed.

(** A tombstone just stored is found, where the cache holds anything. *)
Lemma find_stored (max : nat) (k : string) (ip : Addr) (expires : Z) (c : tombstones) :
  IsValid ip = true -> (0 < max)%nat ->
  find_tombstone k (store_tombstone max k ip expires c) = Some (mkTombstone k ip expires).
Proof.
  intros Hv Hm. unfold store_tombstone. rewrite Hv. simpl.
  destruct (find_tombstone k c); [|destruct max; [lia|]]; unfold find_tombstone; simpl; by rewrite eqb_s_refl.
Qed.

(** The cache never outgrows its bound. *)
Lemma store_tombstone_bound (max : nat) (k : string) (ip : Addr) (expires : Z) (c : tombstones) :
  (length c <= max)%nat -> (length (store_tombstone max k ip expires c) <= max)%nat.
Proof.
  intros Hl. unfold store_tombstone. case_match; [done|].
  destruct (find_tombstone k c) as [t|] eqn:E; [|rewrite length_take; lia].
  apply find_some_In in E as [Hin Hk]. simpl. enough (length (without k c) < length c)%nat by lia.
  unfold without. clear -Hin Hk. induction c as [|x c IH]; [done|]. simpl in *.
  destruct Hin as [->|Hin]; [rewrite Hk; simpl; pose proof (filter_length_le (fun t => key t <>s k) c); lia|].
  destruct (key x ==s k); simpl; [pose proof (filter_length_le (fun t => key t <>s k) c); lia|]. specialize (IH Hin). lia.
Qed.

Lemma tombstones_ensure (pid : string) (r : Router) :
  rotationTombstones (ensurePlatformState pid r) = rotationTombstones r.
Proof. unfold ensurePlatformState. by destruct (states r !! pid). Qed.

(** The tombstone a rotation leaves. *)
Lemma RotateLease_leaves (t0 : Z) (plat : Platform) (o : leaseOwner) (l : Lease) (r : Router) :
  let pid := Platform.ID plat in
  let ttl := rotationTombstoneTTL (Platform.ScheduledRotationIntervalNs plat) (Platform.StickyTTLNs plat) in
  leases (table pid r) !! o = Some l -> (Account o ==s "") = false -> IsValid (EgressIP l) = true -> 0 < ttl ->
  let '(done, r1) := RotateLease t0 plat o r in
  done = true /\ leases (table pid r1) !! o = None /\
  find_tombstone (rotationTombstoneKey pid o) (rotationTombstones r1) =
    Some (mkTombstone (rotationTombstoneKey pid o) (EgressIP l) (add64 t0 ttl)).
Proof.
  intros pid ttl Hl Ha Hv Ht. unfold RotateLease. rewrite Ha. fold pid ttl.
  unfold table in Hl. destruct (states r !! pid) as [t|] eqn:Es; [|simpl in Hl; by rewrite lookup_empty in Hl].
  simpl in Hl. unfold DeleteLease. rewrite Hl. unfold recordRotationTombstone. rewrite Ha, Hv. simpl.
  destruct (ttl <=? 0) eqn:E; bool_prop; [lia|]. split_and!; [done| |].
  - rewrite table_emit, table_tombstones, table_set_state. simpl. apply lookup_delete_eq.
  - simpl. apply find_stored; [done|]. unfold rotationTombstoneMaxEntries. lia.
Qed.

(** Without a lease, a request goes through the avoidance of the live tombstone. *)
Lemma route_avoids (cfg : RouterConfig) (now : Z) (plat : Platform) (o : leaseOwner) (target : string)
    (rng : list Z) (r : Router) (t : rotationTombstone) :
  let pid := Platform.ID plat in
  view_wf (Platform.View plat) -> (Account o ==s "") = false -> Platform.RotationAvoidPreviousIP plat = true ->
  leases (table pid r) !! o = None ->
  find_tombstone (rotationTombstoneKey pid o) (rotationTombstones r) = Some t -> now < expiresAtNs t ->
  IsValid (egressIP t) = true ->
  match fst (fst (routeSticky cfg now plat o target rng r)) with
  | Ok result => ResultEgressIP result <> egressIP t \/
      (In RouteEventRotationFallbackSameIP (ResultEvents result) /\ all_excluded cfg (Platform.View plat) (egressIP t))
  | Err _ => ~ servable cfg plat
  end.
Proof.
  intros pid W Ha Hav Hl Hf Hexp Hv. unfold routeSticky, decideStickyLease. fold pid. rewrite Hl.
  pose proof (createOrAbort_spec cfg now plat o target None leaseInvalidationNone rng r W) as H. cbv zeta in H.
  assert (fst (rotationAvoidIP now plat o r) = egressIP t) as Eav.
  { unfold rotationAvoidIP, lookup_tombstone. fold pid. rewrite Ha, Hav. simpl. rewrite Hf.
    destruct (expiresAtNs t <=? now) eqn:E; bool_prop; [lia|done]. }
  rewrite Eav in H. destruct (createOrAbortStickyLease _ _ _ _ _ _ _ _ _) as [[[[l op] res] rng1] r1]. simpl.
  destruct res as [result|e]; [|by destruct H as (_ & _ & ?)].
  destruct H as (lease & _ & _ & (_ & -> & _) & _ & H). by apply H.
Qed.


(** ** A worked router *)

Module RoutingDemo.
Definition nodeA : Hash := 1.
Definition nodeB : Hash := 2 ^ 121 + 5.
Definition nodeC : Hash := 2 ^ 127.
Definition ip1 : Addr := Addr4 16909060.
Definition ip2 : Addr := Addr4 84281096.

Definition entry (h : Hash) : option NodeEntry :=
  if h =? nodeA then Some (mkNodeEntry ip1 None)
  else if h =? nodeB then Some (mkNodeEntry ip1 (Some (fun d => if d ==s "example.com" then Some (mkStats 40 900) else None)))
  else if h =? nodeC then Some (mkNodeEntry ip2 None)
  else None.

Definition view : RoutableView := run_view [ViewAdd nodeA; ViewAdd nodeB; ViewAdd nodeC].

Definition plat : Platform :=
  Platform.mkPlatform "p1" "Video" 1000 AllocationPolicyBalanced 0 false true view.

Definition cfg : RouterConfig :=
  mkRouterConfig
    (mkPool entry (fun _ => None) (fun n => if n ==s "Video" then Some plat else None) [plat])
    ["example.com"] 500 (fun t => t) (fun h => Hex h).

Definition alice : leaseOwner := owner "u1" "default".
Definition bob : leaseOwner := owner "u2" "default".

(** Alice is routed first: the draws pick the last node of the view. *)
Definition r1 : Router := snd (RouteRequest cfg 1000 "Video" alice "example.com" [2; 2; 2; 2; 2] NewRouter).
Definition lease1 : Lease := mkLease nodeB ip1 1000 2000 1000.
End RoutingDemo.

Import RoutingDemo.

Lemma RoutingDemo_view : view_wf (Platform.View plat).
Proof. apply (run_view_is [ViewAdd nodeA; ViewAdd nodeB; ViewAdd nodeC]). Qed.

Lemma RoutingDemo_lease : leases (table "p1" r1) !! alice = Some lease1.
Proof. vm_compute. reflexivity. Qed.


