(* ===== verification/Cache.v ===== *)
(** * Weak persistence

    [src/internal/state/dirtyset.go] (which keys changed since the last flush),
    [engine.go] (marking and flushing) and [repo_cache.go] (the tables of
    cache.db).  The rows of a table are a finite map by primary key: every
    insert names its conflict target and replaces the whole row. *)

From stdpp Require Import base gmap list strings.
From S2P Require Import Prelude Netip RoutableView Leases Router.

(** ** Dirty sets *)

Inductive DirtyOp := OpUpsert | OpDelete.

Section DirtySets.
Context {K : Type} `{Countable K}.

Abbreviation DirtySet := (gmap K DirtyOp).

Definition MarkUpsert (k : K) (d : DirtySet) : DirtySet := <[k := OpUpsert]> d.
Definition MarkDelete (k : K) (d : DirtySet) : DirtySet := <[k := OpDelete]> d.

(** The drained snapshot and the fresh set. *)
Definition DrainDirty (d : DirtySet) : DirtySet * DirtySet := (d, ∅).

(** Keys marked again since the drain keep the newer mark. *)
Definition Merge (old : DirtySet) (d : DirtySet) : DirtySet := d ∪ old.

Definition Len (d : DirtySet) : Z := Z.of_nat (size d).

(** Upserts carry the value in memory at flush time; a key without one is
    deleted. *)
Definition classifyDirtySet {V} (drained : DirtySet) (reader : K -> option V) : list V * list K :=
  foldr (fun ko acc =>
      let '(k, op) := ko in
      match op with
      | OpDelete => (fst acc, k :: snd acc)
      | OpUpsert => match reader k with
                    | Some v => (v :: fst acc, snd acc)
                    | None => (fst acc, k :: snd acc)
                    end
      end) ([], []) (map_to_list drained).
End DirtySets.

(** ** Rows and keys *)

Module NodeStatic.
Record NodeStatic := mkNodeStatic { Hash : string; RawOptions : string; CreatedAtNs : Z }.
End NodeStatic.

Module NodeDynamic.
Record NodeDynamic := mkNodeDynamic {
  Hash : string;
  FailureCount : Z;
  CircuitOpenSince : Z;
  EgressIP : string;
  EgressRegion : string;
  EgressUpdatedAtNs : Z;
  LastLatencyProbeAttemptNs : Z;
  LastAuthorityLatencyProbeAttemptNs : Z;
  LastEgressUpdateAttemptNs : Z
}.
End NodeDynamic.

Module NodeLatency.
Record NodeLatency := mkNodeLatency { NodeHash : string; Domain : string; EwmaNs : Z; LastUpdatedNs : Z }.
End NodeLatency.

Module SubscriptionNode.
Record SubscriptionNode := mkSubscriptionNode {
  SubscriptionID : string;
  NodeHash : string;
  Tags : list string;
  Evicted : bool
}.
End SubscriptionNode.

(** The composite keys, in the order of their columns. *)
Abbreviation NodeLatencyKey := (string * string)%type.
Abbreviation SubscriptionNodeKey := (string * string)%type.
Abbreviation LeaseKey := (string * leaseOwner)%type.

(** What names the row of a table. *)
Class Keyed (K V : Type) := primary_key : V -> K.

#[global] Instance static_keyed : Keyed string NodeStatic.NodeStatic := NodeStatic.Hash.
#[global] Instance dynamic_keyed : Keyed string NodeDynamic.NodeDynamic := NodeDynamic.Hash.
#[global] Instance latency_keyed : Keyed NodeLatencyKey NodeLatency.NodeLatency :=
  fun r => (NodeLatency.NodeHash r, NodeLatency.Domain r).
#[global] Instance subnode_keyed : Keyed SubscriptionNodeKey SubscriptionNode.SubscriptionNode :=
  fun r => (SubscriptionNode.SubscriptionID r, SubscriptionNode.NodeHash r).
#[global] Instance lease_keyed : Keyed LeaseKey LeaseRow.Lease :=
  fun r => (LeaseRow.PlatformID r, owner (LeaseRow.UserID r) (LeaseRow.Account r)).

Section Tables.
Context {K V : Type} `{Countable K} {HK : Keyed K V}.

Definition upsert_rows (rows : list V) (t : gmap K V) : gmap K V :=
  fold_left (fun t v => <[primary_key v := v]> t) rows t.

Definition delete_rows (keys : list K) (t : gmap K V) : gmap K V :=
  fold_left (fun t k => delete k t) keys t.
End Tables.

(** ** cache.db *)

Record CacheRepo := mkCacheRepo {
  nodes_static : gmap string NodeStatic.NodeStatic;
  subscription_nodes : gmap SubscriptionNodeKey SubscriptionNode.SubscriptionNode;
  nodes_dynamic : gmap string NodeDynamic.NodeDynamic;
  node_latency : gmap NodeLatencyKey NodeLatency.NodeLatency;
  leases_table : gmap LeaseKey LeaseRow.Lease
}.

Definition emptyCache : CacheRepo := mkCacheRepo ∅ ∅ ∅ ∅ ∅.

Record FlushOps := mkFlushOps {
  NodesStaticOps : list NodeStatic.NodeStatic * list string;
  SubscriptionNodesOps : list SubscriptionNode.SubscriptionNode * list SubscriptionNodeKey;
  NodesDynamicOps : list NodeDynamic.NodeDynamic * list string;
  NodeLatencyOps : list NodeLatency.NodeLatency * list NodeLatencyKey;
  LeasesOps : list LeaseRow.Lease * list LeaseKey
}.

(** The transaction commits or leaves the file as it was; [commits] says which.
    Within one table upserts precede deletes. *)
Definition FlushTx (commits : bool) (ops : FlushOps) (c : CacheRepo) : bool * CacheRepo :=
  if negb commits then (false, c)
  else
    let run {K V} `{Countable K} `{!Keyed K V} (o : list V * list K) (t : gmap K V) :=
      delete_rows (snd o) (upsert_rows (fst o) t) in
    (true,
     mkCacheRepo (run (NodesStaticOps ops) (nodes_static c)) (run (SubscriptionNodesOps ops) (subscription_nodes c))
       (run (NodesDynamicOps ops) (nodes_dynamic c)) (run (NodeLatencyOps ops) (node_latency c))
       (run (LeasesOps ops) (leases_table c))).

Definition LoadAllNodesStatic (c : CacheRepo) : list NodeStatic.NodeStatic := (map_to_list (nodes_static c)).*2.
Definition LoadAllNodesDynamic (c : CacheRepo) : list NodeDynamic.NodeDynamic := (map_to_list (nodes_dynamic c)).*2.
Definition LoadAllNodeLatency (c : CacheRepo) : list NodeLatency.NodeLatency := (map_to_list (node_latency c)).*2.
Definition LoadAllSubscriptionNodes (c : CacheRepo) : list SubscriptionNode.SubscriptionNode :=
  (map_to_list (subscription_nodes c)).*2.
Definition LoadAllLeases (c : CacheRepo) : list LeaseRow.Lease := (map_to_list (leases_table c)).*2.

(** ** The engine *)

Record StateEngine := mkStateEngine {
  dirtyNodesStatic : gmap string DirtyOp;
  dirtySubscriptionNodes : gmap SubscriptionNodeKey DirtyOp;
  dirtyNodesDynamic : gmap string DirtyOp;
  dirtyNodeLatency : gmap NodeLatencyKey DirtyOp;
  dirtyLeases : gmap LeaseKey DirtyOp
}.

Definition newStateEngine : StateEngine := mkStateEngine ∅ ∅ ∅ ∅ ∅.

Definition on_leases (f : gmap LeaseKey DirtyOp -> gmap LeaseKey DirtyOp) (e : StateEngine) : StateEngine :=
  mkStateEngine (dirtyNodesStatic e) (dirtySubscriptionNodes e) (dirtyNodesDynamic e) (dirtyNodeLatency e)
    (f (dirtyLeases e)).

Definition on_static (f : gmap string DirtyOp -> gmap string DirtyOp) (e : StateEngine) : StateEngine :=
  mkStateEngine (f (dirtyNodesStatic e)) (dirtySubscriptionNodes e) (dirtyNodesDynamic e) (dirtyNodeLatency e)
    (dirtyLeases e).

Definition on_dynamic (f : gmap string DirtyOp -> gmap string DirtyOp) (e : StateEngine) : StateEngine :=
  mkStateEngine (dirtyNodesStatic e) (dirtySubscriptionNodes e) (f (dirtyNodesDynamic e)) (dirtyNodeLatency e)
    (dirtyLeases e).

Definition on_latency (f : gmap NodeLatencyKey DirtyOp -> gmap NodeLatencyKey DirtyOp) (e : StateEngine) : StateEngine :=
  mkStateEngine (dirtyNodesStatic e) (dirtySubscriptionNodes e) (dirtyNodesDynamic e) (f (dirtyNodeLatency e))
    (dirtyLeases e).

Definition on_subnodes (f : gmap SubscriptionNodeKey DirtyOp -> gmap SubscriptionNodeKey DirtyOp) (e : StateEngine)
    : StateEngine :=
  mkStateEngine (dirtyNodesStatic e) (f (dirtySubscriptionNodes e)) (dirtyNodesDynamic e) (dirtyNodeLatency e)
    (dirtyLeases e).

Definition MarkNodeStatic (hash : string) := on_static (MarkUpsert hash).
Definition MarkNodeStaticDelete (hash : string) := on_static (MarkDelete hash).
Definition MarkNodeDynamic (hash : string) := on_dynamic (MarkUpsert hash).
Definition MarkNodeDynamicDelete (hash : string) := on_dynamic (MarkDelete hash).
Definition MarkNodeLatency (nodeHash domain : string) := on_latency (MarkUpsert (nodeHash, domain)).
Definition MarkNodeLatencyDelete (nodeHash domain : string) := on_latency (MarkDelete (nodeHash, domain)).
Definition MarkLease (platformID : string) (o : leaseOwner) := on_leases (MarkUpsert (platformID, o)).
Definition MarkLeaseDelete (platformID : string) (o : leaseOwner) := on_leases (MarkDelete (platformID, o)).
Definition MarkSubscriptionNode (subID nodeHash : string) := on_subnodes (MarkUpsert (subID, nodeHash)).
Definition MarkSubscriptionNodeDelete (subID nodeHash : string) := on_subnodes (MarkDelete (subID, nodeHash)).

Definition DirtyCount (e : StateEngine) : Z :=
  Len (dirtyNodesStatic e) + Len (dirtyNodesDynamic e) + Len (dirtyNodeLatency e) + Len (dirtyLeases e)
  + Len (dirtySubscriptionNodes e).

Record CacheReaders := mkCacheReaders {
  ReadNodeStatic : string -> option NodeStatic.NodeStatic;
  ReadSubscriptionNode : SubscriptionNodeKey -> option SubscriptionNode.SubscriptionNode;
  ReadNodeDynamic : string -> option NodeDynamic.NodeDynamic;
  ReadNodeLatency : NodeLatencyKey -> option NodeLatency.NodeLatency;
  ReadLeaseRow : LeaseKey -> option LeaseRow.Lease
}.

(** [meanwhile] is what other goroutines mark between the drain and the merge
    back. *)
Definition FlushDirtySets (readers : CacheReaders) (commits : bool) (meanwhile : StateEngine -> StateEngine)
    (e : StateEngine) (c : CacheRepo) : bool * StateEngine * CacheRepo :=
  let '(st, st') := DrainDirty (dirtyNodesStatic e) in
  let '(sn, sn') := DrainDirty (dirtySubscriptionNodes e) in
  let '(dy, dy') := DrainDirty (dirtyNodesDynamic e) in
  let '(la, la') := DrainDirty (dirtyNodeLatency e) in
  let '(le, le') := DrainDirty (dirtyLeases e) in
  let e' := meanwhile (mkStateEngine st' sn' dy' la' le') in
  let ops := mkFlushOps (classifyDirtySet st (ReadNodeStatic readers)) (classifyDirtySet sn (ReadSubscriptionNode readers))
               (classifyDirtySet dy (ReadNodeDynamic readers)) (classifyDirtySet la (ReadNodeLatency readers))
               (classifyDirtySet le (ReadLeaseRow readers)) in
  match FlushTx commits ops c with
  | (false, c') =>
      (false,
       mkStateEngine (Merge st (dirtyNodesStatic e')) (Merge sn (dirtySubscriptionNodes e'))
         (Merge dy (dirtyNodesDynamic e')) (Merge la (dirtyNodeLatency e')) (Merge le (dirtyLeases e')), c')
  | (true, c') => (true, e', c')
  end.

(** ** One table *)

Section TableFacts.
Context {K V : Type} `{Countable K} {HK : Keyed K V}.

Lemma delete_rows_lookup (keys : list K) (t : gmap K V) (k : K) :
  delete_rows keys t !! k = if bool_decide (k ∈ keys) then None else t !! k.
Proof.
  revert t. induction keys as [|k' keys IH]; intros t; [done|].
  change (delete_rows (k' :: keys) t) with (delete_rows keys (delete k' t)).
  rewrite IH. destruct (decide (k = k')) as [->|Hne].
  - rewrite lookup_delete_eq, (bool_decide_eq_true_2 (k' ∈ k' :: keys)) by set_solver. by case_match.
  - rewrite lookup_delete_ne by done. repeat case_bool_decide; set_solver.
Qed.

Lemma upsert_rows_other (rows : list V) (t : gmap K V) (k : K) :
  (forall v, v ∈ rows -> primary_key v <> k) -> upsert_rows rows t !! k = t !! k.
Proof.
  revert t. induction rows as [|v rows IH]; intros t Hk; simpl; [done|].
  rewrite IH by set_solver. apply lookup_insert_ne, Hk. set_solver.
Qed.

Lemma upsert_rows_one (rows : list V) (t : gmap K V) (k : K) (v : V) :
  v ∈ rows -> primary_key v = k -> (forall v', v' ∈ rows -> primary_key v' = k -> v' = v) ->
  upsert_rows rows t !! k = Some v.
Proof.
  revert t. induction rows as [|v0 rows IH]; intros t Hin Hk Hu; simpl; [by apply not_elem_of_nil in Hin|].
  destruct (decide (Exists (fun v' => primary_key v' = k) rows)) as [He|Hn].
  - apply Exists_exists in He as (v' & Hv' & Hk'). assert (v' = v) as -> by (apply Hu; [set_solver|done]).
    apply IH; [done|done|set_solver].
  - rewrite upsert_rows_other; [|intros v' Hv' E; apply Hn, Exists_exists; by exists v'].
    apply elem_of_cons in Hin as [->|Hin]; [by rewrite Hk, lookup_insert_eq|].
    exfalso. apply Hn, Exists_exists. by exists v.
Qed.

Lemma classify_spec (d : gmap K DirtyOp) (reader : K -> option V) :
  let '(ups, dels) := classifyDirtySet d reader in
  (forall v, v ∈ ups <-> exists k, d !! k = Some OpUpsert /\ reader k = Some v) /\
  (forall k, k ∈ dels <-> d !! k = Some OpDelete \/ (d !! k = Some OpUpsert /\ reader k = None)).
Proof.
  unfold classifyDirtySet.
  assert (forall l : list (K * DirtyOp),
    let '(ups, dels) := foldr (fun ko acc => let '(k, op) := ko in
      match op with
      | OpDelete => (fst acc, k :: snd acc)
      | OpUpsert => match reader k with Some v => (v :: fst acc, snd acc) | None => (fst acc, k :: snd acc) end
      end) ([], []) l in
    (forall v, v ∈ ups <-> exists k, (k, OpUpsert) ∈ l /\ reader k = Some v) /\
    (forall k, k ∈ dels <-> (k, OpDelete) ∈ l \/ ((k, OpUpsert) ∈ l /\ reader k = None))) as Hl.
  { induction l as [|[k op] l IH]; simpl; [split; intros x; split; set_solver|].
    destruct (foldr _ _ l) as [ups dels]. destruct IH as [IHu IHd]. destruct op; simpl.
    - destruct (reader k) as [v0|] eqn:Er; simpl; (split; intros x; rewrite ?elem_of_cons, ?IHu, ?IHd;
        try setoid_rewrite elem_of_cons; naive_solver).
    - split; intros x; rewrite ?elem_of_cons, ?IHu, ?IHd; try setoid_rewrite elem_of_cons; naive_solver. }
  specialize (Hl (map_to_list d)). destruct (foldr _ _ _) as [ups dels]. destruct Hl as [Hu Hd].
  split; [intros v; rewrite Hu|intros k; rewrite Hd]; by setoid_rewrite elem_of_map_to_list.
Qed.

(** A reader answers with the row of the key it is asked for. *)
Definition reads_by_key (reader : K -> option V) : Prop := forall k v, reader k = Some v -> primary_key v = k.

(** What the statements of one table leave in it. *)
Lemma flush_table (d : gmap K DirtyOp) (reader : K -> option V) (t : gmap K V) (k : K) :
  reads_by_key reader ->
  let ops := classifyDirtySet d reader in
  delete_rows (snd ops) (upsert_rows (fst ops) t) !! k =
    match d !! k with
    | None => t !! k
    | Some OpUpsert => reader k
    | Some OpDelete => None
    end.
Proof.
  intros Hr. cbv zeta. pose proof (classify_spec d reader) as H'. destruct (classifyDirtySet d reader) as [ups dels].
  destruct H' as [Hu Hd]. simpl. rewrite delete_rows_lookup.
  assert (forall v, v ∈ ups -> primary_key v = k -> d !! k = Some OpUpsert /\ reader k = Some v) as Hkey.
  { intros v (k' & Hk & Hv)%Hu E. pose proof (Hr _ _ Hv). by subst. }
  destruct (d !! k) as [[]|] eqn:Ek.
  - destruct (reader k) as [v|] eqn:Er.
    + rewrite bool_decide_eq_false_2 by (rewrite Hd; naive_solver).
      apply upsert_rows_one; [apply Hu; eauto|by apply Hr|]. intros v' Hv' E. by destruct (Hkey v' Hv' E) as [_ [= ->]].
    + rewrite bool_decide_eq_true_2 by (rewrite Hd; naive_solver). done.
  - rewrite bool_decide_eq_true_2 by (rewrite Hd; naive_solver). done.
  - rewrite bool_decide_eq_false_2 by (rewrite Hd; naive_solver). apply upsert_rows_other.
    intros v Hv E. by destruct (Hkey v Hv E).
Qed.

(** ** Coherence

    An unmarked key has its value in the table; a key marked for deletion has
    no value in memory. *)
Definition coherent (d : gmap K DirtyOp) (t : gmap K V) (mem : K -> option V) : Prop :=
  forall k, match d !! k with
            | None => t !! k = mem k
            | Some OpDelete => mem k = None
            | Some OpUpsert => True
            end.

(** Memory moved from [mem] to [mem'] while [d] collected the marks. *)
Definition marked_moves (d : gmap K DirtyOp) (mem mem' : K -> option V) : Prop :=
  forall k, match d !! k with
            | None => mem' k = mem k
            | Some OpDelete => mem' k = None
            | Some OpUpsert => True
            end.

Lemma coherent_commit (d d' : gmap K DirtyOp) (t : gmap K V) (mem mem' : K -> option V) :
  reads_by_key mem -> coherent d t mem -> marked_moves d' mem mem' ->
  let ops := classifyDirtySet d mem in
  coherent d' (delete_rows (snd ops) (upsert_rows (fst ops) t)) mem'.
Proof.
  intros Hr Hc Hm ops k. subst ops. specialize (Hc k). specialize (Hm k). rewrite flush_table by done.
  destruct (d' !! k) as [[]|]; [done|done|]. rewrite Hm. by destruct (d !! k) as [[]|].
Qed.

Lemma coherent_merge (d d' : gmap K DirtyOp) (t : gmap K V) (mem mem' : K -> option V) :
  coherent d t mem -> marked_moves d' mem mem' -> coherent (Merge d d') t mem'.
Proof.
  intros Hc Hm k. specialize (Hc k). specialize (Hm k). unfold Merge. rewrite lookup_union.
  destruct (d' !! k) as [[]|]; destruct (d !! k) as [[]|]; simpl; try done; congruence.
Qed.

Lemma coherent_clean (t : gmap K V) (mem : K -> option V) : coherent ∅ t mem <-> forall k, t !! k = mem k.
Proof. split; intros Hc k; specialize (Hc k); by rewrite lookup_empty in *. Qed.
End TableFacts.

(** ** The whole cache *)

Record readers_ok (r : CacheReaders) : Prop := {
  ro_static : reads_by_key (ReadNodeStatic r);
  ro_subnodes : reads_by_key (ReadSubscriptionNode r);
  ro_dynamic : reads_by_key (ReadNodeDynamic r);
  ro_latency : reads_by_key (ReadNodeLatency r);
  ro_leases : reads_by_key (ReadLeaseRow r)
}.

(** Memory, the marks and the file agree. *)
Record engine_coherent (r : CacheReaders) (e : StateEngine) (c : CacheRepo) : Prop := {
  ec_static : coherent (dirtyNodesStatic e) (nodes_static c) (ReadNodeStatic r);
  ec_subnodes : coherent (dirtySubscriptionNodes e) (subscription_nodes c) (ReadSubscriptionNode r);
  ec_dynamic : coherent (dirtyNodesDynamic e) (nodes_dynamic c) (ReadNodeDynamic r);
  ec_latency : coherent (dirtyNodeLatency e) (node_latency c) (ReadNodeLatency r);
  ec_leases : coherent (dirtyLeases e) (leases_table c) (ReadLeaseRow r)
}.

(** Memory moved from [r] to [r'] while the marks in [e] were made. *)
Record engine_moves (e : StateEngine) (r r' : CacheReaders) : Prop := {
  em_static : marked_moves (dirtyNodesStatic e) (ReadNodeStatic r) (ReadNodeStatic r');
  em_subnodes : marked_moves (dirtySubscriptionNodes e) (ReadSubscriptionNode r) (ReadSubscriptionNode r');
  em_dynamic : marked_moves (dirtyNodesDynamic e) (ReadNodeDynamic r) (ReadNodeDynamic r');
  em_latency : marked_moves (dirtyNodeLatency e) (ReadNodeLatency r) (ReadNodeLatency r');
  em_leases : marked_moves (dirtyLeases e) (ReadLeaseRow r) (ReadLeaseRow r')
}.

(** The file holds exactly what memory holds. *)
Definition cache_is_memory (r : CacheReaders) (c : CacheRepo) : Prop :=
  (forall k, nodes_static c !! k = ReadNodeStatic r k) /\
  (forall k, subscription_nodes c !! k = ReadSubscriptionNode r k) /\
  (forall k, nodes_dynamic c !! k = ReadNodeDynamic r k) /\
  (forall k, node_latency c !! k = ReadNodeLatency r k) /\
  (forall k, leases_table c !! k = ReadLeaseRow r k).

Lemma FlushDirtySets_coherent (r r' : CacheReaders) (commits : bool) (meanwhile : StateEngine -> StateEngine)
    (e : StateEngine) (c : CacheRepo) :
  readers_ok r -> engine_coherent r e c -> engine_moves (meanwhile newStateEngine) r r' ->
  let '(ok, e', c') := FlushDirtySets r commits meanwhile e c in
  ok = commits /\ engine_coherent r' e' c' /\ (ok = false -> c' = c).
Proof.
  intros Ho Hc Hm. unfold FlushDirtySets. simpl. fold newStateEngine. destruct commits; simpl.
  - split_and!; [done| |done]. destruct Ho, Hc, Hm. split; simpl; by eapply coherent_commit.
  - split_and!; [done| |done]. destruct Hc, Hm. split; simpl; by eapply coherent_merge.
Qed.

(** C11: a flush loses nothing and invents nothing.  Start from marks and a
    cache file in agreement with memory, and let memory move on while the flush
    runs, with every change marked.  Whether the transaction commits or fails,
    marks and file agree with the new memory afterwards, and a failed one leaves
    the file as it was.  A flush that commits while nothing moves leaves every
    table holding exactly what is in memory. *)
Theorem flush_keeps_memory_and_cache_together (r r' : CacheReaders) (commits : bool)
    (meanwhile : StateEngine -> StateEngine) (e : StateEngine) (c : CacheRepo) :
  readers_ok r -> engine_coherent r e c -> engine_moves (meanwhile newStateEngine) r r' ->
  let '(ok, e', c') := FlushDirtySets r commits meanwhile e c in
  ok = commits /\ engine_coherent r' e' c' /\ (ok = false -> c' = c) /\
  (ok = true -> meanwhile newStateEngine = newStateEngine -> cache_is_memory r c').
Proof.
  intros Ho Hc Hm. pose proof (FlushDirtySets_coherent r r' commits meanwhile e c Ho Hc Hm) as H.
  destruct (FlushDirtySets r commits meanwhile e c) as [[ok e'] c'] eqn:E. destruct H as (-> & Hc' & Hf).
  split_and!; [done|done|done|]. intros -> Hquiet.
  assert (engine_moves (meanwhile newStateEngine) r r) as Hm' by (rewrite Hquiet; split; intros k; simpl; done).
  pose proof (FlushDirtySets_coherent r r true meanwhile e c Ho Hc Hm') as H. rewrite E in H.
  destruct H as (_ & [H1 H2 H3 H4 H5] & _). unfold FlushDirtySets in E. simpl in E. fold newStateEngine in E.
  injection E as <- <-. rewrite Hquiet in *. simpl in *. unfold cache_is_memory. by rewrite !coherent_clean in *.
Qed.

Module CacheDemo.
Definition n1 : NodeStatic.NodeStatic := NodeStatic.mkNodeStatic "n1" "{}" 5.
Definition readers : CacheReaders :=
  mkCacheReaders (fun k => if k ==s "n1" then Some n1 else None) (fun _ => None) (fun _ => None) (fun _ => None) (fun _ => None).
Definition marked : StateEngine := MarkNodeStatic "n1" newStateEngine.
End CacheDemo.

Import CacheDemo.

Lemma CacheDemo_readers : readers_ok readers.
Proof.
  split; try done. intros k v. simpl. destruct (k ==s "n1") eqn:E; [|done]. bool_prop. by intros [= <-].
Qed.

Lemma CacheDemo_coherent : engine_coherent readers marked emptyCache.
Proof.
  split; intros k; simpl; try done. unfold MarkUpsert. destruct (decide (k = "n1")) as [->|Hne].
  - by rewrite lookup_insert_eq.
  - rewrite lookup_insert_ne, lookup_empty by done. destruct (k ==s "n1") eqn:E; [by bool_prop|done].
Qed.

(** A node is deleted while the flush of another one runs. *)
Lemma CacheDemo_moves : engine_moves (MarkNodeStaticDelete "n2" newStateEngine) readers readers.
Proof.
  split; intros k; simpl; try done. unfold MarkDelete. destruct (decide (k = "n2")) as [->|Hne].
  - by rewrite lookup_insert_eq.
  - by rewrite lookup_insert_ne, lookup_empty.
Qed.

Lemma flush_keeps_memory_and_cache_together_witness :
  (let '(ok, e', c') := FlushDirtySets readers false (MarkNodeStaticDelete "n2") marked emptyCache in
   ok = false /\ engine_coherent readers e' c' /\ (ok = false -> c' = emptyCache) /\
   (ok = true -> MarkNodeStaticDelete "n2" newStateEngine = newStateEngine -> cache_is_memory readers c')) /\
  (let '(ok, e', c') := FlushDirtySets readers true (fun e => e) marked emptyCache in nodes_static c' !! "n1" = Some n1).
Proof.
  split; [|reflexivity].
  apply (flush_keeps_memory_and_cache_together readers readers false (MarkNodeStaticDelete "n2") marked emptyCache);
    [exact CacheDemo_readers|exact CacheDemo_coherent|exact CacheDemo_moves].
Defined.
