(* ===== verification/LeaseStore.v ===== *)
(** * Leases across a restart

    The wiring of [src/cmd/prism/app_runtime.go]: every lease event marks a
    key of the cache, a flush writes the marked leases, and at start the router
    is loaded from the cache.  Composes [Router.v] with [Cache.v]. *)

From Stdlib Require Import Ascii String.
From stdpp Require Import base gmap list strings.
From S2P Require Import Prelude GoStrings Netip RoutableView Leases Router Routing Cache.

(** ** The listener *)

Definition event_key (e : LeaseEvent) : LeaseKey := (EventPlatformID e, owner (EventUserID e) (EventAccount e)).

Definition event_op (e : LeaseEvent) : DirtyOp :=
  match EventType e with
  | LeaseCreate | LeaseTouch | LeaseReplace => OpUpsert
  | LeaseRemove | LeaseExpire => OpDelete
  end.

(** [OnLeaseEvent] *)
Definition onLeaseEvent (en : StateEngine) (e : LeaseEvent) : StateEngine :=
  match EventType e with
  | LeaseCreate | LeaseTouch | LeaseReplace => MarkLease (EventPlatformID e) (owner (EventUserID e) (EventAccount e)) en
  | LeaseRemove | LeaseExpire => MarkLeaseDelete (EventPlatformID e) (owner (EventUserID e) (EventAccount e)) en
  end.

(** The leases in memory, by key. *)
Definition lease_memory (r : Router) (k : LeaseKey) : option LeaseRow.Lease := ReadLease (fst k) (snd k) r.

(** The readers a flush is given; only the lease reader matters here. *)
Definition with_lease_reader (others : CacheReaders) (r : Router) : CacheReaders :=
  mkCacheReaders (ReadNodeStatic others) (ReadSubscriptionNode others) (ReadNodeDynamic others) (ReadNodeLatency others)
    (lease_memory r).

Record App := mkApp { app_router : Router; app_engine : StateEngine; app_cache : CacheRepo }.

Definition new_events (r r' : Router) : list LeaseEvent := drop (length (emitted r)) (emitted r').

Inductive AppOp :=
| AppRouter (op : RouterOp)
| AppFlush (commits : bool).

Section Wiring.
Context (others : CacheReaders).

Definition run_app_op (a : App) (op : AppOp) : App :=
  match op with
  | AppRouter op =>
      let r' := run_router_op (app_router a) op in
      mkApp r' (fold_left onLeaseEvent (new_events (app_router a) r') (app_engine a)) (app_cache a)
  | AppFlush commits =>
      let '(_, e', c') :=
        FlushDirtySets (with_lease_reader others (app_router a)) commits (fun e => e) (app_engine a) (app_cache a) in
      mkApp (app_router a) e' c'
  end.

Definition run_app (ops : list AppOp) : App :=
  fold_left run_app_op ops (mkApp NewRouter newStateEngine emptyCache).

(** The router a new process starts with. *)
Definition restart (a : App) : Router := RestoreLeases (LoadAllLeases (app_cache a)) NewRouter.
End Wiring.

(** ** Marks made by events *)

Definition mark_event (d : gmap LeaseKey DirtyOp) (e : LeaseEvent) : gmap LeaseKey DirtyOp :=
  <[event_key e := event_op e]> d.

Definition marks (evs : list LeaseEvent) : gmap LeaseKey DirtyOp := fold_left mark_event evs ∅.

Lemma fold_mark_event (evs : list LeaseEvent) (d : gmap LeaseKey DirtyOp) :
  fold_left mark_event evs d = Merge d (marks evs).
Proof.
  unfold marks, Merge. revert d. induction evs as [|e evs IH]; intros d; simpl; [by rewrite (left_id_L ∅ (∪))|].
  rewrite IH. rewrite (IH (mark_event ∅ e)). unfold mark_event.
  rewrite <- (assoc_L (∪)), <- insert_union_l, (left_id_L ∅ (∪)). done.
Qed.

Lemma marks_app (l k : list LeaseEvent) : marks (l ++ k) = Merge (marks l) (marks k).
Proof. unfold marks at 1. rewrite fold_left_app. apply fold_mark_event. Qed.

Lemma onLeaseEvent_marks (evs : list LeaseEvent) (en : StateEngine) :
  fold_left onLeaseEvent evs en = on_leases (fun d => Merge d (marks evs)) en.
Proof.
  assert (fold_left onLeaseEvent evs en = on_leases (fun d => fold_left mark_event evs d) en) as ->.
  { revert en. induction evs as [|e evs IH]; intros en; simpl; [by destruct en|]. rewrite IH.
    unfold onLeaseEvent, mark_event, event_op, event_key. by destruct (EventType e). }
  unfold on_leases. by rewrite fold_mark_event.
Qed.

(** ** Announced changes *)

(** Every change of a lease between two routers is in the events in between,
    the last event about a key tells its fate. *)
Definition announced (r r' : Router) : Prop :=
  exists evs, emitted r' = emitted r ++ evs /\ marked_moves (marks evs) (lease_memory r) (lease_memory r').

Lemma marked_moves_trans (d d' : gmap LeaseKey DirtyOp) (m m' m'' : LeaseKey -> option LeaseRow.Lease) :
  marked_moves d m m' -> marked_moves d' m' m'' -> marked_moves (Merge d d') m m''.
Proof.
  intros H H' k. specialize (H k). specialize (H' k). unfold Merge. rewrite lookup_union.
  destruct (d' !! k) as [[]|], (d !! k) as [[]|]; simpl; try done; congruence.
Qed.

#[global] Instance announced_trans : Transitive announced.
Proof.
  intros r r' r'' (ev & E & M) (ev' & E' & M'). exists (ev ++ ev'). rewrite E', E, app_assoc. split; [done|].
  rewrite marks_app. by eapply marked_moves_trans.
Qed.

#[global] Instance announced_refl : Reflexive announced.
Proof. intros r. exists []. rewrite app_nil_r. split; [done|]. intros k. done. Qed.

Lemma announced_fold {A} (f : Router -> A -> Router) (l : list A) (r : Router) :
  (forall r a, announced r (f r a)) -> announced r (fold_left f l r).
Proof. intros Hf. revert r. induction l as [|a l IH]; intros r; simpl; [done|]. etrans; [apply Hf|apply IH]. Qed.

Lemma lease_memory_table (r : Router) (pid : string) (o : leaseOwner) :
  lease_memory r (pid, o) = lease_row pid o <$> leases (table pid r) !! o.
Proof.
  unfold lease_memory, ReadLease, table, GetLease. simpl. destruct (states r !! pid); simpl; [by destruct (_ !! o)|].
  by rewrite lookup_empty.
Qed.

Lemma lease_memory_other (pid : string) (o : leaseOwner) (r r' : Router) (k : LeaseKey) :
  router_step pid o r r' -> k <> (pid, o) -> lease_memory r' k = lease_memory r k.
Proof.
  intros [Hs Hf] Hne. destruct k as [pid' o']. rewrite !lease_memory_table.
  destruct (decide (pid' = pid)) as [->|Hp].
  - rewrite (lease_step_frame o o' _ _ Hs) by congruence. done.
  - unfold table. by rewrite Hf.
Qed.

(** Routers whose leases are the same. *)
Lemma announced_same (r r' : Router) : emitted r' = emitted r -> (forall k, lease_memory r' k = lease_memory r k) ->
  announced r r'.
Proof. intros E Hm. exists []. rewrite app_nil_r. split; [done|]. intros k. apply Hm. Qed.

Lemma lease_memory_states (r r' : Router) (k : LeaseKey) : states r' = states r -> lease_memory r' k = lease_memory r k.
Proof. intros E. unfold lease_memory, ReadLease. by rewrite E. Qed.

(** One changed lease, and events of which the last one about it is right. *)
Lemma announced_step (pid : string) (o : leaseOwner) (r r' : Router) (evs : list LeaseEvent) (e : LeaseEvent) :
  router_step pid o r r' -> emitted r' = emitted r ++ evs ++ [e] ->
  (forall e', In e' evs -> event_key e' = (pid, o)) -> event_key e = (pid, o) ->
  (event_op e = OpDelete -> leases (table pid r') !! o = None) -> announced r r'.
Proof.
  intros Hs He Hevs Hk Hd. exists (evs ++ [e]). split; [done|]. intros k.
  rewrite marks_app. unfold Merge. change (marks [e]) with (<[event_key e := event_op e]> (∅ : gmap LeaseKey DirtyOp)).
  destruct (decide (k = (pid, o))) as [->|Hne].
  - rewrite Hk, lookup_union_l' by (rewrite lookup_insert_eq; eauto). rewrite lookup_insert_eq.
    destruct (event_op e); [done|]. by rewrite lease_memory_table, Hd.
  - assert (marks evs !! k = None) as Hn.
    { unfold marks. clear -Hevs Hne. assert ((∅ : gmap LeaseKey DirtyOp) !! k = None) as H by apply lookup_empty.
      revert H. generalize (∅ : gmap LeaseKey DirtyOp). induction evs as [|e evs IH]; intros d H; simpl; [done|].
      apply IH; [intros; apply Hevs; by right|]. unfold mark_event. rewrite lookup_insert_ne; [done|].
      rewrite (Hevs e); [congruence|by left]. }
    rewrite lookup_union_r by (rewrite Hk, lookup_insert_ne by congruence; apply lookup_empty). rewrite Hn.
    by eapply lease_memory_other.
Qed.

(** ** Each operation announces its changes *)

Lemma emitted_apply_op (pid : string) (o : leaseOwner) (l : option Lease) (op : ComputeOp) (r : Router) :
  emitted (apply_op pid o l op r) = emitted r.
Proof. by destruct op, l. Qed.

Lemma event_key_lease (ty : LeaseEventType) (pid : string) (o : leaseOwner) (h : Hash) (ip : Addr) (ns : Z) :
  event_key (lease_event ty pid o h ip ns) = (pid, o).
Proof. by destruct o. Qed.

Lemma createOrAbort_announced (cfg : RouterConfig) (now : Z) (plat : Platform) (o : leaseOwner) (target : string)
    (inv : leaseInvalidationReason) (rng : list Z) (r : Router) :
  let pid := Platform.ID plat in
  let prev := leases (table pid r) !! o in
  (is_Some prev -> inv <> leaseInvalidationNone) ->
  let '(l, op, _, _, r1) := createOrAbortStickyLease cfg now plat o target prev inv rng r in
  announced r (apply_op pid o l op r1).
Proof.
  intros pid prev Hinv. pose proof (createOrAbort_step cfg now plat o target inv rng r) as Hs. cbv zeta in Hs.
  pose proof (createOrAbort_leases cfg now plat o target prev inv rng r) as Hl. cbv zeta in Hl. fold pid prev in Hs, Hl.
  unfold createOrAbortStickyLease in *. fold pid in Hs, Hl |- *.
  pose proof (createLease_states cfg now plat o target rng r) as [Hst Hem].
  destruct (createLease cfg now plat o target rng r) as [[created rng1] r1]. simpl in Hst, Hem.
  destruct created as [[lease result]|].
  - eapply (announced_step pid o _ _ (match prev with None => [] | Some l => match inv with
        | leaseInvalidationNone => []
        | leaseInvalidationExpire => [lease_event LeaseExpire pid o (NodeHash l) (EgressIP l) (CreatedAtNs l)]
        | leaseInvalidationRemove => [lease_event LeaseRemove pid o (NodeHash l) (EgressIP l) (CreatedAtNs l)] end end)
      (lease_event LeaseCreate pid o (NodeHash lease) (EgressIP lease) 0));
      [exact Hs| | |apply event_key_lease|done].
    + rewrite emitted_apply_op. simpl. rewrite <- Hem. destruct prev, inv; simpl; by rewrite <- ?app_assoc.
    + intros e' He'. destruct prev, inv; simpl in He'; destruct_or? He'; subst; done || apply event_key_lease.
  - destruct prev as [l|] eqn:Ep; [|apply announced_same; [exact Hem|intros k; by apply lease_memory_states]].
    specialize (Hinv ltac:(eauto)).
    eapply (announced_step pid o _ _ []
      (lease_event (match inv with leaseInvalidationRemove => LeaseRemove | _ => LeaseExpire end) pid o
         (NodeHash l) (EgressIP l) (CreatedAtNs l))); [exact Hs| |done|apply event_key_lease|].
    + rewrite emitted_apply_op. simpl. rewrite <- Hem. by destruct inv.
    + intros _. unfold apply_op. simpl. rewrite table_set_state. simpl. apply lookup_delete_eq.
Qed.

Lemma ensure_announced (pid : string) (r : Router) : announced r (ensurePlatformState pid r).
Proof.
  apply announced_same; [unfold ensurePlatformState; by destruct (states r !! pid)|].
  intros [pid' o]. by rewrite !lease_memory_table, table_ensure.
Qed.

Lemma routeSticky_announced (cfg : RouterConfig) (now : Z) (plat : Platform) (o : leaseOwner) (target : string)
    (rng : list Z) (r : Router) :
  announced r (snd (routeSticky cfg now plat o target rng r)).
Proof.
  pose proof (routeSticky_step cfg now plat o target rng r) as Hs. revert Hs.
  unfold routeSticky, decideStickyLease. set (pid := Platform.ID plat).
  pose proof (fun inv => createOrAbort_announced cfg now plat o target inv rng r) as Hc. cbv zeta in Hc. fold pid in Hc.
  destruct (leases (table pid r) !! o) as [l|] eqn:Eo.
  2:{ intros _. specialize (Hc leaseInvalidationNone ltac:(by intros [? ?])).
      by destruct (createOrAbortStickyLease _ _ _ _ _ _ _ _ _) as [[[[? ?] ?] ?] ?]. }
  destruct (IsExpired now l).
  { intros _. specialize (Hc leaseInvalidationExpire ltac:(done)).
    by destruct (createOrAbortStickyLease _ _ _ _ _ _ _ _ _) as [[[[? ?] ?] ?] ?]. }
  destruct (tryLeaseHit cfg now plat o l r) as [[[l' result] r1]|] eqn:Eh.
  { intros Hs. unfold tryLeaseHit in Eh. destruct (GetEntry _ _); [|done]. destruct (negb _ || negb _); [done|].
    injection Eh as <- <- <-. eapply (announced_step pid o _ _ [] (lease_event LeaseTouch pid o (NodeHash l) (EgressIP l) 0));
      [exact Hs|reflexivity|done|apply event_key_lease|done]. }
  destruct (tryLeaseSameIPRotation cfg now plat o l target r) as [[[l' result] r1]|] eqn:Er.
  { intros Hs. unfold tryLeaseSameIPRotation in Er. destruct (chooseSameIPRotationCandidate _ _ _ _ _) as [best|]; [|done].
    injection Er as <- <- <-. eapply (announced_step pid o _ _ [] (lease_event LeaseReplace pid o best (EgressIP l) 0));
      [exact Hs|reflexivity|done|apply event_key_lease|done]. }
  intros _. specialize (Hc leaseInvalidationRemove ltac:(done)).
  by destruct (createOrAbortStickyLease _ _ _ _ _ _ _ _ _) as [[[[? ?] ?] ?] ?].
Qed.

Lemma RouteRequest_announced (cfg : RouterConfig) (now : Z) (platName : string) (o : leaseOwner) (target : string)
    (rng : list Z) (r : Router) :
  announced r (snd (RouteRequest cfg now platName o target rng r)).
Proof.
  unfold RouteRequest. destruct (resolvePlatform cfg platName) as [plat|e]; [|done].
  etrans; [apply (ensure_announced (Platform.ID plat))|]. destruct (Account o ==s "").
  - unfold routeRandom. by destruct (selectLiveRandomRoute _ _ _ _ _ _ _) as [[[[h en] f]|] rng'].
  - pose proof (routeSticky_announced cfg now plat o (ExtractDomain cfg target) rng
      (ensurePlatformState (Platform.ID plat) r)) as H.
    by destruct (routeSticky _ _ _ _ _ _ _) as [[res rng'] r'].
Qed.

Lemma UpsertLease_announced (ml : LeaseRow.Lease) (r : Router) : announced r (snd (UpsertLease ml r)).
Proof.
  unfold UpsertLease. destruct (_ ==s ""); [done|]. destruct (_ ==s ""); [done|].
  destruct (ParseHex _) as [h|]; [|done]. destruct (ParseAddr _) as [ip|]; [|done]. simpl.
  set (pid := TrimSpace (LeaseRow.PlatformID ml)). set (o := owner _ _). etrans; [apply (ensure_announced pid)|].
  set (r0 := ensurePlatformState pid r).
  eapply (announced_step pid o _ _ []); [|reflexivity|done|apply event_key_lease|].
  - eapply router_step_same_states; [apply (set_state_step pid o), (ls_create o _ (row_lease h ip ml))|]. reflexivity.
  - unfold event_op. simpl. by destruct (leases (table pid r0) !! o).
Qed.

(** A lease taken out of the table with a removal or expiry event. *)
Lemma remove_announced (pid : string) (o : leaseOwner) (t : LeaseTable) (e : LeaseEvent) (r r' : Router) :
  states r' = <[pid := t]> (states r) -> leases t = delete o (leases (table pid r)) ->
  lease_step o (table pid r) t -> emitted r' = emitted r ++ [e] -> event_key e = (pid, o) -> announced r r'.
Proof.
  intros Hst Hl Hs He Hk. eapply (announced_step pid o r r' [] e); [|done|done|done|].
  - eapply router_step_same_states; [by apply (set_state_step pid o t)|done].
  - intros _. unfold table at 1. rewrite Hst, lookup_insert_eq. simpl. rewrite Hl. apply lookup_delete_eq.
Qed.

Lemma DeleteLease_Some (o : leaseOwner) (t t' : LeaseTable) (l : Lease) : DeleteLease o t = (Some l, t') ->
  leases t' = delete o (leases t) /\ lease_step o t t'.
Proof.
  unfold DeleteLease. destruct (leases t !! o) eqn:E; [|done]. intros [= <- <-]. split; [done|].
  replace (mkLeaseTable _ _) with (snd (DeleteLease o t)) by (unfold DeleteLease; by rewrite E). constructor.
Qed.

Lemma DeleteLeaseIfOlderThan_Some (o : leaseOwner) (ns : Z) (t t' : LeaseTable) (l : Lease) :
  DeleteLeaseIfOlderThan o ns t = (Some l, t') -> leases t' = delete o (leases t) /\ lease_step o t t'.
Proof.
  unfold DeleteLeaseIfOlderThan. destruct (leases t !! o) eqn:E; [|done]. case_match; [done|]. intros [= <- <-].
  split; [done|]. replace (mkLeaseTable _ _) with (snd (DeleteLease o t)) by (unfold DeleteLease; by rewrite E). constructor.
Qed.

Lemma table_of (pid : string) (r : Router) (t : LeaseTable) : states r !! pid = Some t -> table pid r = t.
Proof. intros E. unfold table. by rewrite E. Qed.

Lemma RouterDeleteLease_announced (pid : string) (o : leaseOwner) (r : Router) :
  announced r (snd (RouterDeleteLease pid o r)).
Proof.
  unfold RouterDeleteLease. destruct (states r !! pid) as [t|] eqn:Et; [|done].
  destruct (DeleteLease o t) as [[l|] t'] eqn:Ed; [|done]. apply DeleteLease_Some in Ed as [Hl Hs].
  rewrite <- (table_of _ _ _ Et) in Hl, Hs. by eapply remove_announced; [|exact Hl|exact Hs| |apply event_key_lease].
Qed.

Lemma RotateLease_announced (now : Z) (plat : Platform) (o : leaseOwner) (r : Router) :
  announced r (snd (RotateLease now plat o r)).
Proof.
  unfold RotateLease. destruct (_ ==s ""); [done|]. destruct (states r !! _) as [t|] eqn:Et; [|done].
  destruct (DeleteLease o t) as [[l|] t'] eqn:Ed; [|done]. apply DeleteLease_Some in Ed as [Hl Hs].
  rewrite <- (table_of _ _ _ Et) in Hl, Hs. simpl.
  pose proof (fun ttl r0 => recordRotationTombstone_states now (Platform.ID plat) o (EgressIP l) ttl r0) as Hr.
  eapply remove_announced; [|exact Hl|exact Hs| |apply event_key_lease].
  - simpl. apply Hr.
  - simpl. by rewrite (proj2 (Hr _ _)).
Qed.

Lemma rotate_one_announced (pid : string) (iv ttl now : Z) (r : Router) (o : leaseOwner) :
  announced r (rotate_one pid iv ttl now r o).
Proof.
  unfold rotate_one, RouterDeleteLeaseIfOlderThan. destruct (states r !! pid) as [t|] eqn:Et; [|done].
  destruct (DeleteLeaseIfOlderThan o _ t) as [[l|] t'] eqn:Ed; [|done].
  apply DeleteLeaseIfOlderThan_Some in Ed as [Hl Hs]. rewrite <- (table_of _ _ _ Et) in Hl, Hs. simpl.
  pose proof (fun ttl r0 => recordRotationTombstone_states now pid o (EgressIP l) ttl r0) as Hr.
  eapply remove_announced; [|exact Hl|exact Hs| |apply event_key_lease].
  - simpl. apply Hr.
  - simpl. by rewrite (proj2 (Hr _ _)).
Qed.

Lemma sweep_lease_announced (pid : string) (now : Z) (r : Router) (ol : leaseOwner * Lease) :
  announced r (sweep_lease pid now r ol).
Proof.
  unfold sweep_lease. destruct ol as [o seen]. destruct (_ <? _); [|done].
  destruct (leases (table pid r) !! o) as [c|] eqn:Ec; [|done]. destruct (_ <? _); [|done].
  eapply (remove_announced pid o); [reflexivity|reflexivity| |reflexivity|apply event_key_lease].
  replace (mkLeaseTable _ _) with (snd (DeleteLease o (table pid r))) by (unfold DeleteLease; by rewrite Ec). constructor.
Qed.

(** The operations whose events carry the owner. *)
Definition announces_owner (op : RouterOp) : bool :=
  match op with DoDeleteAll _ | DoPurge _ | DoRestore _ => false | _ => true end.

Lemma run_router_op_announced (r : Router) (op : RouterOp) : announces_owner op = true -> announced r (run_router_op r op).
Proof.
  destruct op; simpl; intros H; try done.
  - apply RouteRequest_announced.
  - apply UpsertLease_announced.
  - apply RouterDeleteLease_announced.
  - apply RotateLease_announced.
  - apply announced_fold. intros r0 pid. apply announced_fold. intros r1 ol. apply sweep_lease_announced.
  - apply announced_fold. intros r0 plat. apply announced_fold. intros r1 o. apply rotate_one_announced.
Qed.

(** ** Memory, marks and the lease table agree *)

Definition app_coherent (a : App) : Prop :=
  coherent (dirtyLeases (app_engine a)) (leases_table (app_cache a)) (lease_memory (app_router a)).

Definition app_op_ok (op : AppOp) : bool :=
  match op with AppRouter op => announces_owner op | AppFlush _ => true end.

Lemma lease_memory_by_key (r : Router) : reads_by_key (lease_memory r).
Proof.
  intros [pid o] row. rewrite lease_memory_table. destruct (leases (table pid r) !! o); simpl; [|done].
  intros [= <-]. by destruct o.
Qed.

Lemma marked_moves_none {K V} `{Countable K} (m : K -> option V) : marked_moves ∅ m m.
Proof. intros k. by rewrite lookup_empty. Qed.

Lemma run_app_op_coherent (others : CacheReaders) (a : App) (op : AppOp) :
  app_op_ok op = true -> app_coherent a -> app_coherent (run_app_op others a op).
Proof.
  intros Ho Hc. destruct op as [op|commits]; simpl.
  - destruct (run_router_op_announced (app_router a) op Ho) as (evs & E & Hm). unfold app_coherent, new_events. simpl.
    rewrite E, drop_app_length, onLeaseEvent_marks. simpl. by eapply coherent_merge.
  - unfold FlushDirtySets. simpl. destruct commits; simpl; unfold app_coherent; simpl.
    + apply coherent_commit; [apply lease_memory_by_key|done|apply marked_moves_none].
    + eapply coherent_merge; [done|apply marked_moves_none].
Qed.

Lemma run_app_coherent (others : CacheReaders) (ops : list AppOp) :
  forallb app_op_ok ops = true -> app_coherent (run_app others ops).
Proof.
  unfold run_app. assert (app_coherent (mkApp NewRouter newStateEngine emptyCache)) as H0.
  { intros [pid o]. simpl. by rewrite lookup_empty. }
  revert H0. generalize (mkApp NewRouter newStateEngine emptyCache).
  induction ops as [|op ops IH]; intros a Ha Hops; simpl in *; [done|]. apply andb_prop in Hops as [H1 H2].
  apply IH; [|done]. by apply run_app_op_coherent.
Qed.

(** A flush that commits writes exactly the live leases. *)
Lemma flush_writes_leases (others : CacheReaders) (a : App) (k : LeaseKey) : app_coherent a ->
  leases_table (app_cache (run_app_op others a (AppFlush true))) !! k = lease_memory (app_router a) k.
Proof.
  intros Hc. unfold run_app_op, FlushDirtySets. simpl.
  rewrite flush_table by apply lease_memory_by_key. specialize (Hc k). by destruct (_ !! k) as [[]|].
Qed.

(** ** Loading *)

Lemma restore_row_other (r : Router) (ml : LeaseRow.Lease) (pid : string) (o : leaseOwner) :
  primary_key ml <> (pid, o) -> leases (table pid (restore_row r ml)) !! o = leases (table pid r) !! o.
Proof.
  intros Hne. unfold restore_row. destruct (ParseHex _) as [h|]; [|done]. destruct (ParseAddr _) as [ip|]; [|done].
  destruct (decide (LeaseRow.PlatformID ml = pid)) as [E|Hp].
  - rewrite E, table_set_state. unfold CreateLease. simpl. rewrite lookup_insert_ne, table_ensure; [done|].
    intros Eo. apply Hne. unfold primary_key, lease_keyed. by rewrite E, Eo.
  - unfold table at 1. rewrite states_set_state_ne by done. fold (table pid (ensurePlatformState (LeaseRow.PlatformID ml) r)).
    by rewrite table_ensure.
Qed.

Lemma RestoreLeases_other (rows : list LeaseRow.Lease) (r : Router) (pid : string) (o : leaseOwner) :
  (forall ml, ml ∈ rows -> primary_key ml <> (pid, o)) ->
  leases (table pid (RestoreLeases rows r)) !! o = leases (table pid r) !! o.
Proof.
  unfold RestoreLeases. revert r. induction rows as [|ml rows IH]; intros r Hk; simpl; [done|].
  rewrite IH by set_solver. apply restore_row_other, Hk. set_solver.
Qed.

(** A lease whose row reads back as it was written. *)
Definition printable (l : Lease) : Prop :=
  hash_ok (NodeHash l) /\ ParseAddr (addr_string (EgressIP l)) = Some (EgressIP l).

Lemma restore_row_lease (r : Router) (pid : string) (o : leaseOwner) (l : Lease) : printable l ->
  leases (table pid (restore_row r (lease_row pid o l))) !! o = Some l.
Proof.
  intros [Hh Hip]. unfold restore_row, lease_row.
  cbn [LeaseRow.PlatformID LeaseRow.UserID LeaseRow.Account LeaseRow.NodeHash LeaseRow.EgressIP].
  rewrite ParseHex_Hex, Hip by done.
  rewrite table_set_state. unfold CreateLease. cbn [leases]. destruct o. rewrite lookup_insert_eq. by destruct l.
Qed.

Lemma RestoreLeases_lease (rows : list LeaseRow.Lease) (r : Router) (pid : string) (o : leaseOwner) (l : Lease) :
  lease_row pid o l ∈ rows -> (forall ml, ml ∈ rows -> primary_key ml = (pid, o) -> ml = lease_row pid o l) ->
  printable l -> leases (table pid (RestoreLeases rows r)) !! o = Some l.
Proof.
  intros Hin Hu Hp. revert r. induction rows as [|ml rows IH]; intros r; [by apply not_elem_of_nil in Hin|].
  change (RestoreLeases (ml :: rows) r) with (RestoreLeases rows (restore_row r ml)).
  destruct (decide (Exists (fun ml => primary_key ml = (pid, o)) rows)) as [He|Hn].
  - apply Exists_exists in He as (ml' & Hml & Hk). apply IH; [|set_solver].
    rewrite <- (Hu ml'); [done|set_solver|done].
  - rewrite RestoreLeases_other; [|intros ml' Hml E; apply Hn, Exists_exists; by exists ml'].
    apply elem_of_cons in Hin as [<-|Hin]; [by apply restore_row_lease|].
    exfalso. apply Hn, Exists_exists. exists (lease_row pid o l). split; [done|]. by destruct o.
Qed.


(** ** A worked restart *)

Module LeaseStoreDemo.
Definition others : CacheReaders := mkCacheReaders (fun _ => None) (fun _ => None) (fun _ => None) (fun _ => None) (fun _ => None).
Definition tenant : leaseOwner := owner "u1" "default".
Definition row : LeaseRow.Lease := LeaseRow.mkLeaseRow "p1" "u1" "default" (Hex 77) "1.2.3.4" 10 2000 10.
Definition lease : Lease := mkLease 77 (Addr4 16909060) 10 2000 10.
Definition lived : list AppOp :=
  [AppRouter (DoUpsert row); AppFlush false; AppRouter (DoClean 1000)].
Definition emptied : list AppOp :=
  [AppRouter (DoUpsert row); AppFlush true; AppRouter (DoDeleteAll "p1"); AppFlush true].
End LeaseStoreDemo.

Import LeaseStoreDemo.

Lemma LeaseStoreDemo_lease :
  leases (table "p1" (app_router (run_app others (lived ++ [AppFlush true])))) !! tenant = Some lease.
Proof. vm_compute. reflexivity. Qed.


