(* ===== verification/Fold.v ===== *)
(** * Case folding

    [strings.ToLower] and [strings.EqualFold] on any text.  What they take from
    the Unicode tables above ASCII is an argument: the lower case of a rune and
    the next member of its folding orbit. *)

From Stdlib Require Import Ascii String.
From stdpp Require Import base list strings.
From S2P Require Import Prelude GoStrings Utf8.

Record Unicode := mkUnicode { unicode_ToLower : Z -> Z; unicode_SimpleFold : Z -> Z }.

Section Fold.
Context (U : Unicode).

Definition is_ascii (s : string) : bool := forallb (fun c => code c <? 128) (list_ascii_of_string s).

(** ASCII text is lowered byte by byte; other text rune by rune, where a byte
    that starts no rune becomes the replacement rune. *)
Definition LowerText (s : string) : string :=
  if is_ascii s then string_of_list_ascii (map lower_ascii (list_ascii_of_string s))
  else of_runes (map (fun r => if r <? 128 then code (lower_ascii (byte r)) else unicode_ToLower U r) (runes s)).

(** The members of an orbit are visited in increasing order; none has more
    than four, so the fuel is not reached. *)
Fixpoint fold_walk (fuel : nat) (sr tr r : Z) : Z :=
  match fuel with
  | S n => if negb (r =? sr) && (r <? tr) then fold_walk n sr tr (unicode_SimpleFold U r) else r
  | O => r
  end.

Definition fold_rune (a b : Z) : bool :=
  if a =? b then true
  else
    let sr := Z.min a b in let tr := Z.max a b in
    if tr <? 128 then (65 <=? sr) && (sr <=? 90) && (tr =? sr + 32)
    else fold_walk 8 sr tr (unicode_SimpleFold U sr) =? tr.

Fixpoint fold_runes (s t : list Z) : bool :=
  match s, t with
  | [], [] => true
  | a :: s', b :: t' => fold_rune a b && fold_runes s' t'
  | _, _ => false
  end.

Definition EqualFold (s t : string) : bool := fold_runes (runes s) (runes t).

Lemma fold_rune_refl (a : Z) : fold_rune a a = true.
Proof. unfold fold_rune. by rewrite Z.eqb_refl. Qed.

Lemma EqualFold_refl (s : string) : EqualFold s s = true.
Proof. unfold EqualFold. induction (runes s); simpl; [done|]. by rewrite fold_rune_refl. Qed.

(** Folding is symmetric: the walk starts at the smaller rune of the two. *)
Lemma fold_rune_comm (a b : Z) : fold_rune a b = fold_rune b a.
Proof. unfold fold_rune. by rewrite (Z.eqb_sym b a), (Z.min_comm b a), (Z.max_comm b a). Qed.

Lemma EqualFold_comm (s t : string) : EqualFold s t = EqualFold t s.
Proof.
  unfold EqualFold. generalize (runes s) (runes t). intros l. induction l as [|a l IH]; intros [|b k]; [done..|].
  simpl. by rewrite fold_rune_comm, IH.
Qed.
End Fold.
