(* ===== verification/Intel.v ===== *)
(** * The projection of node intelligence

    [src/internal/intel/snapshot.go] and the rows of
    [src/internal/intel/store/models.go] it projects: the assessment of each
    address and the outcome of each check, in the compact form routing reads.
    Codes are the source's bytes, numbers keep their width. *)

From Stdlib Require Import Ascii String.
From stdpp Require Import base gmap list strings.
From S2P Require Import Prelude GoStrings Netip.

(** ** Rows, without the JSON columns no projection reads *)

Module Assessment.
Record t := mk {
  IP : string; Profile : string; State : string; Verdict : string; PurityScore : option Z; PurityBand : string;
  Confidence : string; IPType : string; Native : option Z; Flags : Z; ASN : option Z; ASOrg : string;
  Country : string; City : string; ComputedAtNs : Z; ValidUntilNs : Z
}.
End Assessment.
Abbreviation Assessment := Assessment.t.

Module NodeCheck.
Record t := mk { NodeHash : string; CheckID : string; Outcome : string; ObservedAtNs : Z; ValidUntilNs : Z }.
End NodeCheck.
Abbreviation NodeCheck := NodeCheck.t.

(** ** Names and codes *)

Definition bandNames : list string := ["unknown"; "excellent"; "clean"; "fair"; "mixed"; "poor"]%string.
Definition confidenceNames : list string := ["none"; "low"; "medium"; "high"]%string.
Definition verdictNames : list string :=
  ["pending"; "favorable"; "caution"; "incomplete"; "review"; "conflicting"; "high_risk"]%string.
Definition ipTypeNames : list string :=
  ["unknown"; "residential"; "mobile"; "business"; "wireless"; "datacenter"; "non_residential"; "conflicting"]%string.
Definition stateNames : list string := ["pending"; "valid"; "unsupported"]%string.
Definition outcomeNames : list string := ["unknown"; "available"; "blocked"; "region_limited"; "captcha"; "error"]%string.

(** The code tables number the names in the order of the name tables. *)
Definition codes_of (names : list string) : list (string * Z) := zip names (map Z.of_nat (seq 0 (length names))).
Definition bandCodes : list (string * Z) := codes_of bandNames.
Definition confidenceCodes : list (string * Z) := codes_of confidenceNames.
Definition verdictCodes : list (string * Z) := codes_of verdictNames.
Definition ipTypeCodes : list (string * Z) := codes_of ipTypeNames.
Definition stateCodes : list (string * Z) := codes_of stateNames.
Definition outcomeCodes : list (string * Z) := codes_of outcomeNames.

Definition codeOf (table : list (string * Z)) (name : string) : Z :=
  match List.find (fun kv => fst kv ==s ToLower (TrimSpace name)) table with
  | Some kv => snd kv
  | None => 0
  end.

Definition nameOf (names : list string) (code : Z) : string :=
  if code <? Z.of_nat (length names) then nth (Z.to_nat code) names "" else nth 0 names "".

Definition BandCode : string -> Z := codeOf bandCodes.
Definition BandName : Z -> string := nameOf bandNames.
Definition ConfidenceCode : string -> Z := codeOf confidenceCodes.
Definition ConfidenceName : Z -> string := nameOf confidenceNames.
Definition VerdictCode : string -> Z := codeOf verdictCodes.
Definition VerdictName : Z -> string := nameOf verdictNames.
Definition IPTypeCode : string -> Z := codeOf ipTypeCodes.
Definition IPTypeName : Z -> string := nameOf ipTypeNames.
Definition StateCode : string -> Z := codeOf stateCodes.
Definition StateName : Z -> string := nameOf stateNames.
Definition OutcomeCode : string -> Z := codeOf outcomeCodes.
Definition OutcomeName : Z -> string := nameOf outcomeNames.

Definition VerdictReview : Z := 4.
Definition VerdictConflicting : Z := 5.

Definition FlagCompromised : Z := Z.shiftl 1 0.
Definition FlagTor : Z := Z.shiftl 1 1.
Definition FlagVPN : Z := Z.shiftl 1 2.
Definition FlagProxy : Z := Z.shiftl 1 3.
Definition FlagScraper : Z := Z.shiftl 1 4.
Definition FlagAbuse : Z := Z.shiftl 1 5.
Definition FlagAnonymous : Z := Z.shiftl 1 6.
Definition FlagHosting : Z := Z.shiftl 1 7.
Definition FlagDNSBL : Z := Z.shiftl 1 8.
Definition FlagAttackHistory : Z := Z.shiftl 1 9.

Definition flagNames : list (Z * string) :=
  [(FlagCompromised, "compromised"); (FlagTor, "tor"); (FlagVPN, "vpn"); (FlagProxy, "proxy"); (FlagScraper, "scraper");
   (FlagAbuse, "abuse"); (FlagAnonymous, "anonymous"); (FlagHosting, "hosting"); (FlagDNSBL, "dnsbl");
   (FlagAttackHistory, "attack_history")]%string.

Definition FlagNames (flags : Z) : list string :=
  map snd (List.filter (fun e => negb (Z.land flags (fst e) =? 0)) flagNames).

Definition FlagFromName (name : string) : Z :=
  match List.find (fun e => snd e ==s name) flagNames with Some e => fst e | None => 0 end.

(** ** Projections *)

Record AssessmentLite := mkLite {
  Score : Z; Band : Z; Verdict : Z; IPType : Z; Confidence : Z; State : Z; Native : Z; Flags : Z; ASN : Z;
  ASOrg : string; Country : string; City : string; ValidUntil : Z; ComputedAt : Z
}.

Definition ScoreValue (a : AssessmentLite) : option Z := if Score a <? 0 then None else Some (Score a).

Definition NativeValue (a : AssessmentLite) : option bool :=
  if Native a =? 0 then Some false else if Native a =? 1 then Some true else None.

Definition ASNValue (a : AssessmentLite) : Z := if ASN a <=? 0 then 0 else ASN a.

Definition Valid (a : AssessmentLite) (nowNs : Z) : bool := nowNs <? ValidUntil a.

Definition int8 (z : Z) : Z := (z + 2 ^ 7) mod 2 ^ 8 - 2 ^ 7.
Definition uint16 (z : Z) : Z := z mod 2 ^ 16.

Definition AssessmentLiteFromRow (row : Assessment) : AssessmentLite :=
  mkLite
    match Assessment.PurityScore row with
    | Some score => if 127 <? score then 127 else int8 score
    | None => -1
    end
    (BandCode (Assessment.PurityBand row)) (VerdictCode (Assessment.Verdict row)) (IPTypeCode (Assessment.IPType row))
    (ConfidenceCode (Assessment.Confidence row)) (StateCode (Assessment.State row))
    match Assessment.Native row with Some native => int8 native | None => -1 end
    (uint16 (Assessment.Flags row))
    match Assessment.ASN row with Some asn => if (0 <? asn) && (asn <=? 2 ^ 31 - 1) then asn else 0 | None => 0 end
    (Assessment.ASOrg row) (Assessment.Country row) (Assessment.City row)
    (Assessment.ValidUntilNs row) (Assessment.ComputedAtNs row).

Record OutcomeLite := mkOutcome { Outcome : Z; OutcomeValidUntil : Z; ObservedAt : Z }.

Definition OutcomeValid (o : OutcomeLite) (nowNs : Z) : bool := nowNs <? OutcomeValidUntil o.

(** ** The projection *)

Record Snapshot := mkSnapshot {
  assessments : gmap Addr AssessmentLite;
  checks : gmap string (gmap string OutcomeLite)
}.

Definition NewSnapshot : Snapshot := mkSnapshot ∅ ∅.

(** The later row of an address or of a check wins. *)
Definition project_assessment (m : gmap Addr AssessmentLite) (row : Assessment) : gmap Addr AssessmentLite :=
  match ParseAddr (Assessment.IP row) with
  | Some ip => <[Unmap ip := AssessmentLiteFromRow row]> m
  | None => m
  end.

Definition put_check (nodeHash checkID : string) (lite : OutcomeLite) (m : gmap string (gmap string OutcomeLite)) :
    gmap string (gmap string OutcomeLite) :=
  <[nodeHash := <[checkID := lite]> (default ∅ (m !! nodeHash))]> m.

Definition OutcomeLiteFromRow (row : NodeCheck) : OutcomeLite :=
  mkOutcome (OutcomeCode (NodeCheck.Outcome row)) (NodeCheck.ValidUntilNs row) (NodeCheck.ObservedAtNs row).

Definition project_check (m : gmap string (gmap string OutcomeLite)) (row : NodeCheck) : gmap string (gmap string OutcomeLite) :=
  put_check (NodeCheck.NodeHash row) (NodeCheck.CheckID row) (OutcomeLiteFromRow row) m.

(** [LoadFrom] with what the store listed, [None] where a listing failed: the
    projection is replaced as a whole or kept. *)
Definition LoadFrom (rows : option (list Assessment)) (checkRows : option (list NodeCheck)) (s : Snapshot) : bool * Snapshot :=
  match rows, checkRows with
  | Some rows, Some checkRows => (true, mkSnapshot (foldl project_assessment ∅ rows) (foldl project_check ∅ checkRows))
  | _, _ => (false, s)
  end.

Definition SetAssessment (ip : Addr) (lite : AssessmentLite) (s : Snapshot) : Snapshot :=
  if IsValid ip then mkSnapshot (<[Unmap ip := lite]> (assessments s)) (checks s) else s.

Definition SetAssessmentFromRow (row : Assessment) (s : Snapshot) : Snapshot :=
  match ParseAddr (Assessment.IP row) with
  | Some ip => SetAssessment ip (AssessmentLiteFromRow row) s
  | None => s
  end.

Definition SetCheck (nodeHash checkID : string) (lite : OutcomeLite) (s : Snapshot) : Snapshot :=
  if (nodeHash ==s "") || (checkID ==s "") then s
  else mkSnapshot (assessments s) (put_check nodeHash checkID lite (checks s)).

Definition DeleteNodeChecks (nodeHash : string) (s : Snapshot) : Snapshot :=
  mkSnapshot (assessments s) (delete nodeHash (checks s)).

Definition Assessment_at (ip : Addr) (s : Snapshot) : option AssessmentLite :=
  if IsValid ip then assessments s !! Unmap ip else None.

Definition CheckOutcome (nodeHash checkID : string) (s : Snapshot) : option OutcomeLite :=
  entry ← checks s !! nodeHash; entry !! checkID.

Definition NodeCheckOutcomes (nodeHash : string) (s : Snapshot) : gmap string OutcomeLite :=
  default ∅ (checks s !! nodeHash).

Definition Len (s : Snapshot) : nat * nat := (size (assessments s), size (checks s)).

Definition Clear (s : Snapshot) : Snapshot := NewSnapshot.
