(* ===== verification/Nodes.v ===== *)
(** * Nodes

    [src/internal/node/entry.go]: a node of the pool, the subscriptions that
    hold it, its health, its egress address and region, its latency table, and
    the tag rules a platform selects nodes with.  A compiled regular expression
    is the predicate it decides; the outbound of a node is its presence. *)

From Stdlib Require Import Ascii String.
From stdpp Require Import base gmap list strings.
From S2P Require Import Prelude GoStrings Utf8 Fold Netip RoutableView Latency.

(** The name of a subscription, whether it is enabled, and the tags it gives a
    node; [None] where the subscription does not hold the node. *)
Abbreviation SubLookupFunc := (string -> Hash -> option (string * bool * list string)).

Abbreviation Regexp := (string -> bool).

Record TagFilter := mkTagFilter { Any : list Regexp; Must : list Regexp; MustNot : list Regexp }.

Definition TagFilter_Empty (f : TagFilter) : bool :=
  match Any f, Must f, MustNot f with [], [], [] => true | _, _, _ => false end.

Definition ProbeErrorNone : string := "".

Module Node.
Record NodeEntry := mkEntry {
  Hash : RoutableView.Hash; RawOptions : string; Protocol : string; CreatedAt : Z; Engine : string;
  ProtocolDetail : string; Chain : bool;
  subscriptionIDs : list string; LastError : string;
  FailureCount : Z; CircuitOpenSince : Z; egressIP : option Addr; egressRegion : option string; LastEgressUpdate : Z;
  LastLatencyProbeAttempt : Z; LastAuthorityLatencyProbeAttempt : Z; LastEgressUpdateAttempt : Z;
  probeErrorClass : option string; probeErrorDetail : option string; probeErrorAt : Z;
  LatencyTable : option Latency.LatencyTable;
  Outbound : bool
}.
End Node.
Abbreviation NodeEntry := Node.NodeEntry.

(** Field updates. *)
Definition with_sub_ids (l : list string) (e : NodeEntry) : NodeEntry :=
  let 'Node.mkEntry h r p c g d k _ le f o i rg lu a1 a2 a3 pc pd pa t ob := e in
  Node.mkEntry h r p c g d k l le f o i rg lu a1 a2 a3 pc pd pa t ob.
Definition SetLastError (msg : string) (e : NodeEntry) : NodeEntry :=
  let 'Node.mkEntry h r p c g d k s _ f o i rg lu a1 a2 a3 pc pd pa t ob := e in
  Node.mkEntry h r p c g d k s msg f o i rg lu a1 a2 a3 pc pd pa t ob.
Definition with_health (failures open : Z) (e : NodeEntry) : NodeEntry :=
  let 'Node.mkEntry h r p c g d k s le _ _ i rg lu a1 a2 a3 pc pd pa t ob := e in
  Node.mkEntry h r p c g d k s le failures open i rg lu a1 a2 a3 pc pd pa t ob.
Definition SetEgressIP (ip : Addr) (e : NodeEntry) : NodeEntry :=
  let 'Node.mkEntry h r p c g d k s le f o _ rg lu a1 a2 a3 pc pd pa t ob := e in
  Node.mkEntry h r p c g d k s le f o (Some ip) rg lu a1 a2 a3 pc pd pa t ob.
Definition with_region (region : option string) (e : NodeEntry) : NodeEntry :=
  let 'Node.mkEntry h r p c g d k s le f o i _ lu a1 a2 a3 pc pd pa t ob := e in
  Node.mkEntry h r p c g d k s le f o i region lu a1 a2 a3 pc pd pa t ob.
Definition with_last_egress (ns : Z) (e : NodeEntry) : NodeEntry :=
  let 'Node.mkEntry h r p c g d k s le f o i rg _ a1 a2 a3 pc pd pa t ob := e in
  Node.mkEntry h r p c g d k s le f o i rg ns a1 a2 a3 pc pd pa t ob.
Definition with_attempts (latency authority egress : Z) (e : NodeEntry) : NodeEntry :=
  let 'Node.mkEntry h r p c g d k s le f o i rg lu _ _ _ pc pd pa t ob := e in
  Node.mkEntry h r p c g d k s le f o i rg lu latency authority egress pc pd pa t ob.
Definition with_probe_failure (class detail : option string) (ns : Z) (e : NodeEntry) : NodeEntry :=
  let 'Node.mkEntry h r p c g d k s le f o i rg lu a1 a2 a3 _ _ _ t ob := e in
  Node.mkEntry h r p c g d k s le f o i rg lu a1 a2 a3 class detail ns t ob.
Definition with_latency (t : option LatencyTable) (e : NodeEntry) : NodeEntry :=
  let 'Node.mkEntry h r p c g d k s le f o i rg lu a1 a2 a3 pc pd pa _ ob := e in
  Node.mkEntry h r p c g d k s le f o i rg lu a1 a2 a3 pc pd pa t ob.
Definition with_outbound (ob : bool) (e : NodeEntry) : NodeEntry :=
  let 'Node.mkEntry h r p c g d k s le f o i rg lu a1 a2 a3 pc pd pa t _ := e in
  Node.mkEntry h r p c g d k s le f o i rg lu a1 a2 a3 pc pd pa t ob.

(** ** Subscriptions of a node *)

Definition AddSubscriptionID (subID : string) (e : NodeEntry) : NodeEntry :=
  if existsb (String.eqb subID) (Node.subscriptionIDs e) then e
  else with_sub_ids (Node.subscriptionIDs e ++ [subID]) e.

(** The first occurrence goes. *)
Fixpoint remove_first (subID : string) (l : list string) : list string :=
  match l with
  | [] => []
  | id :: l' => if id ==s subID then l' else id :: remove_first subID l'
  end.

Definition RemoveSubscriptionID (subID : string) (e : NodeEntry) : bool * NodeEntry :=
  let subs := remove_first subID (Node.subscriptionIDs e) in
  (match subs with [] => true | _ => false end, with_sub_ids subs e).

Definition matchesAll (s : string) (regexes : list Regexp) : bool := forallb (fun re => re s) regexes.
Definition matchesAny (s : string) (regexes : list Regexp) : bool := existsb (fun re => re s) regexes.

(** One candidate "<subscription>/<tag>"; [None] is the rejection by a MUST_NOT
    rule. *)
Fixpoint scan_tags (filter : TagFilter) (name : string) (tags : list string) (matched : bool) : option bool :=
  match tags with
  | [] => Some matched
  | tag :: rest =>
      let candidate := (name ++ "/" ++ tag)%string in
      if matchesAny candidate (MustNot filter) then None
      else scan_tags filter name rest
             (matched || (matchesAll candidate (Must filter)
                          && (match Any filter with [] => true | _ => matchesAny candidate (Any filter) end)))
  end.

Fixpoint scan_subs (filter : TagFilter) (lookup : SubLookupFunc) (h : Hash) (subs : list string)
    (enabled_seen matched : bool) : option (bool * bool) :=
  match subs with
  | [] => Some (enabled_seen, matched)
  | subID :: rest =>
      match lookup subID h with
      | Some (name, true, tags) =>
          match scan_tags filter name tags matched with
          | None => None
          | Some matched => scan_subs filter lookup h rest true matched
          end
      | _ => scan_subs filter lookup h rest enabled_seen matched
      end
  end.

Definition MatchTagFilter (filter : TagFilter) (subLookup : option SubLookupFunc) (e : NodeEntry) : bool :=
  match subLookup with
  | None => TagFilter_Empty filter
  | Some lookup =>
      match Node.subscriptionIDs e with
      | [] => false
      | subs =>
          match scan_subs filter lookup (Node.Hash e) subs false false with
          | None => false
          | Some (enabled_seen, matched) =>
              match Any filter, Must filter with [], [] => enabled_seen | _, _ => matched end
          end
      end
  end.

Definition MatchRegexs (regexes : list Regexp) (subLookup : option SubLookupFunc) (e : NodeEntry) : bool :=
  MatchTagFilter (mkTagFilter [] regexes []) subLookup e.

Definition holds_enabled (lookup : SubLookupFunc) (h : Hash) (subID : string) : bool :=
  match lookup subID h with Some (_, enabled, _) => enabled | None => false end.

Definition HasEnabledSubscription (subLookup : option SubLookupFunc) (e : NodeEntry) : bool :=
  match subLookup with
  | None => false
  | Some lookup => existsb (holds_enabled lookup (Node.Hash e)) (Node.subscriptionIDs e)
  end.

Definition IsDisabledBySubscriptions (subLookup : option SubLookupFunc) (e : NodeEntry) : bool :=
  negb (HasEnabledSubscription subLookup e).

(** ** Health, egress and latency *)

Definition IsCircuitOpen (e : NodeEntry) : bool := negb (Node.CircuitOpenSince e =? 0).
Definition HasLatency (e : NodeEntry) : bool :=
  match Node.LatencyTable e with Some t => (0 <? LatencyTable_Size t)%nat | None => false end.
Definition HasOutbound (e : NodeEntry) : bool := Node.Outbound e.
Definition IsHealthy (e : NodeEntry) : bool := negb (IsCircuitOpen e) && HasOutbound e.

Definition GetEgressIP (e : NodeEntry) : Addr := default AddrInvalid (Node.egressIP e).
Definition GetEgressRegion (e : NodeEntry) : string := default ""%string (Node.egressRegion e).

Section Entries.
Context (U : Unicode).

Definition SetEgressRegion (region : string) (e : NodeEntry) : NodeEntry :=
  let region := LowerText U (TrimSpace region) in
  with_region (if region ==s "" then None else Some region) e.

Definition GetRegion (geoLookup : option (Addr -> string)) (e : NodeEntry) : string :=
  if GetEgressRegion e <>s "" then GetEgressRegion e
  else match geoLookup with
       | None => ""
       | Some geo => if IsValid (GetEgressIP e) then geo (GetEgressIP e) else ""
       end.

(** ** New nodes

    Reading a node document is an argument: the engine, the type, whether it is
    a chain, and the detail shown; where the document is malformed, the plain
    type field, if there is one. *)

Record NodeDoc := mkDoc { doc_Engine : string; doc_Type : string; doc_Chain : bool; doc_Detail : string }.

Context (ParseNodeDoc : string -> option NodeDoc) (plainType : string -> option string).

Definition EngineSingbox : string := "singbox".
Definition EngineMihomo : string := "mihomo".

Definition boundProtocolToken (value : string) : string :=
  if (length (runes value) <=? 32)%nat then value else of_runes (take 32 (runes value)).

Definition normalizeProtocolName (engine typeName : string) : string :=
  let name := boundProtocolToken (LowerText U (TrimSpace typeName)) in
  if engine <>s EngineMihomo then name
  else if name ==s "ss" then "shadowsocks"
  else if name ==s "socks5" then "socks"
  else name.

Definition NewNodeEntry (hash : Hash) (rawOptions : string) (createdAt : Z) (maxLatencyTableEntries : Z) : NodeEntry :=
  let '(engine, protocol, detail, chain) :=
    match ParseNodeDoc rawOptions with
    | Some doc => (doc_Engine doc, normalizeProtocolName (doc_Engine doc) (doc_Type doc), doc_Detail doc, doc_Chain doc)
    | None =>
        match plainType rawOptions with
        | Some ty => (EngineSingbox, if (String.length ty <=? 32)%nat then LowerText U ty else "", "", false)
        | None => (EngineSingbox, "", "", false)
        end
    end%string in
  Node.mkEntry hash rawOptions protocol createdAt engine detail chain [] "" 0 0 None None 0 0 0 0 None None 0
    (if 0 <? maxLatencyTableEntries then Some (NewLatencyTable (Z.to_nat maxLatencyTableEntries)) else None) false.
End Entries.

(** ** Probe failures *)

Definition ClearProbeFailure (e : NodeEntry) : NodeEntry := with_probe_failure None None 0 e.

Definition SetProbeFailure (class detail : string) (atNs : Z) (e : NodeEntry) : NodeEntry :=
  if (class ==s ProbeErrorNone) || (detail ==s "") then ClearProbeFailure e
  else with_probe_failure (Some class) (Some detail) atNs e.

Definition GetProbeFailure (e : NodeEntry) : string * string * option Z :=
  match Node.probeErrorClass e with
  | Some class =>
      if (class ==s "") || (Node.probeErrorAt e =? 0) then (ProbeErrorNone, ""%string, None)
      else (class, default ""%string (Node.probeErrorDetail e), Some (Node.probeErrorAt e))
  | None => (ProbeErrorNone, ""%string, None)
  end.

Definition GetLastEgressUpdate (e : NodeEntry) : option Z :=
  if Node.LastEgressUpdate e =? 0 then None else Some (Node.LastEgressUpdate e).
