(* ===== verification/Quality.v ===== *)
(** * Quality policies

    [src/internal/platform/quality_policy.go] and the policy of
    [src/internal/model/models.go]: the ordered rules a node is admitted by, from
    the projection of node intelligence or from a legacy summary.  The texts
    that explain a rule to the operator are left out. *)

From Stdlib Require Import Ascii String.
From stdpp Require Import base gmap list strings.
From S2P Require Import Prelude GoStrings Netip Duration RoutableView Latency Intel Nodes.

Module QualityPolicy.
Record t := mk {
  MinPurity : option Z; IPTypes : list string; AllowedVerdicts : list string; MinConfidence : string;
  RequireNative : bool; RequiredChecks : gmap string string; MaxAssessmentAge : string; MaxEgressAge : string;
  UnknownAction : string; ExcludeTor : option bool; ExcludeHighRisk : option bool
}.
End QualityPolicy.
Abbreviation QualityPolicy := QualityPolicy.t.

Definition is_none {A} (o : option A) : bool := match o with None => true | _ => false end.
Definition is_nil {A} (l : list A) : bool := match l with [] => true | _ => false end.

Definition IsEmpty (q : QualityPolicy) : bool :=
  is_none (QualityPolicy.MinPurity q) && is_nil (QualityPolicy.IPTypes q) && is_nil (QualityPolicy.AllowedVerdicts q)
  && (QualityPolicy.MinConfidence q ==s "") && negb (QualityPolicy.RequireNative q)
  && (size (QualityPolicy.RequiredChecks q) =? 0)%nat && (QualityPolicy.MaxAssessmentAge q ==s "")
  && (QualityPolicy.MaxEgressAge q ==s "") && (QualityPolicy.UnknownAction q ==s "")
  && is_none (QualityPolicy.ExcludeTor q) && is_none (QualityPolicy.ExcludeHighRisk q).

Definition no_policy : QualityPolicy := QualityPolicy.mk None [] [] "" false ∅ "" "" "" None None.

(** ** Facts *)

(** The projection as routing reads it. *)
Record QualitySnapshotReader := mkReader {
  read_Assessment : Addr -> option AssessmentLite;
  read_CheckOutcome : string -> string -> option OutcomeLite
}.

Definition reader_of (s : Snapshot) : QualitySnapshotReader :=
  mkReader (fun ip => Assessment_at ip s) (fun nodeHash checkID => CheckOutcome nodeHash checkID s).

(** A time that may be the zero time is [None] there. *)
Record qualityFacts := mkFacts {
  HasEgress : bool; fact_State : string; fact_Score : option Z; fact_Verdict : string; fact_IPType : string;
  fact_Confidence : string; fact_Native : option bool; Tor : bool; HighRisk : bool; fact_ComputedAt : option Z;
  EgressAt : option Z; CheckLookup : option (string -> option OutcomeLite)
}.

Definition observedAt (e : NodeEntry) : option Z :=
  if 0 <? Node.LastEgressUpdate e then Some (Node.LastEgressUpdate e) else None.

Definition fact_state (lite : AssessmentLite) (nowNs : Z) : string :=
  if negb (Valid lite nowNs) then "stale"
  else if VerdictName (Verdict lite) ==s "pending" then "pending"
  else if (IPTypeName (IPType lite) ==s "conflicting") || (VerdictName (Verdict lite) ==s "conflicting") then "conflicting"
  else "valid".

Definition factsFromEntry (e : NodeEntry) (snap : option QualitySnapshotReader) (nowNs : Z) : qualityFacts :=
  let unobserved := mkFacts (IsValid (GetEgressIP e)) "unobserved" None "pending" "unknown" "" None false false None (observedAt e) None in
  match snap with
  | Some snap =>
      if negb (IsValid (GetEgressIP e)) then unobserved
      else
        match read_Assessment snap (Unmap (GetEgressIP e)) with
        | None => unobserved
        | Some lite =>
            mkFacts true (fact_state lite nowNs) (ScoreValue lite) (VerdictName (Verdict lite)) (IPTypeName (IPType lite))
              (ConfidenceName (Confidence lite)) (NativeValue lite) (negb (Z.land (Flags lite) FlagTor =? 0))
              (VerdictName (Verdict lite) ==s "high_risk")
              (if 0 <? ComputedAt lite then Some (ComputedAt lite) else None) (observedAt e)
              (Some (fun checkID => read_CheckOutcome snap (Hex (Node.Hash e)) checkID))
        end
  | None => unobserved
  end.

(** The parts of a legacy summary the rules read. *)
Module Summary.
Record Assessed := mkAssessed {
  State : string; PurityScore : option Z; NetworkType : string; Native : option bool; Verdict : string; TorRoles : list string
}.
Record t := mk { State0 : string; Assessment : option Assessed }.
End Summary.
Abbreviation Summary := Summary.t.

Definition factsFromSummary (summary : Summary) (egressObservedAt : option Z) : qualityFacts :=
  match Summary.Assessment summary with
  | None =>
      mkFacts true (if Summary.State0 summary ==s "" then "unobserved" else Summary.State0 summary) None "pending" "unknown" ""
        None false false None egressObservedAt None
  | Some a =>
      mkFacts true (if (Summary.State a <>s "") && (Summary.State a <>s "valid") then Summary.State a else "valid")
        (Summary.PurityScore a) (Summary.Verdict a) (Summary.NetworkType a) "" (Summary.Native a)
        (negb (is_nil (Summary.TorRoles a))) (Summary.Verdict a ==s "high_risk") None egressObservedAt None
  end.

(** ** Rules *)

Record rule := mkRule { rule_name : string; rule_reason : string; rule_passed : bool }.

Definition excludeHighRisk (p : QualityPolicy) : bool := default true (QualityPolicy.ExcludeHighRisk p).
Definition excludeTor (p : QualityPolicy) : bool := default true (QualityPolicy.ExcludeTor p).

Definition confidenceRank (name : string) : Z :=
  let n := ToLower (TrimSpace name) in
  if n ==s "high" then 3 else if n ==s "medium" then 2 else if n ==s "low" then 1 else 0.

Definition parsePolicyDuration (raw : string) : option Z :=
  if raw ==s "" then None else ParseDuration raw.

Definition containsString (values : list string) (want : string) : bool := existsb (String.eqb want) values.

Definition sortedCheckIDs (checks : gmap string string) : list string :=
  sort_by String.leb (map fst (map_to_list checks)).

Definition when (b : bool) (l : list rule) : list rule := if b then l else [].

Definition check_passed (facts : qualityFacts) (want checkID : string) (nowNs : Z) : bool :=
  match (lookup ← CheckLookup facts; lookup checkID) with
  | Some outcome => OutcomeValid outcome nowNs && (OutcomeName (Outcome outcome) ==s want)
  | None => false
  end.

Definition check_rule (p : QualityPolicy) (facts : qualityFacts) (nowNs : Z) (checkID : string) : rule :=
  mkRule ("quality.check." ++ checkID) ("QUALITY_CHECK:" ++ checkID)
    (check_passed facts (default ""%string (QualityPolicy.RequiredChecks p !! checkID)) checkID nowNs).

(** A configured age limit: nothing where the text is no duration, or not a
    positive one; a time that is not known is too old. *)
Definition age_rule (name reason limit : string) (since : option Z) (nowNs : Z) : list rule :=
  match parsePolicyDuration limit with
  | Some maxAge =>
      when (0 <? maxAge)
        [mkRule name reason (match since with Some t => duration_between nowNs t <=? maxAge | None => false end)]
  | None => []
  end.

Definition assessed_rules (p : QualityPolicy) (facts : qualityFacts) (nowNs : Z) : list rule :=
  (when (excludeTor p) [mkRule "quality.exclude_tor" "QUALITY_TOR" (negb (Tor facts))]
   ++ when (excludeHighRisk p) [mkRule "quality.exclude_high_risk" "QUALITY_HIGH_RISK" (negb (HighRisk facts))]
   ++ when (negb (is_nil (QualityPolicy.AllowedVerdicts p)))
        [mkRule "quality.allowed_verdicts" "QUALITY_VERDICT" (containsString (QualityPolicy.AllowedVerdicts p) (fact_Verdict facts))]
   ++ match QualityPolicy.MinPurity p with
      | Some least =>
          [mkRule "quality.min_purity" "QUALITY_MIN_PURITY" (match fact_Score facts with Some s => least <=? s | None => false end)]
      | None => []
      end
   ++ when (negb (is_nil (QualityPolicy.IPTypes p)))
        [mkRule "quality.ip_types" "QUALITY_IP_TYPE" (containsString (QualityPolicy.IPTypes p) (fact_IPType facts))]
   ++ when (QualityPolicy.MinConfidence p <>s "")
        [mkRule "quality.min_confidence" "QUALITY_CONFIDENCE"
           (confidenceRank (QualityPolicy.MinConfidence p) <=? confidenceRank (fact_Confidence facts))]
   ++ when (QualityPolicy.RequireNative p)
        [mkRule "quality.require_native" "QUALITY_NATIVE" (match fact_Native facts with Some b => b | None => false end)]
   ++ map (check_rule p facts nowNs) (sortedCheckIDs (QualityPolicy.RequiredChecks p))
   ++ age_rule "quality.max_assessment_age" "QUALITY_STALE" (QualityPolicy.MaxAssessmentAge p) (fact_ComputedAt facts) nowNs
   ++ age_rule "quality.max_egress_age" "QUALITY_EGRESS_STALE" (QualityPolicy.MaxEgressAge p) (EgressAt facts) nowNs).

(** The egress rule ends the list where it fails, and so does the rule on a
    missing assessment whether it passes or not. *)
Definition qualityRules (p : QualityPolicy) (facts : qualityFacts) (nowNs : Z) : list rule :=
  let egress := mkRule "quality.egress" "QUALITY_EGRESS_UNKNOWN" (HasEgress facts) in
  if negb (HasEgress facts) then [egress]
  else if (fact_State facts <>s "valid") && (fact_State facts <>s "conflicting") then
    [egress; mkRule "quality.unknown" "QUALITY_UNKNOWN" (QualityPolicy.UnknownAction p ==s "allow")]
  else egress :: assessed_rules p facts nowNs.

(** ** Admission *)

(** [admit]: the reason of the first rule that fails; [None] lets the node in. *)
Definition admitPolicy (p : QualityPolicy) (facts : qualityFacts) (nowNs : Z) : option string :=
  match List.find (fun r => negb (rule_passed r)) (qualityRules p facts nowNs) with
  | Some r => Some (rule_reason r)
  | None => None
  end.

Definition admitFactsOnly (p : QualityPolicy) (facts : qualityFacts) (nowNs : Z) : bool :=
  forallb rule_passed (qualityRules p facts nowNs).

Definition AdmitQuality (p : QualityPolicy) (e : NodeEntry) (snap : option QualitySnapshotReader) (nowNs : Z) : option string :=
  if IsEmpty p then None else admitPolicy p (factsFromEntry e snap nowNs) nowNs.

Definition EvaluateQuality (p : QualityPolicy) (summary : Summary) (egressObservedAt : option Z) (nowNs : Z) : bool :=
  if IsEmpty p then true else admitFactsOnly p (factsFromSummary summary egressObservedAt) nowNs.

Record QualityDecision := mkDecision { decision_Rule : string; Passed : bool }.

Definition ExplainQuality (p : QualityPolicy) (e : NodeEntry) (snap : option QualitySnapshotReader) (nowNs : Z) : list QualityDecision :=
  if IsEmpty p then [mkDecision "quality" true]
  else map (fun r => mkDecision (rule_name r) (rule_passed r)) (qualityRules p (factsFromEntry e snap nowNs) nowNs).

(** ** What admission means *)

(** The requirements of a policy, one for each setting. *)
Record meets (p : QualityPolicy) (facts : qualityFacts) (nowNs : Z) : Prop := {
  meets_tor : excludeTor p = true -> Tor facts = false;
  meets_risk : excludeHighRisk p = true -> HighRisk facts = false;
  meets_verdict : QualityPolicy.AllowedVerdicts p <> [] -> In (fact_Verdict facts) (QualityPolicy.AllowedVerdicts p);
  meets_purity : forall least, QualityPolicy.MinPurity p = Some least -> exists s, fact_Score facts = Some s /\ least <= s;
  meets_type : QualityPolicy.IPTypes p <> [] -> In (fact_IPType facts) (QualityPolicy.IPTypes p);
  meets_confidence : QualityPolicy.MinConfidence p <> ""%string ->
    confidenceRank (QualityPolicy.MinConfidence p) <= confidenceRank (fact_Confidence facts);
  meets_native : QualityPolicy.RequireNative p = true -> fact_Native facts = Some true;
  meets_checks : forall id want, QualityPolicy.RequiredChecks p !! id = Some want ->
    exists lookup o, CheckLookup facts = Some lookup /\ lookup id = Some o /\ nowNs < OutcomeValidUntil o /\
      OutcomeName (Outcome o) = want;
  meets_age : forall d, parsePolicyDuration (QualityPolicy.MaxAssessmentAge p) = Some d -> 0 < d ->
    exists t, fact_ComputedAt facts = Some t /\ duration_between nowNs t <= d;
  meets_egress_age : forall d, parsePolicyDuration (QualityPolicy.MaxEgressAge p) = Some d -> 0 < d ->
    exists t, EgressAt facts = Some t /\ duration_between nowNs t <= d
}.

Lemma admitPolicy_all (p : QualityPolicy) (facts : qualityFacts) (nowNs : Z) :
  admitPolicy p facts nowNs = None <-> forallb rule_passed (qualityRules p facts nowNs) = true.
Proof.
  unfold admitPolicy. induction (qualityRules p facts nowNs) as [|r l IH]; simpl; [done|].
  destruct (rule_passed r); simpl; [done|]. split; done.
Qed.

Lemma when_passed (b : bool) (r : rule) :
  forallb rule_passed (when b [r]) = true <-> (b = true -> rule_passed r = true).
Proof. destruct b; simpl; [|naive_solver]. rewrite andb_true_r. naive_solver. Qed.

Lemma age_rule_passed (name reason limit : string) (since : option Z) (nowNs : Z) :
  forallb rule_passed (age_rule name reason limit since nowNs) = true <->
  forall d, parsePolicyDuration limit = Some d -> 0 < d -> exists t, since = Some t /\ duration_between nowNs t <= d.
Proof.
  unfold age_rule. destruct (parsePolicyDuration limit) as [d|]; [|naive_solver].
  rewrite when_passed, Z.ltb_lt. simpl. split.
  - intros H d' [= <-] Hd. specialize (H Hd). destruct since as [t|]; [|done]. apply Z.leb_le in H. eauto.
  - intros H Hd. destruct (H d eq_refl Hd) as (t & -> & Ht). by apply Z.leb_le.
Qed.

Lemma containsString_In (l : list string) (w : string) : containsString l w = true <-> In w l.
Proof.
  unfold containsString. rewrite existsb_exists. split; [|intros H; exists w; split; [done|apply String.eqb_refl]].
  intros (x & Hx & E). apply String.eqb_eq in E. by subst.
Qed.

Lemma listed_passed {l : list string} {w : string} (name reason : string) :
  forallb rule_passed (when (negb (is_nil l)) [mkRule name reason (containsString l w)]) = true <-> (l <> [] -> In w l).
Proof. rewrite when_passed, <- containsString_In. destruct l; simpl; naive_solver. Qed.

Lemma sortedCheckIDs_In (checks : gmap string string) (id : string) :
  In id (sortedCheckIDs checks) <-> is_Some (checks !! id).
Proof.
  unfold sortedCheckIDs. rewrite sort_by_In, <- list_elem_of_In, list_elem_of_fmap. split.
  - intros ((i & w) & -> & H). apply elem_of_map_to_list in H. simpl. eauto.
  - intros [w H]. exists (id, w). split; [done|]. by apply elem_of_map_to_list.
Qed.

Lemma check_passed_spec (facts : qualityFacts) (want id : string) (nowNs : Z) :
  check_passed facts want id nowNs = true <->
  exists lookup o, CheckLookup facts = Some lookup /\ lookup id = Some o /\ nowNs < OutcomeValidUntil o /\
    OutcomeName (Outcome o) = want.
Proof.
  unfold check_passed, OutcomeValid. destruct (CheckLookup facts) as [lookup|]; simpl; [|naive_solver].
  destruct (lookup id) as [o|] eqn:E.
  - rewrite andb_true_iff, Z.ltb_lt, String.eqb_eq. naive_solver.
  - split; [done|]. intros (l & o & [= <-] & E' & _). congruence.
Qed.

Lemma assessed_rules_meets (p : QualityPolicy) (facts : qualityFacts) (nowNs : Z) :
  forallb rule_passed (assessed_rules p facts nowNs) = true <-> meets p facts nowNs.
Proof.
  unfold assessed_rules. rewrite !forallb_app, !andb_true_iff, !listed_passed, !when_passed, !age_rule_passed.
  cbn [rule_passed]. rewrite !negb_true_iff, Z.leb_le, String.eqb_neq.
  assert (forallb rule_passed (match QualityPolicy.MinPurity p with
    | Some least => [mkRule "quality.min_purity" "QUALITY_MIN_PURITY" (match fact_Score facts with Some s => least <=? s | None => false end)]
    | None => [] end) = true <->
    forall least, QualityPolicy.MinPurity p = Some least -> exists s, fact_Score facts = Some s /\ least <= s) as ->.
  { destruct (QualityPolicy.MinPurity p) as [least|]; simpl; [|naive_solver]. rewrite andb_true_r.
    destruct (fact_Score facts) as [s|]; [rewrite Z.leb_le|]; naive_solver. }
  assert (forallb rule_passed (map (check_rule p facts nowNs) (sortedCheckIDs (QualityPolicy.RequiredChecks p))) = true <->
    forall id want, QualityPolicy.RequiredChecks p !! id = Some want -> check_passed facts want id nowNs = true) as ->.
  { rewrite forallb_forall. split.
    - intros H id want E. specialize (H (check_rule p facts nowNs id)). simpl in H. rewrite E in H. apply H.
      apply in_map, sortedCheckIDs_In. by rewrite E.
    - intros H r (id & <- & Hid)%in_map_iff. apply sortedCheckIDs_In in Hid as [want E]. simpl. rewrite E. by apply H. }
  setoid_rewrite check_passed_spec.
  split; [intros (?&?&?&?&?&?&Hn&?&?&?); split; try done|intros []; split_and!; try done].
  - intros Hr. specialize (Hn Hr). by destruct (fact_Native facts) as [[]|].
  - intros Hr. by rewrite meets_native0.
Qed.

(** A node is assessed when its egress address carries a verdict that has not
    expired. *)
Definition assessed (e : NodeEntry) (snap : option QualitySnapshotReader) (nowNs : Z) : Prop :=
  exists reader lite, snap = Some reader /\ read_Assessment reader (Unmap (GetEgressIP e)) = Some lite /\
    nowNs < ValidUntil lite /\ VerdictName (Verdict lite) <> "pending"%string.

Lemma fact_state_assessed (e : NodeEntry) (snap : option QualitySnapshotReader) (nowNs : Z) :
  IsValid (GetEgressIP e) = true ->
  let s := fact_State (factsFromEntry e snap nowNs) in
  (s <>s "valid") && (s <>s "conflicting") = false <-> assessed e snap nowNs.
Proof.
  intros Hip. unfold factsFromEntry, assessed. destruct snap as [r|]; [|split; [done|by intros (?&?&?&?)]].
  rewrite Hip. simpl. destruct (read_Assessment r _) as [lite|] eqn:E; simpl.
  - unfold fact_state, Valid. destruct (nowNs <? ValidUntil lite) eqn:V; simpl.
    + apply Z.ltb_lt in V. destruct (VerdictName (Verdict lite) ==s "pending") eqn:P; simpl.
      * apply String.eqb_eq in P. split; [done|]. intros (?&?&[= <-]&E'&_&?). congruence.
      * apply String.eqb_neq in P. destruct (_ || _); simpl; (split; [|done]); intros _; by exists r, lite.
    + apply Z.ltb_ge in V. split; [done|]. intros (?&?&[= <-]&E'&?&_). rewrite E in E'. injection E' as <-. lia.
  - split; [done|]. intros (?&?&[= <-]&E'&_). congruence.
Qed.

Lemma HasEgress_entry (e : NodeEntry) (snap : option QualitySnapshotReader) (nowNs : Z) :
  HasEgress (factsFromEntry e snap nowNs) = IsValid (GetEgressIP e).
Proof. unfold factsFromEntry. destruct snap; [|done]. destruct (IsValid (GetEgressIP e)); [simpl|done]. by case_match. Qed.


(** An age limit that is no duration limits nothing: the rule is left out. *)
Lemma unreadable_age_is_no_limit (name reason limit : string) (since : option Z) (nowNs : Z) :
  ParseDuration limit = None -> age_rule name reason limit since nowNs = [].
Proof. intros H. unfold age_rule, parsePolicyDuration. rewrite H. by destruct (limit ==s ""). Qed.
