(* ===== verification/Selection.v ===== *)
(** * Selecting nodes

    [src/internal/platform/node_criteria.go] and [MatchRegionFilter] of
    [src/internal/platform/platform.go]: whether the criteria of a platform let a
    node in, and which criterion keeps it out. *)

From Stdlib Require Import Ascii String.
From stdpp Require Import base gmap list strings.
From S2P Require Import Prelude GoStrings Fold Netip RoutableView Latency Intel Nodes Quality.

(** Reasons of a rejection. *)
Definition ReasonNodeDisabled : string := "NODE_DISABLED".
Definition ReasonNodeUnhealthy : string := "NODE_UNHEALTHY".
Definition ReasonTagFilter : string := "TAG_FILTER".
Definition ReasonEgressUnknown : string := "EGRESS_UNKNOWN".
Definition ReasonRegionFilter : string := "REGION_FILTER".
Definition ReasonSubscription : string := "SUBSCRIPTION_FILTER".
Definition ReasonProtocol : string := "PROTOCOL_FILTER".
Definition ReasonLatencyUnknown : string := "LATENCY_UNKNOWN".
Definition ReasonIPTypeFilter : string := "IP_TYPE_FILTER".
Definition ReasonPurityBandFilter : string := "PURITY_BAND_FILTER".
Definition ReasonQualityRejected : string := "QUALITY_REJECTED".
Definition bandReview : string := "review".

Module NodeCriteria.
Record t := mk {
  TagRules : TagFilter; Regions : list string; IPTypes : list string; PurityBands : list string;
  SubscriptionIDs : list string; Protocols : list string; Policy : QualityPolicy
}.
End NodeCriteria.
Abbreviation NodeCriteria := NodeCriteria.t.

(** The loop over the region filters: [None] is the exclusion. *)
Fixpoint scan_regions (region : string) (filters : list string) (included hasInclude : bool) : option (bool * bool) :=
  match filters with
  | [] => Some (included, hasInclude)
  | String "!"%char rest :: filters' =>
      if region ==s rest then None else scan_regions region filters' included hasInclude
  | filter :: filters' => scan_regions region filters' (included || (region ==s filter)) true
  end.

Definition MatchRegionFilter (region : string) (filters : list string) : bool :=
  if is_nil filters then true
  else if region ==s "" then false
  else match scan_regions region filters false false with
       | None => false
       | Some (included, hasInclude) => negb (hasInclude && negb included)
       end.

(** The functions the criteria read besides the node. *)
Record Lookups := mkLookups {
  subLookup : option SubLookupFunc;
  geoLookup : option (Addr -> string);
  qualityLookup : option (Addr -> Summary);
  qualitySnap : option QualitySnapshotReader
}.

Section Selection.
Context (U : Unicode).

Definition containsFold (values : list string) (want : string) : bool :=
  let want := TrimSpace want in
  if want ==s "" then false else existsb (fun value => EqualFold U (TrimSpace value) want) values.

Definition referencedBySubscription (e : NodeEntry) (wanted : list string) (lookup : option SubLookupFunc) : bool :=
  match lookup with
  | None => false
  | Some lookup =>
      existsb (fun subID => containsFold wanted subID && holds_enabled lookup (Node.Hash e) subID) (Node.subscriptionIDs e)
  end.

Definition assessmentOf (e : NodeEntry) (snap : option QualitySnapshotReader) : option AssessmentLite :=
  match snap with
  | Some snap => if IsValid (GetEgressIP e) then read_Assessment snap (GetEgressIP e) else None
  | None => None
  end.

Definition purityBandAllowed (bands : list string) (lite : AssessmentLite) : bool :=
  let verdict := VerdictName (Verdict lite) in
  existsb (fun want =>
      let want := LowerText U (TrimSpace want) in
      if want ==s bandReview then (verdict ==s VerdictName VerdictReview) || (verdict ==s VerdictName VerdictConflicting)
      else EqualFold U (BandName (Band lite)) want) bands.

(** The quality policy, from the projection, else from the legacy summary, else
    rejected. *)
Definition quality_rejects (p : QualityPolicy) (e : NodeEntry) (L : Lookups) (nowNs : Z) : option string :=
  if IsEmpty p then None
  else match qualitySnap L, qualityLookup L with
       | Some _, _ =>
           match AdmitQuality p e (qualitySnap L) nowNs with
           | Some reason => Some (if reason ==s "" then "QUALITY_UNKNOWN" else reason)%string
           | None => None
           end
       | None, Some summaryOf =>
           if EvaluateQuality p (summaryOf (GetEgressIP e)) (GetLastEgressUpdate e) nowNs then None else Some ReasonQualityRejected
       | None, None => Some ReasonQualityRejected
       end.

(** The reason of the first criterion that fails; [None] is a match. *)
Definition matchSelection (c : NodeCriteria) (e : NodeEntry) (L : Lookups) (nowNs : Z) : option string :=
  if negb (MatchTagFilter (NodeCriteria.TagRules c) (subLookup L) e) then Some ReasonTagFilter
  else if negb (IsValid (GetEgressIP e)) then Some ReasonEgressUnknown
  else if negb (is_nil (NodeCriteria.Regions c)) && negb (MatchRegionFilter (GetRegion (geoLookup L) e) (NodeCriteria.Regions c))
  then Some ReasonRegionFilter
  else if negb (is_nil (NodeCriteria.SubscriptionIDs c))
          && negb (referencedBySubscription e (NodeCriteria.SubscriptionIDs c) (subLookup L)) then Some ReasonSubscription
  else if negb (is_nil (NodeCriteria.Protocols c)) && negb (containsFold (NodeCriteria.Protocols c) (Node.Protocol e))
  then Some ReasonProtocol
  else if negb (is_nil (NodeCriteria.IPTypes c))
          && negb (match assessmentOf e (qualitySnap L) with
                   | Some lite => containsFold (NodeCriteria.IPTypes c) (IPTypeName (IPType lite))
                   | None => false
                   end) then Some ReasonIPTypeFilter
  else if negb (is_nil (NodeCriteria.PurityBands c))
          && negb (match assessmentOf e (qualitySnap L) with
                   | Some lite => purityBandAllowed (NodeCriteria.PurityBands c) lite
                   | None => false
                   end) then Some ReasonPurityBandFilter
  else quality_rejects (NodeCriteria.Policy c) e L nowNs.

Definition MatchNodeCriteria (c : NodeCriteria) (e : NodeEntry) (L : Lookups) (nowNs : Z) : option string :=
  if IsDisabledBySubscriptions (subLookup L) e then Some ReasonNodeDisabled
  else if negb (IsHealthy e) then Some ReasonNodeUnhealthy
  else if negb (IsValid (GetEgressIP e)) then Some ReasonEgressUnknown
  else match matchSelection c e L nowNs with
       | Some reason => Some reason
       | None => if HasLatency e then None else Some ReasonLatencyUnknown
       end.

Definition MatchNodeCriteriaForPreview (c : NodeCriteria) (e : NodeEntry) (L : Lookups) (nowNs : Z) : option string :=
  matchSelection c e L nowNs.

(** ** The contract of the criteria *)

(** The candidates of the tag rules: what the enabled subscriptions of a node
    call it. *)
Definition candidates (lookup : SubLookupFunc) (e : NodeEntry) : list string :=
  flat_map (fun subID => match lookup subID (Node.Hash e) with
                         | Some (name, true, tags) => map (fun tag => name ++ "/" ++ tag)%string tags
                         | _ => []
                         end) (Node.subscriptionIDs e).

Definition enabled_holder (lookup : SubLookupFunc) (e : NodeEntry) (subID : string) : Prop :=
  In subID (Node.subscriptionIDs e) /\ holds_enabled lookup (Node.Hash e) subID = true.

(** Tag rules: no candidate may match a MUST_NOT rule, and where there are
    positive rules one candidate matches all MUST rules and, if there are any,
    one ANY rule. *)
Definition tag_rules_hold (f : TagFilter) (lookup : SubLookupFunc) (e : NodeEntry) : Prop :=
  (forall c re, In c (candidates lookup e) -> In re (MustNot f) -> re c = false) /\
  (Any f <> [] \/ Must f <> [] ->
   exists c, In c (candidates lookup e) /\ (forall re, In re (Must f) -> re c = true) /\
     (Any f <> [] -> exists re, In re (Any f) /\ re c = true)).

(** A region filter: not an excluded region, and a selected one where any is
    selected; an unknown region matches nothing. *)
Definition selects (filter : string) : bool := match filter with String "!"%char _ => false | _ => true end.

Definition region_holds (region : string) (filters : list string) : Prop :=
  filters <> [] ->
  region <> ""%string /\ ~ In (String "!" region) filters /\
  (List.filter selects filters <> [] -> In region (List.filter selects filters)).

Record selected (c : NodeCriteria) (e : NodeEntry) (L : Lookups) (lookup : SubLookupFunc) (nowNs : Z) : Prop := {
  sel_holder : exists subID, enabled_holder lookup e subID;
  sel_healthy : Node.CircuitOpenSince e = 0 /\ Node.Outbound e = true;
  sel_egress : IsValid (GetEgressIP e) = true;
  sel_latency : exists t, Node.LatencyTable e = Some t /\ known t <> [];
  sel_tags : tag_rules_hold (NodeCriteria.TagRules c) lookup e;
  sel_region : region_holds (GetRegion (geoLookup L) e) (NodeCriteria.Regions c);
  sel_subs : NodeCriteria.SubscriptionIDs c <> [] ->
    exists subID, enabled_holder lookup e subID /\ containsFold (NodeCriteria.SubscriptionIDs c) subID = true;
  sel_protocol : NodeCriteria.Protocols c <> [] -> containsFold (NodeCriteria.Protocols c) (Node.Protocol e) = true;
  sel_type : NodeCriteria.IPTypes c <> [] -> exists lite, assessmentOf e (qualitySnap L) = Some lite /\
    containsFold (NodeCriteria.IPTypes c) (IPTypeName (IPType lite)) = true;
  sel_band : NodeCriteria.PurityBands c <> [] -> exists lite, assessmentOf e (qualitySnap L) = Some lite /\
    purityBandAllowed (NodeCriteria.PurityBands c) lite = true;
  sel_quality : quality_rejects (NodeCriteria.Policy c) e L nowNs = None
}.

Definition positive_match (f : TagFilter) (c : string) : bool :=
  matchesAll c (Must f) && (match Any f with [] => true | _ => matchesAny c (Any f) end).

Definition forbidden (f : TagFilter) (c : string) : bool := matchesAny c (MustNot f).

Lemma scan_tags_spec (f : TagFilter) (name : string) (tags : list string) (m : bool) :
  let l := map (fun tag => name ++ "/" ++ tag)%string tags in
  scan_tags f name tags m = if existsb (forbidden f) l then None else Some (m || existsb (positive_match f) l).
Proof.
  cbv zeta. revert m. induction tags as [|t tags IH]; intros m; simpl; [by rewrite orb_false_r|].
  unfold forbidden at 1. destruct (matchesAny _ (MustNot f)); simpl; [done|]. rewrite IH.
  fold (positive_match f (name ++ String "/" t)). by rewrite orb_assoc.
Qed.

Lemma scan_subs_spec (f : TagFilter) (lookup : SubLookupFunc) (e : NodeEntry) (subs : list string) (en m : bool) :
  let l := flat_map (fun subID => match lookup subID (Node.Hash e) with
                         | Some (name, true, tags) => map (fun tag => name ++ "/" ++ tag)%string tags
                         | _ => [] end) subs in
  scan_subs f lookup (Node.Hash e) subs en m =
  if existsb (forbidden f) l then None
  else Some (en || existsb (holds_enabled lookup (Node.Hash e)) subs, m || existsb (positive_match f) l).
Proof.
  cbv zeta. revert en m. induction subs as [|s subs IH]; intros en m; [simpl; by rewrite !orb_false_r|].
  cbn [scan_subs flat_map]. unfold holds_enabled at 1. cbn [existsb].
  destruct (lookup s (Node.Hash e)) as [[[name []] tags]|].
  - rewrite scan_tags_spec, !existsb_app. destruct (existsb (forbidden f) (map _ tags)); [done|]. cbn [orb].
    rewrite IH, !orb_true_r, orb_true_l. destruct (existsb (forbidden f) _); [done|]. by rewrite orb_assoc.
  - cbn [app orb]. apply IH.
  - cbn [app orb]. apply IH.
Qed.

Lemma existsb_In {A} (p : A -> bool) (l : list A) : existsb p l = true <-> exists x, In x l /\ p x = true.
Proof. apply existsb_exists. Qed.

Lemma existsb_nowhere {A} (p : A -> bool) (l : list A) : existsb p l = false <-> forall x, In x l -> p x = false.
Proof.
  rewrite <- not_true_iff_false, existsb_exists. split.
  - intros H x Hx. apply not_true_iff_false. eauto.
  - intros H (x & Hx & E). rewrite H in E; done.
Qed.

Lemma positive_match_spec (f : TagFilter) (c : string) :
  positive_match f c = true <->
  (forall re, In re (Must f) -> re c = true) /\ (Any f <> [] -> exists re, In re (Any f) /\ re c = true).
Proof.
  unfold positive_match, matchesAll, matchesAny. rewrite andb_true_iff, forallb_forall.
  destruct (Any f); [naive_solver|]. rewrite existsb_exists. naive_solver.
Qed.

Lemma MatchTagFilter_spec (f : TagFilter) (lookup : SubLookupFunc) (e : NodeEntry) :
  (exists subID, enabled_holder lookup e subID) ->
  MatchTagFilter f (Some lookup) e = true <-> tag_rules_hold f lookup e.
Proof.
  intros (s & Hs & Hen). unfold MatchTagFilter, tag_rules_hold.
  assert (existsb (holds_enabled lookup (Node.Hash e)) (Node.subscriptionIDs e) = true) as He by (apply existsb_In; eauto).
  destruct (Node.subscriptionIDs e) as [|s0 subs] eqn:E; [done|]. rewrite scan_subs_spec, <- E in *. fold (candidates lookup e).
  assert ((forall c re, In c (candidates lookup e) -> In re (MustNot f) -> re c = false) <->
    existsb (forbidden f) (candidates lookup e) = false) as ->.
  { rewrite existsb_nowhere. unfold forbidden, matchesAny. setoid_rewrite existsb_nowhere. naive_solver. }
  destruct (existsb (forbidden f) (candidates lookup e)); [naive_solver|]. rewrite He, orb_true_r. cbn [orb].
  setoid_rewrite <- positive_match_spec. rewrite <- existsb_In.
  destruct (Any f), (Must f); naive_solver.
Qed.

Lemma scan_regions_spec (region : string) (filters : list string) (inc has : bool) :
  scan_regions region filters inc has =
  if existsb (String.eqb (String "!" region)) filters then None
  else Some (inc || existsb (String.eqb region) (List.filter selects filters), has || negb (is_nil (List.filter selects filters))).
Proof.
  revert inc has. induction filters as [|f l IH]; intros inc has; [simpl; by rewrite !orb_false_r|].
  assert (selects f = true -> scan_regions region (f :: l) inc has = scan_regions region l (inc || (region ==s f)) true) as Hs.
  { intros H. destruct f as [|[[] [] [] [] [] [] [] []] f]; cbn in H |- *; congruence. }
  assert (selects f = true -> String.eqb (String "!" region) f = false) as Hn.
  { intros H. apply String.eqb_neq. intros <-. done. }
  destruct (selects f) eqn:E.
  - rewrite Hs, IH by done. cbn [existsb List.filter]. rewrite Hn, E by done. cbn [orb existsb is_nil negb].
    rewrite orb_true_r. by destruct (existsb _ l); rewrite ?orb_assoc.
  - destruct f as [|a f]; [done|]. assert (a = "!"%char) as -> by (destruct a as [[] [] [] [] [] [] [] []]; cbn in E; congruence).
    cbn [scan_regions existsb List.filter]. rewrite E, IH. change (String "!" region ==s String "!" f) with (region ==s f). by destruct (region ==s f).
Qed.

Lemma is_nil_true {A} (l : list A) : is_nil l = true <-> l = [].
Proof. by destruct l. Qed.
Lemma not_is_nil {A} (l : list A) : negb (is_nil l) = true <-> l <> [].
Proof. destruct l; simpl; naive_solver. Qed.

Lemma MatchRegionFilter_spec (region : string) (filters : list string) :
  MatchRegionFilter region filters = true <-> region_holds region filters.
Proof.
  unfold MatchRegionFilter, region_holds. destruct (is_nil filters) eqn:E; [apply is_nil_true in E; naive_solver|].
  assert (filters <> []) as Hf by (intros ->; done). rewrite scan_regions_spec.
  destruct (region ==s "") eqn:R; [apply String.eqb_eq in R; naive_solver|]. apply String.eqb_neq in R.
  destruct (existsb (String.eqb (String "!" region)) filters) eqn:X.
  { apply existsb_In in X as (f & Hf' & X). apply String.eqb_eq in X. subst. naive_solver. }
  rewrite existsb_nowhere in X. cbn [orb].
  assert (~ In (String "!" region) filters) as Hx.
  { intros H. apply X in H. by rewrite String.eqb_refl in H. }
  rewrite negb_true_iff, andb_false_iff, !negb_false_iff, is_nil_true, existsb_In.
  assert ((exists x, In x (List.filter selects filters) /\ String.eqb region x = true) <-> In region (List.filter selects filters)) as ->.
  { setoid_rewrite String.eqb_eq. naive_solver. }
  destruct (List.filter selects filters); naive_solver.
Qed.

Lemma referenced_spec (e : NodeEntry) (wanted : list string) (lookup : SubLookupFunc) :
  referencedBySubscription e wanted (Some lookup) = true <->
  exists subID, enabled_holder lookup e subID /\ containsFold wanted subID = true.
Proof. unfold referencedBySubscription, enabled_holder. rewrite existsb_In. setoid_rewrite andb_true_iff. naive_solver. Qed.

Lemma HasLatency_known (e : NodeEntry) :
  HasLatency e = true <-> exists t, Node.LatencyTable e = Some t /\ known t <> [].
Proof.
  unfold HasLatency. destruct (Node.LatencyTable e) as [t|]; [|naive_solver].
  assert (LatencyTable_Size t = length (known t)) as ->.
  { unfold LatencyTable_Size, totalSizeLocked, known. by rewrite List.filter_app, length_app. }
  rewrite Nat.ltb_lt. split.
  - intros H. exists t. split; [done|]. intros E. rewrite E in H. simpl in H. lia.
  - intros (t' & [= <-] & H). destruct (known t); [done|simpl; lia].
Qed.

(** Where one criterion fails its reason is given; where none does, the rest decides. *)
Lemma guard_none {A} (b : bool) (r : A) (k : option A) :
  (if b then Some r else k) = None <-> b = false /\ k = None.
Proof. destruct b; naive_solver. Qed.

Lemma listed_guard {A} (l : list A) (b : bool) : negb (is_nil l) && negb b = false <-> (l <> [] -> b = true).
Proof. destruct l, b; simpl; naive_solver. Qed.

Lemma option_guard {A B} (l : list A) (o : option B) (p : B -> bool) :
  (l <> [] -> match o with Some x => p x | None => false end = true) <->
  (l <> [] -> exists x, o = Some x /\ p x = true).
Proof. destruct o; naive_solver. Qed.

Lemma selected_iff (c : NodeCriteria) (e : NodeEntry) (L : Lookups) (lookup : SubLookupFunc) (nowNs : Z) :
  subLookup L = Some lookup ->
  MatchNodeCriteria c e L nowNs = None <-> selected c e L lookup nowNs.
Proof.
  intros EL. unfold MatchNodeCriteria, matchSelection, IsDisabledBySubscriptions, IsHealthy, IsCircuitOpen, HasOutbound.
  assert (forall A (o : option A) (k : option A), match o with Some r => Some r | None => k end = None <-> o = None /\ k = None) as Hm
    by (intros A [] ?; naive_solver).
  rewrite !guard_none, Hm, !guard_none, !listed_guard, !option_guard, !negb_false_iff, andb_true_iff, !negb_true_iff, negb_false_iff,
    Z.eqb_eq, MatchRegionFilter_spec, EL, referenced_spec.
  assert ((if HasLatency e then None else Some ReasonLatencyUnknown) = None <-> HasLatency e = true) as -> by (destruct (HasLatency e); naive_solver).
  rewrite HasLatency_known. unfold HasEnabledSubscription. rewrite existsb_In.
  split.
  - intros (Hh & ? & ? & (Ht & ? & Hr & ? & ? & ? & ? & ?) & ?). rewrite MatchTagFilter_spec in Ht by (destruct Hh as (s & ? & ?); by exists s).
    split; try done. intros Hne. by apply Hr.
  - intros [(s & Hs) ? ? ? ? Hr ? ? ? ? ?]. rewrite MatchTagFilter_spec by (by exists s). destruct Hs.
    split_and!; try done; naive_solver.
Qed.

(** C40: A platform loads exactly the nodes its criteria select.  A node is let in
    exactly when an enabled subscription holds it, its circuit is closed, its
    outbound, its egress address and a latency are there, and every criterion
    the operator set holds: each criterion is a conjunct, the values inside one
    are alternatives, and a criterion left empty asks nothing. *)
Theorem criteria_are_conjunctive (c : NodeCriteria) (e : NodeEntry) (L : Lookups) (lookup : SubLookupFunc) (nowNs : Z) :
  subLookup L = Some lookup ->
  MatchNodeCriteria c e L nowNs = None <-> selected c e L lookup nowNs.
Proof. apply selected_iff. Qed.
End Selection.

Module SelectionDemo.
(** No letters beyond ASCII. *)
Definition plain : Unicode := mkUnicode (fun r => r) (fun r => r).

Definition table : LatencyTable := mkTable [mkSlot 7 "cloudflare.com" (mkStats 30000000 5) 5 true] [].

Definition tokyo : NodeEntry :=
  with_outbound true (with_latency (Some table) (SetEgressRegion plain " JP " (SetEgressIP (Addr4 16909060)
    (AddSubscriptionID "sub-1" (NewNodeEntry plain (fun _ => Some (mkDoc "mihomo" "SS" false "")) (fun _ => None) 42 "{}" 1 8))))).

Definition lookup : SubLookupFunc := fun id _ => if id ==s "sub-1" then Some ("Air", true, ["Tokyo 01"; "JP-A"])%string else None.

Definition lookups : Lookups := mkLookups (Some lookup) None None None.

(** Japan but not Hong Kong, shadowsocks, and a tag that names the city. *)
Definition criteria : NodeCriteria :=
  NodeCriteria.mk (mkTagFilter [HasPrefix "Air/Tokyo 01"] [] [String.eqb "Air/expired"]) ["!hk"; "jp"] [] [] ["SUB-1"] ["ShadowSocks"] no_policy.
End SelectionDemo.

Lemma criteria_are_conjunctive_witness :
  selected SelectionDemo.plain SelectionDemo.criteria SelectionDemo.tokyo SelectionDemo.lookups SelectionDemo.lookup 9 /\
  ~ selected SelectionDemo.plain SelectionDemo.criteria (SetEgressRegion SelectionDemo.plain "HK" SelectionDemo.tokyo)
      SelectionDemo.lookups SelectionDemo.lookup 9.
Proof.
  split.
  - apply (criteria_are_conjunctive SelectionDemo.plain SelectionDemo.criteria SelectionDemo.tokyo SelectionDemo.lookups
      SelectionDemo.lookup 9 eq_refl). vm_compute. reflexivity.
  - intros H. apply (criteria_are_conjunctive SelectionDemo.plain SelectionDemo.criteria _ SelectionDemo.lookups
      SelectionDemo.lookup 9 eq_refl) in H. vm_compute in H. discriminate.
Defined.
