(* ===== verification/Platforms.v ===== *)
(** * Platforms and their views

    [src/internal/platform/platform.go]: a platform, its criteria and the view
    it routes from, rebuilt as a whole or corrected for one node. *)

From Stdlib Require Import Ascii String.
From stdpp Require Import base gmap list strings.
From S2P Require Import Prelude GoStrings Fold Netip RoutableView Latency Intel Nodes Quality Selection.

Module Plat.
Record Platform := mkPlatform {
  ID : string; Name : string;
  RegexFilters : TagFilter; RegionFilters : list string; IPTypes : list string; PurityBands : list string;
  SubscriptionFilters : list string; Protocols : list string; Policy : QualityPolicy;
  StickyTTLNs : Z; ReverseProxyMissAction : string; ReverseProxyEmptyAccountBehavior : string;
  ReverseProxyFixedAccountHeader : string; ReverseProxyFixedAccountHeaders : list string; AllocationPolicy : string;
  PassiveCircuitBreakerDisabled : bool; ScheduledRotationIntervalNs : Z; ScheduledRotationEnabled : bool;
  RotationAvoidPreviousIP : bool;
  view : RoutableView;
  qualitySnapshot : bool (* whether the projection is installed *)
}.
End Plat.
Abbreviation Plat := Plat.Platform.

Definition with_view (v : RoutableView) (p : Plat) : Plat :=
  let 'Plat.mkPlatform a b c d e f g h i j k l m n o q r s t _ w := p in
  Plat.mkPlatform a b c d e f g h i j k l m n o q r s t v w.
Definition SetQualitySnapshot (installed : bool) (p : Plat) : Plat :=
  let 'Plat.mkPlatform a b c d e f g h i j k l m n o q r s t v _ := p in
  Plat.mkPlatform a b c d e f g h i j k l m n o q r s t v installed.

Definition NewPlatformWithTagFilter (id name : string) (regexFilters : TagFilter) (regionFilters : list string) : Plat :=
  Plat.mkPlatform id name regexFilters regionFilters [] [] [] [] no_policy 0 "" "" "" [] "" false 0 false false
    NewRoutableView false.

Definition NewPlatform (id name : string) (regexFilters : list Regexp) (regionFilters : list string) : Plat :=
  NewPlatformWithTagFilter id name (mkTagFilter [] regexFilters []) regionFilters.

Definition Criteria (p : Plat) : NodeCriteria :=
  NodeCriteria.mk (Plat.RegexFilters p) (Plat.RegionFilters p) (Plat.IPTypes p) (Plat.PurityBands p)
    (Plat.SubscriptionFilters p) (Plat.Protocols p) (Plat.Policy p).

Definition SetNodeCriteria (c : NodeCriteria) (p : Plat) : Plat :=
  let 'Plat.mkPlatform a b x y _ _ _ _ i j k l m n o q r s t v w := p in
  Plat.mkPlatform a b x y (NodeCriteria.IPTypes c) (NodeCriteria.PurityBands c) (NodeCriteria.SubscriptionIDs c)
    (NodeCriteria.Protocols c) i j k l m n o q r s t v w.

Section Views.
Context (U : Unicode) (lookup : SubLookupFunc) (geo : option (Addr -> string)) (summaryOf : option (Addr -> Summary))
  (intel : Snapshot) (nowNs : Z).

Definition platform_lookups (p : Plat) : Lookups :=
  mkLookups (Some lookup) geo summaryOf (if Plat.qualitySnapshot p then Some (reader_of intel) else None).

Definition evaluateNode (e : NodeEntry) (p : Plat) : bool :=
  is_none (MatchNodeCriteria U (Criteria p) e (platform_lookups p) nowNs).

(** A fresh view is filled and then published. *)
Definition FullRebuild (range : list (Hash * NodeEntry)) (p : Plat) : Plat :=
  with_view (foldl (fun v he => if evaluateNode (snd he) p then AddNode (fst he) v else v) NewRoutableView range) p.

Definition NotifyDirty (h : Hash) (getEntry : Hash -> option NodeEntry) (p : Plat) : Plat :=
  match getEntry h with
  | None => with_view (RemoveNode h (Plat.view p)) p
  | Some e => with_view (if evaluateNode e p then AddNode h (Plat.view p) else RemoveNode h (Plat.view p)) p
  end.

Lemma evaluate_view (e : NodeEntry) (v : RoutableView) (p : Plat) : evaluateNode e (with_view v p) = evaluateNode e p.
Proof. by destruct p. Qed.

(** ** What a rebuild and a correction leave *)

Lemma view_is_add (h : Hash) (v : RoutableView) (S : gset Hash) : view_is v S -> view_is (AddNode h v) ({[h]} ∪ S).
Proof. apply (view_is_step v S (ViewAdd h)). Qed.

Lemma view_is_remove (h : Hash) (v : RoutableView) (S : gset Hash) : view_is v S -> view_is (RemoveNode h v) (S ∖ {[h]}).
Proof. apply (view_is_step v S (ViewRemove h)). Qed.

Lemma view_is_new : view_is NewRoutableView ∅.
Proof. split; [apply NewRoutableView_wf|apply NoDup_nil_2|done]. Qed.

Lemma view_with_view (v : RoutableView) (p : Plat) : Plat.view (with_view v p) = v.
Proof. by destruct p. Qed.

Definition chosen (p : Plat) (range : list (Hash * NodeEntry)) : gset Hash :=
  list_to_set (map fst (List.filter (fun he => evaluateNode (snd he) p) range)).

Lemma fill_view (p : Plat) (range : list (Hash * NodeEntry)) (v : RoutableView) (S : gset Hash) : view_is v S ->
  view_is (foldl (fun v he => if evaluateNode (snd he) p then AddNode (fst he) v else v) v range) (chosen p range ∪ S).
Proof.
  revert v S. induction range as [|[k e] range IH]; intros v S W; unfold chosen; simpl.
  { by rewrite (left_id_L ∅ (∪)). }
  destruct (evaluateNode e p); simpl; [|by apply IH].
  replace ({[k]} ∪ list_to_set _ ∪ S) with (chosen p range ∪ ({[k]} ∪ S)) by (unfold chosen; set_solver).
  apply IH. by apply view_is_add.
Qed.

Lemma FullRebuild_spec (range : list (Hash * NodeEntry)) (p : Plat) : view_is (Plat.view (FullRebuild range p)) (chosen p range).
Proof.
  unfold FullRebuild. rewrite view_with_view. rewrite <- (right_id_L ∅ (∪) (chosen p range)). apply fill_view, view_is_new.
Qed.

Definition admitted_at (h : Hash) (getEntry : Hash -> option NodeEntry) (p : Plat) : bool :=
  match getEntry h with Some e => evaluateNode e p | None => false end.

Lemma NotifyDirty_spec (h : Hash) (getEntry : Hash -> option NodeEntry) (p : Plat) (S : gset Hash) :
  view_is (Plat.view p) S ->
  view_is (Plat.view (NotifyDirty h getEntry p)) (if admitted_at h getEntry p then {[h]} ∪ S else S ∖ {[h]}).
Proof.
  intros W. unfold NotifyDirty, admitted_at.
  destruct (getEntry h) as [e|]; [destruct (evaluateNode e p)|]; rewrite view_with_view;
    by (apply view_is_add || apply view_is_remove).
Qed.
End Views.
