(* ===== verification/Subs.v ===== *)
(** * Proxy subscriptions

    [src/internal/subscription/subscription.go]: the runtime state of a
    subscription of proxy nodes, the nodes it manages, and the versions that
    tell a stale refresh from a current one.  The summary of the last parse is
    left out. *)

From Stdlib Require Import Ascii String.
From stdpp Require Import base gmap list strings.
From S2P Require Import Prelude GoStrings RoutableView.

Definition defaultEphemeralNodeEvictDelayNs : Z := 72 * 3600 * 1000000000.
Definition SourceTypeRemote : string := "remote".
Definition SourceTypeLocal : string := "local".
Definition UpdateModeReplace : bool := false.
Definition UpdateModeIncrementalAlive : bool := true.

Record ManagedNode := mkManaged { Tags : list string; Evicted : bool }.

Abbreviation ManagedNodes := (gmap Hash ManagedNode).

Module Sub.
Record Subscription := mkSubscription {
  ID : string; url : string; sourceType : string; content : string; updateIntervalNs : Z; name : string; enabled : bool;
  ephemeral : bool; incrementalAliveNodes : bool; ephemeralNodeEvictDelayNs : Z; autoIntel : bool;
  CreatedAtNs : Z; UpdatedAtNs : Z; LastCheckedNs : Z; LastUpdatedNs : Z; LastError : string;
  attemptSeq : Z; lastAppliedSeq : Z; managedNodes : ManagedNodes; configVersion : Z
}.
End Sub.
Abbreviation Subscription := Sub.Subscription.

Definition NewSubscription (id name url : string) (enabled ephemeral : bool) : Subscription :=
  Sub.mkSubscription id url SourceTypeRemote "" 0 name enabled ephemeral UpdateModeReplace defaultEphemeralNodeEvictDelayNs true
    0 0 0 0 "" 0 0 ∅ 1.

Definition normalizeSourceType (s : string) : string :=
  if s ==s SourceTypeLocal then SourceTypeLocal else SourceTypeRemote.

Definition SourceType (s : Subscription) : string := normalizeSourceType (Sub.sourceType s).

(** The next attempt takes the next number. *)
Definition NextAttemptSeq (s : Subscription) : Z * Subscription :=
  let 'Sub.mkSubscription a b c d e f g h i j k l m n o p q r t v := s in
  (add64 q 1, Sub.mkSubscription a b c d e f g h i j k l m n o p (add64 q 1) r t v).

Definition SetFetchConfig (url : string) (updateIntervalNs : Z) (s : Subscription) : Subscription :=
  let 'Sub.mkSubscription a b c d e f g h i j k l m n o p q r t v := s in
  let changed := (b <>s url) || negb (e =? updateIntervalNs) in
  Sub.mkSubscription a url c d updateIntervalNs f g h i j k l m n o p q r t (if changed then add64 v 1 else v).

Definition SetSourceType (sourceType : string) (s : Subscription) : Subscription :=
  let 'Sub.mkSubscription a b c d e f g h i j k l m n o p q r t v := s in
  let st := normalizeSourceType sourceType in
  if c <>s st then Sub.mkSubscription a b st d e f g h i j k l m n o p q r t (add64 v 1) else s.

Definition SetContent (content : string) (s : Subscription) : Subscription :=
  let 'Sub.mkSubscription a b c d e f g h i j k l m n o p q r t v := s in
  if d <>s content then Sub.mkSubscription a b c content e f g h i j k l m n o p q r t (add64 v 1) else s.

Definition SetName (name : string) (s : Subscription) : Subscription :=
  let 'Sub.mkSubscription a b c d e _ g h i j k l m n o p q r t v := s in
  Sub.mkSubscription a b c d e name g h i j k l m n o p q r t v.

Definition SetEnabled (enabled : bool) (s : Subscription) : Subscription :=
  let 'Sub.mkSubscription a b c d e f _ h i j k l m n o p q r t v := s in
  Sub.mkSubscription a b c d e f enabled h i j k l m n o p q r t v.

Definition SetEphemeral (ephemeral : bool) (s : Subscription) : Subscription :=
  let 'Sub.mkSubscription a b c d e f g _ i j k l m n o p q r t v := s in
  Sub.mkSubscription a b c d e f g ephemeral i j k l m n o p q r t v.

Definition SetIncrementalAliveNodes (mode : bool) (s : Subscription) : Subscription :=
  let 'Sub.mkSubscription a b c d e f g h _ j k l m n o p q r t v := s in
  Sub.mkSubscription a b c d e f g h mode j k l m n o p q r t v.

Definition SetEphemeralNodeEvictDelayNs (delay : Z) (s : Subscription) : Subscription :=
  let 'Sub.mkSubscription a b c d e f g h i _ k l m n o p q r t v := s in
  Sub.mkSubscription a b c d e f g h i delay k l m n o p q r t v.

Definition SetAutoIntel (v0 : bool) (s : Subscription) : Subscription :=
  let 'Sub.mkSubscription a b c d e f g h i j _ l m n o p q r t v := s in
  Sub.mkSubscription a b c d e f g h i j v0 l m n o p q r t v.

Definition SwapManagedNodes (managed : ManagedNodes) (s : Subscription) : Subscription :=
  let 'Sub.mkSubscription a b c d e f g h i j k l m n o p q r _ v := s in
  Sub.mkSubscription a b c d e f g h i j k l m n o p q r managed v.

(** The bookkeeping of an attempt that landed, and of one that failed. *)
Definition mark_applied (seq nowNs : Z) (s : Subscription) : Subscription :=
  let 'Sub.mkSubscription a b c d e f g h i j k l m _ _ _ q _ t v := s in
  Sub.mkSubscription a b c d e f g h i j k l m nowNs nowNs "" q seq t v.

Definition mark_failed (nowNs : Z) (err : string) (s : Subscription) : Subscription :=
  let 'Sub.mkSubscription a b c d e f g h i j k l m _ o _ q r t v := s in
  Sub.mkSubscription a b c d e f g h i j k l m nowNs o err q r t v.

(** [DiffHashes]: which hashes are new, kept and gone. *)
Definition diff_added (old new : ManagedNodes) : list Hash := filter (fun h => old !! h = None) (map fst (map_to_list new)).
Definition diff_kept (old new : ManagedNodes) : list Hash := filter (fun h => is_Some (old !! h)) (map fst (map_to_list new)).
Definition diff_removed (old new : ManagedNodes) : list Hash := filter (fun h => new !! h = None) (map fst (map_to_list old)).

Definition DiffHashes (old new : ManagedNodes) : list Hash * list Hash * list Hash :=
  (diff_added old new, diff_kept old new, diff_removed old new).

Lemma keys_elem {A} (m : gmap Hash A) (h : Hash) : h ∈ map fst (map_to_list m) <-> is_Some (m !! h).
Proof.
  rewrite list_elem_of_fmap. split.
  - intros ([k x] & -> & H). apply elem_of_map_to_list in H. simpl. eauto.
  - intros [x H]. exists (h, x). split; [done|]. by apply elem_of_map_to_list.
Qed.

(** The three lists split the hashes of the two maps. *)
Lemma DiffHashes_spec (old new : ManagedNodes) (h : Hash) :
  (h ∈ diff_added old new <-> old !! h = None /\ is_Some (new !! h)) /\
  (h ∈ diff_kept old new <-> is_Some (old !! h) /\ is_Some (new !! h)) /\
  (h ∈ diff_removed old new <-> is_Some (old !! h) /\ new !! h = None).
Proof. unfold diff_added, diff_kept, diff_removed. rewrite !list_elem_of_filter, !keys_elem. naive_solver. Qed.
