(* ===== verification/Pool.v ===== *)
(** * The node pool

    [src/internal/topology/pool.go], [src/internal/topology/subscription_manager.go]
    and the part of [src/internal/outbound/manager.go] that gives a node its
    outbound: the nodes, the platforms registered by id and by name, the index
    from egress addresses to nodes, and the notifications that keep every
    platform's view in step.  Platforms and subscriptions are shared objects:
    they live in stores of their own and the maps hold pointers to them.  The
    clock, the result of building an outbound and the settings read at run time
    are arguments of the operations that read them.  A map is ranged over in
    some order; the model takes one, and the theorems speak of sets. *)

From Stdlib Require Import Ascii String SpecFloat.
From stdpp Require Import base gmap list strings.
From S2P Require Import Prelude GoStrings Utf8 Fold Netip RoutableView Float64 Latency Intel Nodes Quality Selection Platforms Subs.

Record World := mkWorld {
  nodes : gmap Hash NodeEntry;
  plats : gmap nat Plat;                    (* the platform objects *)
  platformByID : gmap string nat;
  platformByName : gmap string nat;
  qualityInjected : bool;                   (* the pool holds the projection *)
  egressIndex : gmap Addr (gset Hash);
  subs : gmap nat Subscription;             (* the subscription objects *)
  manager : gmap string nat;                (* the subscription manager *)
  intel : Snapshot
}.

Definition with_nodes (f : gmap Hash NodeEntry -> gmap Hash NodeEntry) (w : World) : World :=
  mkWorld (f (nodes w)) (plats w) (platformByID w) (platformByName w) (qualityInjected w) (egressIndex w) (subs w) (manager w) (intel w).
Definition with_plats (f : gmap nat Plat -> gmap nat Plat) (w : World) : World :=
  mkWorld (nodes w) (f (plats w)) (platformByID w) (platformByName w) (qualityInjected w) (egressIndex w) (subs w) (manager w) (intel w).
Definition with_names (i m : gmap string nat) (w : World) : World :=
  mkWorld (nodes w) (plats w) i m (qualityInjected w) (egressIndex w) (subs w) (manager w) (intel w).
Definition with_injected (q : bool) (w : World) : World :=
  mkWorld (nodes w) (plats w) (platformByID w) (platformByName w) q (egressIndex w) (subs w) (manager w) (intel w).
Definition with_index (f : gmap Addr (gset Hash) -> gmap Addr (gset Hash)) (w : World) : World :=
  mkWorld (nodes w) (plats w) (platformByID w) (platformByName w) (qualityInjected w) (f (egressIndex w)) (subs w) (manager w) (intel w).
Definition with_subs (f : gmap nat Subscription -> gmap nat Subscription) (w : World) : World :=
  mkWorld (nodes w) (plats w) (platformByID w) (platformByName w) (qualityInjected w) (egressIndex w) (f (subs w)) (manager w) (intel w).
Definition with_manager (f : gmap string nat -> gmap string nat) (w : World) : World :=
  mkWorld (nodes w) (plats w) (platformByID w) (platformByName w) (qualityInjected w) (egressIndex w) (subs w) (f (manager w)) (intel w).
Definition with_intel (f : Snapshot -> Snapshot) (w : World) : World :=
  mkWorld (nodes w) (plats w) (platformByID w) (platformByName w) (qualityInjected w) (egressIndex w) (subs w) (manager w) (f (intel w)).

Definition NewGlobalNodePool : World := mkWorld ∅ ∅ ∅ ∅ false ∅ ∅ ∅ NewSnapshot.

(** ** The subscription manager *)

Definition SubLookup (subID : string) (w : World) : option (nat * Subscription) :=
  ptr ← manager w !! subID; sub ← subs w !! ptr; Some (ptr, sub).

Definition RegisterSub (ptr : nat) (w : World) : World :=
  match subs w !! ptr with
  | Some sub => with_manager <[Sub.ID sub := ptr]> w
  | None => w
  end.

Definition UnregisterSub (id : string) (w : World) : World := with_manager (delete id) w.

(** What a subscription says of a node it still holds. *)
Definition managed_view (sub : Subscription) (h : Hash) : option (string * bool * list string) :=
  match Sub.managedNodes sub !! h with
  | Some m => if Evicted m then None else Some (Sub.name sub, Sub.enabled sub, Tags m)
  | None => None
  end.

Definition MakeSubLookup (w : World) : SubLookupFunc := fun subID h =>
  match SubLookup subID w with Some (_, sub) => managed_view sub h | None => None end.

Definition GetEntry (h : Hash) (w : World) : option NodeEntry := nodes w !! h.

Definition IsNodeDisabled (h : Hash) (w : World) : bool :=
  match GetEntry h w with
  | Some e => IsDisabledBySubscriptions (Some (MakeSubLookup w)) e
  | None => true
  end.

Definition MakeHealthyAndEnabledEvaluator (w : World) (e : NodeEntry) : bool :=
  negb (IsDisabledBySubscriptions (Some (MakeSubLookup w)) e) && IsHealthy e.

(** ** Platforms of the pool *)

Inductive PoolErr := ErrPlatformNotRegistered | ErrPlatformNameConflict.

Definition GetPlatform (id : string) (w : World) : option Plat := ptr ← platformByID w !! id; plats w !! ptr.
Definition GetPlatformByName (name : string) (w : World) : option Plat := ptr ← platformByName w !! name; plats w !! ptr.

Definition is_registered (w : World) (ptr : nat) : bool :=
  existsb (fun kv => (snd kv =? ptr)%nat) (map_to_list (platformByID w)).

Definition platformSnapshot (w : World) : list Plat := omap (fun kv => plats w !! snd kv) (map_to_list (platformByID w)).

Definition passiveCircuitBreakerDisabled (platformID : string) (w : World) : bool :=
  if platformID ==s "" then false
  else match GetPlatform platformID w with Some p => Plat.PassiveCircuitBreakerDisabled p | None => false end.

(** A change of one platform object. *)
Definition on_plat (ptr : nat) (f : Plat -> Plat) (w : World) : World := with_plats (alter f ptr) w.

(** A change of every registered platform. *)
Definition on_registered (f : Plat -> Plat) (w : World) : World :=
  with_plats (map_imap (fun ptr p => Some (if is_registered w ptr then f p else p))) w.

(** ** What the pool is configured with *)

Record PoolConfig := mkPoolConfig {
  unicode : Unicode;
  GeoLookup : option (Addr -> string);
  QualityLookup : option (Addr -> Summary);
  MaxLatencyTableEntries : Z;
  readDoc : string -> option NodeDoc;       (* node documents, see [NewNodeEntry] *)
  readType : string -> option string;
  latencyKey : string -> Z;                 (* the hash of a domain *)
  latencyExp : spec_float -> spec_float;
  domainOf : string -> string               (* the registrable domain of a target *)
}.

(** What building an outbound comes to: the address policy's refusal, the
    builder's error, or an outbound. *)
Inductive BuildResult := Denied (reason : string) | BuildFailed (err : string) | Built.

Definition maxNodeErrorBytes : nat := 512.

(** A byte that does not continue a rune. *)
Definition RuneStart (c : ascii) : bool := negb (Z.land (code c) 192 =? 128).

Fixpoint rune_cut (cut : nat) (l : list ascii) : nat :=
  match cut with
  | O => O
  | S n => match l !! cut with
           | Some c => if RuneStart c then cut else rune_cut n l
           | None => cut
           end
  end.

Definition boundNodeError (msg : string) : string :=
  let l := list_ascii_of_string msg in
  if (length l <=? maxNodeErrorBytes)%nat then msg
  else (string_of_list_ascii (take (rune_cut maxNodeErrorBytes l) l) ++ "(truncated)")%string.

Section Pool.
Context (C : PoolConfig).

(** ** Notifications *)

Definition notifyAllPlatformsDirty (nowNs : Z) (h : Hash) (w : World) : World :=
  on_registered (NotifyDirty (unicode C) (MakeSubLookup w) (GeoLookup C) (QualityLookup C) (intel w) nowNs h
                   (fun k => nodes w !! k)) w.

Definition instrumentQuality (w : World) : Plat -> Plat := SetQualitySnapshot (qualityInjected w).

Definition rebuild (nowNs : Z) (w : World) (p : Plat) : Plat :=
  FullRebuild (unicode C) (MakeSubLookup w) (GeoLookup C) (QualityLookup C) (intel w) nowNs (map_to_list (nodes w))
    (instrumentQuality w p).

Definition RebuildAllPlatforms (nowNs : Z) (w : World) : World := on_registered (rebuild nowNs w) w.

Definition RebuildPlatform (nowNs : Z) (ptr : nat) (w : World) : World := on_plat ptr (rebuild nowNs w) w.

Definition NotifyNodeDirty (nowNs : Z) (h : Hash) (w : World) : World := notifyAllPlatformsDirty nowNs h w.

(** ** Registering platforms *)

Definition RegisterPlatform (ptr : nat) (w : World) : World :=
  let w := on_plat ptr (instrumentQuality w) w in
  match plats w !! ptr with
  | None => w
  | Some p =>
      match platformByID w !! Plat.ID p with
      | Some _ => w
      | None =>
          with_names (<[Plat.ID p := ptr]> (platformByID w))
            (if Plat.Name p <>s "" then <[Plat.Name p := ptr]> (platformByName w) else platformByName w) w
      end
  end.

(** A name is only released by the platform it points at. *)
Definition release_name (p : Plat) (ptr : nat) (m : gmap string nat) : gmap string nat :=
  if (Plat.Name p <>s "") && bool_decide (m !! Plat.Name p = Some ptr) then delete (Plat.Name p) m else m.

Definition UnregisterPlatform (id : string) (w : World) : World :=
  match platformByID w !! id with
  | None => w
  | Some ptr =>
      with_names (delete id (platformByID w))
        (match plats w !! ptr with Some p => release_name p ptr (platformByName w) | None => platformByName w end) w
  end.

Definition ReplacePlatform (nowNs : Z) (ptr : nat) (w : World) : option PoolErr * World :=
  match plats w !! ptr with
  | None => (Some ErrPlatformNotRegistered, w)
  | Some next =>
      if Plat.ID next ==s "" then (Some ErrPlatformNotRegistered, w)
      else
        let w := RebuildPlatform nowNs ptr (on_plat ptr (instrumentQuality w) w) in
        match platformByID w !! Plat.ID next with
        | None => (Some ErrPlatformNotRegistered, w)
        | Some current =>
            if (Plat.Name next <>s "")
               && (match platformByName w !! Plat.Name next with Some other => negb (other =? current)%nat | None => false end)
            then (Some ErrPlatformNameConflict, w)
            else
              let names := match plats w !! current with
                           | Some c => release_name c current (platformByName w)
                           | None => platformByName w
                           end in
              (None, with_names (<[Plat.ID next := ptr]> (platformByID w))
                       (if Plat.Name next <>s "" then <[Plat.Name next := ptr]> names else names) w)
        end
  end.

(** A platform built by a handler is a new object.  A created one is rebuilt
    before it is registered; an updated one replaces the object in place. *)
Definition alloc_plat (p : Plat) (w : World) : nat * World :=
  let ptr := fresh (dom (plats w)) in (ptr, with_plats <[ptr := p]> w).

Definition PublishPlatform (nowNs : Z) (p : Plat) (w : World) : World :=
  let '(ptr, w) := alloc_plat p w in RegisterPlatform ptr (RebuildPlatform nowNs ptr w).

Definition RepublishPlatform (nowNs : Z) (p : Plat) (w : World) : option PoolErr * World :=
  let '(ptr, w) := alloc_plat p w in ReplacePlatform nowNs ptr w.

(** Injecting the projection, or withdrawing it, which rebuilds nothing. *)
Definition SetPoolSnapshot (nowNs : Z) (installed : bool) (w : World) : World :=
  let w := on_registered (SetQualitySnapshot installed) (with_injected installed w) in
  if installed then RebuildAllPlatforms nowNs w else w.

(** The start of the intelligence service: its rows fill the projection and the
    platforms are rebuilt. *)
Definition startIntel (nowNs : Z) (rows : option (list Assessment)) (checkRows : option (list NodeCheck)) (w : World) : World :=
  let '(loaded, i) := LoadFrom rows checkRows (intel w) in
  if loaded then RebuildAllPlatforms nowNs (with_intel (fun _ => i) w) else w.

(** ** The index of egress addresses *)

Definition drop_bucket (h : Hash) (bucket : gset Hash) : option (gset Hash) :=
  let b := bucket ∖ {[h]} in if decide (b = ∅) then None else Some b.

Definition indexEgressIP (h : Hash) (oldIP newIP : Addr) (m : gmap Addr (gset Hash)) : gmap Addr (gset Hash) :=
  let m := if IsValid oldIP then partial_alter (fun b => bucket ← b; drop_bucket h bucket) (Unmap oldIP) m else m in
  if IsValid newIP then <[Unmap newIP := {[h]} ∪ default ∅ (m !! Unmap newIP)]> m else m.

Definition removeEgressIndex (h : Hash) (m : gmap Addr (gset Hash)) : gmap Addr (gset Hash) := omap (drop_bucket h) m.

Definition SeedEgressIndex (h : Hash) (ip : Addr) (w : World) : World :=
  if IsValid ip then with_index (indexEgressIP h AddrInvalid ip) w else w.

Definition EgressIPOwners (ip : Addr) (w : World) : list Hash :=
  if IsValid ip then elements (default ∅ (egressIndex w !! Unmap ip) : gset Hash) else [].

Definition NotifyEgressIPDirty (nowNs : Z) (ip : Addr) (w : World) : nat * World :=
  let hashes := EgressIPOwners ip w in
  (length hashes, foldl (fun w h => notifyAllPlatformsDirty nowNs h w) w hashes).

(** ** Outbounds *)

(** [build] is asked for nodes without an outbound only. *)
Definition with_built (build : string -> BuildResult) (e : NodeEntry) : NodeEntry :=
  if HasOutbound e then e
  else match build (Node.RawOptions e) with
       | Denied reason => SetLastError (boundNodeError ("outbound denied: " ++ reason)) e
       | BuildFailed err => SetLastError (boundNodeError ("outbound build: " ++ err)) e
       | Built => with_outbound true e
       end.

Definition EnsureNodeOutbound (build : string -> BuildResult) (h : Hash) (w : World) : World :=
  match nodes w !! h with
  | Some e => with_nodes <[h := with_built build e]> w
  | None => w
  end.

(** ** Nodes of a subscription *)

(** The wired callback of a new node builds its outbound before the platforms
    are told. *)
Definition AddNodeFromSub (nowNs : Z) (build : string -> BuildResult) (h : Hash) (raw subID : string) (w : World) : World :=
  let w' :=
    match nodes w !! h with
    | Some e => with_nodes <[h := AddSubscriptionID subID e]> w
    | None =>
        let e := with_health 0 nowNs (NewNodeEntry (unicode C) (readDoc C) (readType C) h raw nowNs (MaxLatencyTableEntries C)) in
        EnsureNodeOutbound build h (with_nodes <[h := AddSubscriptionID subID e]> w)
    end in
  notifyAllPlatformsDirty nowNs h w'.

Definition RemoveNodeFromSub (nowNs : Z) (h : Hash) (subID : string) (w : World) : World :=
  let w' :=
    match nodes w !! h with
    | Some e =>
        let '(empty, e') := RemoveSubscriptionID subID e in
        if empty then with_index (removeEgressIndex h) (with_nodes (delete h) w) else with_nodes <[h := e']> w
    | None => w
    end in
  notifyAllPlatformsDirty nowNs h w'.

Definition LoadNodeFromBootstrap (e : NodeEntry) (w : World) : World := with_nodes <[Node.Hash e := e]> w.

(** ** Health *)

Definition int32 (z : Z) : Z := (z + 2 ^ 31) mod 2 ^ 32 - 2 ^ 31.

Definition recovered (e : NodeEntry) : NodeEntry :=
  let e := with_health 0 0 e in
  if fst (fst (GetProbeFailure e)) ==s ProbeErrorNone then e else ClearProbeFailure e.

Definition failed (maxConsecutiveFailures : Z) (class detail : string) (nowNs : Z) (e : NodeEntry) : NodeEntry :=
  let count := int32 (Node.FailureCount e + 1) in
  let opens := (0 <? maxConsecutiveFailures) && (maxConsecutiveFailures <=? count) && (Node.CircuitOpenSince e =? 0) in
  SetProbeFailure class detail nowNs (with_health count (if opens then nowNs else Node.CircuitOpenSince e) e).

(** Platforms hear of it when the circuit opens or closes. *)
Definition RecordOutcome (nowNs maxConsecutiveFailures : Z) (h : Hash) (success : bool) (class detail : string) (w : World) : World :=
  match nodes w !! h with
  | None => w
  | Some e =>
      let e' := if success then recovered e else failed maxConsecutiveFailures class detail nowNs e in
      let w' := with_nodes <[h := e']> w in
      if negb (Node.CircuitOpenSince e' =? Node.CircuitOpenSince e) then notifyAllPlatformsDirty nowNs h w' else w'
  end.

Definition RecordResult (nowNs maxConsecutiveFailures : Z) (h : Hash) (success : bool) (w : World) : World :=
  RecordOutcome nowNs maxConsecutiveFailures h success ProbeErrorNone "" w.

Definition RecordPassiveResult (nowNs maxConsecutiveFailures : Z) (platformID : string) (h : Hash) (success : bool) (w : World) : World :=
  if success || negb (passiveCircuitBreakerDisabled platformID w) then RecordResult nowNs maxConsecutiveFailures h success w else w.

(** ** Latency *)

Definition isAuthorityDomain (authorities : option (list string)) (domain : string) : bool :=
  match authorities with
  | Some l => (domain <>s "") && existsb (fun a => EqualFold (unicode C) (TrimSpace a) domain) l
  | None => false
  end.

Definition defaultDecayWindow : Z := 30 * 1000000000.

Definition RecordLatency (nowNs : Z) (decayWindow : Z) (authorities : option (list string)) (h : Hash) (rawTarget : string)
    (latency : option Z) (w : World) : World :=
  match nodes w !! h with
  | None => w
  | Some e =>
      let domain := domainOf C rawTarget in
      let auth := isAuthorityDomain authorities domain in
      let e := with_attempts nowNs (if auth then nowNs else Node.LastAuthorityLatencyProbeAttempt e) (Node.LastEgressUpdateAttempt e) e in
      match latency, Node.LatencyTable e with
      | Some l, Some t =>
          if l <=? 0 then with_nodes <[h := e]> w
          else
            let decay := if decayWindow <=? 0 then defaultDecayWindow else decayWindow in
            let '(wasEmpty, _, t') := UpdateClassified (latencyKey C) (latencyExp C) domain l decay auth nowNs t in
            let w' := with_nodes <[h := with_latency (Some t') e]> w in
            if wasEmpty then notifyAllPlatformsDirty nowNs h w' else w'
      | _, _ => with_nodes <[h := e]> w
      end
  end.

(** ** Egress *)

(** The region after an attempt: the given one, or none where the address moved
    without one. *)
Definition next_region (ip : option Addr) (loc : option string) (ipChanged : bool) (e : NodeEntry) : NodeEntry :=
  match loc, ip with
  | Some loc, _ => SetEgressRegion (unicode C) loc e
  | None, Some _ => if ipChanged && (GetEgressRegion e <>s "") then with_region None e else e
  | None, None => e
  end.

Definition UpdateNodeEgressIP (nowNs : Z) (h : Hash) (ip : option Addr) (loc : option string) (w : World) : World :=
  match nodes w !! h with
  | None => w
  | Some e =>
      let oldIP := GetEgressIP e in
      let ipChanged := match ip with Some ip => negb (bool_decide (oldIP = ip)) | None => false end in
      let e1 := with_attempts (Node.LastLatencyProbeAttempt e) (Node.LastAuthorityLatencyProbeAttempt e) nowNs e in
      let e2 := match ip with
                | Some ip => let e2 := with_last_egress nowNs e1 in if ipChanged then SetEgressIP ip e2 else e2
                | None => e1
                end in
      let e3 := next_region ip loc ipChanged e2 in
      let w' := with_nodes <[h := e3]> w in
      let w' := match ip with
                | Some ip => if ipChanged then with_index (indexEgressIP h oldIP ip) w' else w'
                | None => w'
                end in
      if ipChanged || negb (GetEgressRegion e ==s GetEgressRegion e3) then notifyAllPlatformsDirty nowNs h w' else w'
  end.

(** ** Assessments

    [src/internal/intel/assessor.go].  What an address is assessed at is an
    argument: the row, or nothing where the evidence could not be read or the
    row not stored. *)

Definition AssessIP (assess : Addr -> option Assessment) (ip : Addr) (w : World) : bool * World :=
  if negb (IsValid ip) then (true, w)
  else match assess ip with
       | Some row => (true, with_intel (SetAssessmentFromRow row) w)
       | None => (false, w)
       end.

(** The addresses of a batch that are valid and could be assessed. *)
Fixpoint assess_each (assess : Addr -> option Assessment) (ips : list Addr) (w : World) : nat * World :=
  match ips with
  | [] => (0%nat, w)
  | ip :: rest =>
      if negb (IsValid ip) then assess_each assess rest w
      else
        let '(ok, w1) := AssessIP assess ip w in
        let '(n, w2) := assess_each assess rest w1 in
        (if ok then S n else n, w2)
  end.

(** The wired callback of a change. *)
Definition onAssessmentChanged (nowNs : Z) (ips : list Addr) (w : World) : World :=
  foldl (fun w ip => snd (NotifyEgressIPDirty nowNs ip w)) w ips.

Definition AssessMany (nowNs : Z) (assess : Addr -> option Assessment) (ips : list Addr) (w : World) : nat * World :=
  let '(done, w') := assess_each assess ips w in
  (done, if (0 <? done)%nat then onAssessmentChanged nowNs ips w' else w').

(** The other caller of [AssessIP], for evidence a provider wrote in the
    background; nothing is notified. *)
Definition onEvidenceWritten (assess : Addr -> option Assessment) (ips : list Addr) (w : World) : World :=
  foldl (fun w ip => snd (AssessIP assess ip w)) w ips.

(** The sweep of the addresses whose assessment expired, [rows] as the store
    lists them. *)
Fixpoint sweep_each (assess : Addr -> option Assessment) (rows : list Assessment) (w : World) : list Addr * World :=
  match rows with
  | [] => ([], w)
  | row :: rest =>
      match ParseAddr (Assessment.IP row) with
      | None => sweep_each assess rest w
      | Some ip =>
          let '(ok, w1) := AssessIP assess (Unmap ip) w in
          let '(changed, w2) := sweep_each assess rest w1 in
          (if ok then Unmap ip :: changed else changed, w2)
      end
  end.

Definition SweepExpired (nowNs : Z) (assess : Addr -> option Assessment) (rows : list Assessment) (w : World) : nat * World :=
  let '(changed, w') := sweep_each assess rows w in
  (length changed, onAssessmentChanged nowNs changed w').

(** A check result lands in the projection; nothing is notified. *)
Definition SetNodeCheck (nodeHash checkID : string) (lite : OutcomeLite) (w : World) : World :=
  with_intel (SetCheck nodeHash checkID lite) w.
End Pool.
