(* ===== verification/Scheduler.v ===== *)
(** * Subscriptions at work

    [src/internal/topology/subscription_scheduler.go],
    [src/internal/topology/subscription_cleanup.go],
    [src/internal/topology/ephemeral_cleaner.go] and the subscription handlers
    of [src/internal/service/control_plane_subscription.go], on the pool.  A
    refresh is two steps: it notes what it starts from, and later, other steps
    having happened in between, applies what was fetched and parsed.  Fetching
    and parsing are arguments, and so is the hash of a node document. *)

From Stdlib Require Import Ascii String SpecFloat.
From stdpp Require Import base gmap list strings.
From S2P Require Import Prelude GoStrings Netip RoutableView Latency Intel Nodes Quality Selection Platforms Subs Pool.

Definition schedulerLookahead : Z := 15 * 1000000000.

(** The clock, the builder of outbounds and the hash of a document. *)
Record Env := mkEnv { now : Z; builder : string -> BuildResult; hashOf : string -> Hash }.

Record ParsedNode := mkParsed { parsed_Tag : string; parsed_Raw : string }.

Inductive Fetched :=
| FetchFailed (err : string)
| ParseFailed (err : string)
| ParsedNodes (l : list ParsedNode).

Definition errEmptyRefresh : string := "subscription returned no usable nodes; keeping previous nodes".

(** What a refresh attempt starts from. *)
Record Attempt := mkAttempt { at_sub : nat; at_seq : Z; at_version : Z }.

Definition on_sub (ptr : nat) (f : Subscription -> Subscription) (w : World) : World := with_subs (alter f ptr) w.

Definition BeginUpdate (ptr : nat) (w : World) : option Attempt * World :=
  match subs w !! ptr with
  | None => (None, w)
  | Some sub =>
      let '(seq, sub') := NextAttemptSeq sub in
      (Some (mkAttempt ptr seq (Sub.configVersion sub)), with_subs <[ptr := sub']> w)
  end.

(** Another attempt has landed since, or the configuration changed. *)
Definition stale (a : Attempt) (sub : Subscription) : bool :=
  negb (Sub.configVersion sub =? at_version a) || (at_seq a <? Sub.lastAppliedSeq sub).

Definition handleUpdateFailure (E : Env) (a : Attempt) (err : string) (w : World) : World :=
  match subs w !! at_sub a with
  | None => w
  | Some sub => if stale a sub then w else with_subs <[at_sub a := mark_failed (now E) err sub]> w
  end.

(** ** Building the next set of nodes *)

Definition add_parsed (E : Env) (m : ManagedNodes) (p : ParsedNode) : ManagedNodes :=
  let h := hashOf E (parsed_Raw p) in
  let existing := default (mkManaged [] false) (m !! h) in
  <[h := mkManaged (Tags existing ++ [parsed_Tag p]) (Evicted existing)]> m.

Definition refreshed (E : Env) (l : list ParsedNode) : ManagedNodes := foldl (add_parsed E) ∅ l.

(** The first document of a hash counts. *)
Definition add_raw (E : Env) (m : gmap Hash string) (p : ParsedNode) : gmap Hash string :=
  let h := hashOf E (parsed_Raw p) in
  match m !! h with Some _ => m | None => <[h := parsed_Raw p]> m end.

Definition rawByHash (E : Env) (l : list ParsedNode) : gmap Hash string := foldl (add_raw E) ∅ l.

Definition shouldRemoveUnhealthyNodeForIncrementalMode (e : NodeEntry) : bool :=
  IsCircuitOpen e || (negb (HasOutbound e) && (Node.LastError e <>s "")).

Definition keeps_alive (w : World) (h : Hash) (m : ManagedNode) : bool :=
  Evicted m || match nodes w !! h with Some e => negb (shouldRemoveUnhealthyNodeForIncrementalMode e) | None => false end.

Definition merged (w : World) (sub : Subscription) (fresh : ManagedNodes) : ManagedNodes :=
  let old := Sub.managedNodes sub in
  let base := if Sub.incrementalAliveNodes sub
              then fresh ∪ map_imap (fun h m => if keeps_alive w h m then Some m else None) old
              else fresh in
  map_imap (fun h m => Some (if default false (Evicted <$> old !! h) then mkManaged (Tags m) true else m)) base.

(** ** Applying it *)

Section Scheduler.
Context (C : PoolConfig).

Definition add_managed (E : Env) (subID : string) (managed : ManagedNodes) (raws : gmap Hash string) (w : World) (h : Hash) : World :=
  if default false (Evicted <$> managed !! h) then w
  else
    let raw := default ""%string (raws !! h) in
    let raw := if raw ==s "" then default ""%string (Node.RawOptions <$> nodes w !! h) else raw in
    if raw ==s "" then w else AddNodeFromSub C (now E) (builder E) h raw subID w.

Definition apply_refresh (E : Env) (a : Attempt) (l : list ParsedNode) (sub : Subscription) (w : World) : World :=
  let old := Sub.managedNodes sub in
  let next := merged w sub (refreshed E l) in
  let '(added, kept, removed) := DiffHashes old next in
  let w1 := on_sub (at_sub a) (SwapManagedNodes next) w in
  let w2 := foldl (add_managed E (Sub.ID sub) next (rawByHash E l)) w1 (added ++ kept) in
  let w3 := foldl (fun w h => RemoveNodeFromSub C (now E) h (Sub.ID sub) w) w2 removed in
  on_sub (at_sub a) (mark_applied (at_seq a) (now E)) w3.

(** A document without nodes is a failure where there were nodes. *)
Definition FinishUpdate (E : Env) (a : Attempt) (f : Fetched) (w : World) : World :=
  match f with
  | FetchFailed err | ParseFailed err => handleUpdateFailure E a err w
  | ParsedNodes l =>
      match subs w !! at_sub a with
      | None => w
      | Some sub =>
          if is_nil l && negb (bool_decide (Sub.managedNodes sub = ∅)) then handleUpdateFailure E a errEmptyRefresh w
          else if stale a sub then w
          else apply_refresh E a l sub w
      end
  end.

(** Which subscriptions a tick refreshes. *)
Definition update_due (nowNs : Z) (sub : Subscription) : bool :=
  Sub.enabled sub && (sub64 (add64 (Sub.LastCheckedNs sub) (Sub.updateIntervalNs sub)) schedulerLookahead <=? nowNs).

(** ** Enabling and renaming *)

Definition SetSubscriptionEnabled (E : Env) (ptr : nat) (enabled : bool) (w : World) : World :=
  match subs w !! ptr with
  | None => w
  | Some sub =>
      let candidates :=
        if negb (Sub.enabled sub) && enabled
        then filter (fun h => IsNodeDisabled h w = true)
               (map fst (map_to_list (map_imap (fun _ m => if Evicted m then None else Some m) (Sub.managedNodes sub))))
        else [] in
      let w1 := RebuildAllPlatforms C (now E) (on_sub ptr (SetEnabled enabled) w) in
      foldl (fun w h => if IsNodeDisabled h w then w else EnsureNodeOutbound (builder E) h w) w1 candidates
  end.

Definition RenameSubscription (E : Env) (ptr : nat) (newName : string) (w : World) : World :=
  match subs w !! ptr with
  | None => w
  | Some sub =>
      foldl (fun w hm =>
          if Evicted (snd hm) then w
          else match nodes w !! fst hm with
               | Some e => AddNodeFromSub C (now E) (builder E) (fst hm) (Node.RawOptions e) (Sub.ID sub) w
               | None => w
               end) (on_sub ptr (SetName newName) w) (map_to_list (Sub.managedNodes sub))
  end.

(** ** Evicting nodes *)

(** Candidates of a scan: held, in the pool, and to be removed. *)
Definition cleanup_candidates (shouldRemove : NodeEntry -> bool) (managed : ManagedNodes) (w : World) : ManagedNodes :=
  map_imap (fun h m => if negb (Evicted m) && match nodes w !! h with Some e => shouldRemove e | None => false end
                       then Some m else None) managed.

(** [between] is what happens between the two scans. *)
Definition CleanupSubscriptionNodesWithConfirm (E : Env) (ptr : nat) (shouldRemove : NodeEntry -> bool) (between : World -> World)
    (w : World) : list Hash * World :=
  match subs w !! ptr with
  | None => ([], w)
  | Some sub =>
      let managed := Sub.managedNodes sub in
      let first := cleanup_candidates shouldRemove managed w in
      if bool_decide (first = ∅) then ([], w)
      else
        let w1 := between w in
        let confirmed := cleanup_candidates shouldRemove first w1 in
        if bool_decide (confirmed = ∅) then ([], w1)
        else
          let next := map_imap (fun h m => Some (match confirmed !! h with Some _ => mkManaged (Tags m) true | None => m end)) managed in
          let evicted := map fst (map_to_list confirmed) in
          (evicted, foldl (fun w h => RemoveNodeFromSub C (now E) h (Sub.ID sub) w) (on_sub ptr (SwapManagedNodes next) w1) evicted)
  end.

Definition shouldEvictEntry (nowNs evictDelayNs : Z) (e : NodeEntry) : bool :=
  if negb (HasOutbound e) && (Node.LastError e <>s "") then true
  else (0 <? Node.CircuitOpenSince e) && (evictDelayNs <? sub64 nowNs (Node.CircuitOpenSince e)).

Definition sweepOneSubscription (E : Env) (ptr : nat) (w : World) : World :=
  match subs w !! ptr with
  | None => w
  | Some sub =>
      snd (CleanupSubscriptionNodesWithConfirm E ptr (shouldEvictEntry (now E) (Sub.ephemeralNodeEvictDelayNs sub)) (fun w => w) w)
  end.

Definition sweep (E : Env) (w : World) : World :=
  foldl (fun w kv => match subs w !! snd kv with
                     | Some sub => if Sub.ephemeral sub then sweepOneSubscription E (snd kv) w else w
                     | None => w
                     end) w (map_to_list (manager w)).

Definition shouldCleanupSubscriptionNode (e : NodeEntry) : bool :=
  IsCircuitOpen e || (negb (HasOutbound e) && (Node.LastError e <>s "")).

Definition CleanupSubscriptionCircuitOpenNodes (E : Env) (id : string) (w : World) : option nat * World :=
  match SubLookup id w with
  | None => (None, w)
  | Some (ptr, _) =>
      let '(evicted, w') := CleanupSubscriptionNodesWithConfirm E ptr shouldCleanupSubscriptionNode (fun w => w) w in
      (Some (length evicted), w')
  end.

(** ** Handlers: the validated values, and whether the row could be stored *)

Record SubFields := mkSubFields {
  f_name : string; f_sourceType : string; f_url : string; f_content : string; f_interval : Z; f_enabled : bool;
  f_ephemeral : bool; f_incremental : bool; f_evictDelay : Z; f_autoIntel : bool
}.

Definition with_times (created updated : Z) (s : Subscription) : Subscription :=
  let 'Sub.mkSubscription a b c d e f g h i j k _ _ n o p q r t v := s in
  Sub.mkSubscription a b c d e f g h i j k created updated n o p q r t v.

Definition CreateSubscription (E : Env) (id : string) (f : SubFields) (stored : bool) (w : World) : World :=
  if negb stored then w
  else
    let sub := with_times (now E) (now E) (SetEphemeralNodeEvictDelayNs (f_evictDelay f) (SetAutoIntel (f_autoIntel f)
                 (SetIncrementalAliveNodes (f_incremental f) (SetContent (f_content f) (SetSourceType (f_sourceType f)
                 (SetFetchConfig (f_url f) (f_interval f) (NewSubscription id (f_name f) (f_url f) (f_enabled f) (f_ephemeral f)))))))) in
    let ptr := fresh (dom (subs w)) in
    RegisterSub ptr (with_subs <[ptr := sub]> w).

(** The new values of a patch; what it leaves out keeps its value. *)
Definition UpdateSubscriptionFields (E : Env) (id : string) (f : SubFields) (stored : bool) (w : World) : World :=
  match SubLookup id w with
  | None => w
  | Some (ptr, sub) =>
      if negb stored then w
      else
        let set s := with_times (Sub.CreatedAtNs s) (now E) (SetAutoIntel (f_autoIntel f) (SetEphemeralNodeEvictDelayNs (f_evictDelay f)
                       (SetIncrementalAliveNodes (f_incremental f) (SetEphemeral (f_ephemeral f) (SetContent (f_content f)
                       (SetFetchConfig (f_url f) (f_interval f) s)))))) in
        let w1 := on_sub ptr set w in
        let w2 := if Sub.name sub <>s f_name f then RenameSubscription E ptr (f_name f) w1 else w1 in
        if negb (Bool.eqb (Sub.enabled sub) (f_enabled f)) then SetSubscriptionEnabled E ptr (f_enabled f) w2 else w2
  end.

Definition DeleteSubscription (E : Env) (id : string) (stored : bool) (w : World) : bool * World :=
  match SubLookup id w with
  | None => (false, w)
  | Some (ptr, sub) =>
      if negb stored then (false, w)
      else (true, UnregisterSub id
                    (foldl (fun w h => RemoveNodeFromSub C (now E) h id w) w (map fst (map_to_list (Sub.managedNodes sub)))))
  end.
End Scheduler.
