(* ===== verification/PoolViews.v ===== *)
(** * The pool and its views

    Whatever happens to nodes, subscriptions, platforms and assessments, the view
    of a platform holds the nodes its criteria select.  A node is dirty while a
    change of it has not been told to the platforms; every operation of the pool
    leaves no node dirty. *)

From Stdlib Require Import Ascii String SpecFloat.
From stdpp Require Import base gmap list strings.
From S2P Require Import Prelude GoStrings Utf8 Fold Netip RoutableView Float64 Latency Intel Nodes Quality Selection Platforms Subs Pool.

Lemma is_registered_spec (w : World) (ptr : nat) :
  is_registered w ptr = true <-> exists id, platformByID w !! id = Some ptr.
Proof.
  unfold is_registered. rewrite existsb_In. split.
  - intros ([id q] & Hin & E). apply Nat.eqb_eq in E. simpl in E. subst.
    exists id. apply elem_of_map_to_list. by apply list_elem_of_In.
  - intros (id & E). exists (id, ptr). split; [|apply Nat.eqb_refl]. by apply list_elem_of_In, elem_of_map_to_list.
Qed.

Lemma plats_on_registered (f : Plat -> Plat) (w : World) (ptr : nat) :
  plats (on_registered f w) !! ptr = (fun p => if is_registered w ptr then f p else p) <$> plats w !! ptr.
Proof. simpl. rewrite map_lookup_imap. by destruct (plats w !! ptr). Qed.

Section Views.
Context (C : PoolConfig).

(** ** What a platform admits *)

(** The criteria of interest: no quality policy, so that the answer does not
    depend on the clock; and where assessments may change unannounced, nothing
    that reads them. *)
Context (announced : bool).

Definition steady (p : Plat) : Prop :=
  IsEmpty (Plat.Policy p) = true /\ (announced = false -> Plat.IPTypes p = [] /\ Plat.PurityBands p = []).

Definition eval (w : World) (nowNs : Z) (e : NodeEntry) (p : Plat) : bool :=
  evaluateNode (unicode C) (MakeSubLookup w) (GeoLookup C) (QualityLookup C) (intel w) nowNs e p.

Definition admits (w : World) (p : Plat) (h : Hash) : bool :=
  match nodes w !! h with Some e => eval w 0 e p | None => false end.

(** The facts about a node that the criteria of a steady platform read. *)
Record same_facts (e e' : NodeEntry) : Prop := {
  sf_hash : Node.Hash e' = Node.Hash e;
  sf_subs : Node.subscriptionIDs e' = Node.subscriptionIDs e;
  sf_protocol : Node.Protocol e' = Node.Protocol e;
  sf_circuit : IsCircuitOpen e' = IsCircuitOpen e;
  sf_outbound : HasOutbound e' = HasOutbound e;
  sf_ip : GetEgressIP e' = GetEgressIP e;
  sf_region : GetEgressRegion e' = GetEgressRegion e;
  sf_latency : HasLatency e' = HasLatency e
}.

(** Two worlds that say the same of a node. *)
Record same_about (w w' : World) (e : NodeEntry) : Prop := {
  sa_lookup : forall subID, In subID (Node.subscriptionIDs e) ->
    MakeSubLookup w' subID (Node.Hash e) = MakeSubLookup w subID (Node.Hash e);
  sa_intel : announced = true -> Assessment_at (GetEgressIP e) (intel w') = Assessment_at (GetEgressIP e) (intel w)
}.

Lemma scan_subs_ext (f : TagFilter) (l1 l2 : SubLookupFunc) (h : Hash) (ids : list string) (a b : bool) :
  (forall id, In id ids -> l1 id h = l2 id h) -> scan_subs f l1 h ids a b = scan_subs f l2 h ids a b.
Proof.
  revert a b. induction ids as [|id ids IH]; intros a b H; [done|]. cbn [scan_subs]. rewrite H by (by left).
  assert (forall x y, scan_subs f l1 h ids x y = scan_subs f l2 h ids x y) as IH' by (intros; apply IH; intros; apply H; by right).
  destruct (l2 id h) as [[[n []] t]|]; [|apply IH'..]. destruct (scan_tags _ _ _ _); [apply IH'|done].
Qed.

Lemma existsb_ext_in {A} (f g : A -> bool) (l : list A) : (forall x, In x l -> f x = g x) -> existsb f l = existsb g l.
Proof. induction l as [|x l IH]; intros H; simpl; [done|]. rewrite H, IH; [done| |by left]. intros. apply H. by right. Qed.

Lemma eval_same (w w' : World) (e e' : NodeEntry) (p : Plat) (n1 n2 : Z) :
  steady p -> same_facts e e' -> same_about w w' e -> eval w' n2 e' p = eval w n1 e p.
Proof.
  intros [Hp Hi] [F1 F2 F3 F4 F5 F6 F7 F8] [A1 A2]. unfold eval, evaluateNode. f_equal.
  unfold MatchNodeCriteria, IsDisabledBySubscriptions, HasEnabledSubscription, IsHealthy. cbn [subLookup platform_lookups].
  rewrite F1, F2, F4, F5, F6, F8.
  assert (forall id, In id (Node.subscriptionIDs e) ->
    holds_enabled (MakeSubLookup w') (Node.Hash e) id = holds_enabled (MakeSubLookup w) (Node.Hash e) id) as Hh.
  { intros id Hid. unfold holds_enabled. by rewrite A1. }
  rewrite (existsb_ext_in _ _ _ Hh).
  assert (matchSelection (unicode C) (Criteria p) e'
            (platform_lookups (MakeSubLookup w') (GeoLookup C) (QualityLookup C) (intel w') p) n2 =
          matchSelection (unicode C) (Criteria p) e
            (platform_lookups (MakeSubLookup w) (GeoLookup C) (QualityLookup C) (intel w) p) n1) as ->; [|done].
  assert (assessmentOf e' (qualitySnap (platform_lookups (MakeSubLookup w') (GeoLookup C) (QualityLookup C) (intel w') p)) =
          assessmentOf e (qualitySnap (platform_lookups (MakeSubLookup w) (GeoLookup C) (QualityLookup C) (intel w) p))
          \/ Plat.IPTypes p = [] /\ Plat.PurityBands p = []) as Ha.
  { destruct announced; [left|right; by apply Hi]. unfold assessmentOf, platform_lookups. cbn [qualitySnap].
    destruct (Plat.qualitySnapshot p); [|done]. simpl. rewrite F6. destruct (IsValid (GetEgressIP e)); [by apply A2|done]. }
  unfold matchSelection. set (a' := assessmentOf e' _) in *. set (a := assessmentOf e _) in *. clearbody a a'.
  unfold MatchTagFilter, referencedBySubscription, GetRegion, quality_rejects. cbn [subLookup geoLookup platform_lookups Criteria
    NodeCriteria.TagRules NodeCriteria.Regions NodeCriteria.SubscriptionIDs NodeCriteria.Protocols NodeCriteria.IPTypes
    NodeCriteria.PurityBands NodeCriteria.Policy].
  rewrite F1, F2, F3, F6, F7, Hp.
  assert (forall f a b, scan_subs f (MakeSubLookup w') (Node.Hash e) (Node.subscriptionIDs e) a b =
    scan_subs f (MakeSubLookup w) (Node.Hash e) (Node.subscriptionIDs e) a b) as Hs by (intros; by apply scan_subs_ext).
  assert (existsb (fun subID => containsFold (unicode C) (Plat.SubscriptionFilters p) subID && holds_enabled (MakeSubLookup w') (Node.Hash e) subID) (Node.subscriptionIDs e) =
    existsb (fun subID => containsFold (unicode C) (Plat.SubscriptionFilters p) subID && holds_enabled (MakeSubLookup w) (Node.Hash e) subID) (Node.subscriptionIDs e)) as ->.
  { apply existsb_ext_in. intros id Hid. by rewrite Hh. }
  destruct Ha as [Ha|[-> ->]].
  - subst a'. destruct (Node.subscriptionIDs e); [done|]. by rewrite Hs.
  - destruct (Node.subscriptionIDs e); [done|]. by rewrite Hs.
Qed.

Lemma same_facts_refl (e : NodeEntry) : same_facts e e.
Proof. by split. Qed.

Lemma same_about_refl (w : World) (e : NodeEntry) : same_about w w e.
Proof. by split. Qed.

#[local] Hint Resolve same_facts_refl same_about_refl : core.

Lemma steady_with_view (v : RoutableView) (p : Plat) : steady (with_view v p) <-> steady p.
Proof. by destruct p. Qed.

Lemma admits_with_view (w : World) (v : RoutableView) (p : Plat) (h : Hash) : admits w (with_view v p) h = admits w p h.
Proof. unfold admits, eval. destruct (nodes w !! h); [apply evaluate_view|done]. Qed.

(** ** Views up to dirty nodes

    Each view of a steady platform is a set without duplicates; a node that is
    not dirty is in it only if the platform admits it and, where [exact], if the
    platform admits it. *)
Context (exact : bool).

Definition in_step (w : World) (D : gset Hash) (p : Plat) : Prop :=
  exists S, view_is (Plat.view p) S /\
    forall h, h ∉ D -> (h ∈ S -> admits w p h = true) /\ (exact = true -> admits w p h = true -> h ∈ S).

Definition views_except (D : gset Hash) (w : World) : Prop :=
  forall id ptr p, platformByID w !! id = Some ptr -> plats w !! ptr = Some p -> steady p -> in_step w D p.

(** The world moved on and the platforms did not hear of it: the nodes whose
    answer may differ are dirty. *)
Lemma views_change (D D' : gset Hash) (w w' : World) :
  views_except D w -> D ⊆ D' -> plats w' = plats w -> platformByID w' = platformByID w ->
  (forall p h, steady p -> h ∉ D' ->
     (admits w p h = true -> admits w' p h = true) /\ (exact = true -> admits w' p h = true -> admits w p h = true)) ->
  views_except D' w'.
Proof.
  intros V HD Ep Ei Ha id ptr p Hid Hp Hs. rewrite Ei in Hid. rewrite Ep in Hp.
  destruct (V id ptr p Hid Hp Hs) as (S & HS & H). exists S. split; [done|]. intros h Hh.
  destruct (H h ltac:(set_solver)) as [H1 H2]. destruct (Ha p h Hs Hh). naive_solver.
Qed.

(** Where nothing a criterion reads changed outside [D']. *)
Lemma views_local (D D' : gset Hash) (w w' : World) :
  views_except D w -> D ⊆ D' -> plats w' = plats w -> platformByID w' = platformByID w ->
  (forall h, h ∉ D' ->
     match nodes w !! h, nodes w' !! h with
     | Some e, Some e' => same_facts e e' /\ same_about w w' e
     | None, None => True
     | _, _ => False
     end) ->
  views_except D' w'.
Proof.
  intros V HD Ep Ei Hn. apply (views_change D _ w); [done..|]. intros p h Hs Hh. specialize (Hn h Hh). unfold admits.
  destruct (nodes w !! h) as [e|], (nodes w' !! h) as [e'|]; try done. destruct Hn as [Hf Hab].
  rewrite (eval_same w w' e e' p 0 0) by done. done.
Qed.

(** A notification cleans its node. *)
Lemma notify_cleans (D : gset Hash) (nowNs : Z) (h : Hash) (w : World) :
  views_except D w -> views_except (D ∖ {[h]}) (notifyAllPlatformsDirty C nowNs h w).
Proof.
  intros V id ptr p' Hid Hp Hs. unfold notifyAllPlatformsDirty in *. rewrite plats_on_registered in Hp.
  apply fmap_Some in Hp as (p & Hp & ->). simpl in Hid.
  assert (is_registered w ptr = true) as Hr by (apply is_registered_spec; eauto). rewrite Hr in *.
  set (p' := NotifyDirty _ _ _ _ _ _ _ _ _) in *.
  assert (exists v, p' = with_view v p) as [v Ev] by (unfold p', NotifyDirty; simpl; destruct (nodes w !! h); eauto).
  rewrite Ev, steady_with_view in Hs. destruct (V id ptr p Hid Hp Hs) as (S & HS & H).
  pose proof (NotifyDirty_spec (unicode C) (MakeSubLookup w) (GeoLookup C) (QualityLookup C) (intel w) nowNs h
    (fun k => nodes w !! k) p S HS) as HN. fold p' in HN.
  assert (admitted_at (unicode C) (MakeSubLookup w) (GeoLookup C) (QualityLookup C) (intel w) nowNs h (fun k => nodes w !! k) p
          = admits w p h) as Ea.
  { unfold admitted_at, admits. destruct (nodes w !! h) as [e|]; [|done]. by apply (eval_same w w e e p 0 nowNs). }
  rewrite Ea in HN. eexists. split; [exact HN|]. intros k Hk.
  change (admits (on_registered _ w) p' k) with (admits w p' k). rewrite Ev, admits_with_view.
  destruct (decide (k = h)) as [->|Hne]; [destruct (admits w p h); set_solver|].
  destruct (H k ltac:(set_solver)). destruct (admits w p h); set_solver.
Qed.

(** A rebuild cleans every node. *)
Lemma rebuild_in_step (nowNs : Z) (w : World) (p : Plat) : steady p -> in_step w ∅ (rebuild C nowNs w p).
Proof.
  intros Hs. unfold rebuild. set (q := instrumentQuality w p).
  assert (steady q) as Hq by (by destruct p).
  pose proof (FullRebuild_spec (unicode C) (MakeSubLookup w) (GeoLookup C) (QualityLookup C) (intel w) nowNs (map_to_list (nodes w)) q) as HF.
  eexists. split; [exact HF|]. intros h _. unfold FullRebuild. rewrite admits_with_view.
  assert (h ∈ chosen (unicode C) (MakeSubLookup w) (GeoLookup C) (QualityLookup C) (intel w) nowNs q (map_to_list (nodes w))
          <-> admits w q h = true) as ->; [|done].
  unfold chosen. rewrite elem_of_list_to_set, list_elem_of_fmap. unfold admits. split.
  - intros ([k e] & -> & H). apply list_elem_of_In, filter_In in H as [H1 H2]. apply list_elem_of_In, elem_of_map_to_list in H1.
    simpl. rewrite H1, <- H2. by apply eval_same.
  - intros H. destruct (nodes w !! h) as [e|] eqn:E; [|done]. exists (h, e). split; [done|].
    apply list_elem_of_In, filter_In. split; [by apply list_elem_of_In, elem_of_map_to_list|]. rewrite <- H. by apply eval_same.
Qed.

Lemma views_mono (D D' : gset Hash) (w : World) : views_except D w -> D ⊆ D' -> views_except D' w.
Proof. intros V HD. by apply (views_change D _ w). Qed.

(** The parts of the world the criteria read besides the nodes. *)
Definition same_rest (w w' : World) : Prop :=
  plats w' = plats w /\ platformByID w' = platformByID w /\ subs w' = subs w /\ manager w' = manager w /\ intel w' = intel w.

Lemma same_rest_about (w w' : World) (e : NodeEntry) : same_rest w w' -> same_about w w' e.
Proof.
  intros (_ & _ & Es & Em & Ei). split; [|by rewrite Ei]. intros subID. unfold MakeSubLookup, SubLookup. by rewrite Es, Em.
Qed.

(** One node changed and its platforms are told. *)
Lemma views_touch (D : gset Hash) (nowNs : Z) (h : Hash) (w w' : World) :
  views_except D w -> same_rest w w' -> (forall k, k <> h -> nodes w' !! k = nodes w !! k) ->
  views_except (D ∖ {[h]}) (notifyAllPlatformsDirty C nowNs h w').
Proof.
  intros V Hr Hn. apply (views_mono ((D ∪ {[h]}) ∖ {[h]})); [|set_solver]. apply notify_cleans.
  apply (views_local D _ w); [done|set_solver|by apply Hr..|]. intros k Hk. rewrite Hn by set_solver.
  destruct (nodes w !! k); [|done]. auto using same_rest_about.
Qed.

(** One node changed in nothing a criterion reads. *)
Lemma views_quiet (D : gset Hash) (h : Hash) (e e' : NodeEntry) (w : World) :
  views_except D w -> nodes w !! h = Some e -> same_facts e e' -> views_except D (with_nodes <[h := e']> w).
Proof.
  intros V He Hf. apply (views_local D _ w); [done..|]. intros k Hk. simpl.
  destruct (decide (k = h)) as [->|Hne].
  - rewrite lookup_insert_eq, He. split; [done|]. by apply same_rest_about.
  - rewrite lookup_insert_ne by done. destruct (nodes w !! k); [|done]. split; [done|]. by apply same_rest_about.
Qed.

(** ** The shape of the pool *)

Definition entry_ok (e : NodeEntry) : Prop :=
  NoDup (Node.subscriptionIDs e) /\
  forall t, Node.LatencyTable e = Some t -> exists max, (0 < max)%nat /\ table_ok max t.

Record pool_ok (w : World) : Prop := {
  po_keyed : forall h e, nodes w !! h = Some e -> Node.Hash e = h;
  po_entries : forall h e, nodes w !! h = Some e -> entry_ok e;
  po_index : forall a h, h ∈ (default ∅ (egressIndex w !! a) : gset Hash) <->
    exists e, nodes w !! h = Some e /\ IsValid (GetEgressIP e) = true /\ Unmap (GetEgressIP e) = a;
  po_buckets : forall a, egressIndex w !! a <> Some ∅;
  po_ids : forall id ptr, platformByID w !! id = Some ptr -> exists p, plats w !! ptr = Some p /\ Plat.ID p = id;
  po_names : forall n ptr, platformByName w !! n = Some ptr ->
    n <> ""%string /\ exists p, plats w !! ptr = Some p /\ Plat.Name p = n /\ platformByID w !! Plat.ID p = Some ptr;
  po_snapshots : forall id ptr p, platformByID w !! id = Some ptr -> plats w !! ptr = Some p ->
    Plat.qualitySnapshot p = qualityInjected w;
  po_subs : forall id ptr, manager w !! id = Some ptr -> exists s, subs w !! ptr = Some s /\ Sub.ID s = id
}.

(** Telling the platforms keeps the shape: only views change. *)
Lemma on_registered_ok (f : Plat -> Plat) (w : World) :
  (forall p, Plat.ID (f p) = Plat.ID p /\ Plat.Name (f p) = Plat.Name p /\ Plat.qualitySnapshot (f p) = Plat.qualitySnapshot p) ->
  pool_ok w -> pool_ok (on_registered f w).
Proof.
  intros Hf [H1 H2 H3 H4 H5 H6 H7 H8]. split; [done..| | | |done]; setoid_rewrite plats_on_registered; simpl.
  - intros id ptr Hi. destruct (H5 id ptr Hi) as (p & Hp & E). rewrite Hp. simpl. eexists. split; [done|].
    destruct (is_registered w ptr); [|done]. by rewrite (proj1 (Hf p)).
  - intros n ptr Hn. destruct (H6 n ptr Hn) as (Hne & p & Hp & En & Ei). split; [done|]. rewrite Hp. simpl. eexists. split; [done|].
    destruct (is_registered w ptr); [|done]. destruct (Hf p) as (-> & -> & _). done.
  - intros id ptr p' Hi Hp. apply fmap_Some in Hp as (p & Hp & ->). destruct (is_registered w ptr); [|by eapply H7].
    destruct (Hf p) as (_ & _ & ->). by eapply H7.
Qed.

Lemma NotifyDirty_keeps (lookup : SubLookupFunc) (nowNs : Z) (i : Snapshot) (h : Hash) (g : Hash -> option NodeEntry) (p : Plat) :
  let p' := NotifyDirty (unicode C) lookup (GeoLookup C) (QualityLookup C) i nowNs h g p in
  Plat.ID p' = Plat.ID p /\ Plat.Name p' = Plat.Name p /\ Plat.qualitySnapshot p' = Plat.qualitySnapshot p.
Proof. unfold NotifyDirty. destruct p. by destruct (g h). Qed.

Lemma notify_ok (nowNs : Z) (h : Hash) (w : World) : pool_ok w -> pool_ok (notifyAllPlatformsDirty C nowNs h w).
Proof. apply on_registered_ok. intros p. apply NotifyDirty_keeps. Qed.

(** ** The index *)

Lemma drop_bucket_spec (h k : Hash) (b : gset Hash) :
  k ∈ (default ∅ (drop_bucket h b) : gset Hash) <-> k ∈ b /\ k <> h.
Proof. unfold drop_bucket. destruct (decide (b ∖ {[h]} = ∅)) as [E|]; simpl; set_solver. Qed.

Lemma drop_bucket_full (h : Hash) (b : gset Hash) : drop_bucket h b <> Some ∅.
Proof. unfold drop_bucket. destruct (decide (b ∖ {[h]} = ∅)); congruence. Qed.

Lemma removeEgressIndex_spec (h k : Hash) (a : Addr) (m : gmap Addr (gset Hash)) :
  k ∈ (default ∅ (removeEgressIndex h m !! a) : gset Hash) <-> k ∈ (default ∅ (m !! a) : gset Hash) /\ k <> h.
Proof. unfold removeEgressIndex. rewrite lookup_omap. destruct (m !! a) as [b|]; simpl; [apply drop_bucket_spec|set_solver]. Qed.

Lemma indexEgressIP_spec (h k : Hash) (old new a : Addr) (m : gmap Addr (gset Hash)) :
  (forall a', h ∈ (default ∅ (m !! a') : gset Hash) -> IsValid old = true /\ Unmap old = a') ->
  k ∈ (default ∅ (indexEgressIP h old new m !! a) : gset Hash) <->
  k ∈ (default ∅ (m !! a) : gset Hash) /\ k <> h \/ k = h /\ IsValid new = true /\ Unmap new = a.
Proof.
  intros Hh. unfold indexEgressIP.
  set (m1 := if IsValid old then _ else m).
  assert (forall a' k', k' ∈ (default ∅ (m1 !! a') : gset Hash) <-> k' ∈ (default ∅ (m !! a') : gset Hash) /\ k' <> h) as H1.
  { intros a' k'. unfold m1. destruct (IsValid old) eqn:V.
    - destruct (decide (a' = Unmap old)) as [->|Hne].
      + rewrite lookup_partial_alter_eq. destruct (m !! Unmap old); simpl; [apply drop_bucket_spec|set_solver].
      + rewrite lookup_partial_alter_ne by done. split; [|tauto]. intros Hk. split; [done|]. intros ->.
        apply Hh in Hk as [_ E]. congruence.
    - split; [|tauto]. intros Hk. split; [done|]. intros ->. apply Hh in Hk as [? _]. done. }
  destruct (IsValid new) eqn:V; [|rewrite H1; naive_solver].
  destruct (decide (a = Unmap new)) as [->|Hne].
  - rewrite lookup_insert_eq. simpl. rewrite elem_of_union, elem_of_singleton, H1. naive_solver.
  - rewrite lookup_insert_ne, H1 by done. naive_solver.
Qed.

Lemma indexEgressIP_full (h : Hash) (old new a : Addr) (m : gmap Addr (gset Hash)) :
  (forall a', m !! a' <> Some ∅) -> indexEgressIP h old new m !! a <> Some ∅.
Proof.
  intros Hm. unfold indexEgressIP. set (m1 := if IsValid old then _ else m).
  assert (forall a', m1 !! a' <> Some ∅) as H1.
  { intros a'. unfold m1. destruct (IsValid old); [|done]. destruct (decide (a' = Unmap old)) as [->|].
    - rewrite lookup_partial_alter_eq. destruct (m !! Unmap old); simpl; [apply drop_bucket_full|done].
    - by rewrite lookup_partial_alter_ne. }
  destruct (IsValid new); [|done]. destruct (decide (a = Unmap new)) as [->|].
  - rewrite lookup_insert_eq. intros [= E]. set_solver.
  - by rewrite lookup_insert_ne.
Qed.

(** A node stored anew, at the address the index knows. *)
Lemma put_ok (h : Hash) (e : NodeEntry) (w : World) : pool_ok w -> Node.Hash e = h ->
  entry_ok e ->
  GetEgressIP e = default AddrInvalid (GetEgressIP <$> nodes w !! h) ->
  pool_ok (with_nodes <[h := e]> w).
Proof.
  intros [H1 H2 H3 H4 H5 H6 H7 H8] Eh Ht Eip. split; try done; simpl.
  - intros k e'. rewrite lookup_insert_Some. intros [[<- <-]|[_ ?]]; auto.
  - intros k e'. rewrite lookup_insert_Some. intros [[<- <-]|[_ ?]]; eauto.
  - intros a k. rewrite H3. destruct (decide (k = h)) as [->|Hne]; [|by rewrite lookup_insert_ne].
    rewrite lookup_insert_eq. destruct (nodes w !! h) as [e0|]; simpl in Eip; split.
    + intros (e' & [= <-] & ? & ?). exists e. by rewrite Eip.
    + intros (e' & [= <-] & ? & ?). exists e0. by rewrite <- Eip.
    + by intros (? & ? & _).
    + intros (e' & [= <-] & Hv & _). by rewrite Eip in Hv.
Qed.

(** A node moved to another address, with its bucket. *)
Lemma move_ok (h : Hash) (e e' : NodeEntry) (w : World) : pool_ok w -> nodes w !! h = Some e -> Node.Hash e' = h ->
  Node.LatencyTable e' = Node.LatencyTable e -> Node.subscriptionIDs e' = Node.subscriptionIDs e ->
  pool_ok (with_index (indexEgressIP h (GetEgressIP e) (GetEgressIP e')) (with_nodes <[h := e']> w)).
Proof.
  intros [H1 H2 H3 H4 H5 H6 H7 H8] He Eh Et Es. split; try done; simpl.
  - intros k e0. rewrite lookup_insert_Some. intros [[<- <-]|[_ ?]]; auto.
  - intros k e0. rewrite lookup_insert_Some. intros [[<- <-]|[_ ?]]; [unfold entry_ok; rewrite Et, Es|]; eauto.
    exact (H2 h e He).
  - intros a k. rewrite indexEgressIP_spec, H3.
    2: { intros a' Ha. apply H3 in Ha as (e0 & E & ?). rewrite He in E. by injection E as <-. }
    destruct (decide (k = h)) as [->|Hne]; [rewrite lookup_insert_eq|rewrite lookup_insert_ne by done]; naive_solver.
  - intros a. by apply indexEgressIP_full.
Qed.

Lemma delete_ok (h : Hash) (w : World) : pool_ok w -> pool_ok (with_index (removeEgressIndex h) (with_nodes (delete h) w)).
Proof.
  intros [H1 H2 H3 H4 H5 H6 H7 H8]. split; try done; simpl.
  - intros k e. rewrite lookup_delete_Some. naive_solver.
  - intros k e. rewrite lookup_delete_Some. naive_solver.
  - intros a k. rewrite removeEgressIndex_spec, H3. setoid_rewrite lookup_delete_Some. naive_solver.
  - intros a. unfold removeEgressIndex. rewrite lookup_omap. destruct (egressIndex w !! a); simpl; [apply drop_bucket_full|done].
Qed.

(** ** Every operation keeps the pool and its views *)

Definition inv (D : gset Hash) (w : World) : Prop := pool_ok w /\ views_except D w.

Lemma inv_mono (D D' : gset Hash) (w : World) : inv D w -> D ⊆ D' -> inv D' w.
Proof. intros [H1 H2] HD. split; [done|]. by eapply views_mono. Qed.

(** A node stored anew at its old address, and the platforms told. *)
Lemma inv_put (D : gset Hash) (nowNs : Z) (h : Hash) (e : NodeEntry) (w : World) : inv D w -> Node.Hash e = h ->
  entry_ok e ->
  GetEgressIP e = default AddrInvalid (GetEgressIP <$> nodes w !! h) ->
  inv (D ∖ {[h]}) (notifyAllPlatformsDirty C nowNs h (with_nodes <[h := e]> w)).
Proof.
  intros [Hok Hv] Eh Ht Ei. split; [by apply notify_ok, put_ok|]. apply (views_touch D nowNs h w); [done..|].
  intros k Hk. simpl. by rewrite lookup_insert_ne.
Qed.

Lemma inv_quiet (D : gset Hash) (h : Hash) (e e' : NodeEntry) (w : World) : inv D w -> nodes w !! h = Some e ->
  same_facts e e' -> entry_ok e' ->
  inv D (with_nodes <[h := e']> w).
Proof.
  intros [Hok Hv] He Hf Ht. split; [|by apply (views_quiet D h e)]. apply put_ok; [done| |done|].
  - rewrite (sf_hash _ _ Hf). by apply Hok.
  - rewrite He. apply Hf.
Qed.

Lemma AddSubscriptionID_keeps (subID : string) (e : NodeEntry) :
  let e' := AddSubscriptionID subID e in
  Node.Hash e' = Node.Hash e /\ GetEgressIP e' = GetEgressIP e /\ (entry_ok e -> entry_ok e').
Proof.
  cbv zeta. unfold AddSubscriptionID. destruct (existsb (String.eqb subID) (Node.subscriptionIDs e)) eqn:E; [done|].
  split_and!; [by destruct e..|]. intros [H1 H2]. split; [|by destruct e].
  assert (Node.subscriptionIDs (with_sub_ids (Node.subscriptionIDs e ++ [subID]) e) = Node.subscriptionIDs e ++ [subID]) as -> by (by destruct e).
  apply NoDup_app. split_and!; [done| |apply NoDup_singleton]. intros x Hx Hs. apply list_elem_of_singleton in Hs as ->.
  rewrite existsb_nowhere in E. apply list_elem_of_In, E in Hx. by rewrite String.eqb_refl in Hx.
Qed.

Lemma remove_first_NoDup (subID : string) (l : list string) : NoDup l -> NoDup (remove_first subID l) /\ (subID ∉ remove_first subID l) /\
  forall x, x ∈ remove_first subID l -> x ∈ l.
Proof.
  induction l as [|x l IH]; intros Hn; simpl; [set_solver|]. apply list.NoDup_cons in Hn as [Hx Hn]. destruct (x ==s subID) eqn:E.
  - apply String.eqb_eq in E. subst. set_solver.
  - apply String.eqb_neq in E. destruct (IH Hn) as (H1 & H2 & H3). split_and!; [|set_solver..].
    apply list.NoDup_cons. split; [|done]. intros Hin. by apply Hx, H3.
Qed.

Lemma with_built_keeps (build : string -> BuildResult) (e : NodeEntry) :
  let e' := with_built build e in
  Node.Hash e' = Node.Hash e /\ GetEgressIP e' = GetEgressIP e /\ (entry_ok e -> entry_ok e').
Proof. cbv zeta. unfold with_built. destruct e. cbn [HasOutbound Node.Outbound Node.RawOptions]. destruct Outbound; [done|]. by destruct (build _). Qed.

Lemma AddNodeFromSub_inv (D : gset Hash) (nowNs : Z) (build : string -> BuildResult) (h : Hash) (raw subID : string) (w : World) :
  inv D w -> inv (D ∖ {[h]}) (AddNodeFromSub C nowNs build h raw subID w).
Proof.
  intros I. unfold AddNodeFromSub. destruct (nodes w !! h) as [e|] eqn:E.
  - destruct (AddSubscriptionID_keeps subID e) as (K1 & K2 & K3). apply inv_put; [done| | |].
    + rewrite K1. by apply (proj1 I).
    + apply K3. by eapply (proj1 I).
    + by rewrite E, K2.
  - set (e := with_health 0 nowNs _). unfold EnsureNodeOutbound. simpl. rewrite lookup_insert_eq.
    set (e' := with_built build _).
    assert (with_nodes <[h := e']> (with_nodes <[h := AddSubscriptionID subID e]> w) = with_nodes <[h := e']> w) as ->.
    { unfold with_nodes. simpl. by rewrite insert_insert_eq. }
    destruct (with_built_keeps build (AddSubscriptionID subID e)) as (B1 & B2 & B3). fold e' in B1, B2, B3.
    destruct (AddSubscriptionID_keeps subID e) as (K1 & K2 & K3).
    assert (Node.Hash e = h /\ GetEgressIP e = AddrInvalid /\ Node.subscriptionIDs e = [] /\
      Node.LatencyTable e = if 0 <? MaxLatencyTableEntries C then Some (NewLatencyTable (Z.to_nat (MaxLatencyTableEntries C))) else None) as (N1 & N2 & N3 & N4).
    { unfold e, NewNodeEntry. by repeat case_match. }
    apply inv_put; [done|congruence| |rewrite E; simpl; congruence]. apply B3, K3.
    split; [rewrite N3; apply NoDup_nil_2|]. intros t. rewrite N4.
    destruct (0 <? MaxLatencyTableEntries C) eqn:Z0; [|done]. intros [= <-]. apply Z.ltb_lt in Z0.
    exists (Z.to_nat (MaxLatencyTableEntries C)). split; [lia|]. apply new_table_ok.
Qed.

Lemma RemoveNodeFromSub_inv (D : gset Hash) (nowNs : Z) (h : Hash) (subID : string) (w : World) :
  inv D w -> inv (D ∖ {[h]}) (RemoveNodeFromSub C nowNs h subID w).
Proof.
  intros I. unfold RemoveNodeFromSub. destruct (nodes w !! h) as [e|] eqn:E; [simpl; case_match eqn:Es|].
  - destruct I as [Hok Hv]. split; [by apply notify_ok, delete_ok|]. apply (views_touch D nowNs h w); [done..|].
    intros k Hk. simpl. by rewrite lookup_delete_ne.
  - assert (Node.Hash e = h) as Eh by (by apply (proj1 I)).
    destruct (po_entries _ (proj1 I) h e E) as [N1 N2].
    apply inv_put; [done|by destruct e| |rewrite E; by destruct e].
    destruct (remove_first_NoDup subID _ N1) as (R1 & _). by destruct e.
  - destruct I as [Hok Hv]. split; [by apply notify_ok|]. by apply (views_touch D nowNs h w).
Qed.

Lemma recovered_keeps (e : NodeEntry) :
  Node.Hash (recovered e) = Node.Hash e /\ (entry_ok e -> entry_ok (recovered e)) /\
  GetEgressIP (recovered e) = GetEgressIP e /\ (Node.CircuitOpenSince (recovered e) = Node.CircuitOpenSince e -> same_facts e (recovered e)).
Proof.
  unfold recovered. destruct e. cbn [with_health]. destruct (_ ==s _); split_and!; try done; intros H; simpl in H; subst; by split.
Qed.

Lemma failed_keeps (m : Z) (class detail : string) (nowNs : Z) (e : NodeEntry) :
  let e' := failed m class detail nowNs e in
  Node.Hash e' = Node.Hash e /\ (entry_ok e -> entry_ok e') /\ GetEgressIP e' = GetEgressIP e /\
  (Node.CircuitOpenSince e' = Node.CircuitOpenSince e -> same_facts e e').
Proof.
  cbv zeta. unfold failed, SetProbeFailure. destruct e. cbn [with_health Node.FailureCount Node.CircuitOpenSince].
  match goal with |- context [if ?b then nowNs else ?z] => set (o := if b then nowNs else z) end.
  destruct (_ || _); cbn; (split_and!; [done..|]); intros ->; by split.
Qed.

Lemma RecordOutcome_inv (D : gset Hash) (nowNs m : Z) (h : Hash) (success : bool) (class detail : string) (w : World) :
  inv D w -> inv D (RecordOutcome C nowNs m h success class detail w).
Proof.
  intros I. unfold RecordOutcome. destruct (nodes w !! h) as [e|] eqn:E; [|done].
  set (e' := if success then recovered e else failed m class detail nowNs e).
  assert (Node.Hash e' = Node.Hash e /\ (entry_ok e -> entry_ok e') /\ GetEgressIP e' = GetEgressIP e /\
    (Node.CircuitOpenSince e' = Node.CircuitOpenSince e -> same_facts e e')) as (K1 & K2 & K3 & K4).
  { unfold e'. destruct success; [apply recovered_keeps|apply failed_keeps]. }
  assert (entry_ok e') as Ht by (by apply K2; eapply (proj1 I)).
  destruct (Node.CircuitOpenSince e' =? Node.CircuitOpenSince e) eqn:Ec; simpl.
  - apply Z.eqb_eq in Ec. apply (inv_quiet D h e); auto.
  - apply (inv_mono (D ∖ {[h]})); [|set_solver]. apply inv_put; [done| |done|by rewrite E].
    rewrite K1. by apply (proj1 I).
Qed.

Lemma RecordPassiveResult_inv (D : gset Hash) (nowNs m : Z) (id : string) (h : Hash) (success : bool) (w : World) :
  inv D w -> inv D (RecordPassiveResult C nowNs m id h success w).
Proof. intros I. unfold RecordPassiveResult. destruct (_ || _); [|done]. by apply RecordOutcome_inv. Qed.

(** A sample makes the first latency of a node known, or changes nothing a
    criterion reads. *)
Lemma UpdateClassified_known (domain : string) (l decay : Z) (auth : bool) (nowNs : Z) (max : nat) (t : LatencyTable) :
  (0 < max)%nat -> table_ok max t ->
  let '(wasEmpty, _, t') := UpdateClassified (latencyKey C) (latencyExp C) domain l decay auth nowNs t in
  table_ok max t' /\ known t' <> [] /\ (wasEmpty = false -> known t <> []).
Proof.
  intros Hm Ht. pose proof (update_contract_holds (latencyKey C) (latencyExp C) max domain l decay auth nowNs t Hm Ht) as Hu.
  destruct (UpdateClassified _ _ _ _ _ _ _ _) as [[wasEmpty ev] t']. destruct Hu as (W & Hl & He & _).
  split_and!; [done| |].
  - intros Hn. unfold look in Hl. by rewrite Hn in Hl.
  - intros -> Hn. by apply He in Hn.
Qed.

Lemma RecordLatency_inv (D : gset Hash) (nowNs decay : Z) (auths : option (list string)) (h : Hash) (target : string)
    (latency : option Z) (w : World) :
  inv D w -> inv D (RecordLatency C nowNs decay auths h target latency w).
Proof.
  intros I. unfold RecordLatency. destruct (nodes w !! h) as [e|] eqn:E; [|done].
  set (auth := isAuthorityDomain _ _ _). set (e1 := with_attempts _ _ _ e).
  assert (same_facts e e1) as F1 by (by destruct e).
  assert (Node.LatencyTable e1 = Node.LatencyTable e) as T1 by (by destruct e).
  assert (entry_ok e1) as Ht1 by (pose proof (po_entries _ (proj1 I) h e E); by destruct e).
  assert (inv D (with_nodes <[h:=e1]> w)) as Iq by (by apply (inv_quiet D h e)).
  destruct latency as [l|]; [|done]. destruct (Node.LatencyTable e1) as [t|] eqn:Et; [|done].
  destruct (l <=? 0); [done|]. destruct (proj2 Ht1 t Et) as (max & Hm & Hok).
  pose proof (UpdateClassified_known (domainOf C target) l (if decay <=? 0 then defaultDecayWindow else decay) auth nowNs max t Hm Hok) as Hu.
  destruct (UpdateClassified _ _ _ _ _ _ _ _) as [[wasEmpty ev] t']. destruct Hu as (W & Hk & He).
  set (e2 := with_latency (Some t') e1).
  assert (Node.LatencyTable e2 = Some t') as T2 by (by destruct e1).
  assert (entry_ok e2) as Ht2.
  { split; [destruct Ht1; by destruct e|]. rewrite T2. intros t0 [= <-]. eauto. }
  assert (Node.Hash e2 = Node.Hash e) as Eh by (destruct e; done).
  assert (GetEgressIP e2 = GetEgressIP e) as Ei by (destruct e; done).
  destruct wasEmpty.
  - apply (inv_mono (D ∖ {[h]})); [|set_solver]. apply inv_put; [done| |done|by rewrite E]. rewrite Eh. by apply (proj1 I).
  - apply (inv_quiet D h e); [done..| |done].
    assert (HasLatency e = true) as L1 by (apply HasLatency_known; rewrite <- T1; eauto).
    assert (HasLatency e2 = true) as L2 by (apply HasLatency_known; eauto).
    clear - L1 L2. split; try (by destruct e). by rewrite L1, L2.
Qed.

(** Writing a region touches nothing else. *)
Lemma next_region_keeps (ip : option Addr) (loc : option string) (changed : bool) (e : NodeEntry) :
  exists region, next_region C ip loc changed e = with_region region e.
Proof.
  assert (exists region, e = with_region region e) as He by (exists (Node.egressRegion e); by destruct e).
  unfold next_region, SetEgressRegion. destruct loc, ip; eauto. destruct (_ && _); eauto.
Qed.

Lemma UpdateNodeEgressIP_inv (D : gset Hash) (nowNs : Z) (h : Hash) (ip : option Addr) (loc : option string) (w : World) :
  inv D w -> inv D (UpdateNodeEgressIP C nowNs h ip loc w).
Proof.
  intros I. unfold UpdateNodeEgressIP. destruct (nodes w !! h) as [e|] eqn:E; [|done].
  set (changed := match ip with Some ip => _ | None => false end).
  set (e2 := match ip with Some ip => _ | None => _ end).
  destruct (next_region_keeps ip loc changed e2) as [region Er]. rewrite Er. set (e3 := with_region region e2).
  assert (Node.Hash e = h) as Eh by (by apply (proj1 I)).
  assert (Node.Hash e3 = h /\ (Node.LatencyTable e3 = Node.LatencyTable e /\ Node.subscriptionIDs e3 = Node.subscriptionIDs e) /\
    GetEgressIP e3 = (match ip with Some ip => if changed then ip else GetEgressIP e | None => GetEgressIP e end)) as (K1 & [K2 K2'] & K3).
  { unfold e3, e2. subst h. destruct e, ip as [ip|]; [destruct changed|]; done. }
  assert (entry_ok e3) as Ht by (unfold entry_ok; rewrite K2, K2'; by eapply (proj1 I)).
  destruct changed eqn:Ec; simpl.
  - destruct ip as [ip|]; [|done]. apply (inv_mono (D ∖ {[h]})); [|set_solver]. destruct I as [Hok Hv].
    rewrite <- K3. split; [by apply notify_ok, move_ok|]. apply (views_touch D nowNs h w); [done..|].
    intros k Hk. simpl. by rewrite lookup_insert_ne.
  - assert (GetEgressIP e3 = GetEgressIP e) as Ei by (by destruct ip).
    assert (match ip with Some _ => with_nodes <[h:=e3]> w | None => with_nodes <[h:=e3]> w end = with_nodes <[h:=e3]> w) as -> by (by destruct ip).
    destruct (GetEgressRegion e ==s GetEgressRegion e3) eqn:R; simpl.
    + apply String.eqb_eq in R. apply (inv_quiet D h e); [done..| |done].
      clear - R Ei. unfold e3, e2 in *. split; try done; destruct e, ip; done.
    + apply (inv_mono (D ∖ {[h]})); [|set_solver]. apply inv_put; [done..|]. by rewrite E.
Qed.

(** ** Platforms come and go *)

(** A change of a platform object no id points at. *)
Lemma on_unregistered_inv (D : gset Hash) (ptr : nat) (f : Plat -> Plat) (w : World) :
  is_registered w ptr = false -> inv D w -> inv D (on_plat ptr f w).
Proof.
  intros Hr [Hok Hv].
  assert (forall id q, platformByID w !! id = Some q -> q <> ptr) as Hne.
  { intros id q Hi ->. apply not_true_iff_false in Hr. apply Hr, is_registered_spec. eauto. }
  split.
  - destruct Hok as [H1 H2 H3 H4 H5 H6 H7 H8]. split; try done; simpl.
    + intros id q Hi. rewrite lookup_alter_ne by (intros <-; exact (Hne _ _ Hi eq_refl)). by apply H5.
    + intros n q Hn. destruct (H6 n q Hn) as (? & p & Hp & En & Ei). split; [done|]. exists p.
      rewrite lookup_alter_ne by (intros <-; exact (Hne _ _ Ei eq_refl)). done.
    + intros id q p Hi. rewrite lookup_alter_ne by (intros <-; exact (Hne _ _ Hi eq_refl)). exact (H7 id q p Hi).
  - intros id q p Hi Hp Hs. simpl in Hp, Hi. rewrite lookup_alter_ne in Hp by (intros <-; exact (Hne _ _ Hi eq_refl)). by apply (Hv id q p).
Qed.

Lemma RebuildAllPlatforms_inv (nowNs : Z) (w : World) : pool_ok w -> inv ∅ (RebuildAllPlatforms C nowNs w).
Proof.
  intros Hok. unfold RebuildAllPlatforms. split.
  - destruct Hok as [H1 H2 H3 H4 H5 H6 H7 H8]. split; try done; setoid_rewrite plats_on_registered; simpl.
    + intros id ptr Hi. destruct (H5 id ptr Hi) as (p & -> & E). simpl. eexists. split; [done|].
      by destruct (is_registered w ptr), p.
    + intros n ptr Hn. destruct (H6 n ptr Hn) as (? & p & -> & En & Ei). split; [done|]. simpl. eexists. split; [done|].
      by destruct (is_registered w ptr), p.
    + intros id ptr p' Hi Hp. apply fmap_Some in Hp as (p & Hp & ->).
      replace (is_registered w ptr) with true by (symmetry; apply is_registered_spec; eauto). by destruct p.
  - intros id ptr p' Hi Hp Hs. rewrite plats_on_registered in Hp. apply fmap_Some in Hp as (p & Hp & ->). simpl in Hi.
    replace (is_registered w ptr) with true in * by (symmetry; apply is_registered_spec; eauto).
    change (in_step w ∅ (rebuild C nowNs w p)). apply rebuild_in_step. by destruct p.
Qed.

Lemma SetPoolSnapshot_inv (nowNs : Z) (w : World) : pool_ok w -> inv ∅ (SetPoolSnapshot C nowNs true w).
Proof.
  intros [H1 H2 H3 H4 H5 H6 H7 H8]. unfold SetPoolSnapshot. apply RebuildAllPlatforms_inv.
  split; try done; setoid_rewrite plats_on_registered; simpl.
  - intros id ptr Hi. destruct (H5 id ptr Hi) as (p & -> & E). simpl. eexists. split; [done|]. by case_match; destruct p.
  - intros n ptr Hn. destruct (H6 n ptr Hn) as (? & p & -> & En & Ei). split; [done|]. simpl. eexists. split; [done|].
    by case_match; destruct p.
  - intros id ptr p' Hi Hp. apply fmap_Some in Hp as (p & Hp & ->).
    replace (is_registered (with_injected true w) ptr) with true by (symmetry; apply is_registered_spec; eauto). by destruct p.
Qed.

Lemma startIntel_inv (D : gset Hash) (nowNs : Z) (rows : option (list Assessment)) (checkRows : option (list NodeCheck)) (w : World) :
  inv D w -> inv D (startIntel C nowNs rows checkRows w).
Proof.
  intros I. unfold startIntel. destruct (LoadFrom rows checkRows (intel w)) as [[] i]; [|done].
  apply (inv_mono ∅); [|set_solver]. apply RebuildAllPlatforms_inv. by destruct (proj1 I).
Qed.

Lemma alloc_inv (D : gset Hash) (p : Plat) (w : World) : inv D w ->
  let '(ptr, w') := alloc_plat p w in
  inv D w' /\ is_registered w' ptr = false /\ plats w' !! ptr = Some p /\ platformByName w' = platformByName w /\
  platformByID w' = platformByID w.
Proof.
  intros [[H1 H2 H3 H4 H5 H6 H7 H8] Hv]. unfold alloc_plat. set (ptr := fresh (dom (plats w))).
  assert (plats w !! ptr = None) as Hf by (apply not_elem_of_dom; apply is_fresh).
  assert (forall id q, platformByID w !! id = Some q -> ptr <> q) as Hne.
  { intros id q Hi <-. destruct (H5 id ptr Hi) as (x & Hx & _). congruence. }
  split_and!; [split| |simpl; apply lookup_insert_eq|done..].
  - split; try done; simpl.
    + intros id q Hi. rewrite lookup_insert_ne by (by apply (Hne id)). exact (H5 id q Hi).
    + intros n q Hn. destruct (H6 n q Hn) as (? & x & Hx & En & Ei). split; [done|]. exists x.
      by rewrite lookup_insert_ne by (by apply (Hne (Plat.ID x))).
    + intros id q x Hi. rewrite lookup_insert_ne by (by apply (Hne id)). exact (H7 id q x Hi).
  - intros id q x Hi Hx Hs. simpl in *. rewrite lookup_insert_ne in Hx by (by apply (Hne id)). exact (Hv id q x Hi Hx Hs).
  - apply not_true_iff_false. rewrite is_registered_spec. simpl. intros (id & Hi). by apply (Hne id ptr).
Qed.

(** A platform object that no id points at yet, in step with the world, may be
    registered. *)
Lemma RegisterPlatform_inv (D : gset Hash) (ptr : nat) (p : Plat) (w : World) :
  inv D w -> is_registered w ptr = false -> plats w !! ptr = Some p ->
  (steady p -> in_step w D (instrumentQuality w p)) -> inv D (RegisterPlatform ptr w).
Proof.
  intros I Hr Hp Hstep. unfold RegisterPlatform.
  pose proof (on_unregistered_inv D ptr (instrumentQuality w) w Hr I) as I1. set (w1 := on_plat ptr (instrumentQuality w) w) in *.
  assert (plats w1 !! ptr = Some (instrumentQuality w p)) as Hp1 by (simpl; by rewrite lookup_alter_eq, Hp).
  rewrite Hp1. destruct (platformByID w1 !! Plat.ID (instrumentQuality w p)) as [q|] eqn:Ei; [done|].
  set (p1 := instrumentQuality w p) in *. destruct I1 as [[H1 H2 H3 H4 H5 H6 H7 H8] Hv]. split.
  - split; try done; cbn [with_names platformByID platformByName plats qualityInjected].
    + intros id q. rewrite lookup_insert_Some. intros [[<- <-]|[_ Hi]]; [eauto|exact (H5 id q Hi)].
    + intros n q Hn.
      assert (platformByName w1 !! n = Some q \/ n = Plat.Name p1 /\ q = ptr /\ n <> ""%string) as [Ho|(-> & -> & Hne)].
      { destruct (Plat.Name p1 <>s "") eqn:En; [|by left]. apply negb_true_iff, String.eqb_neq in En.
        apply lookup_insert_Some in Hn as [[<- <-]|[_ ?]]; auto. }
      * destruct (H6 n q Ho) as (? & x & Hx & En & Ex). split; [done|]. exists x. split_and!; [done..|].
        rewrite lookup_insert_ne; [done|]. intros E. rewrite <- E in Ex. congruence.
      * split; [done|]. exists p1. split_and!; [done..|]. apply lookup_insert_eq.
    + intros id q x. rewrite lookup_insert_Some. intros [[<- <-]|[_ Hi]] Hx; [|exact (H7 id q x Hi Hx)].
      rewrite Hp1 in Hx. injection Hx as <-. by destruct p.
  - intros id q x Hi Hx Hs. cbn [with_names platformByID plats] in Hi, Hx. apply lookup_insert_Some in Hi as [[<- <-]|[_ Hi]].
    + rewrite Hp1 in Hx. injection Hx as <-. apply Hstep. by destruct p.
    + exact (Hv id q x Hi Hx Hs).
Qed.

Lemma instrument_rebuild (nowNs : Z) (w : World) (p : Plat) : instrumentQuality w (rebuild C nowNs w p) = rebuild C nowNs w p.
Proof. by destruct p. Qed.

Lemma PublishPlatform_inv (D : gset Hash) (nowNs : Z) (p : Plat) (w : World) : inv D w -> inv D (PublishPlatform C nowNs p w).
Proof.
  intros I. pose proof (alloc_inv D p w I) as Ha. unfold PublishPlatform. destruct (alloc_plat p w) as [ptr w1].
  destruct Ha as (I1 & Hr & Hp & _). pose proof (on_unregistered_inv D ptr (rebuild C nowNs w1) w1 Hr I1) as I2.
  apply (RegisterPlatform_inv D ptr (rebuild C nowNs w1 p)); [done..| |].
  - unfold RebuildPlatform, on_plat. simpl. by rewrite lookup_alter_eq, Hp.
  - intros Hs. change (in_step w1 D (instrumentQuality w1 (rebuild C nowNs w1 p))). rewrite instrument_rebuild.
    destruct (rebuild_in_step nowNs w1 p) as (S & HS & H); [by destruct p|]. exists S. split; [done|]. intros h _. apply H. set_solver.
Qed.

(** Releasing the name of a registered platform leaves the names of the others. *)
Lemma release_name_lookup (w : World) (p : Plat) (ptr : nat) (n : string) (q : nat) : pool_ok w ->
  plats w !! ptr = Some p -> release_name p ptr (platformByName w) !! n = Some q ->
  platformByName w !! n = Some q /\ q <> ptr.
Proof.
  intros Hok Hp. unfold release_name. intros Hn.
  assert (platformByName w !! n = Some q) as Ho by (destruct (_ && _); [apply lookup_delete_Some in Hn; naive_solver|done]).
  split; [done|]. intros ->. destruct (po_names _ Hok n ptr Ho) as (Hne & x & Hx & <- & _). rewrite Hp in Hx. injection Hx as <-.
  apply String.eqb_neq in Hne. rewrite Hne, bool_decide_eq_true_2 in Hn by done. simpl in Hn.
  by rewrite lookup_delete_eq in Hn.
Qed.

Lemma UnregisterPlatform_inv (D : gset Hash) (id : string) (w : World) : inv D w -> inv D (UnregisterPlatform id w).
Proof.
  intros [Hok Hv]. unfold UnregisterPlatform. destruct (platformByID w !! id) as [ptr|] eqn:E; [|done].
  destruct (po_ids _ Hok id ptr E) as (p & Hp & <-). rewrite Hp. pose proof Hok as [H1 H2 H3 H4 H5 H6 H7 H8]. split.
  - split; try done; cbn [with_names platformByID platformByName plats qualityInjected].
    + intros i q. rewrite lookup_delete_Some. intros [_ Hi]. exact (H5 i q Hi).
    + intros n q Hn. apply (release_name_lookup w) in Hn as [Ho Hq]; [|done..].
      destruct (H6 n q Ho) as (? & x & Hx & En & Ex). split; [done|]. exists x. split_and!; [done..|].
      apply lookup_delete_Some. split; [|done]. intros Ei. rewrite <- Ei in Ex. congruence.
    + intros i q x. rewrite lookup_delete_Some. intros [_ Hi]. exact (H7 i q x Hi).
  - intros i q x Hi Hx Hs. cbn [with_names platformByID plats] in Hi, Hx. apply lookup_delete_Some in Hi as [_ Hi]. exact (Hv i q x Hi Hx Hs).
Qed.

(** Taking the place of a registered platform. *)
Lemma replace_names_inv (D : gset Hash) (ptr current : nat) (next c : Plat) (w : World) :
  inv D w -> plats w !! ptr = Some next -> platformByID w !! Plat.ID next = Some current -> plats w !! current = Some c ->
  is_registered w ptr = false -> Plat.qualitySnapshot next = qualityInjected w -> (steady next -> in_step w D next) ->
  let names := release_name c current (platformByName w) in
  inv D (with_names (<[Plat.ID next := ptr]> (platformByID w))
           (if Plat.Name next <>s "" then <[Plat.Name next := ptr]> names else names) w).
Proof.
  intros [Hok Hv] Hp Hi Hc Hr Hq Hstep names. pose proof Hok as [H1 H2 H3 H4 H5 H6 H7 H8]. split.
  - split; try done; cbn [with_names platformByID platformByName plats qualityInjected].
    + intros i q. rewrite lookup_insert_Some. intros [[<- <-]|[_ Hi']]; [eauto|exact (H5 i q Hi')].
    + intros n q Hn.
      assert (names !! n = Some q \/ n = Plat.Name next /\ q = ptr /\ n <> ""%string) as [Ho|(-> & -> & Hne)].
      { destruct (Plat.Name next <>s "") eqn:En; [|by left]. apply negb_true_iff, String.eqb_neq in En.
        apply lookup_insert_Some in Hn as [[<- <-]|[_ ?]]; auto. }
      * apply (release_name_lookup w) in Ho as [Ho Hne]; [|done..].
        destruct (H6 n q Ho) as (? & x & Hx & En & Ex). split; [done|]. exists x. split_and!; [done..|].
        rewrite lookup_insert_ne; [done|]. intros E. rewrite <- E in Ex. congruence.
      * split; [done|]. exists next. split_and!; [done..|]. apply lookup_insert_eq.
    + intros i q x. rewrite lookup_insert_Some. intros [[<- <-]|[_ Hi']] Hx; [|exact (H7 i q x Hi' Hx)]. congruence.
  - intros i q x Hi' Hx Hs. cbn [with_names platformByID plats] in Hi', Hx. apply lookup_insert_Some in Hi' as [[<- <-]|[_ Hi']].
    + rewrite Hp in Hx. injection Hx as <-. by apply Hstep.
    + exact (Hv i q x Hi' Hx Hs).
Qed.

Lemma RepublishPlatform_inv (D : gset Hash) (nowNs : Z) (p : Plat) (w : World) :
  inv D w -> inv D (snd (RepublishPlatform C nowNs p w)).
Proof.
  intros I. pose proof (alloc_inv D p w I) as Ha. unfold RepublishPlatform. destruct (alloc_plat p w) as [ptr w1].
  destruct Ha as (I1 & Hr & Hp & _). unfold ReplacePlatform. rewrite Hp. destruct (Plat.ID p ==s ""); [done|].
  set (w2 := RebuildPlatform C nowNs ptr _).
  assert (inv D w2) as I2 by (by apply on_unregistered_inv, on_unregistered_inv).
  assert (plats w2 !! ptr = Some (rebuild C nowNs w1 p)) as Hp2.
  { unfold w2, RebuildPlatform, on_plat. simpl. rewrite !lookup_alter_eq, Hp. by destruct p. }
  destruct (platformByID w2 !! Plat.ID p) as [current|] eqn:Ei; [|done].
  destruct (_ && _); [done|]. simpl.
  destruct (po_ids _ (proj1 I2) _ _ Ei) as (c & Hc & _).
  assert (Plat.ID (rebuild C nowNs w1 p) = Plat.ID p /\ Plat.Name (rebuild C nowNs w1 p) = Plat.Name p) as [En1 En2] by (by destruct p).
  replace (match plats w2 !! current with Some c => release_name c current (platformByName w2) | None => platformByName w2 end)
    with (release_name c current (platformByName w2)) by (by rewrite Hc).
  rewrite <- En1, <- En2. apply (replace_names_inv D ptr current (rebuild C nowNs w1 p) c w2); try done.
  - by rewrite En1.
  - by destruct p.
  - intros Hs. change (in_step w1 D (rebuild C nowNs w1 p)).
    destruct (rebuild_in_step nowNs w1 p) as (S & HS & H); [by destruct p|]. exists S. split; [done|]. intros h _. apply H. set_solver.
Qed.

(** The operator asks for a rebuild of one platform. *)
Lemma RebuildPlatform_inv (D : gset Hash) (nowNs : Z) (id : string) (ptr : nat) (w : World) :
  inv D w -> platformByID w !! id = Some ptr -> inv D (RebuildPlatform C nowNs ptr w).
Proof.
  intros [Hok Hv] Hi. destruct (po_ids _ Hok id ptr Hi) as (p & Hp & Eid).
  assert (forall q, alter (rebuild C nowNs w) ptr (plats w) !! q = if decide (q = ptr) then Some (rebuild C nowNs w p) else plats w !! q) as Hl.
  { intros q. destruct (decide (q = ptr)) as [->|]; [by rewrite lookup_alter_eq, Hp|by rewrite lookup_alter_ne]. }
  pose proof Hok as [H1 H2 H3 H4 H5 H6 H7 H8]. split.
  - split; try done; unfold RebuildPlatform, on_plat; cbn [with_plats platformByID platformByName plats qualityInjected]; setoid_rewrite Hl.
    + intros i q Hq. destruct (H5 i q Hq) as (x & Hx & <-). destruct (decide (q = ptr)) as [->|]; [|eauto].
      eexists. split; [done|]. rewrite Hp in Hx. injection Hx as <-. by destruct p.
    + intros n q Hq. destruct (H6 n q Hq) as (? & x & Hx & <- & Ex). split; [done|]. destruct (decide (q = ptr)) as [->|]; [|eauto].
      eexists. split; [done|]. rewrite Hp in Hx. injection Hx as <-. by destruct p.
    + intros i q x Hq. destruct (decide (q = ptr)) as [->|]; [|exact (H7 i q x Hq)]. intros [= <-]. by destruct p.
  - intros i q x Hq Hx Hs. unfold RebuildPlatform, on_plat in Hq, Hx. cbn [with_plats platformByID plats] in Hq, Hx.
    rewrite Hl in Hx. destruct (decide (q = ptr)) as [->|]; [|exact (Hv i q x Hq Hx Hs)]. injection Hx as <-.
    change (in_step w D (rebuild C nowNs w p)).
    destruct (rebuild_in_step nowNs w p) as (S & HS & H); [by destruct p|]. exists S. split; [done|]. intros h _. apply H. set_solver.
Qed.

(** ** Assessments *)

Lemma notify_many (D : gset Hash) (nowNs : Z) (l : list Hash) (w : World) : inv D w ->
  let w' := foldl (fun w h => notifyAllPlatformsDirty C nowNs h w) w l in
  inv (D ∖ list_to_set l) w' /\ egressIndex w' = egressIndex w.
Proof.
  cbv zeta. revert D w. induction l as [|h l IH]; intros D w I; simpl.
  - split; [|done]. apply (inv_mono D); [done|set_solver].
  - assert (inv (D ∖ {[h]}) (notifyAllPlatformsDirty C nowNs h w)) as I' by (destruct I; split; [by apply notify_ok|by apply notify_cleans]).
    destruct (IH _ _ I') as [I2 E2]. split; [|done]. apply (inv_mono _ _ _ I2). set_solver.
Qed.

Definition owners (w : World) (ips : list Addr) : gset Hash := list_to_set (concat (map (fun ip => EgressIPOwners ip w) ips)).

Lemma onAssessmentChanged_inv (D : gset Hash) (nowNs : Z) (ips : list Addr) (w : World) : inv D w ->
  inv (D ∖ owners w ips) (onAssessmentChanged C nowNs ips w).
Proof.
  unfold onAssessmentChanged. revert D w. induction ips as [|ip ips IH]; intros D w I.
  - apply (inv_mono D); [done|unfold owners; set_solver].
  - cbn [foldl]. unfold NotifyEgressIPDirty at 2. cbn [snd].
    destruct (notify_many D nowNs (EgressIPOwners ip w) w I) as [I1 E1]. cbv zeta in I1, E1.
    set (w1 := foldl _ w (EgressIPOwners ip w)) in *. apply (inv_mono _ _ _ (IH _ _ I1)).
    assert (owners w1 ips = owners w ips) as -> by (unfold owners, EgressIPOwners; by rewrite E1).
    unfold owners. cbn [map concat]. rewrite list_to_set_app_L. set_solver.
Qed.

Lemma Unmap_idem (a : Addr) : Unmap (Unmap a) = Unmap a.
Proof. destruct a as [|v|v z]; [done..|]. unfold Unmap. destruct (Z.shiftr v 32 =? 65535) eqn:E; [done|by rewrite E]. Qed.

Lemma Unmap_valid (a : Addr) : IsValid (Unmap a) = IsValid a.
Proof. destruct a as [|v|v z]; [done..|]. unfold Unmap. by destruct (Z.shiftr v 32 =? 65535). Qed.

(** An assessment is stored under the address it is about. *)
Definition about_its_address (assess : Addr -> option Assessment) : Prop :=
  forall ip row, assess ip = Some row -> ParseAddr (Assessment.IP row) = Some (Unmap ip).

(** What a batch changed: the projection, at its addresses only. *)
Definition assessed_only (ips : list Addr) (w w' : World) : Prop :=
  exists i, w' = with_intel (fun _ => i) w /\
    forall a, (forall ip, ip ∈ ips -> IsValid ip = true -> Unmap ip <> a) -> assessments i !! a = assessments (intel w) !! a.

Lemma AssessIP_only (assess : Addr -> option Assessment) (ip : Addr) (w : World) : about_its_address assess ->
  assessed_only [ip] w (snd (AssessIP assess ip w)) /\ (fst (AssessIP assess ip w) = false -> snd (AssessIP assess ip w) = w).
Proof.
  intros Ha. assert (assessed_only [ip] w w) as Hid by (exists (intel w); split; [by destruct w|done]).
  unfold AssessIP. destruct (IsValid ip) eqn:V; [|done]. destruct (assess ip) as [row|] eqn:E; [|done]. split; [|done].
  simpl. exists (SetAssessmentFromRow row (intel w)). split; [done|]. intros a Hne. unfold SetAssessmentFromRow.
  rewrite (Ha ip row E). unfold SetAssessment. rewrite Unmap_valid, V, Unmap_idem. simpl.
  apply lookup_insert_ne. apply Hne; [set_solver|done].
Qed.

Lemma assessed_only_trans (l1 l2 l : list Addr) (w w1 w2 : World) : assessed_only l1 w w1 -> assessed_only l2 w1 w2 ->
  (forall ip, ip ∈ l1 \/ ip ∈ l2 -> ip ∈ l) -> assessed_only l w w2.
Proof.
  intros (i1 & -> & H1) (i2 & -> & H2) Hl. exists i2. split; [done|]. intros a Ha. rewrite H2 by (intros; apply Ha; auto).
  apply H1. intros; apply Ha; auto.
Qed.

Lemma assess_each_only (assess : Addr -> option Assessment) (ips : list Addr) (w : World) : about_its_address assess ->
  assessed_only ips w (snd (assess_each assess ips w)) /\ (fst (assess_each assess ips w) = 0%nat -> snd (assess_each assess ips w) = w).
Proof.
  intros Ha. revert w. induction ips as [|ip ips IH]; intros w; cbn [assess_each].
  - split; [|done]. exists (intel w). split; [by destruct w|done].
  - destruct (IsValid ip) eqn:V; cbn [negb].
    + destruct (AssessIP_only assess ip w Ha) as [H1 H2]. destruct (AssessIP assess ip w) as [ok w1]. simpl in H1, H2.
      destruct (IH w1) as [H3 H4]. destruct (assess_each assess ips w1) as [n w2]. simpl in *. split.
      * eapply assessed_only_trans; [done..|]. set_solver.
      * destruct ok; [done|]. intros ->. by rewrite H4, H2.
    + destruct (IH w) as [H3 H4]. split; [|done]. eapply (assessed_only_trans [] ips); [|done|set_solver].
      exists (intel w). split; [by destruct w|done].
Qed.

(** Until the owners are told, they are the dirty ones. *)
Lemma assessed_dirty (D : gset Hash) (ips : list Addr) (w w' : World) : inv D w -> assessed_only ips w w' ->
  inv (D ∪ owners w ips) w' /\ egressIndex w' = egressIndex w.
Proof.
  intros [Hok Hv] (i & -> & Hi). split; [|done]. split; [by destruct Hok|].
  apply (views_local D _ w); [done|set_solver|done..|]. intros h Hh. simpl.
  destruct (nodes w !! h) as [e|] eqn:E; [|done]. split; [done|]. split; [done|]. intros _. unfold Assessment_at. simpl.
  destruct (IsValid (GetEgressIP e)) eqn:V; [|done]. apply Hi. intros ip Hip Vip Eip. apply Hh, elem_of_union_r.
  unfold owners. apply elem_of_list_to_set, list_elem_of_In, in_concat. exists (EgressIPOwners ip w).
  split; [apply in_map_iff; exists ip; split; [done|by apply list_elem_of_In]|].
  apply list_elem_of_In. unfold EgressIPOwners. rewrite Vip. apply elem_of_elements, (po_index _ Hok). rewrite Eip. eauto.
Qed.

Lemma AssessMany_inv (D : gset Hash) (nowNs : Z) (assess : Addr -> option Assessment) (ips : list Addr) (w : World) :
  about_its_address assess -> inv D w -> inv D (snd (AssessMany C nowNs assess ips w)).
Proof.
  intros Ha I. unfold AssessMany. destruct (assess_each_only assess ips w Ha) as [H1 H2].
  destruct (assess_each assess ips w) as [n w1]. simpl in *. destruct (0 <? n)%nat eqn:En.
  - destruct (assessed_dirty D ips w w1 I H1) as [I1 E1]. apply (inv_mono _ _ _ (onAssessmentChanged_inv _ nowNs ips w1 I1)).
    assert (owners w1 ips = owners w ips) as -> by (unfold owners, EgressIPOwners; by rewrite E1). set_solver.
  - apply Nat.ltb_ge in En. rewrite H2 by lia. done.
Qed.
End Views.
