(* ===== verification/SchedulerViews.v ===== *)
(** * Subscriptions and the views

    The steps of the scheduler, the cleaner and the subscription handlers keep
    the pool's shape and its views, and what an unannounced change costs. *)

From Stdlib Require Import Ascii String SpecFloat.
From stdpp Require Import base gmap list strings.
From S2P Require Import Prelude GoStrings Netip RoutableView Latency Intel Nodes Quality Selection Platforms Subs Pool Scheduler PoolViews.

Section Steps.
Context (C : PoolConfig) (announced exact : bool).

#[local] Abbreviation inv := (inv C announced exact).
#[local] Abbreviation views_except := (views_except C announced exact).

#[local] Hint Resolve same_facts_refl same_about_refl : core.

(** ** Assessments, continued *)

Lemma sweep_each_only (assess : Addr -> option Assessment) (rows : list Assessment) (w : World) : about_its_address assess ->
  assessed_only (fst (sweep_each assess rows w)) w (snd (sweep_each assess rows w)).
Proof.
  intros Ha. revert w. induction rows as [|row rows IH]; intros w; cbn [sweep_each].
  - exists (intel w). split; [by destruct w|done].
  - destruct (ParseAddr (Assessment.IP row)) as [ip|]; [|apply IH].
    destruct (AssessIP_only assess (Unmap ip) w Ha) as [H1 H2]. destruct (AssessIP assess (Unmap ip) w) as [ok w1]. simpl in H1, H2.
    specialize (IH w1). destruct (sweep_each assess rows w1) as [changed w2]. simpl in *. destruct ok.
    + eapply assessed_only_trans; [done..|]. set_solver.
    + rewrite H2 in IH by done. done.
Qed.

Lemma SweepExpired_inv (D : gset Hash) (nowNs : Z) (assess : Addr -> option Assessment) (rows : list Assessment) (w : World) :
  about_its_address assess -> inv D w -> inv D (snd (SweepExpired C nowNs assess rows w)).
Proof.
  intros Ha I. unfold SweepExpired. pose proof (sweep_each_only assess rows w Ha) as H1.
  destruct (sweep_each assess rows w) as [changed w1]. simpl in *.
  destruct (assessed_dirty C announced exact D changed w w1 I H1) as [I1 E1].
  apply (inv_mono _ _ _ _ _ _ (onAssessmentChanged_inv C announced exact _ nowNs changed w1 I1)).
  assert (owners w1 changed = owners w changed) as -> by (unfold owners, EgressIPOwners; by rewrite E1). set_solver.
Qed.

(** Evidence assessed in the background is told to nobody; platforms that do
    not read assessments do not mind. *)
Lemma onEvidenceWritten_inv (D : gset Hash) (assess : Addr -> option Assessment) (ips : list Addr) (w : World) :
  announced = false -> inv D w -> inv D (onEvidenceWritten assess ips w).
Proof.
  intros Hq. unfold onEvidenceWritten. revert w. induction ips as [|ip ips IH]; intros w I; simpl; [done|]. apply IH.
  unfold AssessIP. destruct (IsValid ip); [|done]. destruct (assess ip); [|done]. destruct I as [Hok Hv]. split; [by destruct Hok|].
  apply (views_local _ _ _ D _ w); [done..|]. intros h _. simpl. destruct (nodes w !! h); [|done]. split; [done|].
  split; [done|]. congruence.
Qed.

Lemma SetNodeCheck_inv (D : gset Hash) (n c : string) (o : OutcomeLite) (w : World) : inv D w -> inv D (SetNodeCheck n c o w).
Proof.
  intros [Hok Hv]. split; [by destruct Hok|]. apply (views_local _ _ _ D _ w); [done..|]. intros h _. simpl.
  destruct (nodes w !! h); [|done]. split; [done|]. split; [done|]. intros _. unfold SetNodeCheck, Assessment_at, SetCheck. simpl.
  by destruct (_ || _).
Qed.

(** ** Outbounds built without telling anyone *)

Definition builds (build : string -> BuildResult) (w : World) (h : Hash) : Prop :=
  exists e, nodes w !! h = Some e /\ HasOutbound e = false /\ build (Node.RawOptions e) = Built.

Lemma with_outbound_or_same (build : string -> BuildResult) (e : NodeEntry) :
  same_facts e (with_built build e) \/ HasOutbound e = false /\ build (Node.RawOptions e) = Built.
Proof.
  unfold with_built. destruct (HasOutbound e) eqn:E; [by left|]. destruct (build _); [left; by destruct e..|by right].
Qed.

(** A node without an outbound is in no view. *)
Lemma eval_without_outbound (w : World) (nowNs : Z) (e : NodeEntry) (p : Plat) : HasOutbound e = false -> eval C w nowNs e p = false.
Proof.
  intros Ho. unfold eval, evaluateNode, MatchNodeCriteria, IsHealthy. rewrite Ho, andb_false_r. by destruct (IsDisabledBySubscriptions _ e).
Qed.

Lemma EnsureNodeOutbound_inv (D : gset Hash) (build : string -> BuildResult) (h : Hash) (w : World) :
  (exact = true -> ~ builds build w h) -> inv D w -> inv D (EnsureNodeOutbound build h w).
Proof.
  intros Hb [Hok Hv]. unfold EnsureNodeOutbound. destruct (nodes w !! h) as [e|] eqn:E; [|done].
  destruct (with_built_keeps build e) as (B1 & B2 & B3). split.
  { apply put_ok; [done| | |by rewrite E]; [rewrite B1; by apply Hok|apply B3; by eapply Hok]. }
  destruct (with_outbound_or_same build e) as [Hf|[Ho Hbt]]; [by apply (views_quiet _ _ _ D h e)|].
  apply (views_change _ _ _ D _ w); [done..|]. intros p k Hs _. unfold admits. simpl.
  destruct (decide (k = h)) as [->|Hne].
  - rewrite lookup_insert_eq, E. rewrite eval_without_outbound by done. split; [done|]. intros He. exfalso. apply (Hb He). by exists e.
  - rewrite lookup_insert_ne by done. done.
Qed.

(** ** Subscription objects *)

Lemma MakeSubLookup_on_sub (ptr : nat) (f : Subscription -> Subscription) (w : World) (subID : string) (h : Hash) :
  (forall sub, subs w !! ptr = Some sub -> managed_view (f sub) h = managed_view sub h) ->
  MakeSubLookup (on_sub ptr f w) subID h = MakeSubLookup w subID h.
Proof.
  intros Hf. unfold MakeSubLookup, SubLookup, on_sub. simpl. destruct (manager w !! subID) as [q|]; simpl; [|done].
  destruct (decide (q = ptr)) as [->|Hne]; [|by rewrite lookup_alter_ne]. rewrite lookup_alter_eq.
  destruct (subs w !! ptr) as [sub|]; [|done]. simpl. by apply Hf.
Qed.

(** A subscription changed; the nodes it now describes otherwise are dirty. *)
Lemma on_sub_inv (D X : gset Hash) (ptr : nat) (f : Subscription -> Subscription) (w : World) :
  (forall sub, Sub.ID (f sub) = Sub.ID sub) ->
  (forall sub h, subs w !! ptr = Some sub -> is_Some (nodes w !! h) -> h ∉ X -> managed_view (f sub) h = managed_view sub h) ->
  inv D w -> inv (D ∪ X) (on_sub ptr f w).
Proof.
  intros Hid Hf [Hok Hv]. split.
  - pose proof Hok as [H1 H2 H3 H4 H5 H6 H7 H8]. split; try done. simpl. intros id q Hq. destruct (H8 id q Hq) as (s & Hs & <-).
    destruct (decide (q = ptr)) as [->|]; [rewrite lookup_alter_eq, Hs; eexists; split; [done|apply Hid]|].
    rewrite lookup_alter_ne by done. eauto.
  - apply (views_local _ _ _ D _ w); [done|set_solver|done..|]. intros h Hh. simpl. destruct (nodes w !! h) as [e|] eqn:E; [|done].
    split; [done|]. split; [|done]. intros subID _. apply MakeSubLookup_on_sub. intros sub Hs.
    rewrite (po_keyed _ Hok h e E). apply Hf; [done|by rewrite E|set_solver].
Qed.

(** Its bookkeeping does not change what it says of its nodes. *)
Lemma on_sub_quiet (D : gset Hash) (ptr : nat) (f : Subscription -> Subscription) (w : World) :
  (forall sub, Sub.ID (f sub) = Sub.ID sub /\ Sub.name (f sub) = Sub.name sub /\ Sub.enabled (f sub) = Sub.enabled sub /\
     Sub.managedNodes (f sub) = Sub.managedNodes sub) ->
  inv D w -> inv D (on_sub ptr f w).
Proof.
  intros Hf I. apply (inv_mono _ _ _ (D ∪ ∅)); [|set_solver]. apply on_sub_inv; [intros; apply Hf| |done].
  intros sub h _ _ _. destruct (Hf sub) as (_ & En & Ee & Em). unfold managed_view. by rewrite En, Ee, Em.
Qed.

Lemma insert_sub_as_alter (ptr : nat) (sub : Subscription) (f : Subscription -> Subscription) (w : World) :
  subs w !! ptr = Some sub -> with_subs <[ptr := f sub]> w = on_sub ptr f w.
Proof.
  intros H. unfold on_sub, with_subs. simpl. f_equal. apply map_eq. intros q. destruct (decide (q = ptr)) as [->|].
  - by rewrite lookup_insert_eq, lookup_alter_eq, H.
  - by rewrite lookup_insert_ne, lookup_alter_ne.
Qed.

Lemma BeginUpdate_inv (D : gset Hash) (ptr : nat) (w : World) : inv D w -> inv D (snd (BeginUpdate ptr w)).
Proof.
  intros I. unfold BeginUpdate. destruct (subs w !! ptr) as [sub|] eqn:E; [|done].
  destruct (NextAttemptSeq sub) as [seq sub'] eqn:Es. simpl. replace sub' with (snd (NextAttemptSeq sub)) by (by rewrite Es).
  rewrite (insert_sub_as_alter ptr sub (fun s => snd (NextAttemptSeq s))) by done. apply on_sub_quiet; [|done]. by intros [].
Qed.

Lemma handleUpdateFailure_inv (D : gset Hash) (E : Env) (a : Attempt) (err : string) (w : World) :
  inv D w -> inv D (handleUpdateFailure E a err w).
Proof.
  intros I. unfold handleUpdateFailure. destruct (subs w !! at_sub a) as [sub|] eqn:Es; [|done]. destruct (stale a sub); [done|].
  rewrite insert_sub_as_alter by done. apply on_sub_quiet; [|done]. by intros [].
Qed.

(** ** Loops over nodes *)

Lemma removes_inv (D : gset Hash) (nowNs : Z) (id : string) (l : list Hash) (w : World) : inv D w ->
  inv (D ∖ list_to_set l) (foldl (fun w h => RemoveNodeFromSub C nowNs h id w) w l).
Proof.
  revert D w. induction l as [|h l IH]; intros D w I; simpl.
  - apply (inv_mono _ _ _ D); [done|set_solver].
  - apply (RemoveNodeFromSub_inv C announced exact D nowNs h id) in I. apply (inv_mono _ _ _ _ _ _ (IH _ _ I)). set_solver.
Qed.

Lemma add_managed_inv_on (X D : gset Hash) (E : Env) (id : string) (next : ManagedNodes) (raws : gmap Hash string) (l : list Hash)
    (w : World) :
  (forall h, h ∈ X -> h ∈ l -> default false (Evicted <$> next !! h) = false /\ default ""%string (raws !! h) <> ""%string) ->
  inv (D ∪ X) w -> inv (D ∪ (X ∖ list_to_set l)) (foldl (add_managed C E id next raws) w l).
Proof.
  revert X w. induction l as [|h l IH]; intros X w Hc I; simpl.
  - apply (inv_mono _ _ _ (D ∪ X)); [done|set_solver].
  - assert (inv (D ∪ (X ∖ {[h]})) (add_managed C E id next raws w h)) as I'.
    { unfold add_managed. destruct (decide (h ∈ X)) as [Hin|Hout].
      - destruct (Hc h Hin ltac:(set_solver)) as [-> Hr]. apply String.eqb_neq in Hr. rewrite !Hr.
        apply (inv_mono _ _ _ ((D ∪ X) ∖ {[h]})); [by apply AddNodeFromSub_inv|set_solver].
      - assert (inv (D ∪ (X ∖ {[h]})) w) by (replace (X ∖ {[h]}) with X by set_solver; done).
        destruct (default false _); [done|]. repeat (case_match; [try done|]); try done;
          apply (inv_mono _ _ _ ((D ∪ (X ∖ {[h]})) ∖ {[h]})); try set_solver; by apply AddNodeFromSub_inv. }
    apply (inv_mono _ _ _ (D ∪ ((X ∖ {[h]}) ∖ list_to_set l))); [|set_solver]. apply IH; [|done]. intros k Hk Hl. apply Hc; set_solver.
Qed.

(** ** A refresh *)

(** The parser emits no empty document. *)
Definition documents (l : list ParsedNode) : Prop := Forall (fun p => parsed_Raw p <> ""%string) l.

(** The two maps a refresh builds agree on which hashes they hold. *)
Definition linked (M : ManagedNodes) (R : gmap Hash string) : Prop :=
  (forall h m, M !! h = Some m -> Evicted m = false /\ is_Some (R !! h)) /\ (forall h r, R !! h = Some r -> r <> ""%string).

Lemma linked_step (E : Env) (M : ManagedNodes) (R : gmap Hash string) (p : ParsedNode) : parsed_Raw p <> ""%string ->
  linked M R -> linked (add_parsed E M p) (add_raw E R p).
Proof.
  intros Hp [H1 H2]. unfold add_parsed, add_raw. set (h := hashOf E (parsed_Raw p)). split.
  - intros k m. rewrite lookup_insert_Some. intros [[<- <-]|[Hne Hk]].
    + cbn [Evicted]. split.
      * destruct (M !! h) as [m0|] eqn:Em; [|done]. by apply (H1 h).
      * destruct (R !! h) eqn:Er; [by rewrite Er|]. by rewrite lookup_insert_eq.
    + destruct (H1 k m Hk) as [? ?]. split; [done|]. destruct (R !! h); [done|]. by rewrite lookup_insert_ne.
  - intros k r. destruct (R !! h); [apply H2|]. rewrite lookup_insert_Some. intros [[_ <-]|[_ ?]]; [done|by eapply H2].
Qed.

Lemma refreshed_spec (E : Env) (l : list ParsedNode) (h : Hash) (m : ManagedNode) : documents l ->
  refreshed E l !! h = Some m -> Evicted m = false /\ default ""%string (rawByHash E l !! h) <> ""%string.
Proof.
  intros Hd. unfold refreshed, rawByHash.
  assert (linked (foldl (add_parsed E) ∅ l) (foldl (add_raw E) ∅ l)) as [H1 H2].
  { assert (linked ∅ ∅) as H0 by done. revert H0. generalize (∅ : ManagedNodes) (∅ : gmap Hash string).
    induction Hd as [|p l Hp Hd IH]; intros M R HL; [done|]. by apply IH, linked_step. }
  intros Hm. destruct (H1 h m Hm) as [? [r Hr]]. split; [done|]. rewrite Hr. simpl. by apply (H2 h).
Qed.

(** A node the refresh describes otherwise than before is gone, or is one the
    refresh brought and adds to the pool. *)
Lemma merged_changes (E : Env) (l : list ParsedNode) (w : World) (sub : Subscription) (h : Hash) : documents l ->
  let next := merged w sub (refreshed E l) in
  managed_view (SwapManagedNodes next sub) h <> managed_view sub h -> is_Some (next !! h) ->
  default false (Evicted <$> next !! h) = false /\ default ""%string (rawByHash E l !! h) <> ""%string.
Proof.
  intros Hd next Hv [m Hm]. rewrite Hm. cbn [fmap option_fmap option_map default].
  assert (managed_view (SwapManagedNodes next sub) h = if Evicted m then None else Some (Sub.name sub, Sub.enabled sub, Tags m)) as Ev.
  { unfold managed_view. destruct sub. cbn. by rewrite Hm. }
  rewrite Ev in Hv. unfold managed_view in Hv. unfold next, merged in Hm. rewrite map_lookup_imap in Hm.
  set (base := if Sub.incrementalAliveNodes sub then _ else _) in Hm.
  destruct (base !! h) as [b|] eqn:Eb; [|done]. simpl in Hm. injection Hm as <-.
  assert (refreshed E l !! h = Some b \/ Sub.managedNodes sub !! h = Some b) as [Hb|Hb].
  { unfold base in Eb. destruct (Sub.incrementalAliveNodes sub); [|by left]. apply lookup_union_Some_raw in Eb as [?|[_ Eb]]; [by left|].
    rewrite map_lookup_imap in Eb. destruct (Sub.managedNodes sub !! h) as [m0|]; [|done]. simpl in Eb.
    destruct (keeps_alive w h m0); [|done]. injection Eb as <-. by right. }
  - destruct (refreshed_spec E l h b Hd Hb) as [Hf Hr]. split; [|done].
    destruct (Sub.managedNodes sub !! h) as [m0|]; simpl in *; [|done]. by destruct (Evicted m0).
  - rewrite Hb in Hv. simpl in Hv. destruct (Evicted b) eqn:Eb'; simpl in *; [done|]. by rewrite Eb' in Hv.
Qed.

Lemma apply_refresh_inv (D : gset Hash) (E : Env) (a : Attempt) (l : list ParsedNode) (sub : Subscription) (w : World) :
  documents l -> subs w !! at_sub a = Some sub -> inv D w -> inv D (apply_refresh C E a l sub w).
Proof.
  intros Hd Hs I. unfold apply_refresh. set (old := Sub.managedNodes sub). set (next := merged w sub (refreshed E l)).
  cbn [DiffHashes]. apply on_sub_quiet; [by intros []|].
  set (X := filter (fun h => managed_view (SwapManagedNodes next sub) h <> managed_view sub h) (dom old ∪ dom next) : gset Hash).
  assert (inv (D ∪ X) (on_sub (at_sub a) (SwapManagedNodes next) w)) as I1.
  { apply on_sub_inv; [by intros []| |done]. intros s h Hs' _ Hx. rewrite Hs in Hs'. injection Hs' as <-.
    destruct (decide (managed_view (SwapManagedNodes next sub) h = managed_view sub h)) as [|Hne]; [done|]. exfalso. apply Hx.
    apply elem_of_filter. split; [done|]. apply elem_of_union. rewrite !elem_of_dom.
    destruct (old !! h) eqn:Eo; [by left|]. destruct (next !! h) eqn:En; [by right|]. exfalso. apply Hne.
    unfold managed_view. destruct sub. cbn in *. unfold old in Eo. cbn in Eo. by rewrite En, Eo. }
  apply (add_managed_inv_on X D) with (id := Sub.ID sub) (E := E) (next := next) (raws := rawByHash E l) (l := diff_added old next ++ diff_kept old next) in I1.
  - apply (removes_inv _ (now E) (Sub.ID sub) (diff_removed old next)) in I1. apply (inv_mono _ _ _ _ _ _ I1).
    intros h Hh. apply elem_of_difference in Hh as [Hh Hr]. apply elem_of_union in Hh as [?|Hh]; [done|]. exfalso.
    apply elem_of_difference in Hh as [Hx Ha]. apply elem_of_filter in Hx as [_ Hx].
    rewrite elem_of_list_to_set in Hr, Ha. destruct (DiffHashes_spec old next h) as (S1 & S2 & S3).
    rewrite elem_of_union, !elem_of_dom in Hx. rewrite elem_of_app, S1, S2 in Ha. rewrite S3 in Hr.
    destruct (old !! h) eqn:Eo, (next !! h) eqn:En; naive_solver.
  - intros h Hx Hl. apply elem_of_filter in Hx as [Hx _]. apply merged_changes; [done..|].
    destruct (DiffHashes_spec old next h) as (S1 & S2 & _). apply elem_of_app in Hl as [Hl|Hl]; [apply S1 in Hl|apply S2 in Hl]; naive_solver.
Qed.

Lemma FinishUpdate_inv (D : gset Hash) (E : Env) (a : Attempt) (f : Fetched) (w : World) :
  (forall l, f = ParsedNodes l -> documents l) -> inv D w -> inv D (FinishUpdate C E a f w).
Proof.
  intros Hf I. destruct f as [err|err|l]; simpl; [by apply handleUpdateFailure_inv..|].
  destruct (subs w !! at_sub a) as [sub|] eqn:Es; [|done]. destruct (_ && _); [by apply handleUpdateFailure_inv|].
  destruct (stale a sub); [done|]. apply apply_refresh_inv; auto.
Qed.

(** ** Renaming and enabling *)

Lemma AddNodeFromSub_present (nowNs : Z) (build : string -> BuildResult) (h k : Hash) (raw id : string) (w : World) :
  is_Some (nodes w !! k) -> is_Some (nodes (AddNodeFromSub C nowNs build h raw id w) !! k).
Proof.
  intros Hk. unfold AddNodeFromSub, EnsureNodeOutbound. simpl. destruct (nodes w !! h) as [e|] eqn:E; simpl.
  - apply lookup_insert_is_Some. destruct (decide (h = k)); auto.
  - rewrite lookup_insert_eq. simpl. apply lookup_insert_is_Some. destruct (decide (h = k)); [by left|right]. split; [done|].
    by rewrite lookup_insert_ne.
Qed.

Definition rename_step (E : Env) (id : string) (w : World) (hm : Hash * ManagedNode) : World :=
  if Evicted (snd hm) then w
  else match nodes w !! fst hm with
       | Some e => AddNodeFromSub C (now E) (builder E) (fst hm) (Node.RawOptions e) id w
       | None => w
       end.

Lemma rename_loop (X D : gset Hash) (E : Env) (id : string) (l : list (Hash * ManagedNode)) (w : World) :
  (forall h, h ∈ X -> is_Some (nodes w !! h)) -> (forall h m, h ∈ X -> (h, m) ∈ l -> Evicted m = false) ->
  inv (D ∪ X) w -> inv (D ∪ (X ∖ list_to_set (map fst l))) (foldl (rename_step E id) w l).
Proof.
  revert X w. induction l as [|[h m] l IH]; intros X w Hp Hm I; simpl.
  - apply (inv_mono _ _ _ (D ∪ X)); [done|set_solver].
  - assert (inv (D ∪ (X ∖ {[h]})) (rename_step E id w (h, m))) as I'.
    { unfold rename_step. simpl. destruct (decide (h ∈ X)) as [Hin|Hout].
      - rewrite (Hm h m) by set_solver. destruct (Hp h Hin) as [e ->].
        apply (inv_mono _ _ _ ((D ∪ X) ∖ {[h]})); [by apply AddNodeFromSub_inv|set_solver].
      - assert (inv (D ∪ (X ∖ {[h]})) w) by (replace (X ∖ {[h]}) with X by set_solver; done).
        destruct (Evicted m); [done|]. destruct (nodes w !! h); [|done].
        apply (inv_mono _ _ _ ((D ∪ (X ∖ {[h]})) ∖ {[h]})); [by apply AddNodeFromSub_inv|set_solver]. }
    apply (inv_mono _ _ _ (D ∪ ((X ∖ {[h]}) ∖ list_to_set (map fst l)))); [|set_solver]. apply IH; [| |done].
    + intros k Hk. unfold rename_step. simpl. destruct (Evicted m); [apply Hp; set_solver|].
      destruct (nodes w !! h); [apply AddNodeFromSub_present|]; apply Hp; set_solver.
    + intros k m' Hk Hl. apply (Hm k); set_solver.
Qed.

Lemma RenameSubscription_inv (D : gset Hash) (E : Env) (ptr : nat) (name : string) (w : World) :
  inv D w -> inv D (RenameSubscription C E ptr name w).
Proof.
  intros I. unfold RenameSubscription. destruct (subs w !! ptr) as [sub|] eqn:Es; [|done].
  set (X := filter (fun h => is_Some (nodes w !! h) /\ default true (Evicted <$> Sub.managedNodes sub !! h) = false)
              (dom (Sub.managedNodes sub)) : gset Hash).
  assert (inv (D ∪ X) (on_sub ptr (SetName name) w)) as I1.
  { apply on_sub_inv; [by intros []| |done]. intros s h Hs Hn Hx. rewrite Es in Hs. injection Hs as <-.
    assert (match Sub.managedNodes sub !! h with Some m => Evicted m = true | None => True end) as Hm.
    { destruct (Sub.managedNodes sub !! h) as [m|] eqn:Em; [|done]. apply not_false_is_true. intros Ef. apply Hx, elem_of_filter.
      split; [by rewrite Em|]. apply elem_of_dom. by rewrite Em. }
    unfold managed_view. destruct sub. cbn in *. destruct (managedNodes !! h) as [m|]; [by rewrite Hm|done]. }
  apply (rename_loop X D E (Sub.ID sub) (map_to_list (Sub.managedNodes sub))) in I1.
  - apply (inv_mono _ _ _ _ _ _ I1). intros h Hh. apply elem_of_union in Hh as [?|Hh]; [done|]. exfalso.
    apply elem_of_difference in Hh as [Hx Hl]. apply elem_of_filter in Hx as [_ Hx]. apply Hl, elem_of_list_to_set, keys_elem.
    by apply elem_of_dom.
  - intros h Hx. by apply elem_of_filter in Hx as [[? _] _].
  - intros h m Hx Hl. apply elem_of_map_to_list in Hl. apply elem_of_filter in Hx as [[_ Hx] _]. by rewrite Hl in Hx.
Qed.

(** Where a node is enabled again and its outbound is built at that moment,
    nobody is told; see [reenabled_node_is_left_out] in [PoolHistory]. *)
Definition reenable_builds (E : Env) (w : World) : Prop := exists h, builds (builder E) w h.

Lemma reenable_loop (D : gset Hash) (E : Env) (l : list Hash) (w : World) :
  (exact = true -> ~ reenable_builds E w) -> inv D w ->
  inv D (foldl (fun w h => if IsNodeDisabled h w then w else EnsureNodeOutbound (builder E) h w) w l).
Proof.
  revert w. induction l as [|h l IH]; intros w Hb I; simpl; [done|]. destruct (IsNodeDisabled h w); [by apply IH|]. apply IH.
  - intros He (k & e & Hk & Ho & Hbk). unfold EnsureNodeOutbound in Hk. destruct (nodes w !! h) as [e0|] eqn:Eh.
    + simpl in Hk. apply lookup_insert_Some in Hk as [[<- <-]|[Hne Hk]].
      * unfold with_built in Ho, Hbk. destruct (HasOutbound e0) eqn:Ho0; [congruence|].
        apply (Hb He). exists h, e0. split_and!; [done..|]. destruct (builder E (Node.RawOptions e0)) eqn:Eb; [| |done]; destruct e0; simpl in *; congruence.
      * apply (Hb He). by exists k, e.
    + apply (Hb He). by exists k, e.
  - apply EnsureNodeOutbound_inv; [|done]. intros He Hbk. apply (Hb He). by exists h.
Qed.

Lemma SetSubscriptionEnabled_inv (D : gset Hash) (E : Env) (ptr : nat) (enabled : bool) (w : World) :
  (exact = true -> forall sub, subs w !! ptr = Some sub -> Sub.enabled sub = false -> enabled = true -> ~ reenable_builds E w) ->
  inv D w -> inv D (SetSubscriptionEnabled C E ptr enabled w).
Proof.
  intros Hb I. unfold SetSubscriptionEnabled. destruct (subs w !! ptr) as [sub|] eqn:Es; [|done].
  assert (pool_ok (on_sub ptr (SetEnabled enabled) w)) as Hok.
  { apply (on_sub_inv D (dom (nodes w))); [by intros []| |done]. intros s h _ Hn Hx. exfalso. by apply Hx, elem_of_dom. }
  assert (inv D (RebuildAllPlatforms C (now E) (on_sub ptr (SetEnabled enabled) w))) as I1
    by (apply (inv_mono _ _ _ ∅); [by apply RebuildAllPlatforms_inv|set_solver]).
  destruct (Sub.enabled sub) eqn:En; [done|]. destruct enabled; [|done]. apply reenable_loop; [|exact I1].
  intros He. by apply (Hb He sub).
Qed.

(** ** Eviction *)

Lemma Cleanup_inv (D : gset Hash) (E : Env) (ptr : nat) (shouldRemove : NodeEntry -> bool) (w : World) :
  inv D w -> inv D (snd (CleanupSubscriptionNodesWithConfirm C E ptr shouldRemove (fun w => w) w)).
Proof.
  intros I. unfold CleanupSubscriptionNodesWithConfirm. destruct (subs w !! ptr) as [sub|] eqn:Es; [|done].
  case_bool_decide; [done|]. set (confirmed := cleanup_candidates shouldRemove _ w). case_bool_decide; [done|].
  cbn [snd]. set (next := map_imap _ (Sub.managedNodes sub)). set (evicted := map fst (map_to_list confirmed)).
  apply (inv_mono _ _ _ ((D ∪ list_to_set evicted) ∖ list_to_set evicted)); [|set_solver]. apply removes_inv.
  apply on_sub_inv; [by intros []| |done]. intros s h Hs _ Hx. rewrite Es in Hs. injection Hs as <-.
  assert (confirmed !! h = None) as Hn.
  { apply eq_None_not_Some. intros Hc. apply Hx, elem_of_list_to_set. by apply keys_elem. }
  assert (next !! h = Sub.managedNodes sub !! h) as En.
  { unfold next. rewrite map_lookup_imap. destruct (Sub.managedNodes sub !! h); [|done]. simpl. by rewrite Hn. }
  unfold managed_view. destruct sub. cbn in *. by rewrite En.
Qed.

Lemma sweepOne_inv (D : gset Hash) (E : Env) (ptr : nat) (w : World) : inv D w -> inv D (sweepOneSubscription C E ptr w).
Proof. intros I. unfold sweepOneSubscription. destruct (subs w !! ptr); [by apply Cleanup_inv|done]. Qed.

Lemma sweep_inv (D : gset Hash) (E : Env) (w : World) : inv D w -> inv D (sweep C E w).
Proof.
  unfold sweep. generalize (map_to_list (manager w)). intros l. revert w. induction l as [|[id ptr] l IH]; intros w I; simpl; [done|].
  apply IH. destruct (subs w !! ptr) as [sub|]; [|done]. destruct (Sub.ephemeral sub); [by apply sweepOne_inv|done].
Qed.

Lemma CleanupCircuitOpen_inv (D : gset Hash) (E : Env) (id : string) (w : World) :
  inv D w -> inv D (snd (CleanupSubscriptionCircuitOpenNodes C E id w)).
Proof.
  intros I. unfold CleanupSubscriptionCircuitOpenNodes. destruct (SubLookup id w) as [[ptr sub]|]; [|done].
  pose proof (Cleanup_inv D E ptr shouldCleanupSubscriptionNode w I) as H.
  by destruct (CleanupSubscriptionNodesWithConfirm _ _ _ _ _ _).
Qed.

(** ** Handlers *)

(** Setting a field keeps the identity and the nodes. *)
Definition identity (id : string) (s : Subscription) : Prop := Sub.ID s = id /\ Sub.managedNodes s = ∅.

Lemma setters_keep (id : string) (s : Subscription) : identity id s ->
  (forall a b, identity id (with_times a b s)) /\ (forall d, identity id (SetEphemeralNodeEvictDelayNs d s)) /\
  (forall b, identity id (SetAutoIntel b s)) /\ (forall b, identity id (SetIncrementalAliveNodes b s)) /\
  (forall c, identity id (SetContent c s)) /\ (forall t, identity id (SetSourceType t s)) /\ (forall u i, identity id (SetFetchConfig u i s)).
Proof.
  intros H. destruct s. cbn in H. split_and!; intros; try done; unfold SetContent, SetSourceType; by case_match.
Qed.

Lemma CreateSubscription_inv (D : gset Hash) (E : Env) (id : string) (f : SubFields) (stored : bool) (w : World) :
  manager w !! id = None -> inv D w -> inv D (CreateSubscription E id f stored w).
Proof.
  intros Hid [Hok Hv]. unfold CreateSubscription. destruct stored; [|done]. cbn [negb].
  set (sub := with_times _ _ _). set (ptr := fresh (dom (subs w))).
  assert (subs w !! ptr = None) as Hf by (apply not_elem_of_dom, is_fresh).
  assert (identity id sub) as [Eid Em].
  { unfold sub. repeat apply setters_keep. done. }
  assert (forall id' q, manager w !! id' = Some q -> q <> ptr) as Hq.
  { intros id' q Hm ->. destruct (po_subs _ Hok id' ptr Hm) as (s & Hs & _). congruence. }
  unfold RegisterSub. simpl. rewrite lookup_insert_eq, Eid. split.
  - destruct Hok as [H1 H2 H3 H4 H5 H6 H7 H8]. split; try done. simpl. intros id' q. rewrite lookup_insert_Some.
    intros [[<- <-]|[_ Hm]]; [rewrite lookup_insert_eq; eauto|]. destruct (H8 id' q Hm) as (s & Hs & ?). exists s.
    rewrite lookup_insert_ne by (apply not_eq_sym; eauto). done.
  - apply (views_local _ _ _ D _ w); [done..|]. intros h _. simpl. destruct (nodes w !! h) as [e|]; [|done]. split; [done|].
    split; [|done]. intros subID _. unfold MakeSubLookup, SubLookup. simpl. destruct (decide (subID = id)) as [->|Hne].
    + rewrite lookup_insert_eq, Hid. simpl. rewrite lookup_insert_eq. simpl. unfold managed_view. by rewrite Em, lookup_empty.
    + rewrite lookup_insert_ne by done. destruct (manager w !! subID) as [q|] eqn:Eq; [|done]. simpl.
      by rewrite lookup_insert_ne by (apply not_eq_sym; eauto).
Qed.

(** Renaming leaves the documents and the outbounds of the nodes alone. *)
Lemma rename_builds (E : Env) (id : string) (l : list (Hash * ManagedNode)) (w : World) :
  reenable_builds E (foldl (rename_step E id) w l) -> reenable_builds E w.
Proof.
  revert w. induction l as [|[h m] l IH]; intros w; simpl; [done|]. intros (k & e & Hk & Ho & Hb)%IH.
  unfold rename_step in Hk. simpl in Hk. destruct (Evicted m); [by exists k, e|].
  destruct (nodes w !! h) as [e0|] eqn:E0; [|by exists k, e]. unfold AddNodeFromSub in Hk. rewrite E0 in Hk. simpl in Hk.
  apply lookup_insert_Some in Hk as [[<- <-]|[_ Hk]]; [|by exists k, e]. exists h, e0. split; [done|].
  unfold AddSubscriptionID in Ho, Hb. case_match; [done|]. by destruct e0.
Qed.

(** A disabled subscription is enabled while a node without an outbound could
    get one. *)
Definition late_build (E : Env) (id : string) (f : SubFields) (w : World) : Prop :=
  exists ptr sub, SubLookup id w = Some (ptr, sub) /\ Sub.enabled sub = false /\ f_enabled f = true /\ reenable_builds E w.

Lemma UpdateSubscriptionFields_inv (D : gset Hash) (E : Env) (id : string) (f : SubFields) (stored : bool) (w : World) :
  (exact = true -> ~ late_build E id f w) -> inv D w -> inv D (UpdateSubscriptionFields C E id f stored w).
Proof.
  intros Hb I. unfold UpdateSubscriptionFields. destruct (SubLookup id w) as [[ptr sub]|] eqn:El; [|done]. destruct stored; [|done]. cbn [negb].
  set (w1 := on_sub ptr _ w). assert (inv D w1) as I1.
  { apply on_sub_quiet; [|done]. intros []. unfold SetContent, SetFetchConfig. cbn. by case_match. }
  set (w2 := if Sub.name sub <>s f_name f then _ else w1). assert (inv D w2) as I2 by (unfold w2; case_match; [by apply RenameSubscription_inv|done]).
  destruct (negb (Bool.eqb _ _)) eqn:En; [|done]. apply SetSubscriptionEnabled_inv; [|done]. intros He s _ _ Ef Hr. apply (Hb He).
  exists ptr, sub. rewrite Ef in En. split_and!; [done|by destruct (Sub.enabled sub)|done|]. unfold w2 in Hr. case_match; [|done].
  unfold RenameSubscription in Hr. case_match; [|done]. by apply rename_builds in Hr.
Qed.

Lemma RemoveNodeFromSub_nodes (nowNs : Z) (h k : Hash) (id : string) (w : World) :
  nodes (RemoveNodeFromSub C nowNs h id w) !! k =
  if decide (k = h) then (e ← nodes w !! h; if fst (RemoveSubscriptionID id e) then None else Some (snd (RemoveSubscriptionID id e)))
  else nodes w !! k.
Proof.
  unfold RemoveNodeFromSub. destruct (nodes w !! h) as [e|] eqn:E; simpl.
  - case_match; simpl; destruct (decide (k = h)) as [->|]; rewrite ?lookup_delete_eq, ?lookup_insert_eq; try done;
      [by rewrite lookup_delete_ne|by rewrite lookup_insert_ne].
  - by destruct (decide (k = h)) as [->|].
Qed.

(** The nodes a subscription let go do not name it any more. *)
Lemma removes_unheld (nowNs : Z) (id : string) (l : list Hash) (D : gset Hash) (w : World) : inv D w ->
  let w' := foldl (fun w h => RemoveNodeFromSub C nowNs h id w) w l in
  subs w' = subs w /\ manager w' = manager w /\
  forall h e, nodes w' !! h = Some e ->
    (h ∈ l -> id ∉ Node.subscriptionIDs e) /\ exists e0, nodes w !! h = Some e0 /\ (id ∈ Node.subscriptionIDs e -> id ∈ Node.subscriptionIDs e0).
Proof.
  cbv zeta. revert D w. induction l as [|h l IH]; intros D w I; simpl.
  { split_and!; [done..|]. intros h e He. split; [set_solver|eauto]. }
  pose proof (RemoveNodeFromSub_inv C announced exact D nowNs h id w I) as I1. destruct (IH _ _ I1) as (Es & Em & Hn).
  assert (subs (RemoveNodeFromSub C nowNs h id w) = subs w /\ manager (RemoveNodeFromSub C nowNs h id w) = manager w) as [Es0 Em0].
  { unfold RemoveNodeFromSub. destruct (nodes w !! h); [simpl; by case_match|done]. }
  split_and!; [congruence..|]. intros k e He. destruct (Hn k e He) as (H1 & e1 & H2 & H3).
  rewrite RemoveNodeFromSub_nodes in H2. destruct (decide (k = h)) as [->|Hne].
  - destruct (nodes w !! h) as [e0|] eqn:E0; [|done]. cbn [mbind option_bind] in H2.
    destruct (fst (RemoveSubscriptionID id e0)); [done|]. injection H2 as <-.
    destruct (remove_first_NoDup id _ (proj1 (po_entries _ (proj1 I) h e0 E0))) as (_ & R2 & R3).
    assert (Node.subscriptionIDs (with_sub_ids (remove_first id (Node.subscriptionIDs e0)) e0) = remove_first id (Node.subscriptionIDs e0)) as Er by (by destruct e0).
    rewrite Er in H3. split; [|exists e0; split; [done|set_solver]]. intros _ Hin. by apply R2, H3.
  - split; [|eauto]. intros Hl. apply H1. set_solver.
Qed.

Lemma DeleteSubscription_inv (D : gset Hash) (E : Env) (id : string) (stored : bool) (w : World) :
  inv D w -> inv D (snd (DeleteSubscription C E id stored w)).
Proof.
  intros I. unfold DeleteSubscription. destruct (SubLookup id w) as [[ptr sub]|] eqn:Es; [|done]. destruct stored; [|done]. cbn [negb snd].
  set (l := map fst (map_to_list (Sub.managedNodes sub))).
  destruct (removes_unheld (now E) id l D w I) as (Esub & Em & Hn). cbv zeta in Esub, Em, Hn.
  pose proof (removes_inv D (now E) id l w I) as I1. apply (inv_mono _ _ _ _ D) in I1; [|set_solver].
  set (w1 := foldl _ w l) in *. destruct I1 as [Hok Hv]. split.
  { destruct Hok as [H1 H2 H3 H4 H5 H6 H7 H8]. split; try done. simpl. intros id' q. rewrite lookup_delete_Some. intros [_ Hq]. by apply H8. }
  apply (views_local _ _ _ D _ w1); [done..|]. intros h _. simpl. destruct (nodes w1 !! h) as [e|] eqn:E1; [|done]. split; [done|].
  split; [|done]. intros subID Hin. unfold MakeSubLookup, SubLookup. simpl. destruct (decide (subID = id)) as [->|Hne].
  - rewrite lookup_delete_eq. simpl. rewrite Em, Esub. unfold SubLookup in Es.
    destruct (manager w !! id) as [q|]; [|done]. simpl in *. destruct (subs w !! q) as [s|]; [|done]. simpl in *. injection Es as -> ->.
    rewrite (po_keyed _ Hok h e E1). unfold managed_view. destruct (Sub.managedNodes sub !! h) as [m|] eqn:Eh; [|done].
    exfalso. apply list_elem_of_In in Hin. revert Hin. apply (Hn h e E1). apply keys_elem. by rewrite Eh.
  - by rewrite lookup_delete_ne.
Qed.
End Steps.
